(* ===== verification/_CoqProject ===== *)
-Q . S2P
Prelude.v
Libc.v
HttpTypes.v
HttpExec.v
HttpInv.v
HttpSwitch.v
HttpSafety.v
HttpPhase.v
HttpSim.v
HttpStream.v
HttpUrl.v
HttpRun.v
HttpHeader.v
HttpMsg.v
HttpRequest.v
HtParse.v
HtSafety.v
HtText.v
HtStream.v
HtCases.v
HtChunked.v
SpdyUri.v
SpdyClient.v
SpdyProps.v
SpdyLoop.v
SpdyMain.v
Records.v
CppUtil.v
CppUri.v
CppDate.v
ShrpxConfig.v
ShrpxHttp.v
ShrpxWorld.v
ShrpxDownstream.v
ShrpxObjects.v
ShrpxResponse.v
ShrpxHttps.v
ShrpxHeap.v
ShrpxSafety.v
ShrpxEvents.v
ShrpxHeaders.v
ShrpxForward.v
ShrpxSpdy.v
ShrpxSpdyProps.v
ShrpxSpdyHeap.v
ShrpxSpdyEvents.v
ServerDocs.v
ServerDocsProps.v
ServerLoop.v
ServerSafety.v
CatSession.v
CatProps.v
