(* ===== verification/Prelude.v ===== *)
(** Verification of the C and C++ code of elephant, a push-notification system
    whose client speaks SPDY.  The paths below are relative to src/client/spdylay/.

    * The program and its parts

    - src/http-parser/http_parser.c and .h: a streaming HTTP parser.  The caller
      feeds buffers to http_parser_execute; the parser keeps a state between
      calls and reports the pieces of messages to callbacks.  The proxy and the
      tools of the repository use it, with http_parser_parse_url for URLs.
    - client/htparse/htparse.c and .h: a second HTTP parser, which copies the
      element it reads into a fixed buffer and calls hooks with pointers into it.
    - client/spdycli.c: the client.  main turns the command line into a URL and
      starts one thread per client; a thread (createSpdyClient) runs sessions with
      a delay between them; a session (initSpdySession) connects, submits a first
      request and then runs an event loop in which the SPDY library calls the
      callbacks of the client, which register it, make it listen for pushes and
      acknowledge them.
    - src/shrpx*.cc: a reverse proxy.  A ClientHandler is the connection of one
      client; after the handshake it has an upstream, HttpsUpstream for HTTP/1.1
      or SpdyUpstream.  Each request is a Downstream object; a
      DownstreamConnection is a connection to the backend, attached to a request
      or kept in the pool of the handler.  Requests of HTTP clients and responses
      of backends are read with http_parser; reading is paused and resumed by
      IOControl when buffers are full.
    - src/SpdyServer.cc, src/EventPoll_epoll.cc: a SPDY server of files, with one
      loop for all clients.  A socket has a handler, first one that listens, then
      one for the handshake of OpenSSL, which hands the socket on to a handler
      with the session of the SPDY library; each stream of it has a Request.
    - src/spdycat.cc, src/HtmlParser.cc, src/spdylay_ssl.cc: a download tool.  The
      addresses of the command line are grouped into sessions with a host; a
      session sends its requests, and those for the pictures and style sheets that
      the HTML parser finds in a page.
    - src/util.cc, src/uri.cc: strings, dates and URIs of the C++ programs.

    * Which file models what

    - Prelude.v: bytes, machine-width integers, slices of buffers, decimal
      numbers, and the tactics and hints all parts share; Libc.v: numbers to and
      from text; Records.v: updates of record fields.
    - http_parser: HttpTypes.v (struct http_parser, enumerations, tables,
      parse_url_char, small functions), HttpExec.v (http_parser_execute: one
      definition per case of its switch, named exec_ and the state), HttpUrl.v
      (http_parser_parse_url).  The callbacks are the parameter
      [http_parser_settings], functions on the user data that may pause the
      parser; an assertion of the code is an outcome.
    - htparse: HtParse.v (struct htparser, one definition per case of the switch,
      named run_ and the state).  The hooks are the parameter [htparse_hooks].  A
      write outside the buffer is the outcome [Buffer_overrun].
    - spdycli: SpdyUri.v (parse_uri, request_init), SpdyClient.v (struct
      ThreadUri, requests, callbacks, event loop, sessions, retries), SpdyMain.v
      (main).  The callbacks are programs of a monad of the thread's state with
      a log of the calls out of the client; a write or read outside an array, a
      NULL pointer that is followed, an overflow of int and the ways to exit are
      its failures.  What the SPDY library, SSL and the system answer are
      arguments.
    - CppUtil.v, CppUri.v, CppDate.v: util.cc and uri.cc; iterators are offsets.
      CppDate.v has what http_date and parse_http_date use of the C library.
    - the proxy: ShrpxConfig.v (shrpx_config.cc, shrpx_log.cc, main of shrpx.cc
      until its event loop), ShrpxHttp.v (shrpx_http.cc), ShrpxWorld.v (the
      objects of one client, shrpx_io_control.cc, shrpx_downstream_connection.cc
      and the pool of shrpx_client_handler.cc), ShrpxDownstream.v
      (shrpx_downstream.cc), ShrpxHttps.v (shrpx_https_upstream.cc and the
      callbacks of shrpx_client_handler.cc), ShrpxSpdy.v (shrpx_spdy_upstream.cc,
      shrpx_downstream_queue.cc), ShrpxEvents.v (the events of libevent).  The
      objects are maps from pointers to records, so that a use after free, a null
      pointer, a failed assertion and a write outside an array are failures of the
      monad; the class Upstream is the type class [UpstreamOps] with an instance
      for each of the two upstreams.
    - the SPDY server: ServerDocs.v (the requests of a session, the documents and
      the descriptors opened for them), ServerLoop.v (EventPoll_epoll.cc, class
      Sessions, the handlers, and the loop of SpdyServer::run).  Handlers, sockets
      and SSL objects are maps and sets, and a use after free is a failure.
    - the download tool: CatSession.v (spdycat.cc, HtmlParser.cc, submit_request of
      spdylay_ssl.cc).  The elements of a page that libxml2 reports, and the calls
      of the SPDY library, are arguments.

    * What the theorems show

    - HttpInv.v, HttpSwitch.v, HttpSafety.v: whatever callbacks, data and earlier
      calls, http_parser_execute returns, no assertion fails, the count is in the
      buffer, and the counters of the parser stay in bounds.  HttpPhase.v: in
      which order the callbacks are called, as a specification of what an
      application may rely on ([orderly]) and a theorem for every application.
    - HttpSim.v, HttpStream.v: a call on a buffer refines the reference that is
      called once per byte, so how a stream is cut into buffers does not matter
      (at an error, the bytes of the string being read may not be delivered).
    - HttpUrl.v: the URL parser returns, its fields lie in the buffer, a URL
      written from its parts is read back; two ways in which the result depends
      on memory that is not the URL.
    - HttpRun.v, HttpHeader.v, HttpMsg.v, HttpRequest.v: pipelined requests are
      read back exactly; methods, header names and Content-Length; two gaps in
      the tests of the code.
    - HtSafety.v: the invariant of the parser object until the first overrun of its
      buffer, and that htparser_run ends, with what it can return.  HtText.v: the word comparisons and the number
      parser against plain definitions.  HtStream.v: feeding in pieces, for hooks
      with the interface [FragmentHooks].  HtCases.v: the length of elements,
      Connection values, the string tables, what one message leaves for the next.
      HtChunked.v: chunked bodies.
    - SpdyUri.v: addresses in bounds, and their round trip.  SpdyProps.v: which
      requests fit their arrays, the identifiers of a registration, what an
      identified client does in a session, and the acknowledgement of a push.
      SpdyLoop.v: what the event loop polls for, the delays, and the sequence of
      sessions, by framing every handler once (interfaces [Framing] and
      [FramingIO]).  SpdyMain.v: the first request of every thread for every
      command line, and that listening threads have different identities.
    - CppUtil.v, CppUri.v: percent encoding and the comparisons against plain
      definitions; URIs are read and written back, joined URIs keep their origin.
      CppDate.v: dates are read back.
    - ShrpxConfig.v: the configuration is well formed, a file does what its lines
      do as options; ShrpxHttp.v: the rewriting of a Location.
    - ShrpxObjects.v (the objects of a client whatever its protocol),
      ShrpxResponse.v (reading a response, against the interface [Relay] of what
      an upstream does with it), ShrpxHeap.v, ShrpxSafety.v, ShrpxEvents.v: an
      invariant of the objects of one HTTP client that every operation keeps, by
      weakest preconditions, and from it that no run of events leaves an object
      behind when library calls succeed, or uses a deleted one, but for a
      connection that was lost when a call had failed; the failures that do
      occur, as runs.
      ShrpxSpdyHeap.v, ShrpxSpdyEvents.v: the same for a SPDY client.
    - ShrpxHeaders.v, ShrpxForward.v: what the proxy sends to a backend, against a
      plain definition, and that http_parser reads it back when the fields are
      plain ones and Content-Length.
    - ShrpxSpdyProps.v: the fields of a SPDY response fit their array, the body
      reaches the stream in order, the flow control of uploads, and a connection
      that is lost.
    - ServerDocsProps.v: the files that the server opens lie in its directory, the
      descriptors that stay open, and replies 304; ServerSafety.v: every socket
      and SSL object belongs to one living handler.  Both show, as runs, where the
      code does not do this.
    - CatProps.v: which sessions are begun, that a session stays with its host,
      how its requests are counted, and that the fields of a request fit their
      array; two failures, as runs.

    * Bounds and fuel

    Integers are kept at their width with [u8], [u16], [u32] and [u64]; int
    arithmetic of the client that overflows is a failure.  exec_loop of HttpExec.v
    has one unit of fuel per byte, and reexecute_byte a constant; run_loop of
    HtParse.v has two turns per byte.  execute_safe and htparser_run_safe prove
    that this is enough: the outcomes that stand for lack of fuel do not occur.
    digits_text of Libc.v writes at most 20 digits, the length of the largest
    64-bit number.  The loops of CppUri.v have two turns more than the text has
    bytes, which parse_total shows to be enough.  The window of a SPDY stream is
    an int in the code and an integer here: a client that was reset is not read
    any further by the library.

    * Not modelled, and why

    The SPDY library is not in the repository, and OpenSSL, libevent and the
    system are outside it: they are parameters, or arguments of the operations
    that say what they return and call.  Sockets and SSL setup, timers that are
    never started, logging and the release of memory of the client have no state
    of the program.  The model of a client is one thread; the global stream_id
    that spdycli.c assigns and reads in every thread is taken as local.  The proxy
    is modelled for one client: its workers share nothing but the configuration.
    Which pooled connection is used first depends on addresses in the code and is
    fixed here.  test.c of the parsers, the older copies under examples/ and the
    variant scalecli.c repeat the modelled code.  Of the SPDY server, the listening
    sockets, the OpenSSL context and verbose printing are left out, and of the
    download tool the connection, the statistics and the printing of frames; the
    command line spdyd.cc of the server is not modelled.  The order of events is an
    argument everywhere, so what the theorems say does not depend on it.  The
    application server of the system is CoffeeScript. *)
From Stdlib Require Import String Ascii.
From stdpp Require Export prelude.
From Stdlib Require Export ZArith Lia.
Export String.StringSyntax Ascii.AsciiSyntax.
Open Scope Z_scope.

(** * Bytes and byte strings

    A C [char] of a buffer is the [Z] of its unsigned value, and a buffer is a
    [list Z].  [chr "H"] and [str "abc"] are the literals 'H' and "abc" of the
    sources, computed when they are read. *)

Definition Z_of_char (a : Ascii.ascii) : Z := Z.of_N (Ascii.N_of_ascii a).

Definition bytes_of_string (s : String.string) : list Z :=
  map Z_of_char (String.list_ascii_of_string s).

Notation "'chr' a" :=
  (ltac:(let v := eval vm_compute in (Z_of_char a%char) in exact v))
  (at level 9, a at level 8, only parsing).
Notation "'str' a" :=
  (ltac:(let v := eval vm_compute in (bytes_of_string a%string) in exact v))
  (at level 9, a at level 8, only parsing).

Definition CR : Z := 13.
Definition LF : Z := 10.
Definition TAB : Z := 9.
Definition FF : Z := 12.
Definition DQUOTE : Z := 34.
Definition SQUOTE : Z := 39.

(** The values a byte of a buffer can take. *)
Definition is_byte (b : Z) : Prop := 0 <= b < 256.

(** * Machine-width arithmetic *)

Definition u8 (z : Z) : Z := z mod 2 ^ 8.
Definition u16 (z : Z) : Z := z mod 2 ^ 16.
Definition u32 (z : Z) : Z := z mod 2 ^ 32.
Definition u64 (z : Z) : Z := z mod 2 ^ 64.

(** ULLONG_MAX *)
Definition ULLONG_MAX : Z := 2 ^ 64 - 1.

(** The C test of a flag word: [flags & bit] is non-zero. *)
Definition has_flag (fl bit : Z) : bool := negb (Z.land fl bit =? 0).

(** * Indexing and slicing with [Z] positions *)

(** [l[i]]; positions outside the list read as 0. *)
Definition zth (l : list Z) (i : Z) : Z :=
  if i <? 0 then 0 else nth (Z.to_nat i) l 0.

(** The character at index [i] of the NUL-terminated literal [s]. *)
Definition cstr_at (s : list Z) (i : Z) : Z := zth (s ++ [0]) i.

Definition zlen (l : list Z) : Z := Z.of_nat (length l).

(** The bytes of [l] at the positions [a <= i < b]. *)
Definition slice (l : list Z) (a b : Z) : list Z :=
  take (Z.to_nat (b - a)) (drop (Z.to_nat a) l).

#[global] Arguments u8 : simpl never.
#[global] Arguments u16 : simpl never.
#[global] Arguments u32 : simpl never.
#[global] Arguments u64 : simpl never.
#[global] Arguments ULLONG_MAX : simpl never.
#[global] Arguments has_flag : simpl never.
#[global] Arguments zth : simpl never.
#[global] Arguments cstr_at : simpl never.
#[global] Arguments zlen : simpl never.
#[global] Arguments slice : simpl never.

(** * Tactics *)

(** Split a conjunction of hypotheses and booleans, and turn boolean tests on
    [Z] into propositions. *)
Ltac zbool :=
  repeat match goal with
  | H : _ /\ _ |- _ => destruct H
  | H : (_ && _)%bool = true |- _ => apply andb_true_iff in H
  | H : (_ || _)%bool = false |- _ => apply orb_false_iff in H
  | H : negb _ = true |- _ => apply negb_true_iff in H
  | H : negb _ = false |- _ => apply negb_false_iff in H
  | H : (_ =? _) = true |- _ => apply Z.eqb_eq in H
  | H : (_ =? _) = false |- _ => apply Z.eqb_neq in H
  | H : (_ <? _) = true |- _ => apply Z.ltb_lt in H
  | H : (_ <? _) = false |- _ => apply Z.ltb_ge in H
  | H : (_ <=? _) = true |- _ => apply Z.leb_le in H
  | H : (_ <=? _) = false |- _ => apply Z.leb_gt in H
  end.

(** Case on every [match] and [if] of the goal. *)
Ltac split_cases := repeat (case_match; simplify_eq/=; try done).

(** What is tested first to evaluate [t]. *)
Ltac first_test t :=
  match t with
  | match ?x with _ => _ end => first_test x
  | _ => t
  end.

(** * Shared hints and lemmas *)

Create HintDb bytes.
Create Rewrite HintDb bytes.

Lemma zlen_nonneg l : 0 <= zlen l.
Proof. unfold zlen. lia. Qed.

Lemma zlen_app l k : zlen (l ++ k) = zlen l + zlen k.
Proof. unfold zlen. rewrite length_app. lia. Qed.

Lemma zlen_cons b l : zlen (b :: l) = 1 + zlen l.
Proof. unfold zlen. simpl length. lia. Qed.

#[export] Hint Resolve zlen_nonneg : bytes.
#[export] Hint Rewrite zlen_app zlen_cons : bytes.

Lemma u8_small z : 0 <= z < 256 -> u8 z = z.
Proof. intros. apply Z.mod_small. lia. Qed.

Lemma u16_small z : 0 <= z < 65536 -> u16 z = z.
Proof. intros. apply Z.mod_small. lia. Qed.

Lemma u32_small z : 0 <= z < 4294967296 -> u32 z = z.
Proof. intros. apply Z.mod_small. lia. Qed.

Lemma u64_small z : 0 <= z < 2 ^ 64 -> u64 z = z.
Proof. intros. apply Z.mod_small. lia. Qed.

Lemma u8_range z : 0 <= u8 z < 256.
Proof. apply Z.mod_pos_bound. lia. Qed.

Lemma u16_range z : 0 <= u16 z < 65536.
Proof. apply Z.mod_pos_bound. lia. Qed.

Lemma u64_range z : 0 <= u64 z < 2 ^ 64.
Proof. apply Z.mod_pos_bound. lia. Qed.

#[export] Hint Resolve u8_range u16_range u64_range : bytes.
#[export] Hint Rewrite u8_small u16_small u32_small u64_small using lia : bytes.

(** ** Slices *)

Lemma slice_nil l a b : b <= a -> slice l a b = [].
Proof. intros. unfold slice. by replace (Z.to_nat (b - a)) with O by lia. Qed.

Lemma slice_full l : slice l 0 (zlen l) = l.
Proof. unfold slice, zlen. simpl. rewrite drop_0. apply firstn_all2. lia. Qed.

Lemma slice_length l a b :
  0 <= a <= b -> b <= zlen l -> zlen (slice l a b) = b - a.
Proof.
  intros Ha Hb. unfold slice, zlen in *. rewrite length_take, length_drop. lia.
Qed.

(** Two adjacent slices concatenate. *)
Lemma slice_join l a b c :
  0 <= a <= b -> b <= c -> slice l a b ++ slice l b c = slice l a c.
Proof.
  intros Hab Hbc. unfold slice.
  replace (Z.to_nat (c - a)) with (Z.to_nat (b - a) + Z.to_nat (c - b))%nat by lia.
  replace (Z.to_nat b) with (Z.to_nat a + Z.to_nat (b - a))%nat by lia.
  rewrite <- drop_drop. apply take_take_drop.
Qed.

(** The byte at [p] is the one-byte slice at [p]. *)
Lemma slice_one l p :
  0 <= p < zlen l -> slice l p (p + 1) = [zth l p].
Proof.
  intros Hp. unfold slice, zth, zlen in *.
  destruct (Z.ltb_spec p 0); [lia|].
  replace (Z.to_nat (p + 1 - p)) with 1%nat by lia.
  assert (Hlt : (Z.to_nat p < length l)%nat) by lia.
  destruct (lookup_lt_is_Some_2 l _ Hlt) as [b Hb].
  rewrite (drop_S l b), nth_lookup, Hb by done. reflexivity.
Qed.

Lemma slice_snoc l a p :
  0 <= a <= p -> p < zlen l -> slice l a (p + 1) = slice l a p ++ [zth l p].
Proof. intros. rewrite <- slice_one, slice_join; [done|lia..]. Qed.

(** ** Positions in a concatenation *)

Lemma zth_app_l l k i : i < zlen l -> zth (l ++ k) i = zth l i.
Proof.
  unfold zth, zlen. intros. destruct (Z.ltb_spec i 0); [done|]. apply app_nth1. lia.
Qed.

Lemma zth_app_r l k i : 0 <= i -> zth (l ++ k) (i + zlen l) = zth k i.
Proof.
  unfold zth, zlen. intros. destruct (Z.ltb_spec i 0), (Z.ltb_spec (i + Z.of_nat (length l)) 0);
    try lia.
  rewrite app_nth2 by lia. f_equal. lia.
Qed.

Lemma slice_app_l l k a b : 0 <= a -> b <= zlen l -> slice (l ++ k) a b = slice l a b.
Proof.
  unfold slice, zlen. intros. destruct (Z.ltb_spec b a).
  - by replace (Z.to_nat (b - a)) with O by lia.
  - rewrite drop_app_le by lia. apply take_app_le. rewrite length_drop. lia.
Qed.

Lemma slice_app_r l k a b :
  0 <= a -> slice (l ++ k) (a + zlen l) (b + zlen l) = slice k a b.
Proof.
  unfold slice, zlen. intros.
  replace (b + Z.of_nat (length l) - (a + Z.of_nat (length l))) with (b - a) by lia.
  rewrite drop_app_ge by lia. do 2 f_equal. lia.
Qed.

Lemma zth_is_byte m i : Forall is_byte m -> is_byte (zth m i).
Proof.
  intros Hm. unfold zth. destruct (i <? 0); [unfold is_byte; lia|].
  rewrite nth_lookup. destruct (m !! Z.to_nat i) as [b|] eqn:Hb; simpl.
  - exact (Forall_lookup_1 _ _ _ _ Hm Hb).
  - unfold is_byte. lia.
Qed.

(** ** Flag words *)

Lemma lor_range n a b :
  0 <= n -> 0 <= a < 2 ^ n -> 0 <= b < 2 ^ n -> 0 <= Z.lor a b < 2 ^ n.
Proof.
  intros Hn Ha Hb.
  assert (Z.lor a b = Z.lor a b mod 2 ^ n) as ->.
  { rewrite <- Z.land_ones, Z.land_lor_distr_l, !Z.land_ones by lia.
    by rewrite !Z.mod_small by lia. }
  apply Z.mod_pos_bound. lia.
Qed.

(** Setting a bit shows in the tests of that bit only. *)
Lemma has_flag_lor a b c :
  has_flag (Z.lor a b) c = has_flag a c || has_flag b c.
Proof.
  unfold has_flag. rewrite Z.land_lor_distr_l.
  destruct (Z.eqb_spec (Z.land a c) 0) as [->|Ha].
  - rewrite Z.lor_0_l. done.
  - destruct (Z.eqb_spec (Z.lor (Z.land a c) (Z.land b c)) 0) as [H|]; [|done].
    apply Z.lor_eq_0_iff in H. lia.
Qed.

(** ** Character classes over a list *)

Lemma forallb_Forall_true {A} (f : A -> bool) l :
  forallb f l = true <-> Forall (fun x => f x = true) l.
Proof.
  induction l as [|x l IH]; simpl; [done|].
  rewrite andb_true_iff, Forall_cons, IH. done.
Qed.

Lemma slice_mid a m b : slice (a ++ m ++ b) (zlen a) (zlen a + zlen m) = m.
Proof.
  unfold slice, zlen.
  replace (Z.to_nat (Z.of_nat (length a) + Z.of_nat (length m) - Z.of_nat (length a)))
    with (length m) by lia.
  rewrite Nat2Z.id, drop_app_length, take_app_length. done.
Qed.

(** ** Decimal numbers *)

Definition dec_digit (c : Z) : bool := (48 <=? c) && (c <=? 57).

(** The number a text of digits writes. *)
Definition decimal (acc : Z) (s : list Z) : Z :=
  fold_left (fun v c => v * 10 + (c - 48)) s acc.

Lemma dec_digit_range c : dec_digit c = true -> 48 <= c <= 57.
Proof. unfold dec_digit. intros. zbool. lia. Qed.

Lemma decimal_snoc acc s c : decimal acc (s ++ [c]) = decimal acc s * 10 + (c - 48).
Proof. unfold decimal. by rewrite fold_left_app. Qed.

Lemma decimal_mono s acc : forallb dec_digit s = true -> 0 <= acc -> acc <= decimal acc s.
Proof.
  revert acc. induction s as [|c s IH]; simpl; intros acc Hs Hacc; [unfold decimal; simpl; lia|].
  zbool. pose proof (dec_digit_range c ltac:(done)).
  specialize (IH (acc * 10 + (c - 48)) ltac:(done) ltac:(lia)). unfold decimal in *. simpl. lia.
Qed.

Lemma decimal_bound s : forallb dec_digit s = true -> 0 <= decimal 0 s < 10 ^ zlen s.
Proof.
  induction s as [|c s IH] using rev_ind; intros Hs; [done|].
  rewrite forallb_app in Hs. simpl in Hs. zbool.
  specialize (IH ltac:(done)). pose proof (dec_digit_range c ltac:(done)).
  rewrite decimal_snoc, zlen_app. change (zlen [c]) with 1.
  rewrite Z.pow_add_r by auto with bytes zarith. lia.
Qed.
