(* ===== verification/Libc.v ===== *)
(** Numbers and text of the C library, as the C and C++ programs use them: the
    conversions %d, %u and %X of printf, and strtol and strtoul in base 10. *)
From S2P Require Import Prelude.

(** * Writing numbers *)

(** %d and %u *)
Fixpoint digits_text (fuel : nat) (n : Z) : list Z :=
  match fuel with
  | O => []
  | S f => (if n <? 10 then [] else digits_text f (n / 10)) ++ [48 + n mod 10]
  end.

Definition int_text (n : Z) : list Z :=
  if n <? 0 then [chr "-"] ++ digits_text 20 (- n) else digits_text 20 n.

(** What %X writes for a digit of 0 to 15. *)
Definition hex_upper (d : Z) : Z := if d <? 10 then chr "0" + d else chr "A" + (d - 10).

(** %X *)
Fixpoint hex_text (fuel : nat) (n : Z) : list Z :=
  match fuel with
  | O => []
  | S f => (if n <? 16 then [] else hex_text f (n / 16)) ++ [hex_upper (n mod 16)]
  end.

(** %X of an unsigned int, which has at most eight digits. *)
Definition uint_hex (n : Z) : list Z := hex_text 8 (u32 n).

(** * Reading numbers *)

Definition is_space (c : Z) : bool := (c =? 32) || ((9 <=? c) && (c <=? 13)).

Fixpoint skip_space (s : list Z) : list Z :=
  match s with c :: s' => if is_space c then skip_space s' else s | [] => [] end.

Fixpoint digits_of (s : list Z) : list Z :=
  match s with c :: s' => if dec_digit c then c :: digits_of s' else [] | [] => [] end.

(** The sign and the digits of a number: whether it is negative, and its
    absolute value. *)
Definition signed_number (s : list Z) : bool * Z :=
  match skip_space s with
  | [] => (false, 0)
  | c :: s' =>
      if c =? chr "-" then (true, decimal 0 (digits_of s'))
      else if c =? chr "+" then (false, decimal 0 (digits_of s'))
      else (false, decimal 0 (digits_of (c :: s')))
  end.

(** LONG_MAX and ULONG_MAX *)
Definition LONG_MAX : Z := 2 ^ 63 - 1.
Definition ULONG_MAX : Z := 2 ^ 64 - 1.

(** strtol(s, 0, 10): the value, and whether errno is set to ERANGE. *)
Definition strtol (s : list Z) : Z * bool :=
  let '(neg, v) := signed_number s in
  if neg then if LONG_MAX + 1 <? v then (- LONG_MAX - 1, true) else (- v, false)
  else if LONG_MAX <? v then (LONG_MAX, true) else (v, false).

(** strtoul(s, 0, 10): a minus sign negates the value in the type. *)
Definition strtoul (s : list Z) : Z * bool :=
  let '(neg, v) := signed_number s in
  if ULONG_MAX <? v then (ULONG_MAX, true)
  else ((if neg then u64 (- v) else v), false).

(** * The digits that are written *)

Lemma digits_text_length fuel n : zlen (digits_text fuel n) <= Z.of_nat fuel.
Proof.
  revert n. induction fuel as [|f IH]; intros n; [done|]. cbn [digits_text]. rewrite zlen_app.
  change (zlen [48 + n mod 10]) with 1. specialize (IH (n / 10)).
  destruct (n <? 10); [change (zlen []) with 0|]; lia.
Qed.

(** A number below 10^k has at most k digits. *)
Lemma digits_text_short fuel n k :
  (1 <= k)%nat -> 0 <= n < 10 ^ Z.of_nat k -> zlen (digits_text fuel n) <= Z.of_nat k.
Proof.
  revert n k. induction fuel as [|f IH]; intros n k Hk Hn; [change (zlen _) with 0; lia|].
  cbn [digits_text]. rewrite zlen_app. change (zlen [48 + n mod 10]) with 1.
  destruct (Z.ltb_spec n 10); [change (zlen []) with 0; lia|].
  destruct k as [|[|k]]; [lia|change (10 ^ Z.of_nat 1) with 10 in Hn; lia|].
  rewrite Nat2Z.inj_succ, Z.pow_succ_r in Hn by lia.
  specialize (IH (n / 10) (S k) ltac:(lia)).
  pose proof (Z.div_lt_upper_bound n 10 (10 ^ Z.of_nat (S k)) ltac:(lia) ltac:(lia)).
  pose proof (Z.div_pos n 10 ltac:(lia) ltac:(lia)). lia.
Qed.

Lemma int_text_short n k :
  (1 <= k)%nat -> 0 <= n < 10 ^ Z.of_nat k -> zlen (int_text n) <= Z.of_nat k.
Proof.
  intros. unfold int_text. destruct (Z.ltb_spec n 0); [lia|]. by apply digits_text_short.
Qed.

Lemma int_text_length n : zlen (int_text n) <= 21.
Proof.
  unfold int_text. destruct (n <? 0); [rewrite zlen_app; change (zlen [chr "-"]) with 1|].
  - pose proof (digits_text_length 20 (- n)). lia.
  - pose proof (digits_text_length 20 n). lia.
Qed.

(** The digits of a number that has at most [fuel] of them write it. *)
Lemma digits_text_decimal fuel n :
  0 <= n < 10 ^ Z.of_nat fuel ->
  decimal 0 (digits_text fuel n) = n /\ forallb dec_digit (digits_text fuel n) = true.
Proof.
  revert n. induction fuel as [|f IH]; intros n Hn; [cbn in *; split; [|done]; unfold decimal; simpl; lia|].
  rewrite Nat2Z.inj_succ, Z.pow_succ_r in Hn by lia. cbn [digits_text].
  pose proof (Z.mod_pos_bound n 10). pose proof (Z.div_mod n 10).
  assert (Hd : forallb dec_digit [48 + n mod 10] = true).
  { cbn [forallb]. unfold dec_digit. rewrite andb_true_r, andb_true_iff, !Z.leb_le. lia. }
  rewrite decimal_snoc, forallb_app, Hd, andb_true_r.
  destruct (Z.ltb_spec n 10) as [Hlt|Hge].
  - rewrite Z.mod_small by lia. split; [change (decimal 0 []) with 0; lia|done].
  - destruct (IH (n / 10)) as [-> ->]; [|lia].
    split; [apply Z.div_pos; lia|apply Z.div_lt_upper_bound; lia].
Qed.

Lemma int_text_decimal n :
  0 <= n < 10 ^ 20 -> decimal 0 (int_text n) = n /\ forallb dec_digit (int_text n) = true.
Proof.
  intros Hn. unfold int_text. destruct (Z.ltb_spec n 0); [lia|]. by apply (digits_text_decimal 20).
Qed.

Lemma int_text_nonempty n : int_text n <> [].
Proof.
  unfold int_text. change 20%nat with (S 19).
  destruct (n <? 0); [done|]. cbn [digits_text]. by destruct (if _ <? 10 then _ else _).
Qed.

(** * Reading digits *)

Lemma dec_digit_not_space c : dec_digit c = true -> is_space c = false.
Proof.
  intros Hc%dec_digit_range. unfold is_space. apply orb_false_iff.
  split; [apply Z.eqb_neq; lia|]. apply andb_false_iff. right. apply Z.leb_gt. lia.
Qed.

Lemma digits_of_app s t :
  forallb dec_digit s = true -> dec_digit (hd 0 t) = false -> digits_of (s ++ t) = s.
Proof.
  intros Hs Ht. induction s as [|c s IH]; simpl in *.
  - destruct t as [|c t]; [done|]. simpl in *. by rewrite Ht.
  - zbool. by rewrite H, IH.
Qed.

(** A number of digits alone is read up to what follows it. *)
Lemma signed_number_digits s t :
  s <> [] -> forallb dec_digit s = true -> dec_digit (hd 0 t) = false ->
  signed_number (s ++ t) = (false, decimal 0 s).
Proof.
  intros Hn Hs Ht. destruct s as [|c s]; [done|]. pose proof Hs as Hs'. simpl in Hs'. zbool.
  pose proof (dec_digit_range c H). unfold signed_number. cbn [app skip_space].
  rewrite dec_digit_not_space by done.
  destruct (Z.eqb_spec c (chr "-")); [lia|]. destruct (Z.eqb_spec c (chr "+")); [lia|].
  by rewrite app_comm_cons, digits_of_app.
Qed.

Lemma strtol_digits s t :
  s <> [] -> forallb dec_digit s = true -> dec_digit (hd 0 t) = false ->
  decimal 0 s <= LONG_MAX -> strtol (s ++ t) = (decimal 0 s, false).
Proof.
  intros. unfold strtol. rewrite signed_number_digits by done.
  destruct (Z.ltb_spec LONG_MAX (decimal 0 s)); [lia|done].
Qed.

Lemma signed_number_nonneg s : 0 <= (signed_number s).2.
Proof.
  assert (H : forall l, 0 <= decimal 0 (digits_of l)).
  { intros l. apply decimal_mono; [|lia]. induction l as [|c l IH]; simpl; [done|].
    destruct (dec_digit c) eqn:E; simpl; [by rewrite E|done]. }
  unfold signed_number. destruct (skip_space s) as [|c s']; [done|].
  destruct (c =? chr "-"); [apply H|]. destruct (c =? chr "+"); apply H.
Qed.

Lemma strtoul_range s : 0 <= (strtoul s).1 <= ULONG_MAX.
Proof.
  unfold strtoul. pose proof (signed_number_nonneg s). destruct (signed_number s) as [neg v].
  simpl in *. destruct (Z.ltb_spec ULONG_MAX v); simpl; [unfold ULONG_MAX; lia|].
  destruct neg; [pose proof (u64_range (- v)); unfold ULONG_MAX; lia|lia].
Qed.
