(* ===== verification/HttpTypes.v ===== *)
(** src/http-parser, the data: the enumerations and the parser structure of
    http_parser.h, the tables and character classes of http_parser.c, the small
    functions (http_parser_init, http_should_keep_alive, http_parser_pause, ...)
    and parse_url_char, the state machine of the URL. *)
From S2P Require Import Prelude.

(** * Enumerations of http_parser.h and http_parser.c *)

(** enum http_method: the numbers are those of HTTP_METHOD_MAP. *)
Inductive http_method :=
  | HTTP_DELETE | HTTP_GET | HTTP_HEAD | HTTP_POST | HTTP_PUT | HTTP_CONNECT
  | HTTP_OPTIONS | HTTP_TRACE | HTTP_COPY | HTTP_LOCK | HTTP_MKCOL
  | HTTP_MOVE | HTTP_PROPFIND | HTTP_PROPPATCH | HTTP_SEARCH | HTTP_UNLOCK
  | HTTP_REPORT | HTTP_MKACTIVITY | HTTP_CHECKOUT | HTTP_MERGE | HTTP_MSEARCH
  | HTTP_NOTIFY | HTTP_SUBSCRIBE | HTTP_UNSUBSCRIBE | HTTP_PATCH | HTTP_PURGE.

Definition method_num (x : http_method) : Z :=
  match x with
  | HTTP_DELETE => 0 | HTTP_GET => 1 | HTTP_HEAD => 2 | HTTP_POST => 3
  | HTTP_PUT => 4 | HTTP_CONNECT => 5 | HTTP_OPTIONS => 6 | HTTP_TRACE => 7
  | HTTP_COPY => 8 | HTTP_LOCK => 9 | HTTP_MKCOL => 10 | HTTP_MOVE => 11
  | HTTP_PROPFIND => 12 | HTTP_PROPPATCH => 13 | HTTP_SEARCH => 14
  | HTTP_UNLOCK => 15 | HTTP_REPORT => 16 | HTTP_MKACTIVITY => 17
  | HTTP_CHECKOUT => 18 | HTTP_MERGE => 19 | HTTP_MSEARCH => 20
  | HTTP_NOTIFY => 21 | HTTP_SUBSCRIBE => 22 | HTTP_UNSUBSCRIBE => 23
  | HTTP_PATCH => 24 | HTTP_PURGE => 25
  end.

(** enum http_parser_type *)
Inductive http_parser_type := HTTP_REQUEST | HTTP_RESPONSE | HTTP_BOTH.

(** enum flags: the values of the 6-bit field [flags]. *)
Definition F_CHUNKED : Z := 1.
Definition F_CONNECTION_KEEP_ALIVE : Z := 2.
Definition F_CONNECTION_CLOSE : Z := 4.
Definition F_TRAILING : Z := 8.
Definition F_UPGRADE : Z := 16.
Definition F_SKIPBODY : Z := 32.

(** HTTP_MAX_HEADER_SIZE *)
Definition HTTP_MAX_HEADER_SIZE : Z := 80 * 1024.

(** enum http_errno, generated by HTTP_ERRNO_MAP. *)
Inductive http_errno_t :=
  | HPE_OK | HPE_CB_message_begin | HPE_CB_url | HPE_CB_header_field
  | HPE_CB_header_value | HPE_CB_headers_complete | HPE_CB_body
  | HPE_CB_message_complete | HPE_INVALID_EOF_STATE | HPE_HEADER_OVERFLOW
  | HPE_CLOSED_CONNECTION | HPE_INVALID_VERSION | HPE_INVALID_STATUS
  | HPE_INVALID_METHOD | HPE_INVALID_URL | HPE_INVALID_HOST
  | HPE_INVALID_PORT | HPE_INVALID_PATH | HPE_INVALID_QUERY_STRING
  | HPE_INVALID_FRAGMENT | HPE_LF_EXPECTED | HPE_INVALID_HEADER_TOKEN
  | HPE_INVALID_CONTENT_LENGTH | HPE_INVALID_CHUNK_SIZE
  | HPE_INVALID_CONSTANT | HPE_INVALID_INTERNAL_STATE | HPE_STRICT
  | HPE_PAUSED | HPE_UNKNOWN.

Definition errno_num (x : http_errno_t) : Z :=
  match x with
  | HPE_OK => 0 | HPE_CB_message_begin => 1 | HPE_CB_url => 2
  | HPE_CB_header_field => 3 | HPE_CB_header_value => 4
  | HPE_CB_headers_complete => 5 | HPE_CB_body => 6
  | HPE_CB_message_complete => 7 | HPE_INVALID_EOF_STATE => 8
  | HPE_HEADER_OVERFLOW => 9 | HPE_CLOSED_CONNECTION => 10
  | HPE_INVALID_VERSION => 11 | HPE_INVALID_STATUS => 12
  | HPE_INVALID_METHOD => 13 | HPE_INVALID_URL => 14 | HPE_INVALID_HOST => 15
  | HPE_INVALID_PORT => 16 | HPE_INVALID_PATH => 17
  | HPE_INVALID_QUERY_STRING => 18 | HPE_INVALID_FRAGMENT => 19
  | HPE_LF_EXPECTED => 20 | HPE_INVALID_HEADER_TOKEN => 21
  | HPE_INVALID_CONTENT_LENGTH => 22 | HPE_INVALID_CHUNK_SIZE => 23
  | HPE_INVALID_CONSTANT => 24 | HPE_INVALID_INTERNAL_STATE => 25
  | HPE_STRICT => 26 | HPE_PAUSED => 27 | HPE_UNKNOWN => 28
  end.

(** enum state of http_parser.c; the numbering starts at 1. *)
Inductive state :=
  | s_dead | s_start_req_or_res | s_res_or_resp_H | s_start_res | s_res_H
  | s_res_HT | s_res_HTT | s_res_HTTP | s_res_first_http_major
  | s_res_http_major | s_res_first_http_minor | s_res_http_minor
  | s_res_first_status_code | s_res_status_code | s_res_status
  | s_res_line_almost_done | s_start_req | s_req_method
  | s_req_spaces_before_url | s_req_schema | s_req_schema_slash
  | s_req_schema_slash_slash | s_req_server_start | s_req_server
  | s_req_server_with_at | s_req_path | s_req_query_string_start
  | s_req_query_string | s_req_fragment_start | s_req_fragment
  | s_req_http_start | s_req_http_H | s_req_http_HT | s_req_http_HTT
  | s_req_http_HTTP | s_req_first_http_major | s_req_http_major
  | s_req_first_http_minor | s_req_http_minor | s_req_line_almost_done
  | s_header_field_start | s_header_field | s_header_value_start
  | s_header_value | s_header_value_lws | s_header_almost_done
  | s_chunk_size_start | s_chunk_size | s_chunk_parameters
  | s_chunk_size_almost_done | s_headers_almost_done | s_headers_done
  | s_chunk_data | s_chunk_data_almost_done | s_chunk_data_done
  | s_body_identity | s_body_identity_eof | s_message_done.

Definition state_num (x : state) : Z :=
  match x with
  | s_dead => 1 | s_start_req_or_res => 2 | s_res_or_resp_H => 3
  | s_start_res => 4 | s_res_H => 5 | s_res_HT => 6 | s_res_HTT => 7
  | s_res_HTTP => 8 | s_res_first_http_major => 9 | s_res_http_major => 10
  | s_res_first_http_minor => 11 | s_res_http_minor => 12
  | s_res_first_status_code => 13 | s_res_status_code => 14
  | s_res_status => 15 | s_res_line_almost_done => 16 | s_start_req => 17
  | s_req_method => 18 | s_req_spaces_before_url => 19 | s_req_schema => 20
  | s_req_schema_slash => 21 | s_req_schema_slash_slash => 22
  | s_req_server_start => 23 | s_req_server => 24
  | s_req_server_with_at => 25 | s_req_path => 26
  | s_req_query_string_start => 27 | s_req_query_string => 28
  | s_req_fragment_start => 29 | s_req_fragment => 30
  | s_req_http_start => 31 | s_req_http_H => 32 | s_req_http_HT => 33
  | s_req_http_HTT => 34 | s_req_http_HTTP => 35
  | s_req_first_http_major => 36 | s_req_http_major => 37
  | s_req_first_http_minor => 38 | s_req_http_minor => 39
  | s_req_line_almost_done => 40 | s_header_field_start => 41
  | s_header_field => 42 | s_header_value_start => 43 | s_header_value => 44
  | s_header_value_lws => 45 | s_header_almost_done => 46
  | s_chunk_size_start => 47 | s_chunk_size => 48 | s_chunk_parameters => 49
  | s_chunk_size_almost_done => 50 | s_headers_almost_done => 51
  | s_headers_done => 52 | s_chunk_data => 53
  | s_chunk_data_almost_done => 54 | s_chunk_data_done => 55
  | s_body_identity => 56 | s_body_identity_eof => 57 | s_message_done => 58
  end.

(** enum header_states *)
Inductive header_states :=
  | h_general | h_C | h_CO | h_CON | h_matching_connection
  | h_matching_proxy_connection | h_matching_content_length
  | h_matching_transfer_encoding | h_matching_upgrade | h_connection
  | h_content_length | h_transfer_encoding | h_upgrade
  | h_matching_transfer_encoding_chunked | h_matching_connection_keep_alive
  | h_matching_connection_close | h_transfer_encoding_chunked
  | h_connection_keep_alive | h_connection_close.

#[export] Instance http_method_eq_dec : EqDecision http_method.
Proof. solve_decision. Defined.
#[export] Instance http_parser_type_eq_dec : EqDecision http_parser_type.
Proof. solve_decision. Defined.
#[export] Instance http_errno_eq_dec : EqDecision http_errno_t.
Proof. solve_decision. Defined.
#[export] Instance state_eq_dec : EqDecision state.
Proof. solve_decision. Defined.
#[export] Instance header_states_eq_dec : EqDecision header_states.
Proof. solve_decision. Defined.

(** PARSING_HEADER(state): the states up to s_headers_done count towards the
    header size limit. *)
Definition PARSING_HEADER (s : state) : bool :=
  state_num s <=? state_num s_headers_done.

(** * Constant tables *)

(** method_strings[], in the order of the method numbers. *)
Definition method_strings : list (list Z) :=
  [str "DELETE"; str "GET"; str "HEAD"; str "POST"; str "PUT";
   str "CONNECT"; str "OPTIONS"; str "TRACE"; str "COPY"; str "LOCK";
   str "MKCOL"; str "MOVE"; str "PROPFIND"; str "PROPPATCH"; str "SEARCH";
   str "UNLOCK"; str "REPORT"; str "MKACTIVITY"; str "CHECKOUT";
   str "MERGE"; str "M-SEARCH"; str "NOTIFY"; str "SUBSCRIBE";
   str "UNSUBSCRIBE"; str "PATCH"; str "PURGE"].

(** tokens[256]: the 128 entries written out, the rest zero-initialised. *)
Definition tokens : list Z :=
  [0; 0; 0; 0; 0; 0; 0; 0; 0; 0; 0; 0; 0; 0; 0; 0;
   0; 0; 0; 0; 0; 0; 0; 0; 0; 0; 0; 0; 0; 0; 0; 0;
   0; 33; 0; 35; 36; 37; 38; 39; 0; 0; 42; 43; 0; 45; 46; 0;
   48; 49; 50; 51; 52; 53; 54; 55; 56; 57; 0; 0; 0; 0; 0; 0;
   0; 97; 98; 99; 100; 101; 102; 103; 104; 105; 106; 107; 108; 109; 110; 111;
   112; 113; 114; 115; 116; 117; 118; 119; 120; 121; 122; 0; 0; 0; 94; 95;
   96; 97; 98; 99; 100; 101; 102; 103; 104; 105; 106; 107; 108; 109; 110; 111;
   112; 113; 114; 115; 116; 117; 118; 119; 120; 121; 122; 0; 124; 0; 126; 0] ++ replicate 128 0.

(** unhex[256]: only the first 128 entries have an initialiser, so C sets the
    other 128 to 0. *)
Definition unhex : list Z :=
  [-1; -1; -1; -1; -1; -1; -1; -1; -1; -1; -1; -1; -1; -1; -1; -1;
   -1; -1; -1; -1; -1; -1; -1; -1; -1; -1; -1; -1; -1; -1; -1; -1;
   -1; -1; -1; -1; -1; -1; -1; -1; -1; -1; -1; -1; -1; -1; -1; -1;
   0; 1; 2; 3; 4; 5; 6; 7; 8; 9; -1; -1; -1; -1; -1; -1;
   -1; 10; 11; 12; 13; 14; 15; -1; -1; -1; -1; -1; -1; -1; -1; -1;
   -1; -1; -1; -1; -1; -1; -1; -1; -1; -1; -1; -1; -1; -1; -1; -1;
   -1; 10; 11; 12; 13; 14; 15; -1; -1; -1; -1; -1; -1; -1; -1; -1;
   -1; -1; -1; -1; -1; -1; -1; -1; -1; -1; -1; -1; -1; -1; -1; -1] ++ replicate 128 0.

(** normal_url_char[32] with HTTP_PARSER_STRICT (so T(v) is 0): bit [i land 7] of
    byte [i >> 3] says whether character [i] is plain in a URL. *)
Definition normal_url_char : list Z :=
  [0; 0; 0; 0; 246; 255; 255; 127; 255; 255; 255; 255; 255; 255; 255; 127] ++ replicate 16 0.

(** http_strerror_tab[]: name and description of each error. *)
Definition http_strerror_tab : list (list Z * list Z) :=
  [(str "HPE_OK", str "success");
   (str "HPE_CB_message_begin", str "the on_message_begin callback failed");
   (str "HPE_CB_url", str "the on_url callback failed");
   (str "HPE_CB_header_field", str "the on_header_field callback failed");
   (str "HPE_CB_header_value", str "the on_header_value callback failed");
   (str "HPE_CB_headers_complete", str "the on_headers_complete callback failed");
   (str "HPE_CB_body", str "the on_body callback failed");
   (str "HPE_CB_message_complete", str "the on_message_complete callback failed");
   (str "HPE_INVALID_EOF_STATE", str "stream ended at an unexpected time");
   (str "HPE_HEADER_OVERFLOW", str "too many header bytes seen; overflow detected");
   (str "HPE_CLOSED_CONNECTION", str "data received after completed connection: close message");
   (str "HPE_INVALID_VERSION", str "invalid HTTP version");
   (str "HPE_INVALID_STATUS", str "invalid HTTP status code");
   (str "HPE_INVALID_METHOD", str "invalid HTTP method");
   (str "HPE_INVALID_URL", str "invalid URL");
   (str "HPE_INVALID_HOST", str "invalid host");
   (str "HPE_INVALID_PORT", str "invalid port");
   (str "HPE_INVALID_PATH", str "invalid path");
   (str "HPE_INVALID_QUERY_STRING", str "invalid query string");
   (str "HPE_INVALID_FRAGMENT", str "invalid fragment");
   (str "HPE_LF_EXPECTED", str "LF character expected");
   (str "HPE_INVALID_HEADER_TOKEN", str "invalid character in header");
   (str "HPE_INVALID_CONTENT_LENGTH", str "invalid character in content-length header");
   (str "HPE_INVALID_CHUNK_SIZE", str "invalid character in chunk size header");
   (str "HPE_INVALID_CONSTANT", str "invalid constant string");
   (str "HPE_INVALID_INTERNAL_STATE", str "encountered unexpected internal state");
   (str "HPE_STRICT", str "strict mode assertion failed");
   (str "HPE_PAUSED", str "parser is paused");
   (str "HPE_UNKNOWN", str "an unknown error occurred")].

(** * struct http_parser

    The [data] pointer of the application is the user state that the callbacks
    thread (HttpExec.v); enumerations stored in an [unsigned char] are the
    inductive types above. *)
Record http_parser := mk_parser {
  hp_type : http_parser_type; (* unsigned char type : 2 *)
  hp_flags : Z; (* unsigned char flags : 6 *)
  hp_state : state; (* unsigned char *)
  hp_header_state : header_states; (* unsigned char *)
  hp_index : Z; (* unsigned char *)
  hp_nread : Z; (* uint32_t *)
  hp_content_length : Z; (* uint64_t *)
  hp_http_major : Z; (* unsigned short *)
  hp_http_minor : Z; (* unsigned short *)
  hp_status_code : Z; (* unsigned short *)
  hp_method : http_method; (* unsigned char *)
  hp_http_errno : http_errno_t; (* unsigned char http_errno : 7 *)
  hp_upgrade : bool (* unsigned char upgrade : 1 *)
}.

(** Assignments [parser->f = v]. *)
Definition set_type (v : http_parser_type) (p : http_parser) : http_parser :=
  mk_parser v (hp_flags p) (hp_state p) (hp_header_state p) (hp_index p)
    (hp_nread p) (hp_content_length p) (hp_http_major p)
    (hp_http_minor p) (hp_status_code p) (hp_method p)
    (hp_http_errno p) (hp_upgrade p).
Definition set_flags (v : Z) (p : http_parser) : http_parser :=
  mk_parser (hp_type p) v (hp_state p) (hp_header_state p) (hp_index p)
    (hp_nread p) (hp_content_length p) (hp_http_major p)
    (hp_http_minor p) (hp_status_code p) (hp_method p)
    (hp_http_errno p) (hp_upgrade p).
Definition set_state (v : state) (p : http_parser) : http_parser :=
  mk_parser (hp_type p) (hp_flags p) v (hp_header_state p) (hp_index p)
    (hp_nread p) (hp_content_length p) (hp_http_major p)
    (hp_http_minor p) (hp_status_code p) (hp_method p)
    (hp_http_errno p) (hp_upgrade p).
Definition set_header_state (v : header_states) (p : http_parser) : http_parser :=
  mk_parser (hp_type p) (hp_flags p) (hp_state p) v (hp_index p) (hp_nread p)
    (hp_content_length p) (hp_http_major p) (hp_http_minor p)
    (hp_status_code p) (hp_method p) (hp_http_errno p) (hp_upgrade p).
Definition set_index (v : Z) (p : http_parser) : http_parser :=
  mk_parser (hp_type p) (hp_flags p) (hp_state p) (hp_header_state p) v
    (hp_nread p) (hp_content_length p) (hp_http_major p)
    (hp_http_minor p) (hp_status_code p) (hp_method p)
    (hp_http_errno p) (hp_upgrade p).
Definition set_nread (v : Z) (p : http_parser) : http_parser :=
  mk_parser (hp_type p) (hp_flags p) (hp_state p) (hp_header_state p)
    (hp_index p) v (hp_content_length p) (hp_http_major p)
    (hp_http_minor p) (hp_status_code p) (hp_method p)
    (hp_http_errno p) (hp_upgrade p).
Definition set_content_length (v : Z) (p : http_parser) : http_parser :=
  mk_parser (hp_type p) (hp_flags p) (hp_state p) (hp_header_state p)
    (hp_index p) (hp_nread p) v (hp_http_major p) (hp_http_minor p)
    (hp_status_code p) (hp_method p) (hp_http_errno p) (hp_upgrade p).
Definition set_http_major (v : Z) (p : http_parser) : http_parser :=
  mk_parser (hp_type p) (hp_flags p) (hp_state p) (hp_header_state p)
    (hp_index p) (hp_nread p) (hp_content_length p) v
    (hp_http_minor p) (hp_status_code p) (hp_method p)
    (hp_http_errno p) (hp_upgrade p).
Definition set_http_minor (v : Z) (p : http_parser) : http_parser :=
  mk_parser (hp_type p) (hp_flags p) (hp_state p) (hp_header_state p)
    (hp_index p) (hp_nread p) (hp_content_length p) (hp_http_major p)
    v (hp_status_code p) (hp_method p) (hp_http_errno p)
    (hp_upgrade p).
Definition set_status_code (v : Z) (p : http_parser) : http_parser :=
  mk_parser (hp_type p) (hp_flags p) (hp_state p) (hp_header_state p)
    (hp_index p) (hp_nread p) (hp_content_length p) (hp_http_major p)
    (hp_http_minor p) v (hp_method p) (hp_http_errno p)
    (hp_upgrade p).
Definition set_method (v : http_method) (p : http_parser) : http_parser :=
  mk_parser (hp_type p) (hp_flags p) (hp_state p) (hp_header_state p)
    (hp_index p) (hp_nread p) (hp_content_length p) (hp_http_major p)
    (hp_http_minor p) (hp_status_code p) v (hp_http_errno p)
    (hp_upgrade p).
Definition set_http_errno (v : http_errno_t) (p : http_parser) : http_parser :=
  mk_parser (hp_type p) (hp_flags p) (hp_state p) (hp_header_state p)
    (hp_index p) (hp_nread p) (hp_content_length p) (hp_http_major p)
    (hp_http_minor p) (hp_status_code p) (hp_method p) v
    (hp_upgrade p).
Definition set_upgrade (v : bool) (p : http_parser) : http_parser :=
  mk_parser (hp_type p) (hp_flags p) (hp_state p) (hp_header_state p)
    (hp_index p) (hp_nread p) (hp_content_length p) (hp_http_major p)
    (hp_http_minor p) (hp_status_code p) (hp_method p)
    (hp_http_errno p) v.

(** Reduce assignments on an explicit parser object. *)
Ltac unfold_setters :=
  unfold set_type, set_flags, set_state, set_header_state, set_index,
    set_nread, set_content_length, set_http_major, set_http_minor,
    set_status_code, set_method, set_http_errno, set_upgrade in *; simpl in *.

#[export] Instance http_parser_eq_dec : EqDecision http_parser.
Proof. solve_decision. Defined.

(** parser->flags |= bit *)
Definition or_flags (bit : Z) (p : http_parser) : http_parser :=
  set_flags (Z.lor (hp_flags p) bit) p.

(** * Character classes (HTTP_PARSER_STRICT) *)

(** LOWER(c), as an unsigned char *)
Definition LOWER (c : Z) : Z := u8 (Z.lor c 32).
Definition IS_ALPHA (c : Z) : bool :=
  (chr "a" <=? LOWER c) && (LOWER c <=? chr "z").
Definition IS_NUM (c : Z) : bool := (chr "0" <=? c) && (c <=? chr "9").
Definition IS_ALPHANUM (c : Z) : bool := IS_ALPHA c || IS_NUM c.
Definition IS_HEX (c : Z) : bool :=
  IS_NUM c || ((chr "a" <=? LOWER c) && (LOWER c <=? chr "f")).
Definition IS_MARK (c : Z) : bool :=
  (c =? chr "-") || (c =? chr "_") || (c =? chr ".") || (c =? chr "!") ||
  (c =? chr "~") || (c =? chr "*") || (c =? SQUOTE) || (c =? chr "(") ||
  (c =? chr ")").
Definition IS_USERINFO_CHAR (c : Z) : bool :=
  IS_ALPHANUM c || IS_MARK c || (c =? chr "%") || (c =? chr ";") ||
  (c =? chr ":") || (c =? chr "&") || (c =? chr "=") || (c =? chr "+") ||
  (c =? chr "$") || (c =? chr ",").

(** The value of the decimal digits a text starts with, after [acc]. *)
Fixpoint digits_value (acc : Z) (s : list Z) : Z :=
  match s with
  | c :: s' => if IS_NUM c then digits_value (acc * 10 + (c - chr "0")) s' else acc
  | [] => acc
  end.

(** BIT_AT(a, i) *)
Definition BIT_AT (a : list Z) (i : Z) : bool :=
  negb (Z.land (zth a (Z.shiftr i 3)) (Z.shiftl 1 (Z.land i 7)) =? 0).

Definition TOKEN (c : Z) : Z := zth tokens (u8 c).
Definition IS_URL_CHAR (c : Z) : bool := BIT_AT normal_url_char (u8 c).
Definition IS_HOST_CHAR (c : Z) : bool :=
  IS_ALPHANUM c || (c =? chr ".") || (c =? chr "-").

Definition PROXY_CONNECTION : list Z := str "proxy-connection".
Definition CONNECTION : list Z := str "connection".
Definition CONTENT_LENGTH : list Z := str "content-length".
Definition TRANSFER_ENCODING : list Z := str "transfer-encoding".
Definition UPGRADE : list Z := str "upgrade".
Definition CHUNKED : list Z := str "chunked".
Definition KEEP_ALIVE : list Z := str "keep-alive".
Definition CLOSE : list Z := str "close".

(** sizeof of a string literal: its characters and the terminating NUL. *)
Definition sizeof_str (s : list Z) : Z := zlen s + 1.

(** * Functions on the parser object *)

(** http_parser_init: memset to 0, then type, state and errno.  The zero of
    [method] is HTTP_DELETE, of [header_state] h_general. *)
Definition http_parser_init (t : http_parser_type) : http_parser :=
  mk_parser t 0
    (match t with
     | HTTP_REQUEST => s_start_req
     | HTTP_RESPONSE => s_start_res
     | HTTP_BOTH => s_start_req_or_res
     end)
    h_general 0 0 0 0 0 0 HTTP_DELETE HPE_OK false.

Definition is_request (p : http_parser) : bool :=
  match hp_type p with HTTP_REQUEST => true | _ => false end.

(** http_message_needs_eof *)
Definition http_message_needs_eof (p : http_parser) : bool :=
  if is_request p then false
  else if (hp_status_code p / 100 =? 1) || (hp_status_code p =? 204) ||
          (hp_status_code p =? 304) || has_flag (hp_flags p) F_SKIPBODY
  then false
  else if has_flag (hp_flags p) F_CHUNKED ||
          negb (hp_content_length p =? ULLONG_MAX)
  then false
  else true.

(** http_should_keep_alive *)
Definition http_should_keep_alive (p : http_parser) : bool :=
  if (0 <? hp_http_major p) && (0 <? hp_http_minor p) then
    if has_flag (hp_flags p) F_CONNECTION_CLOSE then false
    else negb (http_message_needs_eof p)
  else
    if negb (has_flag (hp_flags p) F_CONNECTION_KEEP_ALIVE) then false
    else negb (http_message_needs_eof p).

(** The macro start_state *)
Definition start_state (p : http_parser) : state :=
  if is_request p then s_start_req else s_start_res.

(** NEW_MESSAGE() with HTTP_PARSER_STRICT *)
Definition NEW_MESSAGE (p : http_parser) : state :=
  if http_should_keep_alive p then start_state p else s_dead.

(** http_method_str; ELEM_AT guards the index. *)
Definition http_method_str (m : Z) : list Z :=
  if (0 <=? m) && (m <? Z.of_nat (length method_strings))
  then nth (Z.to_nat m) method_strings [] else str "<unknown>".

(** method_strings[parser->method] *)
Definition matcher_of (m : http_method) : list Z :=
  nth (Z.to_nat (method_num m)) method_strings [].

#[global] Arguments matcher_of : simpl never.
#[global] Arguments TOKEN : simpl never.
#[global] Arguments IS_URL_CHAR : simpl never.
#[global] Arguments IS_ALPHA : simpl never.
#[global] Arguments IS_NUM : simpl never.

(** http_errno_name and http_errno_description; the assertion on the index
    holds of every enumerator ([http_errno_in_table] below). *)
Definition http_errno_name (e : http_errno_t) : list Z :=
  fst (nth (Z.to_nat (errno_num e)) http_strerror_tab ([], [])).
Definition http_errno_description (e : http_errno_t) : list Z :=
  snd (nth (Z.to_nat (errno_num e)) http_strerror_tab ([], [])).

Lemma http_errno_in_table (e : http_errno_t) :
  0 <= errno_num e < Z.of_nat (length http_strerror_tab) /\ http_errno_name e <> [].
Proof. destruct e; by vm_compute. Qed.

(** http_parser_pause; [None] is the failed assertion. *)
Definition http_parser_pause (paused : bool) (p : http_parser) : option http_parser :=
  match hp_http_errno p with
  | HPE_OK | HPE_PAUSED =>
      Some (set_http_errno (if paused then HPE_PAUSED else HPE_OK) p)
  | _ => None
  end.

(** http_body_is_final *)
Definition http_body_is_final (p : http_parser) : bool :=
  match hp_state p with s_message_done => true | _ => false end.

(** * parse_url_char: the URL state machine *)
Definition parse_url_char (s : state) (ch : Z) : state :=
  if (ch =? chr " ") || (ch =? CR) || (ch =? LF) then s_dead
  else if (ch =? TAB) || (ch =? FF) then s_dead
  else
    let server :=
      if ch =? chr "/" then s_req_path
      else if ch =? chr "?" then s_req_query_string_start
      else if ch =? chr "@" then s_req_server_with_at
      else if IS_USERINFO_CHAR ch || (ch =? chr "[") || (ch =? chr "]")
      then s_req_server else s_dead in
    match s with
    | s_req_spaces_before_url =>
        if (ch =? chr "/") || (ch =? chr "*") then s_req_path
        else if IS_ALPHA ch then s_req_schema else s_dead
    | s_req_schema =>
        if IS_ALPHA ch then s
        else if ch =? chr ":" then s_req_schema_slash else s_dead
    | s_req_schema_slash =>
        if ch =? chr "/" then s_req_schema_slash_slash else s_dead
    | s_req_schema_slash_slash =>
        if ch =? chr "/" then s_req_server_start else s_dead
    | s_req_server_with_at =>
        if ch =? chr "@" then s_dead else server
    | s_req_server_start | s_req_server => server
    | s_req_path =>
        if IS_URL_CHAR ch then s
        else if ch =? chr "?" then s_req_query_string_start
        else if ch =? chr "#" then s_req_fragment_start else s_dead
    | s_req_query_string_start | s_req_query_string =>
        if IS_URL_CHAR ch then s_req_query_string
        else if ch =? chr "?" then s_req_query_string
        else if ch =? chr "#" then s_req_fragment_start else s_dead
    | s_req_fragment_start =>
        if IS_URL_CHAR ch then s_req_fragment
        else if ch =? chr "?" then s_req_fragment
        else if ch =? chr "#" then s else s_dead
    | s_req_fragment =>
        if IS_URL_CHAR ch then s
        else if (ch =? chr "?") || (ch =? chr "#") then s else s_dead
    | _ => s_dead
    end.
