(* ===== verification/HttpExec.v ===== *)
(** src/http-parser, http_parser_execute: the callbacks and marks, one definition
    per case of the switch, the label reexecute_byte, the loop over the bytes and
    the callbacks for the marks that are left at the end.

    The callbacks are a parameter, [http_parser_settings]; they change the user
    data and may pause the parser.  An assertion of the code that fails is the
    outcome [Assert_failed]. *)
From S2P Require Import Prelude HttpTypes.

(** * Callbacks and the execution context *)

(** The four strings a message is delivered in: each has a callback, a mark in
    http_parser_execute and an error number. *)
Inductive data_kind := D_header_field | D_header_value | D_url | D_body.

#[export] Instance data_kind_eq_dec : EqDecision data_kind.
Proof. solve_decision. Defined.

(** HPE_CB_##FOR of a data callback *)
Definition data_errno (k : data_kind) : http_errno_t :=
  match k with
  | D_header_field => HPE_CB_header_field
  | D_header_value => HPE_CB_header_value
  | D_url => HPE_CB_url
  | D_body => HPE_CB_body
  end.

Section Exec.
Context {U : Type}.

(** What a callback does: its return value, its last call of
    [http_parser_pause] if it made one, and the new application state.  The
    other fields of the parser are private or read-only for callbacks. *)
Record cb_result := mk_cb {
  cb_ret : Z;
  cb_pause : option bool;
  cb_user : U
}.

Definition http_cb : Type := http_parser -> U -> cb_result.
Definition http_data_cb : Type := http_parser -> list Z -> U -> cb_result.

(** struct http_parser_settings: a NULL callback is [None]. *)
Record http_parser_settings := mk_settings {
  on_message_begin : option http_cb;
  on_url : option http_data_cb;
  on_header_field : option http_data_cb;
  on_header_value : option http_data_cb;
  on_headers_complete : option http_cb;
  on_body : option http_data_cb;
  on_message_complete : option http_cb
}.

(** The variables of http_parser_execute: the parser, [p - data], the four
    marks (as offsets into [data]), and the application state. *)
Record ctx := mk_ctx {
  c_parser : http_parser;
  c_p : Z;
  header_field_mark : option Z;
  header_value_mark : option Z;
  url_mark : option Z;
  body_mark : option Z;
  c_user : U
}.

(** How a piece of the function body leaves: it falls through ([Break]), jumps
    to the label reexecute_byte or error, returns a byte count, or fails an
    assertion.  [Out_of_fuel] is the bound of the model, which no
    run reaches (HttpSafety.v). *)
Inductive outcome :=
  | Break (st : ctx)
  | Goto_reexecute (st : ctx)
  | Goto_error (st : ctx)
  | Return (st : ctx) (n : Z)
  | Assert_failed
  | Out_of_fuel.

(** Sequencing: continue only when the first part fell through. *)
Definition and_then (o : outcome) (k : ctx -> outcome) : outcome :=
  match o with Break st => k st | _ => o end.

(** assert(b) *)
Definition assert_then (b : bool) (k : outcome) : outcome :=
  if b then k else Assert_failed.

Definition upd (f : http_parser -> http_parser) (st : ctx) : ctx :=
  mk_ctx (f (c_parser st)) (c_p st) (header_field_mark st)
    (header_value_mark st) (url_mark st) (body_mark st) (c_user st).

Definition set_p (p : Z) (st : ctx) : ctx :=
  mk_ctx (c_parser st) p (header_field_mark st) (header_value_mark st)
    (url_mark st) (body_mark st) (c_user st).

Definition set_user (u : U) (st : ctx) : ctx :=
  mk_ctx (c_parser st) (c_p st) (header_field_mark st)
    (header_value_mark st) (url_mark st) (body_mark st) u.

Definition get_mark (k : data_kind) (st : ctx) : option Z :=
  match k with
  | D_header_field => header_field_mark st
  | D_header_value => header_value_mark st
  | D_url => url_mark st
  | D_body => body_mark st
  end.

Definition set_mark (k : data_kind) (m : option Z) (st : ctx) : ctx :=
  let pick k' old := if decide (k = k') then m else old in
  mk_ctx (c_parser st) (c_p st)
    (pick D_header_field (header_field_mark st))
    (pick D_header_value (header_value_mark st))
    (pick D_url (url_mark st)) (pick D_body (body_mark st)) (c_user st).

Context (settings : http_parser_settings).
Context (data : list Z).

Definition data_cb (k : data_kind) : option http_data_cb :=
  match k with
  | D_header_field => on_header_field settings
  | D_header_value => on_header_value settings
  | D_url => on_url settings
  | D_body => on_body settings
  end.

Definition errno_ok (p : http_parser) : bool :=
  match hp_http_errno p with HPE_OK => true | _ => false end.

(** SET_ERRNO(e); goto error; *)
Definition fail (e : http_errno_t) (st : ctx) : outcome :=
  Goto_error (upd (set_http_errno e) st).

(** The parser and the application state after a callback returned [r]. *)
Definition after_pause (r : cb_result) (p : http_parser) : http_parser :=
  match cb_pause r with
  | None => p
  | Some b => match http_parser_pause b p with Some p' => p' | None => p end
  end.

Definition after_cb (r : cb_result) (er : http_errno_t) (st : ctx) : ctx :=
  set_user (cb_user r)
    (upd (fun p =>
            let p' := after_pause r p in
            if cb_ret r =? 0 then p' else set_http_errno er p') st).

(** CALLBACK_NOTIFY_(FOR, ER) *)
Definition CALLBACK_NOTIFY_ (cb : option http_cb) (er : http_errno_t) (ER : Z)
    (st : ctx) : outcome :=
  assert_then (errno_ok (c_parser st))
    (match cb with
     | None => Break st
     | Some f =>
         let st' := after_cb (f (c_parser st) (c_user st)) er st in
         if errno_ok (c_parser st') then Break st' else Return st' ER
     end).

(** CALLBACK_DATA_(FOR, LEN, ER), where the data ends at offset [e]:
    LEN is [e - FOR##_mark]. *)
Definition CALLBACK_DATA_ (k : data_kind) (e ER : Z) (st : ctx) : outcome :=
  assert_then (errno_ok (c_parser st))
    (match get_mark k st with
     | None => Break st
     | Some m =>
         match data_cb k with
         | None => Break (set_mark k None st)
         | Some f =>
             let r := f (c_parser st) (slice data m e) (c_user st) in
             let st' := after_cb r (data_errno k) st in
             if errno_ok (c_parser st')
             then Break (set_mark k None st') else Return st' ER
         end
     end).

(** CALLBACK_NOTIFY(FOR) and CALLBACK_DATA(FOR) consume the current byte, the
    NOADVANCE forms do not. *)
Definition CALLBACK_NOTIFY cb er (st : ctx) : outcome :=
  CALLBACK_NOTIFY_ cb er (c_p st + 1) st.
Definition CALLBACK_NOTIFY_NOADVANCE cb er (st : ctx) : outcome :=
  CALLBACK_NOTIFY_ cb er (c_p st) st.
Definition CALLBACK_DATA (k : data_kind) (st : ctx) : outcome :=
  CALLBACK_DATA_ k (c_p st) (c_p st + 1) st.
Definition CALLBACK_DATA_NOADVANCE (k : data_kind) (st : ctx) : outcome :=
  CALLBACK_DATA_ k (c_p st) (c_p st) st.

Definition notify_message_begin : ctx -> outcome :=
  CALLBACK_NOTIFY (on_message_begin settings) HPE_CB_message_begin.
Definition notify_message_complete : ctx -> outcome :=
  CALLBACK_NOTIFY (on_message_complete settings) HPE_CB_message_complete.

(** MARK(FOR): not destructive when the mark is set. *)
Definition MARK (k : data_kind) (st : ctx) : ctx :=
  match get_mark k st with
  | Some _ => st
  | None => set_mark k (Some (c_p st)) st
  end.

(** STRICT_CHECK(cond) with HTTP_PARSER_STRICT *)
Definition STRICT_CHECK (cond : bool) (st : ctx) (k : outcome) : outcome :=
  if cond then fail HPE_STRICT st else k.

(** parser->state = s; break; *)
Definition goto_state (s : state) (st : ctx) : outcome :=
  Break (upd (set_state s) st).

(** v = v * 10 + (ch - '0') on an unsigned short *)
Definition dec_u16 (v ch : Z) : Z := u16 (u16 (v * 10) + (ch - chr "0")).

(** * The switch of http_parser_execute, state by state

    [exec_X st ch] is the [case X] of the switch; [st] is the context when the
    case is entered and [ch] the current byte. *)

(** ** Start of a message *)

Definition exec_s_dead (st : ctx) (ch : Z) : outcome :=
  if (ch =? CR) || (ch =? LF) then Break st else fail HPE_CLOSED_CONNECTION st.

(** parser->flags = 0; parser->content_length = ULLONG_MAX; *)
Definition reset_message : http_parser -> http_parser :=
  fun p => set_content_length ULLONG_MAX (set_flags 0 p).

Definition exec_s_start_req_or_res (st : ctx) (ch : Z) : outcome :=
  if (ch =? CR) || (ch =? LF) then Break st
  else
    let st := upd reset_message st in
    if ch =? chr "H" then
      notify_message_begin (upd (set_state s_res_or_resp_H) st)
    else
      Goto_reexecute (upd (fun p => set_state s_start_req (set_type HTTP_REQUEST p)) st).

Definition exec_s_res_or_resp_H (st : ctx) (ch : Z) : outcome :=
  if ch =? chr "T" then
    Break (upd (fun p => set_state s_res_HT (set_type HTTP_RESPONSE p)) st)
  else if negb (ch =? chr "E") then fail HPE_INVALID_CONSTANT st
  else
    Break (upd (fun p => set_state s_req_method (set_index 2
                 (set_method HTTP_HEAD (set_type HTTP_REQUEST p)))) st).

Definition exec_s_start_res (st : ctx) (ch : Z) : outcome :=
  let st := upd reset_message st in
  if ch =? chr "H" then notify_message_begin (upd (set_state s_res_H) st)
  else if (ch =? CR) || (ch =? LF) then notify_message_begin st
  else fail HPE_INVALID_CONSTANT st.

(** ** Status line of a response *)

(** The states that check one letter of the protocol name. *)
Definition exec_constant (c : Z) (next : state) (st : ctx) (ch : Z) : outcome :=
  STRICT_CHECK (negb (ch =? c)) st (goto_state next st).

Definition exec_s_res_first_http_major (st : ctx) (ch : Z) : outcome :=
  if (ch <? chr "0") || (chr "9" <? ch) then fail HPE_INVALID_VERSION st
  else Break (upd (fun p => set_state s_res_http_major
                     (set_http_major (u16 (ch - chr "0")) p)) st).

(** s_res_http_major and s_req_http_major: major HTTP version or dot *)
Definition exec_http_major (after_dot : state) (st : ctx) (ch : Z) : outcome :=
  if ch =? chr "." then goto_state after_dot st
  else if negb (IS_NUM ch) then fail HPE_INVALID_VERSION st
  else
    let st := upd (fun p => set_http_major (dec_u16 (hp_http_major p) ch) p) st in
    if 999 <? hp_http_major (c_parser st) then fail HPE_INVALID_VERSION st
    else Break st.

(** s_res_first_http_minor and s_req_first_http_minor *)
Definition exec_first_http_minor (next : state) (st : ctx) (ch : Z) : outcome :=
  if negb (IS_NUM ch) then fail HPE_INVALID_VERSION st
  else Break (upd (fun p => set_state next
                     (set_http_minor (u16 (ch - chr "0")) p)) st).

(** The digits of the minor version, common to both minor-version states. *)
Definition exec_minor_digit (st : ctx) (ch : Z) : outcome :=
  if negb (IS_NUM ch) then fail HPE_INVALID_VERSION st
  else
    let st := upd (fun p => set_http_minor (dec_u16 (hp_http_minor p) ch) p) st in
    if 999 <? hp_http_minor (c_parser st) then fail HPE_INVALID_VERSION st
    else Break st.

Definition exec_s_res_http_minor (st : ctx) (ch : Z) : outcome :=
  if ch =? chr " " then goto_state s_res_first_status_code st
  else exec_minor_digit st ch.

Definition exec_s_res_first_status_code (st : ctx) (ch : Z) : outcome :=
  if negb (IS_NUM ch) then
    if ch =? chr " " then Break st else fail HPE_INVALID_STATUS st
  else Break (upd (fun p => set_state s_res_status_code
                     (set_status_code (u16 (ch - chr "0")) p)) st).

Definition exec_s_res_status_code (st : ctx) (ch : Z) : outcome :=
  if negb (IS_NUM ch) then
    if ch =? chr " " then goto_state s_res_status st
    else if ch =? CR then goto_state s_res_line_almost_done st
    else if ch =? LF then goto_state s_header_field_start st
    else fail HPE_INVALID_STATUS st
  else
    let st := upd (fun p => set_status_code (dec_u16 (hp_status_code p) ch) p) st in
    if 999 <? hp_status_code (c_parser st) then fail HPE_INVALID_STATUS st
    else Break st.

Definition exec_s_res_status (st : ctx) (ch : Z) : outcome :=
  if ch =? CR then goto_state s_res_line_almost_done st
  else if ch =? LF then goto_state s_header_field_start st
  else Break st.

Definition exec_s_res_line_almost_done (st : ctx) (ch : Z) : outcome :=
  STRICT_CHECK (negb (ch =? LF)) st (goto_state s_header_field_start st).

(** ** Request line *)

(** The method guessed from the first letter. *)
Definition first_method (ch : Z) : option http_method :=
  if ch =? chr "C" then Some HTTP_CONNECT
  else if ch =? chr "D" then Some HTTP_DELETE
  else if ch =? chr "G" then Some HTTP_GET
  else if ch =? chr "H" then Some HTTP_HEAD
  else if ch =? chr "L" then Some HTTP_LOCK
  else if ch =? chr "M" then Some HTTP_MKCOL
  else if ch =? chr "N" then Some HTTP_NOTIFY
  else if ch =? chr "O" then Some HTTP_OPTIONS
  else if ch =? chr "P" then Some HTTP_POST
  else if ch =? chr "R" then Some HTTP_REPORT
  else if ch =? chr "S" then Some HTTP_SUBSCRIBE
  else if ch =? chr "T" then Some HTTP_TRACE
  else if ch =? chr "U" then Some HTTP_UNLOCK
  else None.

Definition exec_s_start_req (st : ctx) (ch : Z) : outcome :=
  if (ch =? CR) || (ch =? LF) then Break st
  else
    let st := upd reset_message st in
    if negb (IS_ALPHA ch) then fail HPE_INVALID_METHOD st
    else
      let st := upd (fun p => set_index 1 (set_method HTTP_DELETE p)) st in
      match first_method ch with
      | None => fail HPE_INVALID_METHOD st
      | Some m =>
          notify_message_begin
            (upd (fun p => set_state s_req_method (set_method m p)) st)
      end.

(** The chain of s_req_method that follows a mismatch with the current guess:
    [inl m] is the method to go on with, [inr None] is a bare [goto error],
    [inr (Some e)] sets [e] first. *)
Definition switch_method (m : http_method) (index ch : Z) :
    http_method + option http_errno_t :=
  if decide (m = HTTP_CONNECT) then
    if (index =? 1) && (ch =? chr "H") then inl HTTP_CHECKOUT
    else if (index =? 2) && (ch =? chr "P") then inl HTTP_COPY
    else inr None
  else if decide (m = HTTP_MKCOL) then
    if (index =? 1) && (ch =? chr "O") then inl HTTP_MOVE
    else if (index =? 1) && (ch =? chr "E") then inl HTTP_MERGE
    else if (index =? 1) && (ch =? chr "-") then inl HTTP_MSEARCH
    else if (index =? 2) && (ch =? chr "A") then inl HTTP_MKACTIVITY
    else inr None
  else if decide (m = HTTP_SUBSCRIBE) then
    if (index =? 1) && (ch =? chr "E") then inl HTTP_SEARCH
    else inr None
  else if (index =? 1) && bool_decide (m = HTTP_POST) then
    if ch =? chr "R" then inl HTTP_PROPFIND
    else if ch =? chr "U" then inl HTTP_PUT
    else if ch =? chr "A" then inl HTTP_PATCH
    else inr None
  else if index =? 2 then
    if decide (m = HTTP_PUT) then
      if ch =? chr "R" then inl HTTP_PURGE else inl m
    else if decide (m = HTTP_UNLOCK) then
      if ch =? chr "S" then inl HTTP_UNSUBSCRIBE else inl m
    else inl m
  else if (index =? 4) && bool_decide (m = HTTP_PROPFIND) && (ch =? chr "P")
  then inl HTTP_PROPPATCH
  else inr (Some HPE_INVALID_METHOD).

Definition exec_s_req_method (st : ctx) (ch : Z) : outcome :=
  if ch =? 0 then fail HPE_INVALID_METHOD st
  else
    let p := c_parser st in
    let matcher := matcher_of (hp_method p) in
    let next st := Break (upd (fun p => set_index (u8 (hp_index p + 1)) p) st) in
    if (ch =? chr " ") && (cstr_at matcher (hp_index p) =? 0) then
      next (upd (set_state s_req_spaces_before_url) st)
    else if ch =? cstr_at matcher (hp_index p) then next st
    else
      match switch_method (hp_method p) (hp_index p) ch with
      | inl m => next (upd (set_method m) st)
      | inr None => Goto_error st
      | inr (Some e) => fail e st
      end.

(** parser->state = parse_url_char(parser->state, ch), failing in s_dead *)
Definition advance_url (st : ctx) (ch : Z) : outcome :=
  let st := upd (fun p => set_state (parse_url_char (hp_state p) ch) p) st in
  match hp_state (c_parser st) with
  | s_dead => fail HPE_INVALID_URL st
  | _ => Break st
  end.

Definition exec_s_req_spaces_before_url (st : ctx) (ch : Z) : outcome :=
  if ch =? chr " " then Break st
  else
    let st := MARK D_url st in
    let st := if decide (hp_method (c_parser st) = HTTP_CONNECT)
              then upd (set_state s_req_server_start) st else st in
    advance_url st ch.

(** s_req_schema, s_req_schema_slash, s_req_schema_slash_slash and
    s_req_server_start: no whitespace allowed *)
Definition exec_url_prefix (st : ctx) (ch : Z) : outcome :=
  if (ch =? chr " ") || (ch =? CR) || (ch =? LF) then fail HPE_INVALID_URL st
  else advance_url st ch.

(** s_req_server, s_req_server_with_at, s_req_path, s_req_query_string_start,
    s_req_query_string, s_req_fragment_start and s_req_fragment *)
Definition exec_url_rest (st : ctx) (ch : Z) : outcome :=
  if ch =? chr " " then CALLBACK_DATA D_url (upd (set_state s_req_http_start) st)
  else if (ch =? CR) || (ch =? LF) then
    CALLBACK_DATA D_url
      (upd (fun p => set_state (if ch =? CR then s_req_line_almost_done
                                else s_header_field_start)
                       (set_http_minor 9 (set_http_major 0 p))) st)
  else advance_url st ch.

Definition exec_s_req_http_start (st : ctx) (ch : Z) : outcome :=
  if ch =? chr "H" then goto_state s_req_http_H st
  else if ch =? chr " " then Break st
  else fail HPE_INVALID_CONSTANT st.

Definition exec_s_req_first_http_major (st : ctx) (ch : Z) : outcome :=
  if (ch <? chr "1") || (chr "9" <? ch) then fail HPE_INVALID_VERSION st
  else Break (upd (fun p => set_state s_req_http_major
                     (set_http_major (u16 (ch - chr "0")) p)) st).

Definition exec_s_req_http_minor (st : ctx) (ch : Z) : outcome :=
  if ch =? CR then goto_state s_req_line_almost_done st
  else if ch =? LF then goto_state s_header_field_start st
  else exec_minor_digit st ch.

Definition exec_s_req_line_almost_done (st : ctx) (ch : Z) : outcome :=
  if negb (ch =? LF) then fail HPE_LF_EXPECTED st
  else goto_state s_header_field_start st.

(** ** Headers *)

(** The header names that get special treatment, from the first token char. *)
Definition first_header_state (c : Z) : header_states :=
  if c =? chr "c" then h_C
  else if c =? chr "p" then h_matching_proxy_connection
  else if c =? chr "t" then h_matching_transfer_encoding
  else if c =? chr "u" then h_matching_upgrade
  else h_general.

Definition exec_s_header_field_start (st : ctx) (ch : Z) : outcome :=
  if ch =? CR then goto_state s_headers_almost_done st
  else if ch =? LF then Goto_reexecute (upd (set_state s_headers_almost_done) st)
  else
    let c := TOKEN ch in
    if c =? 0 then fail HPE_INVALID_HEADER_TOKEN st
    else
      Break (upd (fun p => set_header_state (first_header_state c)
                    (set_state s_header_field (set_index 0 p)))
               (MARK D_header_field st)).

(** One character of a name or value that is being compared with the literal
    [s]: parser->index++, then h_general on a mismatch, [final] on the last
    character. *)
Definition match_literal (s : list Z) (final : header_states) (c : Z)
    (p : http_parser) : http_parser :=
  let p := set_index (u8 (hp_index p + 1)) p in
  if (sizeof_str s - 1 <? hp_index p) || negb (c =? cstr_at s (hp_index p))
  then set_header_state h_general p
  else if hp_index p =? sizeof_str s - 2 then set_header_state final p
  else p.

(** The switch on header_state for a token character [c] of a field name;
    [None] is the assertion "Unknown header_state". *)
Definition header_field_char (ch c : Z) (p : http_parser) : option http_parser :=
  let incr p := set_index (u8 (hp_index p + 1)) p in
  match hp_header_state p with
  | h_general => Some p
  | h_C => Some (set_header_state (if c =? chr "o" then h_CO else h_general) (incr p))
  | h_CO => Some (set_header_state (if c =? chr "n" then h_CON else h_general) (incr p))
  | h_CON =>
      Some (set_header_state
              (if c =? chr "n" then h_matching_connection
               else if c =? chr "t" then h_matching_content_length
               else h_general) (incr p))
  | h_matching_connection => Some (match_literal CONNECTION h_connection c p)
  | h_matching_proxy_connection =>
      Some (match_literal PROXY_CONNECTION h_connection c p)
  | h_matching_content_length =>
      Some (match_literal CONTENT_LENGTH h_content_length c p)
  | h_matching_transfer_encoding =>
      Some (match_literal TRANSFER_ENCODING h_transfer_encoding c p)
  | h_matching_upgrade => Some (match_literal UPGRADE h_upgrade c p)
  | h_connection | h_content_length | h_transfer_encoding | h_upgrade =>
      Some (if negb (ch =? chr " ") then set_header_state h_general p else p)
  | _ => None
  end.

Definition exec_s_header_field (st : ctx) (ch : Z) : outcome :=
  let c := TOKEN ch in
  if negb (c =? 0) then
    match header_field_char ch c (c_parser st) with
    | Some p => Break (upd (fun _ => p) st)
    | None => Assert_failed
    end
  else if ch =? chr ":" then
    CALLBACK_DATA D_header_field (upd (set_state s_header_value_start) st)
  else if ch =? CR then
    CALLBACK_DATA D_header_field (upd (set_state s_header_almost_done) st)
  else if ch =? LF then
    CALLBACK_DATA D_header_field (upd (set_state s_header_field_start) st)
  else fail HPE_INVALID_HEADER_TOKEN st.

(** The switch of s_header_value_start on header_state; [None] is the
    Content-Length error. *)
Definition header_value_first (ch : Z) (p : http_parser) : option http_parser :=
  let c := LOWER ch in
  match hp_header_state p with
  | h_upgrade => Some (set_header_state h_general (or_flags F_UPGRADE p))
  | h_transfer_encoding =>
      Some (set_header_state
              (if c =? chr "c" then h_matching_transfer_encoding_chunked
               else h_general) p)
  | h_content_length =>
      if negb (IS_NUM ch) then None
      else Some (set_content_length (u64 (ch - chr "0")) p)
  | h_connection =>
      Some (set_header_state
              (if c =? chr "k" then h_matching_connection_keep_alive
               else if c =? chr "c" then h_matching_connection_close
               else h_general) p)
  | _ => Some (set_header_state h_general p)
  end.

Definition exec_s_header_value_start (st : ctx) (ch : Z) : outcome :=
  if (ch =? chr " ") || (ch =? TAB) then Break st
  else
    let st := MARK D_header_value st in
    let st := upd (fun p => set_index 0 (set_state s_header_value p)) st in
    if ch =? CR then
      CALLBACK_DATA D_header_value
        (upd (fun p => set_state s_header_almost_done
                         (set_header_state h_general p)) st)
    else if ch =? LF then
      CALLBACK_DATA D_header_value (upd (set_state s_header_field_start) st)
    else
      match header_value_first ch (c_parser st) with
      | Some p => Break (upd (fun _ => p) st)
      | None => fail HPE_INVALID_CONTENT_LENGTH st
      end.

(** t = v * base + d on an uint64_t, with the overflow test of the source:
    [None] when t < v or t == ULLONG_MAX. *)
Definition accumulate (base v d : Z) : option Z :=
  let t := u64 (u64 (v * base) + d) in
  if (t <? v) || (t =? ULLONG_MAX) then None else Some t.

(** The switch of s_header_value on header_state. *)
Inductive value_result :=
  | Value_ok (p : http_parser)
  | Value_error
  | Value_assert.

Definition header_value_char (ch : Z) (p : http_parser) : value_result :=
  let c := LOWER ch in
  match hp_header_state p with
  | h_general => Value_ok p
  | h_connection | h_transfer_encoding => Value_assert
  | h_content_length =>
      if ch =? chr " " then Value_ok p
      else if negb (IS_NUM ch) then Value_error
      else match accumulate 10 (hp_content_length p) (ch - chr "0") with
           | None => Value_error
           | Some t => Value_ok (set_content_length t p)
           end
  | h_matching_transfer_encoding_chunked =>
      Value_ok (match_literal CHUNKED h_transfer_encoding_chunked c p)
  | h_matching_connection_keep_alive =>
      Value_ok (match_literal KEEP_ALIVE h_connection_keep_alive c p)
  | h_matching_connection_close =>
      Value_ok (match_literal CLOSE h_connection_close c p)
  | h_transfer_encoding_chunked | h_connection_keep_alive | h_connection_close =>
      Value_ok (if negb (ch =? chr " ") then set_header_state h_general p else p)
  | _ => Value_ok (set_header_state h_general (set_state s_header_value p))
  end.

Definition exec_s_header_value (st : ctx) (ch : Z) : outcome :=
  if ch =? CR then
    CALLBACK_DATA D_header_value (upd (set_state s_header_almost_done) st)
  else if ch =? LF then
    and_then
      (CALLBACK_DATA_NOADVANCE D_header_value
         (upd (set_state s_header_almost_done) st))
      Goto_reexecute
  else
    match header_value_char ch (c_parser st) with
    | Value_ok p => Break (upd (fun _ => p) st)
    | Value_error => fail HPE_INVALID_CONTENT_LENGTH st
    | Value_assert => Assert_failed
    end.

Definition exec_s_header_almost_done (st : ctx) (ch : Z) : outcome :=
  STRICT_CHECK (negb (ch =? LF)) st
    (Break (upd (fun p =>
       let p := set_state s_header_value_lws p in
       match hp_header_state p with
       | h_connection_keep_alive => or_flags F_CONNECTION_KEEP_ALIVE p
       | h_connection_close => or_flags F_CONNECTION_CLOSE p
       | h_transfer_encoding_chunked => or_flags F_CHUNKED p
       | _ => p
       end) st)).

Definition exec_s_header_value_lws (st : ctx) (ch : Z) : outcome :=
  if (ch =? chr " ") || (ch =? TAB) then goto_state s_header_value_start st
  else Goto_reexecute (upd (set_state s_header_field_start) st).

(** ** End of the headers *)

(** The call of on_headers_complete: 1 asks to skip the body, any other
    non-zero value is an error; a pause is noticed afterwards. *)
Definition call_headers_complete (st : ctx) : outcome :=
  match on_headers_complete settings with
  | None => Break st
  | Some f =>
      let r := f (c_parser st) (c_user st) in
      let st := set_user (cb_user r) (upd (after_pause r) st) in
      if cb_ret r =? 0 then Break st
      else if cb_ret r =? 1 then Break (upd (or_flags F_SKIPBODY) st)
      else Return (upd (set_http_errno HPE_CB_headers_complete) st) (c_p st)
  end.

Definition exec_s_headers_almost_done (st : ctx) (ch : Z) : outcome :=
  STRICT_CHECK (negb (ch =? LF)) st
    (if has_flag (hp_flags (c_parser st)) F_TRAILING then
       notify_message_complete (upd (fun p => set_state (NEW_MESSAGE p) p) st)
     else
       let st := upd (set_state s_headers_done) st in
       let st := upd (fun p => set_upgrade
                        (has_flag (hp_flags p) F_UPGRADE ||
                         bool_decide (hp_method p = HTTP_CONNECT)) p) st in
       and_then (call_headers_complete st) (fun st =>
         if negb (errno_ok (c_parser st)) then Return st (c_p st)
         else Goto_reexecute st)).

Definition exec_s_headers_done (st : ctx) (ch : Z) : outcome :=
  let new_message st :=
    notify_message_complete (upd (fun p => set_state (NEW_MESSAGE p) p) st) in
  STRICT_CHECK (negb (ch =? LF)) st
    (let st := upd (set_nread 0) st in
     let p := c_parser st in
     if hp_upgrade p then goto_state s_body_identity_eof st
     else if has_flag (hp_flags p) F_SKIPBODY then new_message st
     else if has_flag (hp_flags p) F_CHUNKED then goto_state s_chunk_size_start st
     else if hp_content_length p =? 0 then new_message st
     else if negb (hp_content_length p =? ULLONG_MAX) then
       goto_state s_body_identity st
     else if is_request p || negb (http_message_needs_eof p) then new_message st
     else goto_state s_body_identity_eof st).

(** ** Bodies *)

Definition len : Z := zlen data.

(** MIN(parser->content_length, (data + len) - p) *)
Definition to_read (st : ctx) : Z :=
  Z.min (hp_content_length (c_parser st)) (len - c_p st).

(** MARK(body); parser->content_length -= to_read; p += to_read - 1; *)
Definition take_body (st : ctx) : ctx :=
  let n := to_read st in
  let st := MARK D_body st in
  set_p (c_p st + (n - 1))
    (upd (fun p => set_content_length (u64 (hp_content_length p - n)) p) st).

Definition content_length_known (p : http_parser) : bool :=
  negb (hp_content_length p =? 0) && negb (hp_content_length p =? ULLONG_MAX).

Definition exec_s_body_identity (st : ctx) (ch : Z) : outcome :=
  assert_then (content_length_known (c_parser st))
    (let st := take_body st in
     if hp_content_length (c_parser st) =? 0 then
       let st := upd (set_state s_message_done) st in
       and_then (CALLBACK_DATA_ D_body (c_p st + 1) (c_p st) st) Goto_reexecute
     else Break st).

Definition exec_s_body_identity_eof (st : ctx) (ch : Z) : outcome :=
  Break (set_p (len - 1) (MARK D_body st)).

Definition exec_s_message_done (st : ctx) (ch : Z) : outcome :=
  notify_message_complete (upd (fun p => set_state (NEW_MESSAGE p) p) st).

(** ** Chunked bodies *)

Definition is_chunked (st : ctx) : bool :=
  has_flag (hp_flags (c_parser st)) F_CHUNKED.

Definition unhex_val (ch : Z) : Z := zth unhex (u8 ch).

Definition exec_s_chunk_size_start (st : ctx) (ch : Z) : outcome :=
  assert_then (hp_nread (c_parser st) =? 1)
  (assert_then (is_chunked st)
    (if unhex_val ch =? -1 then fail HPE_INVALID_CHUNK_SIZE st
     else Break (upd (fun p => set_state s_chunk_size
                        (set_content_length (u64 (unhex_val ch)) p)) st))).

Definition exec_s_chunk_size (st : ctx) (ch : Z) : outcome :=
  assert_then (is_chunked st)
    (if ch =? CR then goto_state s_chunk_size_almost_done st
     else if unhex_val ch =? -1 then
       if (ch =? chr ";") || (ch =? chr " ") then goto_state s_chunk_parameters st
       else fail HPE_INVALID_CHUNK_SIZE st
     else
       match accumulate 16 (hp_content_length (c_parser st)) (unhex_val ch) with
       | None => fail HPE_INVALID_CONTENT_LENGTH st
       | Some t => Break (upd (set_content_length t) st)
       end).

Definition exec_s_chunk_parameters (st : ctx) (ch : Z) : outcome :=
  assert_then (is_chunked st)
    (if ch =? CR then goto_state s_chunk_size_almost_done st else Break st).

Definition exec_s_chunk_size_almost_done (st : ctx) (ch : Z) : outcome :=
  assert_then (is_chunked st)
    (STRICT_CHECK (negb (ch =? LF)) st
       (let st := upd (set_nread 0) st in
        if hp_content_length (c_parser st) =? 0
        then Break (upd (fun p => set_state s_header_field_start
                           (or_flags F_TRAILING p)) st)
        else goto_state s_chunk_data st)).

Definition exec_s_chunk_data (st : ctx) (ch : Z) : outcome :=
  assert_then (is_chunked st)
  (assert_then (content_length_known (c_parser st))
    (let st := take_body st in
     if hp_content_length (c_parser st) =? 0
     then goto_state s_chunk_data_almost_done st else Break st)).

Definition exec_s_chunk_data_almost_done (st : ctx) (ch : Z) : outcome :=
  assert_then (is_chunked st)
  (assert_then (hp_content_length (c_parser st) =? 0)
    (STRICT_CHECK (negb (ch =? CR)) st
       (CALLBACK_DATA D_body (upd (set_state s_chunk_data_done) st)))).

Definition exec_s_chunk_data_done (st : ctx) (ch : Z) : outcome :=
  assert_then (is_chunked st)
    (STRICT_CHECK (negb (ch =? LF)) st
       (Break (upd (fun p => set_state s_chunk_size_start (set_nread 0 p)) st))).

(** * The switch, the loop and the function *)

Definition exec_switch (st : ctx) (ch : Z) : outcome :=
  match hp_state (c_parser st) with
  | s_dead => exec_s_dead st ch
  | s_start_req_or_res => exec_s_start_req_or_res st ch
  | s_res_or_resp_H => exec_s_res_or_resp_H st ch
  | s_start_res => exec_s_start_res st ch
  | s_res_H => exec_constant (chr "T") s_res_HT st ch
  | s_res_HT => exec_constant (chr "T") s_res_HTT st ch
  | s_res_HTT => exec_constant (chr "P") s_res_HTTP st ch
  | s_res_HTTP => exec_constant (chr "/") s_res_first_http_major st ch
  | s_res_first_http_major => exec_s_res_first_http_major st ch
  | s_res_http_major => exec_http_major s_res_first_http_minor st ch
  | s_res_first_http_minor => exec_first_http_minor s_res_http_minor st ch
  | s_res_http_minor => exec_s_res_http_minor st ch
  | s_res_first_status_code => exec_s_res_first_status_code st ch
  | s_res_status_code => exec_s_res_status_code st ch
  | s_res_status => exec_s_res_status st ch
  | s_res_line_almost_done => exec_s_res_line_almost_done st ch
  | s_start_req => exec_s_start_req st ch
  | s_req_method => exec_s_req_method st ch
  | s_req_spaces_before_url => exec_s_req_spaces_before_url st ch
  | s_req_schema | s_req_schema_slash | s_req_schema_slash_slash
  | s_req_server_start => exec_url_prefix st ch
  | s_req_server | s_req_server_with_at | s_req_path
  | s_req_query_string_start | s_req_query_string
  | s_req_fragment_start | s_req_fragment => exec_url_rest st ch
  | s_req_http_start => exec_s_req_http_start st ch
  | s_req_http_H => exec_constant (chr "T") s_req_http_HT st ch
  | s_req_http_HT => exec_constant (chr "T") s_req_http_HTT st ch
  | s_req_http_HTT => exec_constant (chr "P") s_req_http_HTTP st ch
  | s_req_http_HTTP => exec_constant (chr "/") s_req_first_http_major st ch
  | s_req_first_http_major => exec_s_req_first_http_major st ch
  | s_req_http_major => exec_http_major s_req_first_http_minor st ch
  | s_req_first_http_minor => exec_first_http_minor s_req_http_minor st ch
  | s_req_http_minor => exec_s_req_http_minor st ch
  | s_req_line_almost_done => exec_s_req_line_almost_done st ch
  | s_header_field_start => exec_s_header_field_start st ch
  | s_header_field => exec_s_header_field st ch
  | s_header_value_start => exec_s_header_value_start st ch
  | s_header_value => exec_s_header_value st ch
  | s_header_almost_done => exec_s_header_almost_done st ch
  | s_header_value_lws => exec_s_header_value_lws st ch
  | s_headers_almost_done => exec_s_headers_almost_done st ch
  | s_headers_done => exec_s_headers_done st ch
  | s_body_identity => exec_s_body_identity st ch
  | s_body_identity_eof => exec_s_body_identity_eof st ch
  | s_message_done => exec_s_message_done st ch
  | s_chunk_size_start => exec_s_chunk_size_start st ch
  | s_chunk_size => exec_s_chunk_size st ch
  | s_chunk_parameters => exec_s_chunk_parameters st ch
  | s_chunk_size_almost_done => exec_s_chunk_size_almost_done st ch
  | s_chunk_data => exec_s_chunk_data st ch
  | s_chunk_data_almost_done => exec_s_chunk_data_almost_done st ch
  | s_chunk_data_done => exec_s_chunk_data_done st ch
  end.

(** The head of the loop body: count header bytes, refuse too many. *)
Definition count_header_byte (st : ctx) : outcome :=
  if PARSING_HEADER (hp_state (c_parser st)) then
    let st := upd (fun p => set_nread (u32 (hp_nread p + 1)) p) st in
    if HTTP_MAX_HEADER_SIZE <? hp_nread (c_parser st)
    then fail HPE_HEADER_OVERFLOW st else Break st
  else Break st.

(** reexecute_byte: the byte [ch] is not read again. *)
Fixpoint reexecute_byte (fuel : nat) (st : ctx) (ch : Z) : outcome :=
  match exec_switch st ch with
  | Goto_reexecute st' =>
      match fuel with O => Out_of_fuel | S f => reexecute_byte f st' ch end
  | o => o
  end.

(** At most three jumps to reexecute_byte per byte ([reexecute_fuel_enough]). *)
Definition REEXEC_FUEL : nat := 3.

Definition exec_byte (st : ctx) : outcome :=
  and_then (count_header_byte st)
    (fun st' => reexecute_byte REEXEC_FUEL st' (zth data (c_p st))).

(** for (p = data; p != data + len; p++) *)
Fixpoint exec_loop (fuel : nat) (st : ctx) : outcome :=
  if c_p st =? len then Break st
  else match fuel with
       | O => Out_of_fuel
       | S f => and_then (exec_byte st)
                  (fun st' => exec_loop f (set_p (c_p st' + 1) st'))
       end.

(** How a call of the function ends. *)
Inductive exec_result :=
  | Returned (p : http_parser) (u : U) (n : Z)
  | Aborted
  | Diverged.

Definition mark_count (st : ctx) : Z :=
  let one m := match m with Some _ => 1 | None => 0 end in
  one (header_field_mark st) + one (header_value_mark st) +
  one (url_mark st) + one (body_mark st).

(** The callbacks for the marks left when the bytes ran out. *)
Definition flush_marks (st : ctx) : outcome :=
  assert_then (mark_count st <=? 1)
    (and_then (CALLBACK_DATA_NOADVANCE D_header_field st) (fun st =>
     and_then (CALLBACK_DATA_NOADVANCE D_header_value st) (fun st =>
     and_then (CALLBACK_DATA_NOADVANCE D_url st) (fun st =>
     and_then (CALLBACK_DATA_NOADVANCE D_body st) (fun st =>
     Return st len))))).

(** The label error: HPE_UNKNOWN when no error was set. *)
Definition finish (o : outcome) : exec_result :=
  match o with
  | Break st => Returned (c_parser st) (c_user st) (c_p st)
  | Return st n => Returned (c_parser st) (c_user st) n
  | Goto_error st =>
      let p := c_parser st in
      Returned (if errno_ok p then set_http_errno HPE_UNKNOWN p else p)
        (c_user st) (c_p st)
  | Assert_failed => Aborted
  | Goto_reexecute _ | Out_of_fuel => Diverged
  end.

Definition is_url_state (s : state) : bool :=
  match s with
  | s_req_path | s_req_schema | s_req_schema_slash | s_req_schema_slash_slash
  | s_req_server_start | s_req_server | s_req_server_with_at
  | s_req_query_string_start | s_req_query_string | s_req_fragment_start
  | s_req_fragment => true
  | _ => false
  end.

(** The marks at entry: a string that was being read continues at [data]. *)
Definition initial_ctx (p : http_parser) (u : U) : ctx :=
  let here b := if b : bool then Some 0 else None in
  mk_ctx p 0
    (here (bool_decide (hp_state p = s_header_field)))
    (here (bool_decide (hp_state p = s_header_value)))
    (here (is_url_state (hp_state p))) None u.

(** The call with len == 0: end of the input. *)
Definition execute_eof (p : http_parser) (u : U) : outcome :=
  let st := mk_ctx p 0 None None None None u in
  match hp_state p with
  | s_body_identity_eof =>
      and_then
        (CALLBACK_NOTIFY_NOADVANCE (on_message_complete settings)
           HPE_CB_message_complete st)
        (fun st => Return st 0)
  | s_dead | s_start_req_or_res | s_start_res | s_start_req => Return st 0
  | _ => Return (upd (set_http_errno HPE_INVALID_EOF_STATE) st) 1
  end.

Definition http_parser_execute (p : http_parser) (u : U) : exec_result :=
  if negb (errno_ok p) then Returned p u 0
  else if len =? 0 then finish (execute_eof p u)
  else finish (and_then (exec_loop (length data) (initial_ctx p u)) flush_marks).

End Exec.



Arguments cb_result U : clear implicits.
Arguments http_parser_settings U : clear implicits.
Arguments ctx U : clear implicits.
Arguments outcome U : clear implicits.
Arguments exec_result U : clear implicits.
