(* ===== verification/HttpInv.v ===== *)
(** src/http-parser, the invariants: what holds of a parser between two calls
    ([parser_inv]) and inside the loop ([ctx_inv]), with the lemmas on character
    classes, marks and callbacks that the cases of the switch share. *)
From S2P Require Import Prelude HttpTypes HttpExec.

(** * The invariant of a parser between two calls *)

(** header_state while a field name is read. *)
Definition field_state (h : header_states) : bool :=
  match h with
  | h_general | h_C | h_CO | h_CON | h_matching_connection
  | h_matching_proxy_connection | h_matching_content_length
  | h_matching_transfer_encoding | h_matching_upgrade | h_connection
  | h_content_length | h_transfer_encoding | h_upgrade => true
  | _ => false
  end.

(** header_state while a field value is read. *)
Definition value_state (h : header_states) : bool :=
  match h with
  | h_general | h_content_length | h_matching_transfer_encoding_chunked
  | h_matching_connection_keep_alive | h_matching_connection_close
  | h_transfer_encoding_chunked | h_connection_keep_alive
  | h_connection_close => true
  | _ => false
  end.

Definition chunked_flag (p : http_parser) : Prop :=
  has_flag (hp_flags p) F_CHUNKED = true.

(** What each state says about the other fields.  [n0] is the header-byte count
    in s_chunk_size_start: 0 between bytes, 1 once the byte was counted. *)
Definition state_inv (n0 : Z) (p : http_parser) : Prop :=
  match hp_state p with
  | s_req_method => 1 <= hp_index p <= zlen (matcher_of (hp_method p))
  | s_header_field => field_state (hp_header_state p) = true
  | s_header_value => value_state (hp_header_state p) = true
  | s_chunk_size_start => hp_nread p = n0 /\ chunked_flag p
  | s_chunk_size | s_chunk_parameters | s_chunk_size_almost_done =>
      chunked_flag p /\ hp_content_length p < ULLONG_MAX
  | s_chunk_data => chunked_flag p /\ 0 < hp_content_length p < ULLONG_MAX
  | s_chunk_data_almost_done => chunked_flag p /\ hp_content_length p = 0
  | s_chunk_data_done => chunked_flag p
  | s_body_identity => 0 < hp_content_length p < ULLONG_MAX
  | _ => True
  end.

Record parser_inv (n0 : Z) (p : http_parser) : Prop := mk_parser_inv {
  inv_flags : 0 <= hp_flags p < 64;
  inv_index : 0 <= hp_index p < 256;
  inv_nread : 0 <= hp_nread p <= HTTP_MAX_HEADER_SIZE;
  inv_content_length : 0 <= hp_content_length p < 2 ^ 64;
  inv_major : 0 <= hp_http_major p <= 999;
  inv_minor : 0 <= hp_http_minor p <= 999;
  inv_status : 0 <= hp_status_code p <= 999;
  inv_state : state_inv n0 p
}.

(** An arbitrary call of the API leaves a parser in this condition: the fields
    are consistent unless an error (other than a pause) was recorded. *)
Definition resumable (e : http_errno_t) : bool :=
  match e with HPE_OK | HPE_PAUSED => true | _ => false end.

Definition parser_ok (p : http_parser) : Prop :=
  resumable (hp_http_errno p) = true -> parser_inv 0 p.

Lemma init_ok t : parser_inv 0 (http_parser_init t).
Proof. unfold HTTP_MAX_HEADER_SIZE. destruct t; split; simpl; (lia || done). Qed.

Lemma parser_inv_errno n0 e p :
  parser_inv n0 p -> parser_inv n0 (set_http_errno e p).
Proof. intros []; destruct p; split; assumption. Qed.

(** * Facts about the fields the state machine computes *)

Lemma or_flags_range a b : 0 <= a < 64 -> 0 <= b < 64 -> 0 <= Z.lor a b < 64.
Proof. apply (lor_range 6); lia. Qed.

(** The three states a finished message can leave the parser in. *)
Lemma NEW_MESSAGE_cases p :
  NEW_MESSAGE p = s_start_req \/ NEW_MESSAGE p = s_start_res \/ NEW_MESSAGE p = s_dead.
Proof.
  unfold NEW_MESSAGE, start_state. destruct (http_should_keep_alive p), (is_request p); auto.
Qed.

(** The URL machine stays in URL states or dies. *)
Lemma parse_url_char_cases s ch :
  parse_url_char s ch = s_dead \/ is_url_state (parse_url_char s ch) = true.
Proof. unfold parse_url_char. split_cases; auto. Qed.

Lemma url_state_inv n0 p : is_url_state (hp_state p) = true -> state_inv n0 p.
Proof. unfold state_inv. by destruct (hp_state p). Qed.

Lemma IS_NUM_digit ch : IS_NUM ch = true -> 0 <= ch - chr "0" <= 9.
Proof. unfold IS_NUM. intros. zbool. lia. Qed.

Lemma digits_value_nonneg l acc : 0 <= acc -> 0 <= digits_value acc l.
Proof.
  revert acc. induction l as [|x l IH]; intros acc Ha; simpl; [done|].
  destruct (IS_NUM x) eqn:E; [|done]. apply IH. apply IS_NUM_digit in E. lia.
Qed.

Lemma dec_u16_nonneg v ch : 0 <= dec_u16 v ch.
Proof. apply u16_range. Qed.

Lemma u16_digit ch : 48 <= ch <= 57 -> 0 <= u16 (ch - 48) <= 999.
Proof. intros. rewrite u16_small; lia. Qed.

Lemma accumulate_range base v d t :
  accumulate base v d = Some t -> 0 <= t < ULLONG_MAX.
Proof.
  unfold accumulate, ULLONG_MAX. intros. case_match; simplify_eq. zbool.
  pose proof (u64_range (u64 (v * base) + d)). lia.
Qed.

(** The values the table [unhex] can give. *)
Lemma unhex_range ch : -1 <= unhex_val ch <= 15.
Proof.
  unfold unhex_val, zth. destruct (_ <? 0); [lia|].
  assert (Forall (fun v => -1 <= v <= 15) unhex) as Hall.
  { apply (bool_decide_unpack _). by vm_compute. }
  destruct (nth_in_or_default (Z.to_nat (u8 ch)) unhex 0) as [Hin| ->]; [|lia].
  rewrite Forall_forall in Hall. apply Hall. by apply list_elem_of_In.
Qed.

(** * The invariant of the loop *)

(** The states in which each mark can be set. *)
Definition mark_state (k : data_kind) (s : state) : bool :=
  match k with
  | D_header_field => match s with s_header_field => true | _ => false end
  | D_header_value => match s with s_header_value => true | _ => false end
  | D_url => is_url_state s
  | D_body =>
      match s with
      | s_body_identity | s_body_identity_eof | s_chunk_data
      | s_chunk_data_almost_done => true
      | _ => false
      end
  end.

Section Invariant.
Context {U : Type}.
Context (settings : http_parser_settings U) (data : list Z).

(** A set mark is a position already passed, in a state that reads its string;
    outside bodies the mark is set whenever such a state is reached. *)
Definition mark_inv (k : data_kind) (st : ctx U) : Prop :=
  match get_mark k st with
  | Some m => 0 <= m <= c_p st /\ mark_state k (hp_state (c_parser st)) = true
  | None => k = D_body \/ mark_state k (hp_state (c_parser st)) = false
  end.

Definition marks_inv (st : ctx U) : Prop := forall k, mark_inv k st.

Record ctx_inv (n0 : Z) (st : ctx U) : Prop := mk_ctx_inv {
  ci_parser : parser_inv n0 (c_parser st);
  ci_errno : hp_http_errno (c_parser st) = HPE_OK;
  ci_p : 0 <= c_p st < zlen data;
  ci_marks : marks_inv st
}.

(** How often a byte can still be re-executed from a state. *)
Definition reexec_rank (s : state) : nat :=
  match s with
  | s_start_req_or_res | s_header_value | s_body_identity | s_headers_almost_done => 1
  | s_header_field_start => 2
  | s_header_value_lws => 3
  | _ => 0
  end.

(** What the switch guarantees about each way of leaving it. *)
Definition switch_ok (st : ctx U) (o : outcome U) : Prop :=
  match o with
  | Break st' => ctx_inv 0 st' /\ c_p st <= c_p st'
  | Goto_reexecute st' =>
      ctx_inv 1 st' /\ c_p st <= c_p st' /\
      (reexec_rank (hp_state (c_parser st')) < reexec_rank (hp_state (c_parser st)))%nat
  | Goto_error st' =>
      c_p st <= c_p st' < zlen data /\ hp_http_errno (c_parser st') <> HPE_PAUSED
  | Return st' n =>
      parser_inv 0 (c_parser st') /\ hp_http_errno (c_parser st') <> HPE_OK /\
      c_p st <= n <= zlen data
  | Assert_failed | Out_of_fuel => False
  end.

(** * The callbacks preserve the invariant *)

Lemma after_pause_errno (r : cb_result U) p :
  exists e, after_pause r p = set_http_errno e p.
Proof.
  unfold after_pause, http_parser_pause.
  destruct p as [? ? ? ? ? ? ? ? ? ? ? e ?]; simpl.
  destruct (cb_pause r) as [b|]; [destruct e|]; eexists; reflexivity.
Qed.

(** A callback changes nothing of the parser but http_errno. *)
Lemma after_cb_spec (r : cb_result U) er (st : ctx U) :
  exists e, after_cb r er st =
    set_user (cb_user r) (upd (set_http_errno e) st).
Proof.
  unfold after_cb, upd. destruct (after_pause_errno r (c_parser st)) as [e ->].
  destruct st as [p ? ? ? ? ? ?]; destruct p; simpl.
  destruct (cb_ret r =? 0); eexists; reflexivity.
Qed.

Lemma errno_ok_true p : errno_ok p = true <-> hp_http_errno p = HPE_OK.
Proof. unfold errno_ok. split; [by case_match|by intros ->]. Qed.

Lemma errno_ok_false p : errno_ok p = false <-> hp_http_errno p <> HPE_OK.
Proof. rewrite <- errno_ok_true. by destruct (errno_ok p). Qed.

Definition same_place (st st' : ctx U) : Prop :=
  c_p st' = c_p st /\ hp_state (c_parser st') = hp_state (c_parser st).

(** A callback falls through with the invariant, or returns with an error
    number set. *)
Definition callback_ok (st : ctx U) (ER : Z) (o : outcome U) : Prop :=
  match o with
  | Break st' => ctx_inv 0 st' /\ same_place st st'
  | Return st' n =>
      parser_inv 0 (c_parser st') /\ hp_http_errno (c_parser st') <> HPE_OK /\
      n = ER
  | _ => False
  end.

Lemma ctx_inv_after_cb r er st :
  ctx_inv 0 st -> errno_ok (c_parser (after_cb r er st)) = true ->
  ctx_inv 0 (after_cb r er st).
Proof.
  intros [Hp He Hpos Hm] Hok. destruct (after_cb_spec r er st) as [e Heq].
  rewrite Heq in *. apply errno_ok_true in Hok.
  split; [by apply parser_inv_errno|done|done|].
  intros k. specialize (Hm k). by destruct k.
Qed.

Lemma notify_ok cb er ER st :
  ctx_inv 0 st -> callback_ok st ER (CALLBACK_NOTIFY_ cb er ER st).
Proof.
  intros H. pose proof (ci_errno _ _ H) as He%errno_ok_true.
  unfold CALLBACK_NOTIFY_, assert_then. rewrite He.
  destruct cb as [f|]; [|by split].
  set (r := f _ _). destruct (after_cb_spec r er st) as [e Heq].
  destruct (errno_ok (c_parser (after_cb r er st))) eqn:Hok.
  - split; [by apply ctx_inv_after_cb|]. by rewrite Heq.
  - apply errno_ok_false in Hok. split; [|done].
    rewrite Heq. apply parser_inv_errno, H.
Qed.

(** The precondition of a data callback: the state has already moved on, so
    every mark but the one being delivered agrees with it. *)
Record data_pre (k : data_kind) (st : ctx U) : Prop := mk_data_pre {
  dp_parser : parser_inv 0 (c_parser st);
  dp_errno : hp_http_errno (c_parser st) = HPE_OK;
  dp_p : 0 <= c_p st < zlen data;
  dp_marks : forall k', k' <> k -> mark_inv k' st;
  dp_mark : k = D_body \/ mark_state k (hp_state (c_parser st)) = false
}.

Lemma data_pre_clear k st : data_pre k st -> ctx_inv 0 (set_mark k None st).
Proof.
  intros [Hp He Hpos Hm Hk]. split; try done.
  intros k'. destruct (decide (k' = k)) as [->|Hne].
  - unfold mark_inv. by destruct k.
  - specialize (Hm k' Hne). destruct k, k'; done.
Qed.

Lemma data_ok k e ER st :
  data_pre k st -> callback_ok st ER (CALLBACK_DATA_ settings data k e ER st).
Proof.
  intros H. pose proof (dp_errno _ _ H) as He%errno_ok_true.
  unfold CALLBACK_DATA_, assert_then. rewrite He.
  destruct (get_mark k st) as [m|] eqn:Hmark.
  2:{ split; [|done]. destruct H as [Hp ? ? Hm Hk]. split; try done.
      intros k'. destruct (decide (k' = k)) as [->|]; [|by apply Hm].
      unfold mark_inv. by rewrite Hmark. }
  pose proof (data_pre_clear k st H) as Hclear.
  destruct (data_cb settings k) as [f|]; [|by split].
  set (r := f _ _ _). destruct (after_cb_spec r (data_errno k) st) as [e' Heq].
  assert (set_mark k None (after_cb r (data_errno k) st) =
          after_cb r (data_errno k) (set_mark k None st)) as Hcomm by (by destruct k).
  destruct (errno_ok (c_parser (after_cb r _ st))) eqn:Hok.
  - split; [|by rewrite Heq]. rewrite Hcomm. apply ctx_inv_after_cb; [done|].
    rewrite <- Hcomm. by destruct k.
  - apply errno_ok_false in Hok. split; [|done].
    rewrite Heq. apply parser_inv_errno, H.
Qed.

(** The two lemmas in the form the switch uses them. *)
Lemma switch_notify cb er st0 st :
  ctx_inv 0 st -> c_p st0 <= c_p st ->
  switch_ok st0 (CALLBACK_NOTIFY cb er st).
Proof.
  intros H Hle. pose proof (notify_ok cb er (c_p st + 1) st H) as Hok.
  pose proof (ci_p _ _ H).
  unfold CALLBACK_NOTIFY. destruct (CALLBACK_NOTIFY_ _ _ _ _); simpl in *; try done.
  - destruct Hok as [? [-> _]]. by split.
  - destruct Hok as (? & ? & ->). split_and!; [done..|lia|lia].
Qed.

Lemma switch_data k st0 st :
  data_pre k st -> c_p st0 <= c_p st ->
  switch_ok st0 (CALLBACK_DATA settings data k st).
Proof.
  intros H Hle. pose proof (data_ok k (c_p st) (c_p st + 1) st H) as Hok.
  pose proof (dp_p _ _ H).
  unfold CALLBACK_DATA. destruct (CALLBACK_DATA_ _ _ _ _ _ _); simpl in *; try done.
  - destruct Hok as [? [-> _]]. by split.
  - destruct Hok as (? & ? & ->). split_and!; [done..|lia|lia].
Qed.

(** Outside s_chunk_size_start the counter [n0] does not matter. *)
Lemma ctx_inv_counter n0 n1 st :
  hp_state (c_parser st) <> s_chunk_size_start ->
  ctx_inv n0 st -> ctx_inv n1 st.
Proof.
  intros Hs [Hp He Hpos Hm]. split; try done.
  destruct Hp as [? ? ? ? ? ? ? Hst]. split; try done.
  unfold state_inv in *. by destruct (hp_state (c_parser st)).
Qed.

Lemma switch_data_reexec k e st0 st :
  data_pre k st -> c_p st0 <= c_p st ->
  hp_state (c_parser st) <> s_chunk_size_start ->
  (reexec_rank (hp_state (c_parser st)) <
   reexec_rank (hp_state (c_parser st0)))%nat ->
  switch_ok st0
    (and_then (CALLBACK_DATA_ settings data k e (c_p st) st) Goto_reexecute).
Proof.
  intros H Hle Hs Hr. pose proof (data_ok k e (c_p st) st H) as Hok.
  pose proof (dp_p _ _ H).
  destruct (CALLBACK_DATA_ _ _ _ _ _ _) as [st'| | |st' n| |]; simpl in *; try done.
  - destruct Hok as [Hinv [Hpeq Hst]]. rewrite Hst, Hpeq.
    split_and!; [|done..]. apply (ctx_inv_counter 0); [by rewrite Hst|done].
  - destruct Hok as (? & ? & ->). split_and!; [done..|lia|lia].
Qed.

(** * Every case of the switch preserves the invariant *)

(** Moving the state: parser_inv without its state part. *)
Lemma parser_inv_goto n0 n1 s p :
  parser_inv n0 p -> state_inv n1 (set_state s p) -> parser_inv n1 (set_state s p).
Proof. intros [] Hs. destruct p; split; assumption. Qed.
End Invariant.

(** Open a context that satisfies the invariant: name its fields and decide
    every mark from the state. *)
Ltac open_ctx :=
  match goal with
  | H : ctx_inv ?data ?n ?st |- _ =>
      let Hp := fresh "Hp" in let He := fresh "He" in
      let Hpos := fresh "Hpos" in let Hm := fresh "Hm" in
      destruct H as [Hp He Hpos Hm];
      pose proof (Hm D_header_field); pose proof (Hm D_header_value);
      pose proof (Hm D_url); pose proof (Hm D_body); clear Hm;
      destruct Hp as [Hfl Hix Hnr Hcl Hma Hmi Hsc Hst];
      destruct st as [[ty fl s hs ix nr cl ma mi sc me er up] pos hf hv um bm u];
      unfold mark_inv, state_inv, HTTP_MAX_HEADER_SIZE in *; simpl in *; simplify_eq/=;
      destruct hf, hv, um, bm; simpl in *;
      repeat match goal with
      | H : D_body = D_body \/ _ |- _ => clear H
      | H : False |- _ => destruct H
      | H : _ \/ _ |- _ => destruct H; discriminate
      | H : _ /\ false = true |- _ => destruct H; discriminate
      | H : _ /\ true = true |- _ => destruct H as [H _]
      end
  end.

(** Close a goal about the fields of an explicit parser or context. *)
Ltac field_goal :=
  simpl; unfold state_inv, mark_inv, HTTP_MAX_HEADER_SIZE, ULLONG_MAX in *; simpl in *;
  first [ done | lia | by auto | by left | by right
        | by apply or_flags_range; unfold F_CHUNKED, F_CONNECTION_KEEP_ALIVE,
               F_CONNECTION_CLOSE, F_TRAILING, F_UPGRADE, F_SKIPBODY; simpl; lia
        | by split; [apply dec_u16_nonneg | lia]
        | by apply u16_digit; match goal with H : IS_NUM _ = true |- _ =>
                                apply IS_NUM_digit in H end; lia
        | by apply u16_digit; lia
        | by split; first [done | lia] ].

Ltac solve_ctx :=
  match goal with
  | |- ctx_inv _ _ _ => split; [solve_ctx|field_goal|field_goal|solve_ctx]
  | |- parser_inv _ _ => split; try field_goal
  | |- data_pre _ _ _ =>
      split; [solve_ctx|field_goal|field_goal
             |intros [] ?; try done; try field_goal|field_goal]
  | |- marks_inv _ => intros []; try field_goal
  end.

(** Take the cases of the code and close those that only move fields. *)
Ltac run_case :=
  unfold notify_message_begin, notify_message_complete, reset_message,
    goto_state, fail, STRICT_CHECK, assert_then; simpl;
  repeat (case_match; simpl; simplify_eq/=);
  zbool;
  lazymatch goal with
  | |- switch_ok _ _ (CALLBACK_NOTIFY _ _ _) => idtac
  | |- switch_ok _ _ (CALLBACK_DATA _ _ _ _) => idtac
  | |- switch_ok _ _ (and_then _ _) => idtac
  | |- switch_ok _ _ (advance_url _ _) => idtac
  | |- switch_ok _ _ (call_headers_complete _ _) => idtac
  | |- _ => unfold switch_ok; simpl
  end;
  repeat match goal with |- _ /\ _ => split end; try field_goal; try solve_ctx;
  try (apply switch_notify; [solve_ctx|field_goal]);
  try (apply switch_data; [solve_ctx|field_goal]).
