(* ===== verification/HttpSwitch.v ===== *)
(** src/http-parser, one turn of the loop: every case of the switch keeps the
    invariant of HttpInv.v, whatever the byte and whatever the callbacks do. *)
From S2P Require Import Prelude HttpTypes HttpExec HttpInv.

(** * Request methods *)

Lemma matcher_len m : 3 <= zlen (matcher_of m) <= 11.
Proof. destruct m; vm_compute; split; discriminate. Qed.

Lemma cstr_at_inside s i : cstr_at s i <> 0 -> 0 <= i < zlen s.
Proof.
  unfold cstr_at, zth. intros H. destruct (Z.ltb_spec i 0); [done|].
  split; [lia|]. unfold zlen.
  destruct (decide (Z.to_nat i < length s)%nat); [lia|].
  exfalso. apply H. rewrite app_nth2 by lia.
  destruct (Z.to_nat i - length s)%nat as [|[]]; done.
Qed.

Lemma first_method_cases ch m :
  first_method ch = Some m ->
  m ∈ [HTTP_CONNECT; HTTP_DELETE; HTTP_GET; HTTP_HEAD; HTTP_LOCK; HTTP_MKCOL;
       HTTP_NOTIFY; HTTP_OPTIONS; HTTP_POST; HTTP_REPORT; HTTP_SUBSCRIBE;
       HTTP_TRACE; HTTP_UNLOCK].
Proof. unfold first_method. intros. repeat case_match; simplify_eq; set_solver. Qed.

(** Changing the guess keeps the index inside the new method name: the only
    position at which a mismatch is ignored is 2. *)
Lemma switch_method_len m i ch m' :
  switch_method m i ch = inl m' -> i + 1 <= zlen (matcher_of m').
Proof.
  unfold switch_method. intros H.
  repeat case_match; simplify_eq; zbool; subst; try (vm_compute; discriminate).
  all: match goal with |- _ <= zlen (matcher_of ?m) => pose proof (matcher_len m) end; lia.
Qed.

Lemma switch_method_error m i ch e :
  switch_method m i ch = inr (Some e) -> e = HPE_INVALID_METHOD.
Proof. unfold switch_method. intros H. repeat case_match; by simplify_eq. Qed.

(** * Header names and values *)

(** [match_literal] moves the index and the header state only. *)
Lemma match_literal_spec s f c p :
  exists i h, match_literal s f c p = set_header_state h (set_index i p) /\
    0 <= i < 256 /\ (h = h_general \/ h = f \/ h = hp_header_state p).
Proof.
  unfold match_literal. pose proof (u8_range (hp_index p + 1)).
  exists (u8 (hp_index p + 1)). destruct p; simpl in *.
  repeat case_match; eexists; (split; [unfold_setters; reflexivity|]); simpl; tauto.
Qed.

Lemma header_field_char_spec ch c p :
  field_state (hp_header_state p) = true -> 0 <= hp_index p < 256 ->
  exists i h, header_field_char ch c p = Some (set_header_state h (set_index i p)) /\
    0 <= i < 256 /\ field_state h = true.
Proof.
  intros Hf Hi. pose proof (u8_range (hp_index p + 1)). unfold header_field_char.
  destruct p as [? ? ? [] ? ? ? ? ? ? ? ? ?]; simpl in *; try discriminate;
    repeat case_match;
    try match goal with |- context [match_literal ?s ?f ?c ?p] =>
      destruct (match_literal_spec s f c p) as (i & h & -> & Hix & [-> | [-> | ->]]) end;
    eexists _, _; split_and!; try (unfold or_flags; unfold_setters; reflexivity); (lia || done).
Qed.

Lemma header_value_first_spec ch p p' :
  header_value_first ch p = Some p' -> 0 <= hp_flags p < 64 ->
  0 <= hp_content_length p < 2 ^ 64 ->
  exists h fl cl, p' = set_header_state h (set_flags fl (set_content_length cl p)) /\
    value_state h = true /\ 0 <= fl < 64 /\ 0 <= cl < 2 ^ 64.
Proof.
  intros H Hfl Hcl. unfold header_value_first in H.
  destruct p as [? fl ? [] ? ? cl ? ? ? ? ? ?]; simpl in *;
    repeat case_match; simplify_eq/=;
    eexists _, _, _; split_and!; try (unfold or_flags; unfold_setters; reflexivity);
    first [done | simpl; lia | by apply or_flags_range; [simpl; lia|split; vm_compute; congruence]
          | by apply u64_range].
Qed.

Lemma header_value_char_spec ch p :
  value_state (hp_header_state p) = true -> hp_state p = s_header_value ->
  0 <= hp_index p < 256 -> 0 <= hp_content_length p < 2 ^ 64 ->
  match header_value_char ch p with
  | Value_ok p' =>
      exists h i cl, p' = set_header_state h (set_index i (set_content_length cl p)) /\
        value_state h = true /\ 0 <= i < 256 /\ 0 <= cl < 2 ^ 64
  | Value_error => True
  | Value_assert => False
  end.
Proof.
  intros Hv Hs Hi Hcl. unfold header_value_char.
  destruct p as [? ? ? [] ? ? cl ? ? ? ? ? ?]; simpl in *; try discriminate;
    repeat case_match; simplify_eq/=; try done;
    try match goal with |- context [match_literal ?s ?f ?c ?p] =>
      destruct (match_literal_spec s f c p) as (i & h & -> & Hix & [-> | [-> | ->]]) end;
    try match goal with H : accumulate _ _ _ = Some _ |- _ =>
      apply accumulate_range in H; unfold ULLONG_MAX in H end;
    eexists _, _, _; split_and!; try (unfold or_flags; unfold_setters; reflexivity);
    first [done | simpl; lia].
Qed.

(** * The cases of the switch *)

Section Switch.
Context {U : Type}.
Context (settings : http_parser_settings U) (data : list Z).

#[local] Ltac start_case :=
  intros; open_ctx; unfold exec_switch; simpl.

Definition one_of (l : list state) (st : ctx U) : Prop :=
  In (hp_state (c_parser st)) l.

(** States whose case only compares the byte and assigns a few fields. *)
Definition response_states : list state :=
  [s_res_or_resp_H; s_res_H; s_res_HT; s_res_HTT; s_res_HTTP;
   s_res_first_http_major; s_res_http_major; s_res_first_http_minor;
   s_res_http_minor; s_res_first_status_code; s_res_status_code; s_res_status;
   s_res_line_almost_done].

Lemma switch_response st ch :
  ctx_inv data 1 st -> one_of response_states st ->
  switch_ok data st (exec_switch settings data st ch).
Proof.
  unfold one_of. intros H Hin.
  repeat (destruct Hin as [Hin|Hin]; [start_case;
    unfold exec_s_res_or_resp_H, exec_constant, exec_s_res_first_http_major,
      exec_http_major, exec_first_http_minor, exec_s_res_http_minor,
      exec_minor_digit, exec_s_res_first_status_code, exec_s_res_status_code,
      exec_s_res_status, exec_s_res_line_almost_done; run_case|]).
  done.
Qed.

Definition request_states : list state :=
  [s_req_http_start; s_req_http_H; s_req_http_HT; s_req_http_HTT;
   s_req_http_HTTP; s_req_first_http_major; s_req_http_major;
   s_req_first_http_minor; s_req_http_minor; s_req_line_almost_done].

Lemma switch_request st ch :
  ctx_inv data 1 st -> one_of request_states st ->
  switch_ok data st (exec_switch settings data st ch).
Proof.
  unfold one_of. intros H Hin.
  repeat (destruct Hin as [Hin|Hin]; [start_case;
    unfold exec_s_req_http_start, exec_constant, exec_s_req_first_http_major,
      exec_http_major, exec_first_http_minor, exec_s_req_http_minor,
      exec_minor_digit, exec_s_req_line_almost_done; run_case|]).
  done.
Qed.

Lemma switch_start st ch :
  ctx_inv data 1 st ->
  one_of [s_dead; s_start_req_or_res; s_start_res; s_start_req] st ->
  switch_ok data st (exec_switch settings data st ch).
Proof.
  unfold one_of. intros H Hin.
  repeat (destruct Hin as [Hin|Hin]; [start_case;
    unfold exec_s_dead, exec_s_start_req_or_res, exec_s_start_res,
      exec_s_start_req, upd; run_case|]); [|done].
  match goal with H : first_method _ = Some ?m |- _ => pose proof (matcher_len m) end.
  field_goal.
Qed.

Lemma switch_req_method st ch :
  ctx_inv data 1 st -> hp_state (c_parser st) = s_req_method ->
  switch_ok data st (exec_switch settings data st ch).
Proof.
  start_case. unfold exec_s_req_method, upd; simpl. pose proof (matcher_len me).
  assert (u8 (ix + 1) = ix + 1) as Hix' by (apply u8_small; lia).
  run_case; [..|by match goal with H : switch_method _ _ _ = inr _ |- _ =>
    apply switch_method_error in H as -> end]; unfold state_inv; simpl; rewrite Hix'.
  - enough (0 <= ix < zlen (matcher_of me)) by lia. apply cstr_at_inside. lia.
  - match goal with H : switch_method _ _ _ = inl _ |- _ =>
      apply switch_method_len in H end. lia.
Qed.

(** ** URLs *)

(** advance_url, once the URL mark is set. *)
Lemma advance_url_ok (st0 st : ctx U) ch m :
  parser_inv 1 (c_parser st) -> hp_http_errno (c_parser st) = HPE_OK ->
  0 <= c_p st < zlen data -> c_p st0 <= c_p st ->
  url_mark st = Some m -> 0 <= m <= c_p st ->
  header_field_mark st = None -> header_value_mark st = None ->
  body_mark st = None ->
  switch_ok data st0 (advance_url st ch).
Proof.
  intros [] ? ? ? ? ? ? ? ?. destruct st as [[] ? ? ? ? ? ?]; simpl in *; subst.
  unfold advance_url, fail, upd; simpl.
  destruct (parse_url_char_cases hp_state ch) as [->|Hurl]; [simpl; split; [lia|done]|].
  destruct (parse_url_char hp_state ch); try discriminate Hurl; simpl;
    (split; [|done]); solve_ctx.
Qed.

Lemma switch_url st ch :
  ctx_inv data 1 st ->
  hp_state (c_parser st) = s_req_spaces_before_url \/
  is_url_state (hp_state (c_parser st)) = true ->
  switch_ok data st (exec_switch settings data st ch).
Proof.
  intros H Hs. unfold exec_switch.
  destruct (hp_state (c_parser st)) eqn:E; destruct Hs as [Hs|Hs]; try discriminate;
    open_ctx; unfold exec_s_req_spaces_before_url, exec_url_prefix, exec_url_rest;
    run_case; (eapply advance_url_ok; simpl; [solve_ctx|try done; lia..]).
Qed.

(** ** Headers *)

Lemma switch_header_field st ch :
  ctx_inv data 1 st -> one_of [s_header_field_start; s_header_field] st ->
  switch_ok data st (exec_switch settings data st ch).
Proof.
  unfold one_of. intros H [Hs|[Hs|[]]]; start_case.
  - unfold exec_s_header_field_start, first_header_state; run_case.
  - unfold exec_s_header_field, upd; simpl.
    match goal with |- context [header_field_char ?ch ?c ?p] =>
      destruct (header_field_char_spec ch c p) as (i & h & -> & Hi & Hh);
        [done|simpl; lia|] end.
    run_case.
Qed.

Lemma switch_header_value_start st ch :
  ctx_inv data 1 st -> hp_state (c_parser st) = s_header_value_start ->
  switch_ok data st (exec_switch settings data st ch).
Proof.
  start_case. unfold exec_s_header_value_start. run_case.
  match goal with H : header_value_first _ _ = Some _ |- _ =>
    destruct (header_value_first_spec _ _ _ H)
      as (h' & fl' & cl' & -> & Hh & Hfl' & Hcl'); [simpl; lia..|] end.
  unfold upd; solve_ctx.
Qed.

Lemma switch_header_value st ch :
  ctx_inv data 1 st -> hp_state (c_parser st) = s_header_value ->
  switch_ok data st (exec_switch settings data st ch).
Proof.
  start_case. unfold exec_s_header_value.
  destruct (ch =? CR); [run_case|]. destruct (ch =? LF).
  - apply switch_data_reexec; [solve_ctx|done|done|simpl; lia].
  - match goal with |- context [header_value_char ?ch ?p] =>
      pose proof (header_value_char_spec ch p) as Hv;
      destruct (header_value_char ch p) as [p'| |] end; simpl in Hv.
    + destruct Hv as (h & i & cl' & -> & Hh & Hi' & Hcl'); [done|done|lia|lia|].
      unfold upd. split; [|simpl; lia]. solve_ctx.
    + run_case.
    + destruct Hv; (done || lia).
Qed.

Lemma switch_header_end st ch :
  ctx_inv data 1 st -> one_of [s_header_almost_done; s_header_value_lws] st ->
  switch_ok data st (exec_switch settings data st ch).
Proof.
  unfold one_of. intros H [Hs|[Hs|[]]]; start_case.
  - unfold exec_s_header_almost_done, STRICT_CHECK, upd; simpl.
    destruct (negb (ch =? LF)); [run_case|].
    destruct hs; simpl; (split; [|simpl; lia]); solve_ctx.
  - unfold exec_s_header_value_lws; run_case.
Qed.

(** ** End of the headers *)

(** The end of a message: every mark is clear, so any start state will do. *)
Lemma switch_new_message (st0 st : ctx U) :
  ctx_inv data 0 st -> (forall k, get_mark k st = None) -> c_p st0 <= c_p st ->
  switch_ok data st0 (notify_message_complete settings
                        (upd (fun p => set_state (NEW_MESSAGE p) p) st)).
Proof.
  intros [Hp He Hpos Hm] Hnone Hle. unfold notify_message_complete.
  apply switch_notify; [|done].
  split; [|done..|]; unfold upd; simpl.
  - apply (parser_inv_goto 0 0); [done|]. unfold state_inv; simpl.
    by destruct (NEW_MESSAGE_cases (c_parser st)) as [-> | [-> | ->]].
  - intros k. unfold mark_inv. specialize (Hnone k).
    destruct (NEW_MESSAGE_cases (c_parser st)) as [Hs|[Hs|Hs]];
      destruct k; simpl in *; rewrite Hnone, Hs; auto.
Qed.

Lemma call_headers_complete_ok (st : ctx U) :
  ctx_inv data 0 st -> hp_state (c_parser st) = s_headers_done ->
  match call_headers_complete settings st with
  | Break st' =>
      parser_inv 0 (c_parser st') /\ same_place st st' /\ marks_inv st'
  | Return st' n =>
      parser_inv 0 (c_parser st') /\ hp_http_errno (c_parser st') <> HPE_OK /\
      n = c_p st
  | _ => False
  end.
Proof.
  intros H Hs. open_ctx. unfold call_headers_complete; simpl.
  destruct (on_headers_complete settings) as [f|]; [|split_and!; [solve_ctx|done|solve_ctx]].
  set (r := f _ _). unfold upd; simpl.
  match goal with |- context [after_pause r ?p] =>
    destruct (after_pause_errno r p) as [e ->] end.
  destruct (cb_ret r =? 0), (cb_ret r =? 1); simpl;
    (split; [solve_ctx|]); split; try done; solve_ctx.
Qed.

Lemma switch_headers_almost_done st ch :
  ctx_inv data 1 st -> hp_state (c_parser st) = s_headers_almost_done ->
  switch_ok data st (exec_switch settings data st ch).
Proof.
  start_case. unfold exec_s_headers_almost_done, STRICT_CHECK; simpl.
  destruct (negb (ch =? LF)); [run_case|].
  destruct (has_flag fl F_TRAILING).
  - apply switch_new_message; [solve_ctx|by intros []|done].
  - match goal with |- context [call_headers_complete _ ?st'] =>
      pose proof (call_headers_complete_ok st') as Hc;
      destruct (call_headers_complete settings st') as [st1| | |st1 n| |] end;
      simpl in Hc; try (by destruct Hc; [unfold upd; solve_ctx|done]).
    + destruct Hc as (Hinv & [Hp Hs] & Hm); [unfold upd; solve_ctx|done|]. simpl in *.
      destruct (errno_ok (c_parser st1)) eqn:Hok; simpl.
      * apply errno_ok_true in Hok. rewrite Hp, Hs. split_and!; [|lia|simpl; lia].
        apply (ctx_inv_counter data 0); [by rewrite Hs|].
        split; [done|done|rewrite Hp; lia|done].
      * apply errno_ok_false in Hok. rewrite Hp. split_and!; (done || lia).
    + destruct Hc as (Hinv & Hne & ->); [unfold upd; solve_ctx|done|]. simpl.
      split_and!; (done || lia).
Qed.

Lemma switch_headers_done st ch :
  ctx_inv data 1 st -> hp_state (c_parser st) = s_headers_done ->
  switch_ok data st (exec_switch settings data st ch).
Proof.
  start_case. unfold exec_s_headers_done, STRICT_CHECK, goto_state; simpl.
  destruct (negb (ch =? LF)); [run_case|].
  repeat case_match;
    try (apply switch_new_message; [unfold upd; solve_ctx|by intros []|done]);
    zbool; unfold upd; (split; [|simpl; lia]); solve_ctx.
Qed.

Lemma switch_message_done st ch :
  ctx_inv data 1 st -> hp_state (c_parser st) = s_message_done ->
  switch_ok data st (exec_switch settings data st ch).
Proof.
  start_case. unfold exec_s_message_done.
  apply switch_new_message; [solve_ctx|by intros []|done].
Qed.

(** ** Bodies *)

Lemma content_length_known_true p :
  0 < hp_content_length p < ULLONG_MAX -> content_length_known p = true.
Proof.
  unfold content_length_known. intros.
  apply andb_true_iff; split; apply negb_true_iff, Z.eqb_neq; lia.
Qed.

(** The bulk read of a body keeps inside the buffer and never underflows. *)
Lemma take_body_spec (st : ctx U) :
  0 <= c_p st < zlen data -> 0 < hp_content_length (c_parser st) < ULLONG_MAX ->
  let n := to_read data st in
  1 <= n /\ c_p st + n <= zlen data /\ n <= hp_content_length (c_parser st) /\
  u64 (hp_content_length (c_parser st) - n) = hp_content_length (c_parser st) - n.
Proof.
  intros Hp Hcl. unfold to_read, len, ULLONG_MAX in *. simpl.
  split_and!; [lia..|]. apply u64_small. lia.
Qed.

Lemma switch_body_identity st ch :
  ctx_inv data 1 st -> hp_state (c_parser st) = s_body_identity ->
  switch_ok data st (exec_switch settings data st ch).
Proof.
  intros H Hs. pose proof (ci_p _ _ _ H) as Hpos0.
  assert (0 < hp_content_length (c_parser st) < ULLONG_MAX) as Hcl0.
  { pose proof (inv_state _ _ (ci_parser _ _ _ H)) as Hi. unfold state_inv in Hi.
    by rewrite Hs in Hi. }
  pose proof (take_body_spec st Hpos0 Hcl0) as (Hn1 & Hn2 & Hn3 & Hn4).
  unfold exec_switch, exec_s_body_identity. rewrite Hs.
  unfold assert_then. rewrite content_length_known_true by done.
  unfold take_body. remember (to_read data st) as n eqn:En.
  open_ctx; unfold upd, MARK, set_p, set_mark; simpl in *; rewrite Hn4; case_match; zbool;
    first [ apply switch_data_reexec; simpl; [solve_ctx|lia|done|lia]
          | simpl; (split; [|simpl; lia]); solve_ctx ].
Qed.

Lemma switch_body_identity_eof st ch :
  ctx_inv data 1 st -> hp_state (c_parser st) = s_body_identity_eof ->
  switch_ok data st (exec_switch settings data st ch).
Proof.
  start_case; unfold exec_s_body_identity_eof, len, set_p, MARK; simpl;
    (split; [|simpl; lia]); solve_ctx.
Qed.

(** ** Chunks *)

Lemma has_chunked fl b : has_flag fl F_CHUNKED = true -> has_flag (Z.lor fl b) F_CHUNKED = true.
Proof. intros H. by rewrite has_flag_lor, H. Qed.

Lemma switch_chunk_size st ch :
  ctx_inv data 1 st ->
  one_of [s_chunk_size_start; s_chunk_size; s_chunk_parameters;
          s_chunk_size_almost_done] st ->
  switch_ok data st (exec_switch settings data st ch).
Proof.
  unfold one_of. pose proof (unhex_range ch).
  intros Hc [Hs|[Hs|[Hs|[Hs|[]]]]]; start_case;
    unfold exec_s_chunk_size_start, exec_s_chunk_size, exec_s_chunk_parameters,
      exec_s_chunk_size_almost_done, assert_then, is_chunked, chunked_flag in *; simpl in *;
    destruct Hst as [Hch Hcl1]; rewrite ?Hch, ?Hcl1; simpl.
  - case_match; [run_case|]; zbool. rewrite u64_small by lia. unfold upd.
    split; [|simpl; lia]. solve_ctx.
  - repeat case_match; try solve [run_case].
    match goal with H : accumulate _ _ _ = Some _ |- _ => apply accumulate_range in H end.
    unfold upd, ULLONG_MAX in *. split; [|simpl; lia]. solve_ctx.
  - run_case.
  - unfold STRICT_CHECK. case_match; [run_case|].
    case_match; zbool; unfold upd; (split; [|simpl; lia]); solve_ctx.
Qed.

Lemma switch_chunk_data st ch :
  ctx_inv data 1 st -> hp_state (c_parser st) = s_chunk_data ->
  switch_ok data st (exec_switch settings data st ch).
Proof.
  intros H Hs. pose proof (ci_p _ _ _ H) as Hpos0.
  assert (chunked_flag (c_parser st) /\ 0 < hp_content_length (c_parser st) < ULLONG_MAX)
    as [Hch Hcl0].
  { pose proof (inv_state _ _ (ci_parser _ _ _ H)) as Hi. unfold state_inv in Hi.
    by rewrite Hs in Hi. }
  pose proof (take_body_spec st Hpos0 Hcl0) as (Hn1 & Hn2 & Hn3 & Hn4).
  unfold exec_switch, exec_s_chunk_data. rewrite Hs.
  unfold assert_then, is_chunked. rewrite Hch, content_length_known_true by done.
  unfold take_body. remember (to_read data st) as n eqn:En. unfold chunked_flag in *.
  open_ctx; unfold upd, MARK, set_p, set_mark, goto_state; simpl in *; rewrite Hn4;
    case_match; zbool; unfold upd; simpl; (split; [|simpl; lia]); solve_ctx.
Qed.

Lemma switch_chunk_end st ch :
  ctx_inv data 1 st -> one_of [s_chunk_data_almost_done; s_chunk_data_done] st ->
  switch_ok data st (exec_switch settings data st ch).
Proof.
  unfold one_of. intros H [Hs|[Hs|[]]].
  - start_case; unfold exec_s_chunk_data_almost_done, assert_then, is_chunked,
      chunked_flag in *; simpl in *; destruct Hst as [Hst ->]; rewrite Hst; simpl; run_case.
  - start_case. unfold exec_s_chunk_data_done, assert_then, is_chunked, chunked_flag in *.
    simpl in *. rewrite Hst. run_case.
Qed.

(** ** All cases *)

Lemma exec_switch_ok st ch :
  ctx_inv data 1 st -> switch_ok data st (exec_switch settings data st ch).
Proof.
  intros H. destruct (hp_state (c_parser st)) eqn:E;
    first [ apply switch_start; [done|unfold one_of; rewrite E; by vm_compute; eauto 20]
          | apply switch_response; [done|unfold one_of; rewrite E; by vm_compute; eauto 20]
          | apply switch_request; [done|unfold one_of; rewrite E; by vm_compute; eauto 20]
          | by apply switch_req_method
          | apply switch_url; [done|rewrite E; by auto]
          | apply switch_header_field; [done|unfold one_of; rewrite E; by vm_compute; eauto 20]
          | by apply switch_header_value_start | by apply switch_header_value
          | apply switch_header_end; [done|unfold one_of; rewrite E; by vm_compute; eauto 20]
          | by apply switch_headers_almost_done | by apply switch_headers_done
          | by apply switch_message_done | by apply switch_body_identity
          | by apply switch_body_identity_eof
          | apply switch_chunk_size; [done|unfold one_of; rewrite E; by vm_compute; eauto 20]
          | by apply switch_chunk_data
          | apply switch_chunk_end; [done|unfold one_of; rewrite E; by vm_compute; eauto 20] ].
Qed.
End Switch.
