(* ===== verification/HttpSafety.v ===== *)
(** src/http-parser, whole calls: the loop ends, no assertion fails, the returned
    count is within the buffer, and the invariant holds of every parser that a
    sequence of API calls can reach. *)
From S2P Require Import Prelude HttpTypes HttpExec HttpInv HttpSwitch.

Section Loop.
Context {U : Type}.
Context (settings : http_parser_settings U) (data : list Z).

(** * One byte *)

Lemma count_header_byte_ok (st : ctx U) :
  ctx_inv data 0 st ->
  match count_header_byte st with
  | Break st' => ctx_inv data 1 st' /\ same_place st st'
  | Goto_error st' =>
      c_p st' = c_p st /\ hp_http_errno (c_parser st') <> HPE_PAUSED
  | _ => False
  end.
Proof.
  intros H. destruct (PARSING_HEADER (hp_state (c_parser st))) eqn:E.
  - unfold count_header_byte. rewrite E. destruct H as [[] He Hpos Hm].
    destruct st as [p ? ? ? ? ? ?]; destruct p; simpl in *.
    unfold HTTP_MAX_HEADER_SIZE in *. rewrite u32_small by lia.
    destruct (80 * 1024 <? hp_nread + 1) eqn:Hmax; simpl; [done|]. zbool.
    split; [|done]. split; try done.
    split; simpl; rewrite ?u32_small by lia; try done.
    + unfold HTTP_MAX_HEADER_SIZE; lia.
    + unfold state_inv in *; simpl in *. destruct hp_state; try done.
      destruct inv_state; split; [lia|done].
  - unfold count_header_byte. rewrite E. split; [|done].
    apply (ctx_inv_counter data 0); [|done]. intros Hs. by rewrite Hs in E.
Qed.

(** What the loop relies on after a byte: as [switch_ok], without jumps. *)
Definition byte_ok (st : ctx U) (o : outcome U) : Prop :=
  match o with Goto_reexecute _ => False | _ => switch_ok data st o end.

(** The ranks decrease, so three jumps are enough. *)
Lemma reexecute_fuel_enough fuel st ch :
  ctx_inv data 1 st -> (reexec_rank (hp_state (c_parser st)) <= fuel)%nat ->
  byte_ok st (reexecute_byte settings data fuel st ch).
Proof.
  revert st. induction fuel as [|fuel IH]; intros st Hinv Hr;
    pose proof (exec_switch_ok settings data st ch Hinv) as Hok; simpl;
    destruct (exec_switch settings data st ch) as [|st'| | | |]; simpl in *; try done; try lia.
  destruct Hok as (Hinv' & Hp & Hr'). specialize (IH st' Hinv' ltac:(lia)).
  destruct (reexecute_byte settings data fuel st' ch); simpl in *; try done; intuition lia.
Qed.

Lemma rank_le_fuel s : (reexec_rank s <= REEXEC_FUEL)%nat.
Proof. unfold REEXEC_FUEL. destruct s; simpl; lia. Qed.

Lemma exec_byte_ok st : ctx_inv data 0 st -> byte_ok st (exec_byte settings data st).
Proof.
  intros H. pose proof (count_header_byte_ok st H) as Hc. pose proof (ci_p _ _ _ H).
  unfold exec_byte. destruct (count_header_byte st) as [st'| |st'| | |]; try done.
  - destruct Hc as [Hinv [Hp Hs]]. cbn [and_then].
    pose proof (reexecute_fuel_enough REEXEC_FUEL st' (zth data (c_p st)) Hinv
                  (rank_le_fuel _)) as Hr.
    destruct (reexecute_byte _ _ _ _ _); simpl in *; intuition lia.
  - simpl in *. intuition lia.
Qed.

(** * The loop *)

Record loop_inv (st : ctx U) : Prop := mk_loop_inv {
  li_parser : parser_inv 0 (c_parser st);
  li_errno : hp_http_errno (c_parser st) = HPE_OK;
  li_p : 0 <= c_p st <= zlen data;
  li_marks : marks_inv st
}.

Lemma loop_inv_step st : ctx_inv data 0 st -> loop_inv (set_p (c_p st + 1) st).
Proof.
  intros [Hp He Hpos Hm]. split; try done; [simpl; lia|].
  intros k. specialize (Hm k). unfold mark_inv in *.
  destruct st, k; simpl in *; case_match; try done; intuition lia.
Qed.

(** How the loop ends: all bytes read, or an error at a position inside. *)
Definition loop_ok (o : outcome U) : Prop :=
  match o with
  | Break st => loop_inv st /\ c_p st = zlen data
  | Goto_error st =>
      0 <= c_p st < zlen data /\ hp_http_errno (c_parser st) <> HPE_PAUSED
  | Return st n =>
      parser_inv 0 (c_parser st) /\ hp_http_errno (c_parser st) <> HPE_OK /\
      0 <= n <= zlen data
  | _ => False
  end.

Lemma exec_loop_ok fuel st :
  loop_inv st -> zlen data - c_p st <= Z.of_nat fuel ->
  loop_ok (exec_loop settings data fuel st).
Proof.
  revert st. induction fuel as [|fuel IH]; intros st Hinv Hf; simpl; unfold len;
    destruct (Z.eqb_spec (c_p st) (zlen data)) as [Heq|Hne];
    try (by split); destruct Hinv as [Hp He Hpos Hm]; [lia|].
  assert (ctx_inv data 0 st) as Hc by (split; try done; lia).
  pose proof (exec_byte_ok st Hc) as Hb.
  destruct (exec_byte settings data st) as [st'| |st'|st' n| |]; simpl in *; try done.
  - destruct Hb as [Hc' Hle]. apply IH; [by apply loop_inv_step|]. simpl. lia.
  - intuition lia.
  - intuition lia.
Qed.

(** * The marks that are left *)

(** At most one string is being read, so the assertion before the final
    callbacks holds. *)
Lemma mark_count_le_one (st : ctx U) : marks_inv st -> mark_count st <= 1.
Proof.
  intros Hm. pose proof (Hm D_header_field); pose proof (Hm D_header_value);
    pose proof (Hm D_url); pose proof (Hm D_body). clear Hm. unfold mark_count, mark_inv in *.
  destruct st as [p ? [] [] [] [] ?]; simpl in *; try lia;
    repeat match goal with H : _ /\ _ = true |- _ => destruct H as [_ H] end;
    destruct (hp_state p); discriminate.
Qed.

Lemma callback_data_errno k e ER (st : ctx U) :
  hp_http_errno (c_parser st) = HPE_OK ->
  match CALLBACK_DATA_ settings data k e ER st with
  | Break st' => c_parser st' = c_parser st /\ c_p st' = c_p st
  | Return st' n =>
      hp_http_errno (c_parser st') <> HPE_OK /\ n = ER /\
      exists er, c_parser st' = set_http_errno er (c_parser st)
  | _ => False
  end.
Proof.
  intros He. unfold CALLBACK_DATA_, assert_then.
  pose proof (proj2 (errno_ok_true _) He) as ->.
  destruct (get_mark k st); [|done]. destruct (data_cb settings k) as [f|]; [|done].
  set (r := f _ _ _). destruct (after_cb_spec r (data_errno k) st) as [er ->].
  destruct (errno_ok _) eqn:Hok.
  - apply errno_ok_true in Hok. simpl in *. subst er.
    destruct st as [p ? ? ? ? ? ?]; destruct p; simpl in *. by subst.
  - apply errno_ok_false in Hok. eauto.
Qed.

Lemma callback_notify_errno cb er ER (st : ctx U) :
  hp_http_errno (c_parser st) = HPE_OK ->
  exists st' e, (CALLBACK_NOTIFY_ cb er ER st = Break st' \/
                 CALLBACK_NOTIFY_ cb er ER st = Return st' ER) /\
    c_parser st' = set_http_errno e (c_parser st).
Proof.
  intros He. unfold CALLBACK_NOTIFY_, assert_then.
  pose proof (proj2 (errno_ok_true _) He) as ->. destruct cb as [f|].
  - destruct (after_cb_spec (f (c_parser st) (c_user st)) er st) as [e ->].
    destruct (errno_ok _); eauto.
  - exists st, HPE_OK. split; [by left|].
    destruct st as [p ? ? ? ? ? ?]; destruct p; simpl in *. by subst.
Qed.

Lemma flush_marks_ok st :
  loop_inv st -> c_p st = zlen data ->
  exists st' er, flush_marks settings data st = Return st' (zlen data) /\
    c_parser st' = set_http_errno er (c_parser st).
Proof.
  intros [Hp He Hpos Hm] Hlen. unfold flush_marks, assert_then.
  pose proof (mark_count_le_one st Hm) as ->%Z.leb_le.
  assert (c_parser st = set_http_errno HPE_OK (c_parser st)) as Hid
    by (destruct (c_parser st); simpl in *; by subst).
  unfold CALLBACK_DATA_NOADVANCE.
  enough (forall ks st1, c_parser st1 = c_parser st -> c_p st1 = zlen data ->
    exists st' er, foldr (fun k cont s => and_then (CALLBACK_DATA_ settings data k (c_p s) (c_p s) s) cont)
      (fun s => Return s (len data)) ks st1 = Return st' (zlen data) /\
      c_parser st' = set_http_errno er (c_parser st)) as Hgen.
  { apply (Hgen [D_header_field; D_header_value; D_url; D_body] st); done. }
  induction ks as [|k ks IH]; intros st1 Heq Hp1; simpl.
  { eexists _, HPE_OK. by rewrite Heq. }
  pose proof (callback_data_errno k (c_p st1) (c_p st1) st1) as Hcb.
  rewrite Heq in Hcb. specialize (Hcb He).
  destruct (CALLBACK_DATA_ _ _ _ _ _ _) as [st2| | |st2 n| |]; simpl in *; try done.
  - destruct Hcb as [Hq Hp2]. apply IH; congruence.
  - destruct Hcb as (_ & -> & er & Her). rewrite Hp1. eauto.
Qed.

(** * The function *)

Lemma initial_loop_inv p u :
  parser_inv 0 p -> hp_http_errno p = HPE_OK -> loop_inv (initial_ctx p u).
Proof.
  intros Hp He. pose proof (zlen_nonneg data). split; try done.
  intros k. unfold mark_inv, initial_ctx.
  destruct (hp_state p) eqn:E, k; simpl; rewrite ?E; simpl; auto; split; (done || lia).
Qed.

(** Every way a call can end, for a non-empty buffer. *)
Lemma execute_cases p u :
  parser_inv 0 p -> hp_http_errno p = HPE_OK -> data <> [] ->
  exists p' u' n, http_parser_execute settings data p u = Returned p' u' n /\
    0 <= n <= zlen data /\ parser_ok p' /\
    (hp_http_errno p' = HPE_OK -> n = zlen data).
Proof.
  intros Hinv He Hne. unfold http_parser_execute, len.
  pose proof (zlen_nonneg data). pose proof (proj2 (errno_ok_true _) He) as ->. simpl.
  destruct (Z.eqb_spec (zlen data) 0) as [H0|H0].
  { destruct data as [|b l]; [done|]. rewrite zlen_cons in H0. pose proof (zlen_nonneg l). lia. }
  pose proof (exec_loop_ok (length data) _ (initial_loop_inv p u Hinv He)) as Hl.
  specialize (Hl ltac:(simpl; unfold zlen; lia)).
  destruct (exec_loop _ _ _ _) as [st| |st|st n| |]; simpl in *; try done.
  - destruct Hl as [Hli Hpeq]. destruct (flush_marks_ok st Hli Hpeq) as (st' & er & -> & Hq).
    simpl. eexists _, _, _; split_and!; [done|lia|lia| |done].
    intros _. rewrite Hq. apply parser_inv_errno, Hli.
  - destruct Hl as [Hpos Hnp]. unfold parser_ok, errno_ok.
    eexists _, _, _; split_and!; [done|lia|lia|..];
      destruct (hp_http_errno (c_parser st)) eqn:E; simpl; rewrite ?E; by intros.
  - destruct Hl as (Hp & Hne' & Hn). eexists _, _, _; split_and!; [done|lia|lia|by intros _|by intros].
Qed.

(** ... and at the end of the input. *)
Lemma execute_eof_cases p u :
  parser_inv 0 p -> hp_http_errno p = HPE_OK -> data = [] ->
  exists p' u' n, http_parser_execute settings data p u = Returned p' u' n /\
    0 <= n <= 1 /\ parser_ok p' /\ (n = 1 -> hp_http_errno p' = HPE_INVALID_EOF_STATE).
Proof.
  intros Hinv He ->. unfold http_parser_execute.
  pose proof (proj2 (errno_ok_true _) He) as Hok. rewrite Hok. cbn [negb].
  unfold execute_eof. simpl.
  destruct (hp_state p) eqn:E; simpl;
    try (by eexists _, _, _; split_and!; [done|lia|lia|by intros ?|]).
  unfold CALLBACK_NOTIFY_NOADVANCE.
  match goal with |- context [CALLBACK_NOTIFY_ ?cb ?er ?ER ?st] =>
    destruct (callback_notify_errno cb er ER st He) as (st' & e & Hcb & Heq) end.
  destruct Hcb as [-> | ->]; simpl;
    (eexists _, _, _; split_and!; [reflexivity|lia|lia| |intros; lia]);
    intros _; rewrite Heq; by apply parser_inv_errno.
Qed.
End Loop.

(** * Parsers an application can hold

    The parsers reachable from http_parser_init by calls of
    http_parser_execute (with any callbacks and any buffer) and of
    http_parser_pause. *)
Inductive reachable : http_parser -> Prop :=
  | reach_init t : reachable (http_parser_init t)
  | reach_execute (U : Type) (settings : http_parser_settings U) data p u p' u' n :
      reachable p ->
      http_parser_execute settings data p u = Returned p' u' n ->
      reachable p'
  | reach_pause b p p' :
      reachable p -> http_parser_pause b p = Some p' -> reachable p'.

Lemma execute_returns {U : Type} (settings : http_parser_settings U) data p u :
  parser_ok p ->
  exists p' u' n, http_parser_execute settings data p u = Returned p' u' n /\ parser_ok p'.
Proof.
  intros Hp. destruct (decide (hp_http_errno p = HPE_OK)) as [He|Hne].
  - assert (parser_inv 0 p) as Hinv by (apply Hp; by rewrite He).
    destruct data as [|b data].
    + destruct (execute_eof_cases settings [] p u Hinv He) as (p' & u' & n & Hr & Hr'); [done|].
      exists p', u', n. intuition.
    + destruct (execute_cases settings (b :: data) p u Hinv He) as (p' & u' & n & Hr & Hr'); [done|].
      exists p', u', n. intuition.
  - exists p, u, 0. unfold http_parser_execute.
    by rewrite (proj2 (errno_ok_false p) Hne).
Qed.

Lemma pause_ok b p p' : parser_ok p -> http_parser_pause b p = Some p' -> parser_ok p'.
Proof.
  unfold http_parser_pause, parser_ok. intros Hp H Hr.
  destruct (hp_http_errno p); simplify_eq; by apply parser_inv_errno, Hp.
Qed.

Lemma reachable_ok p : reachable p -> parser_ok p.
Proof.
  induction 1 as [t|U settings data p u p' u' n Hr IH He|b p p' Hr IH Hp].
  - intros _. apply init_ok.
  - destruct (execute_returns settings data p u IH) as (q & v & m & Heq & Hq).
    rewrite Heq in He. by simplify_eq.
  - by eapply pause_ok.
Qed.

(** A request to evaluate the definitions on. *)
Definition no_callbacks : http_parser_settings unit :=
  mk_settings None None None None None None None.

Definition sample_request : list Z :=
  str "GET /a?b=c HTTP/1.1" ++ [CR; LF] ++ str "Host: x" ++ [CR; LF; CR; LF].

Definition after_sample : http_parser :=
  match http_parser_execute no_callbacks sample_request (http_parser_init HTTP_REQUEST) tt with
  | Returned p _ _ => p
  | _ => http_parser_init HTTP_REQUEST
  end.

(** C1. Safety and termination of http_parser_execute: whatever callbacks,
    bytes and earlier calls of the API led to this point, a call returns: no
    assertion of the source fails, the loops end, and the parser it leaves
    satisfies the invariant that the next call needs. *)
Theorem execute_safe {U : Type} (settings : http_parser_settings U) data p u :
  reachable p ->
  exists p' u' n, http_parser_execute settings data p u = Returned p' u' n /\
    parser_ok p'.
Proof. intros H%reachable_ok. by apply execute_returns. Qed.

Lemma execute_safe_witness :
  exists p' u' n,
    http_parser_execute no_callbacks sample_request (http_parser_init HTTP_BOTH) tt =
      Returned p' u' n /\ parser_ok p'.
Proof. apply execute_safe. apply reach_init. Defined.

(** C22. Bytes consumed: the returned count lies between 0 and the buffer's length,
    and the whole buffer was consumed unless an error number (or a pause) is recorded
    in the parser.  The one exception is the call with an empty buffer, which stands for
    the end of the input: in the middle of a message it returns 1, more than the length,
    and records HPE_INVALID_EOF_STATE. *)
Theorem execute_consumed {U : Type} (settings : http_parser_settings U) data p u p' u' n :
  reachable p -> http_parser_execute settings data p u = Returned p' u' n ->
  (0 <= n <= zlen data /\ (hp_http_errno p' = HPE_OK -> n = zlen data)) \/
  (data = [] /\ n = 1 /\ hp_http_errno p' = HPE_INVALID_EOF_STATE).
Proof.
  intros H%reachable_ok Hex. pose proof (zlen_nonneg data).
  destruct (decide (hp_http_errno p = HPE_OK)) as [He|Hnok].
  - assert (parser_inv 0 p) as Hinv by (apply H; by rewrite He). destruct data as [|b data].
    + destruct (execute_eof_cases settings [] p u Hinv He) as (q & v & m & Heq & Hb & _ & Hok); [done|].
      rewrite Heq in Hex. simplify_eq. change (zlen []) with 0.
      destruct (decide (n = 1)); [right; auto|left; split; intros; lia].
    + destruct (execute_cases settings (b :: data) p u Hinv He) as (q & v & m & Heq & Hb & _ & Hok); [done|].
      rewrite Heq in Hex. simplify_eq. by left.
  - unfold http_parser_execute in Hex.
    rewrite (proj2 (errno_ok_false p) Hnok) in Hex. simpl in Hex. simplify_eq.
    left. split; [lia|done].
Qed.

Lemma execute_consumed_witness :
  (0 <= 32 <= zlen sample_request /\ (hp_http_errno after_sample = HPE_OK -> 32 = zlen sample_request)) \/
  (sample_request = [] /\ 32 = 1 /\ hp_http_errno after_sample = HPE_INVALID_EOF_STATE).
Proof.
  apply (execute_consumed no_callbacks sample_request (http_parser_init HTTP_REQUEST) tt _ tt).
  - apply reach_init.
  - vm_compute. reflexivity.
Defined.

(** The end of the input after "GET". *)
Example eof_inside_method :
  match http_parser_execute no_callbacks (str "GET") (http_parser_init HTTP_REQUEST) tt with
  | Returned p u _ =>
      match http_parser_execute no_callbacks [] p u with
      | Returned p' _ n => Some (n, hp_http_errno p')
      | _ => None
      end
  | _ => None
  end = Some (1, HPE_INVALID_EOF_STATE).
Proof. vm_compute. reflexivity. Qed.

(** C23. Field bounds: a parser that can still be used never counts more than
    HTTP_MAX_HEADER_SIZE header bytes, keeps the version and status numbers to
    three digits, and while it reads a request method its index stays inside
    the NUL-terminated entry of method_strings it is compared with. *)
Theorem reachable_bounds p :
  reachable p -> resumable (hp_http_errno p) = true ->
  0 <= hp_nread p <= HTTP_MAX_HEADER_SIZE /\
  0 <= hp_http_major p <= 999 /\ 0 <= hp_http_minor p <= 999 /\
  0 <= hp_status_code p <= 999 /\ 0 <= hp_content_length p <= ULLONG_MAX /\
  (hp_state p = s_req_method -> 1 <= hp_index p <= zlen (matcher_of (hp_method p))).
Proof.
  intros H%reachable_ok Hr. destruct (H Hr) as [? ? ? Hcl ? ? ? Hst].
  split_and!; try lia; try (unfold ULLONG_MAX; lia); intros E; unfold state_inv in Hst;
    rewrite E in Hst; lia.
Qed.

Lemma reachable_bounds_witness :
  resumable (hp_http_errno after_sample) = true /\
  0 <= hp_nread after_sample <= HTTP_MAX_HEADER_SIZE.
Proof.
  split; [vm_compute; reflexivity|].
  apply (reachable_bounds after_sample); [|vm_compute; reflexivity].
  apply (reach_execute unit no_callbacks sample_request (http_parser_init HTTP_REQUEST) tt _ tt 32).
  - apply reach_init.
  - vm_compute. reflexivity.
Defined.
