(* ===== verification/HttpPhase.v ===== *)
(** src/http-parser, the order of the callbacks: what an application can rely on.

    An application whose data is in one condition between messages and in
    another inside a message, and whose callbacks lead from one to the other,
    finds its data in the condition that the state of the parser tells, however
    the buffers are cut. *)
From S2P Require Import Prelude HttpTypes HttpExec HttpInv HttpSwitch HttpSafety.

(** The states between two messages. *)
Definition between (s : state) : bool :=
  match s with s_dead | s_start_req | s_start_res | s_start_req_or_res => true | _ => false end.

(** The states that a parser of requests does not enter. *)
Definition response_state (s : state) : bool :=
  match s with
  | s_start_req_or_res | s_res_or_resp_H | s_start_res | s_res_H | s_res_HT | s_res_HTT
  | s_res_HTTP | s_res_first_http_major | s_res_http_major | s_res_first_http_minor
  | s_res_http_minor | s_res_first_status_code | s_res_status_code | s_res_status
  | s_res_line_almost_done => true
  | _ => false
  end.

(** The states in and after the value of a header field. *)
Definition in_value (s : state) : bool :=
  match s with
  | s_header_value_start | s_header_value | s_header_almost_done | s_header_value_lws => true
  | _ => false
  end.

(** The states after the headers; trailers are read in the states of headers,
    with a flag. *)
Definition body_state (s : state) : bool :=
  match s with
  | s_headers_done | s_body_identity | s_body_identity_eof | s_message_done | s_chunk_size_start
  | s_chunk_size | s_chunk_parameters | s_chunk_size_almost_done | s_chunk_data
  | s_chunk_data_almost_done | s_chunk_data_done => true
  | _ => false
  end.

Definition trailing (p : http_parser) : bool := has_flag (hp_flags p) F_TRAILING.

(** Before the end of the headers. *)
Definition head (p : http_parser) : bool := negb (body_state (hp_state p)) && negb (trailing p).

Lemma trailing_or f b :
  b = F_CHUNKED \/ b = F_CONNECTION_KEEP_ALIVE \/ b = F_CONNECTION_CLOSE \/ b = F_UPGRADE ->
  has_flag (Z.lor f b) F_TRAILING = has_flag f F_TRAILING.
Proof.
  intros Hb. unfold has_flag. rewrite Z.land_lor_distr_l.
  replace (Z.land b F_TRAILING) with 0 by (by destruct Hb as [->|[->|[->| ->]]]).
  by rewrite Z.lor_0_r.
Qed.

Lemma trailing_set f : has_flag (Z.lor f F_TRAILING) F_TRAILING = true.
Proof.
  unfold has_flag. rewrite Z.land_lor_distr_l. destruct (Z.eqb_spec (Z.lor (Z.land f F_TRAILING)
    (Z.land F_TRAILING F_TRAILING)) 0) as [E|]; [|done].
  apply Z.lor_eq_0_iff in E as [_ E]. done.
Qed.

Section Phase.
Context {U : Type} (settings : http_parser_settings U) (data : list Z).

(** The condition between messages, inside a message (in its head or after it),
    once a header field was reported, when the parser was paused (between messages or not), and in every
    case; [requests] says that only requests are parsed,
    which a response parser needs not when the two conditions are the same. *)
Context (requests : bool) (Qout : U -> Prop) (Qin : bool -> U -> Prop) (Qfield : U -> Prop)
  (Qpaused : bool -> U -> Prop) (Qany : U -> Prop).

(** What a callback that is called in the condition [pre] must establish; [b]
    says whether the parser is between messages after it. *)
Definition leads (b : bool) (pre post : U -> Prop) (ok : Z -> Prop) (f : http_parser -> U -> cb_result U) : Prop :=
  forall p u, pre u ->
    let r := f p u in
    Qany (cb_user r) /\ (cb_pause r = Some true -> Qpaused b (cb_user r)) /\
    (ok (cb_ret r) -> cb_pause r <> Some true -> post (cb_user r)).

Definition zero (n : Z) : Prop := n = 0.
Definition zero_one (n : Z) : Prop := n = 0 \/ n = 1.

(** A callback that is not set keeps the data. *)
Definition notify_leads b pre post ok (cb : option (http_parser -> U -> cb_result U)) : Prop :=
  match cb with Some f => leads b pre post ok f | None => forall u, pre u -> post u end.

(** A value is delivered after the name of its field. *)
Definition before (b : bool) (k : data_kind) (u : U) : Prop := Qin b u /\ (k = D_header_value -> Qfield u).
Definition after (b : bool) (k : data_kind) (u : U) : Prop :=
  Qin b u /\ (k = D_header_field \/ k = D_header_value -> Qfield u).

Record orderly : Prop := {
  o_requests : requests = true \/
    (forall b u, Qin b u -> Qout u) /\ (forall u, Qpaused false u -> Qpaused true u);
  o_in : forall b u, Qin b u -> Qany u;
  o_out : forall u, Qout u -> Qany u;
  o_begin : notify_leads false Qout (Qin true) zero (on_message_begin settings);
  o_headers : notify_leads false (Qin true) (Qin false) zero_one (on_headers_complete settings);
  o_complete : notify_leads true (Qin false) Qout zero (on_message_complete settings);
  o_data : forall b k, match data_cb settings k with
                     | Some f => forall d, leads false (before b k) (after b k) zero (fun p u => f p d u)
                     | None => forall u, before b k u -> after b k u
                     end
}.

Hypothesis Ho : orderly.

Definition request_parser (p : http_parser) : Prop :=
  requests = true -> hp_type p = HTTP_REQUEST /\ response_state (hp_state p) = false.

Definition phase (p : http_parser) (u : U) : Prop :=
  request_parser p /\
  if between (hp_state p) then Qout u
  else Qin (head p) u /\ (in_value (hp_state p) = true -> Qfield u).

(** After a call. *)
Definition post (p : http_parser) (u : U) : Prop :=
  Qany u /\ (hp_http_errno p = HPE_OK -> phase p u) /\
  (hp_http_errno p = HPE_PAUSED -> request_parser p /\ Qpaused (between (hp_state p)) u).

(** The name of a field is marked while it is read. *)
Definition marked (st : ctx U) : Prop :=
  hp_state (c_parser st) = s_header_field -> get_mark D_header_field st <> None.

Definition good (o : outcome U) : Prop :=
  match o with
  | Break st | Goto_reexecute st =>
      hp_http_errno (c_parser st) = HPE_OK /\ phase (c_parser st) (c_user st) /\ marked st
  | Goto_error st => Qany (c_user st) /\ hp_http_errno (c_parser st) <> HPE_PAUSED
  | Return st _ => post (c_parser st) (c_user st)
  | Assert_failed | Out_of_fuel => True
  end.

(** * The callbacks *)

(** What a callback does to the error number. *)
Lemma after_cb_errno (r : cb_result U) er st :
  hp_http_errno (c_parser st) = HPE_OK -> er <> HPE_OK -> er <> HPE_PAUSED ->
  let e := hp_http_errno (c_parser (after_cb r er st)) in
  (e = HPE_OK -> cb_ret r = 0 /\ cb_pause r <> Some true) /\
  (e = HPE_PAUSED -> cb_pause r = Some true).
Proof.
  intros He Hn Hp. unfold after_cb, after_pause, http_parser_pause.
  destruct st as [[? ? ? ? ? ? ? ? ? ? ? e ?] ? ? ? ? ? ?]. simpl in *. subst e.
  destruct (cb_pause r) as [[]|], (Z.eqb_spec (cb_ret r) 0); simpl; split; intros; try done.
Qed.

(** The common part of the callbacks: [st] is the context when it is called,
    its state already the next one. *)
Lemma notify_good b cb pre aft er ER (st : ctx U) :
  notify_leads b pre aft zero cb ->
  (forall u, Qpaused b u -> Qpaused (between (hp_state (c_parser st))) u) -> er <> HPE_OK -> er <> HPE_PAUSED ->
  hp_http_errno (c_parser st) = HPE_OK -> pre (c_user st) -> request_parser (c_parser st) ->
  (forall u, aft u -> if between (hp_state (c_parser st)) then Qout u else Qin (head (c_parser st)) u) ->
  in_value (hp_state (c_parser st)) = false -> hp_state (c_parser st) <> s_header_field ->
  good (CALLBACK_NOTIFY_ cb er ER st).
Proof.
  intros Hcb Hpb Hn Hp He Hpre Hreq Haft Hv Hf. unfold CALLBACK_NOTIFY_, assert_then.
  assert (Haft' : forall u, aft u -> if between (hp_state (c_parser st)) then Qout u
    else Qin (head (c_parser st)) u /\ (in_value (hp_state (c_parser st)) = true -> Qfield u)).
  { intros u Hu. specialize (Haft u Hu). rewrite Hv. by destruct (between _). }
  rewrite (proj2 (errno_ok_true _) He). destruct cb as [f|];
    [|split; [done|]; split; [|by intros E; destruct (Hf E)]; split; [done|]; by apply Haft', Hcb].
  destruct (Hcb (c_parser st) (c_user st) Hpre) as (Hany & Hpaused & Hok).
  set (r := f _ _) in *. destruct (after_cb_errno r er st He Hn Hp) as [E1 E2].
  destruct (after_cb_spec r er st) as [e Heq].
  assert (Hph : cb_ret r = 0 -> cb_pause r <> Some true ->
    phase (c_parser (after_cb r er st)) (c_user (after_cb r er st))).
  { intros Hr Hpz. rewrite Heq. split; [done|]. by apply Haft', Hok. }
  assert (Hu : c_user (after_cb r er st) = cb_user r) by (by rewrite Heq).
  assert (Hps : cb_pause r = Some true -> request_parser (c_parser (after_cb r er st)) /\
    Qpaused (between (hp_state (c_parser (after_cb r er st)))) (c_user (after_cb r er st))).
  { intros E. rewrite Heq. split; [done|]. by apply Hpb, Hpaused. }
  assert (Hm : marked (after_cb r er st)) by (rewrite Heq; intros E; by destruct (Hf E)).
  destruct (errno_ok _) eqn:Eok; cbn [good].
  - apply errno_ok_true in Eok. destruct (E1 Eok). auto.
  - apply errno_ok_false in Eok. split; [by rewrite Hu|]. split; [done|]. auto.
Qed.

(** In a value the callback [k] delivers the value, or the name before it. *)
Definition reports (k : data_kind) (st : ctx U) : Prop :=
  in_value (hp_state (c_parser st)) = true ->
  k = D_header_value \/ (k = D_header_field /\ get_mark k st <> None).

Lemma data_post k e ER (st : ctx U) :
  hp_http_errno (c_parser st) = HPE_OK -> before (head (c_parser st)) k (c_user st) -> request_parser (c_parser st) ->
  between (hp_state (c_parser st)) = false -> reports k st ->
  match CALLBACK_DATA_ settings data k e ER st with
  | Break st' => hp_http_errno (c_parser st') = HPE_OK /\ phase (c_parser st') (c_user st') /\
                 hp_state (c_parser st') = hp_state (c_parser st)
  | Return st' _ => post (c_parser st') (c_user st')
  | Assert_failed => True
  | _ => False
  end.
Proof.
  intros He Hin Hreq Hb Hrep. unfold CALLBACK_DATA_, assert_then.
  rewrite (proj2 (errno_ok_true _) He). destruct (get_mark k st) as [m|] eqn:Em.
  2: { split; [done|]. split; [|done]. split; [done|]. rewrite Hb. split; [apply Hin|].
       intros Hv. destruct (Hrep Hv) as [->|[_ ?]]; [|congruence]. by apply Hin. }
  assert (Haft : forall u, after (head (c_parser st)) k u ->
      Qin (head (c_parser st)) u /\ (in_value (hp_state (c_parser st)) = true -> Qfield u)).
  { intros u [H1 H2]. split; [done|]. intros Hv. apply H2. destruct (Hrep Hv) as [|[]]; auto. }
  pose proof (o_data Ho (head (c_parser st)) k) as Hk. destruct (data_cb settings k) as [f|] eqn:Ef.
  2: { split; [done|]. split; [|done]. split; [done|]. cbn. rewrite Hb.
       by apply Haft, Hk. }
  destruct (Hk (slice data m e) (c_parser st) (c_user st) Hin) as (Hany & Hpaused & Hok).
  set (r := f _ _ _) in *.
  destruct (after_cb_errno r (data_errno k) st He) as [E1 E2]; [by destruct k..|].
  destruct (after_cb_spec r (data_errno k) st) as [e' Heq].
  assert (Hu : c_user (after_cb r (data_errno k) st) = cb_user r) by (by rewrite Heq).
  assert (Hph : cb_ret r = 0 -> cb_pause r <> Some true ->
    phase (c_parser (after_cb r (data_errno k) st)) (c_user (after_cb r (data_errno k) st))).
  { intros Hr Hpz. rewrite Hu, Heq. split; [done|]. cbn. rewrite Hb.
    by apply Haft, Hok. }
  assert (Hs : hp_state (c_parser (after_cb r (data_errno k) st)) = hp_state (c_parser st)) by (by rewrite Heq).
  assert (Hps : cb_pause r = Some true -> request_parser (c_parser (after_cb r (data_errno k) st)) /\
    Qpaused (between (hp_state (c_parser (after_cb r (data_errno k) st))))
      (c_user (after_cb r (data_errno k) st))).
  { intros E. rewrite Hs, Hb, Hu, Heq. split; [done|auto]. }
  destruct (errno_ok _) eqn:Eok; cbn [good].
  - apply errno_ok_true in Eok. destruct (E1 Eok). cbn [c_parser c_user set_mark]. auto.
  - apply errno_ok_false in Eok. split; [by rewrite Hu|]. split; [done|]. auto.
Qed.

Lemma data_good k e ER (st : ctx U) :
  hp_http_errno (c_parser st) = HPE_OK -> before (head (c_parser st)) k (c_user st) -> request_parser (c_parser st) ->
  between (hp_state (c_parser st)) = false -> reports k st ->
  hp_state (c_parser st) <> s_header_field ->
  good (CALLBACK_DATA_ settings data k e ER st).
Proof.
  intros He Hin Hreq Hb Hrep Hf. pose proof (data_post k e ER st He Hin Hreq Hb Hrep) as H.
  destruct (CALLBACK_DATA_ settings data k e ER st); try done.
  destruct H as (H1 & H2 & H3). split; [done|]. split; [done|]. intros E. congruence.
Qed.

(** * The switch *)

(** Changes that leave the type and the error number alone, and the state as it
    was or inside a header. *)
Definition keeps (p p' : http_parser) : Prop :=
  hp_type p' = hp_type p /\ hp_http_errno p' = hp_http_errno p /\
  (hp_state p' = hp_state p \/ hp_state p' = s_header_value) /\ trailing p' = trailing p.

Lemma match_literal_keeps s f c p : keeps p (match_literal s f c p).
Proof. unfold match_literal, keeps. split_cases; auto 6. Qed.

Lemma header_field_char_keeps ch c p p' : header_field_char ch c p = Some p' -> keeps p p'.
Proof.
  unfold header_field_char. intros H. repeat case_match; simplify_eq; try apply match_literal_keeps;
    unfold keeps; simpl; auto 6.
Qed.

Lemma header_value_first_keeps ch p p' : header_value_first ch p = Some p' -> keeps p p'.
Proof.
  unfold header_value_first. intros H. repeat case_match; simplify_eq; unfold keeps, trailing; simpl;
    rewrite ?trailing_or by auto; auto 6.
Qed.

Lemma header_value_char_keeps ch p p' : header_value_char ch p = Value_ok p' -> keeps p p'.
Proof.
  unfold header_value_char. intros H. repeat case_match; simplify_eq; try apply match_literal_keeps;
    unfold keeps; simpl; auto 6.
Qed.

Lemma header_field_char_state ch c p p' :
  header_field_char ch c p = Some p' -> hp_state p' = hp_state p.
Proof.
  unfold header_field_char. intros H.
  repeat case_match; simplify_eq; unfold match_literal; split_cases; done.
Qed.

#[local] Arguments parse_url_char : simpl never.
#[local] Arguments header_field_char : simpl never.
#[local] Arguments header_value_char : simpl never.
#[local] Arguments header_value_first : simpl never.
#[local] Arguments switch_method : simpl never.
#[local] Arguments NEW_MESSAGE : simpl never.
#[local] Arguments http_message_needs_eof : simpl never.
#[local] Arguments CALLBACK_NOTIFY_ : simpl never.
#[local] Arguments CALLBACK_DATA_ : simpl never.

Lemma NEW_MESSAGE_between p : between (NEW_MESSAGE p) = true.
Proof. by destruct (NEW_MESSAGE_cases p) as [->|[->| ->]]. Qed.

Lemma NEW_MESSAGE_request p :
  hp_type p = HTTP_REQUEST -> response_state (NEW_MESSAGE p) = false.
Proof.
  intros Ht. unfold NEW_MESSAGE, start_state, is_request. rewrite Ht.
  by destruct (http_should_keep_alive p).
Qed.

Lemma complete_good (st st' : ctx U) ER :
  c_user st' = c_user st -> hp_http_errno (c_parser st') = HPE_OK -> request_parser (c_parser st') ->
  between (hp_state (c_parser st')) = true -> Qin false (c_user st) ->
  good (CALLBACK_NOTIFY_ (on_message_complete settings) HPE_CB_message_complete ER st').
Proof.
  intros Hu H1 H2 Hb Hin. eapply (notify_good true); try done;
    [apply (o_complete Ho)|by rewrite Hb|by rewrite Hu|by rewrite Hb|by destruct (hp_state (c_parser st'))
    |intros E; by rewrite E in Hb].
Qed.

Lemma begin_good (st st' : ctx U) ER :
  c_user st' = c_user st -> hp_http_errno (c_parser st') = HPE_OK -> request_parser (c_parser st') ->
  between (hp_state (c_parser st')) = false -> Qout (c_user st) ->
  in_value (hp_state (c_parser st')) = false -> hp_state (c_parser st') <> s_header_field ->
  head (c_parser st') = true ->
  good (CALLBACK_NOTIFY_ (on_message_begin settings) HPE_CB_message_begin ER st').
Proof.
  intros Hu H1 H2 Hb Hout Hv Hf Hh.
  eapply (notify_good false); try done; [apply (o_begin Ho)|by rewrite Hb|by rewrite Hu|].
  by rewrite Hb, Hh.
Qed.

(** Inside a message. *)
Lemma inside_good (st st' : ctx U) :
  hp_http_errno (c_parser st) = HPE_OK -> request_parser (c_parser st) ->
  Qin (head (c_parser st')) (c_user st) -> c_user st' = c_user st -> hp_type (c_parser st') = hp_type (c_parser st) ->
  hp_http_errno (c_parser st') = hp_http_errno (c_parser st) ->
  between (hp_state (c_parser st')) = false ->
  (response_state (hp_state (c_parser st)) = false -> response_state (hp_state (c_parser st')) = false) ->
  in_value (hp_state (c_parser st')) = false -> hp_state (c_parser st') <> s_header_field ->
  hp_http_errno (c_parser st') = HPE_OK /\ phase (c_parser st') (c_user st') /\ marked st'.
Proof.
  intros He Hreq Hin Hu Ht Hee Hb Hr Hv Hf. split; [congruence|]. split; [split|by intros E].
  - intros HR. destruct (Hreq HR) as [H1 H2]. rewrite Ht. auto.
  - rewrite Hb, Hv. by rewrite Hu.
Qed.

Lemma advance_url_good (st : ctx U) ch :
  hp_http_errno (c_parser st) = HPE_OK -> request_parser (c_parser st) ->
  Qin (negb (trailing (c_parser st))) (c_user st) ->
  good (advance_url st ch).
Proof.
  intros He Hreq Hin. unfold advance_url. cbn [upd c_parser set_state hp_state].
  destruct (parse_url_char_cases (hp_state (c_parser st)) ch) as [->|Hu].
  - split; [by eapply (o_in Ho)|done].
  - assert (Hbr : between (parse_url_char (hp_state (c_parser st)) ch) = false /\
      response_state (parse_url_char (hp_state (c_parser st)) ch) = false /\
      in_value (parse_url_char (hp_state (c_parser st)) ch) = false /\
      body_state (parse_url_char (hp_state (c_parser st)) ch) = false /\
      parse_url_char (hp_state (c_parser st)) ch <> s_header_field)
      by (by destruct (parse_url_char (hp_state (c_parser st)) ch)).
    destruct Hbr as (Hb & Hr & Hv & Hbs & Hf).
    assert (Hg : good (Break (upd (fun p => set_state (parse_url_char (hp_state p) ch) p) st))).
    { eapply inside_good; try done. unfold head. cbn. by rewrite Hbs. }
    by destruct (parse_url_char (hp_state (c_parser st)) ch).
Qed.

Lemma keeps_good (st : ctx U) p' :
  hp_http_errno (c_parser st) = HPE_OK -> request_parser (c_parser st) ->
  between (hp_state (c_parser st)) = false -> body_state (hp_state (c_parser st)) = false ->
  Qin (negb (trailing (c_parser st))) (c_user st) ->
  (in_value (hp_state p') = true -> Qfield (c_user st)) -> marked st ->
  keeps (c_parser st) p' -> good (Break (upd (fun _ => p') st)).
Proof.
  intros He Hreq Hb Hbs Hin Hv Hm (Ht & Hee & Hs & Htr). split; [cbn; congruence|]. split; [split|].
  - intros HR. destruct (Hreq HR) as [H1 H2]. cbn. rewrite Ht. split; [done|]. by destruct Hs as [->| ->].
  - cbn. assert (Hb' : between (hp_state p') = false) by (by destruct Hs as [->| ->]). rewrite Hb'.
    unfold head. assert (Hb2 : body_state (hp_state p') = false) by (by destruct Hs as [->| ->]).
    by rewrite Hb2, Htr.
  - intros E. cbn in E. apply Hm. destruct Hs; congruence.
Qed.

(** After a callback that delivers data inside a message the byte is read again. *)
Lemma data_again_good k e ER (st : ctx U) :
  hp_http_errno (c_parser st) = HPE_OK -> before (head (c_parser st)) k (c_user st) -> request_parser (c_parser st) ->
  between (hp_state (c_parser st)) = false -> reports k st ->
  hp_state (c_parser st) <> s_header_field ->
  good (and_then (CALLBACK_DATA_ settings data k e ER st) Goto_reexecute).
Proof.
  intros He Hin Hreq Hb Hrep Hf. pose proof (data_good k e ER st He Hin Hreq Hb Hrep Hf) as H.
  by destruct (CALLBACK_DATA_ settings data k e ER st).
Qed.

(** The end of the headers. *)
Lemma headers_complete_good (st : ctx U) :
  hp_http_errno (c_parser st) = HPE_OK -> request_parser (c_parser st) ->
  hp_state (c_parser st) = s_headers_done -> Qin true (c_user st) ->
  good (and_then (call_headers_complete settings st) (fun st =>
    if negb (errno_ok (c_parser st)) then Return st (c_p st) else Goto_reexecute st)).
Proof.
  intros He Hreq Es Hin. unfold call_headers_complete.
  pose proof (o_headers Ho) as Hh. destruct (on_headers_complete settings) as [f|]; cbn [and_then].
  2: { unfold errno_ok. rewrite He. cbn. split; [done|]. unfold phase, marked, head. rewrite Es. split; [|done].
       split; [done|]. by split; [apply Hh|]. }
  destruct (Hh (c_parser st) (c_user st) Hin) as (Hany & Hpaused & Hok). cbv zeta.
  set (r := f _ _) in *.
  set (st1 := set_user (cb_user r) (upd (after_pause r) st)).
  assert (Hst1 : hp_type (c_parser st1) = hp_type (c_parser st) /\
    hp_state (c_parser st1) = hp_state (c_parser st) /\
    ((hp_http_errno (c_parser st1) = HPE_OK /\ cb_pause r <> Some true) \/
     (hp_http_errno (c_parser st1) = HPE_PAUSED /\ cb_pause r = Some true))).
  { unfold st1, after_pause, http_parser_pause. cbn. rewrite He.
    destruct (cb_pause r) as [[]|]; cbn; auto. }
  destruct Hst1 as (Ht & Hs & Herr).
  assert (Hu1 : c_user st1 = cb_user r) by done. clearbody st1.
  assert (Hpost : zero_one (cb_ret r) -> forall g, (forall p, hp_type (g p) = hp_type p) ->
    (forall p, hp_state (g p) = hp_state p) -> (forall p, hp_http_errno (g p) = hp_http_errno p) ->
    good (if negb (errno_ok (c_parser (upd g st1))) then Return (upd g st1) (c_p (upd g st1))
          else Goto_reexecute (upd g st1))).
  { intros Hz g G1 G2 G3. unfold errno_ok. cbn [upd c_parser c_user]. rewrite G3.
    assert (Hph : cb_pause r <> Some true -> phase (g (c_parser st1)) (cb_user r)).
    { intros Hp. split; [|unfold head; rewrite G2, Hs, Es; by split; [apply Hok|]]. intros HR. destruct (Hreq HR).
      by rewrite G1, G2, Ht, Hs. }
    assert (Hm : marked (upd g st1)) by (unfold marked; cbn; by rewrite G2, Hs, Es).
    destruct Herr as [[He1 Hp1]|[He1 Hp1]]; rewrite He1; cbn.
    - rewrite Hu1, G3. auto.
    - unfold post. cbn. rewrite Hu1, G3, He1. split; [done|]. split; [done|]. intros _.
      rewrite G2, Hs, Es. split; [|by apply Hpaused]. intros HR. destruct (Hreq HR). by rewrite G1, G2, Ht, Hs, Es. }
  destruct (Z.eqb_spec (cb_ret r) 0) as [E0|_].
  { specialize (Hpost (or_introl E0) (fun p => p) (fun _ => eq_refl) (fun _ => eq_refl) (fun _ => eq_refl)).
    by destruct st1. }
  destruct (Z.eqb_spec (cb_ret r) 1) as [E1|_].
  { exact (Hpost (or_intror E1) (or_flags F_SKIPBODY) (fun _ => eq_refl) (fun _ => eq_refl) (fun _ => eq_refl)). }
  cbn. split; [by rewrite Hu1|]. done.
Qed.

(** Close a case of the switch at one of the ways out; [HF] says that the field
    was reported when its value is read. *)
Ltac inside_leaf He Hreq Hin HF Es :=
  split; [cbn; exact He|]; split; [split|];
  [ let HR := fresh in let Hr := fresh in
    intros HR; destruct (Hreq HR) as [? Hr]; rewrite Es in Hr; try discriminate Hr; cbn; by rewrite ?Es
  | unfold head, trailing; cbn; rewrite ?Es; cbn; rewrite ?trailing_set;
    rewrite ?trailing_or by auto; split; [exact Hin|first [discriminate 1 | intros _; apply HF; by rewrite Es]]
  | unfold marked, MARK; cbn; rewrite ?Es; first [discriminate 1 | intros _; cbn in *; first [congruence | by case_match]] ].

Ltac data_leaf Hreq Hin HF Es :=
  first [apply data_good | apply data_again_good]; cbn;
  [ done
  | unfold head, trailing; cbn; rewrite ?Es; split; [exact Hin|];
    first [discriminate 1 | intros _; apply HF; by rewrite Es]
  | let HR := fresh in intros HR; destruct (Hreq HR); cbn; by rewrite ?Es
  | by rewrite ?Es
  | unfold reports; cbn; rewrite ?Es; first [discriminate 1 | by left | by right]
  | by rewrite ?Es ].

Ltac leaf He Hreq Hin HF Es :=
  match goal with
  | |- good (Goto_error _) => split; [exact (o_in Ho _ _ Hin)|cbn; congruence]
  | |- good Assert_failed => exact I
  | |- good (advance_url _ _) => by apply advance_url_good
  | |- good (CALLBACK_DATA_ _ _ _ _ _ _) => data_leaf Hreq Hin HF Es
  | |- good (and_then (CALLBACK_DATA_ _ _ _ _ _ _) _) => data_leaf Hreq Hin HF Es
  | |- good (CALLBACK_NOTIFY_ (on_message_complete _) _ _ _) =>
      eapply complete_good; [| | | |exact Hin]; cbn; [reflexivity|exact He| |by apply NEW_MESSAGE_between];
      intros HR; destruct (Hreq HR); cbn; split; [done|by apply NEW_MESSAGE_request]
  | |- good (Break _) => inside_leaf He Hreq Hin HF Es
  | |- good (Goto_reexecute _) => inside_leaf He Hreq Hin HF Es
  end.

Ltac switch_case He Hreq Hin HF Es :=
  unfold exec_constant, exec_http_major, exec_first_http_minor, exec_minor_digit, exec_url_prefix,
    exec_url_rest, STRICT_CHECK, assert_then, goto_state, fail, CALLBACK_DATA, CALLBACK_DATA_NOADVANCE,
    notify_message_complete, CALLBACK_NOTIFY, MARK; cbv zeta;
  repeat (case_match; try by leaf He Hreq Hin HF Es); try by leaf He Hreq Hin HF Es.

Lemma inside_switch (st : ctx U) ch :
  hp_http_errno (c_parser st) = HPE_OK -> request_parser (c_parser st) ->
  between (hp_state (c_parser st)) = false -> Qin (head (c_parser st)) (c_user st) ->
  (in_value (hp_state (c_parser st)) = true -> Qfield (c_user st)) -> marked st ->
  good (exec_switch settings data st ch).
Proof.
  intros He Hreq Hb Hin HF Hm. unfold exec_switch.
  destruct (hp_state (c_parser st)) eqn:Es; try done.
  all: rewrite <- Es in HF.
  all: unfold head in Hin; rewrite Es in Hin; cbn in Hin; unfold trailing in Hin.
  all: unfold exec_s_res_or_resp_H, exec_s_res_first_http_major, exec_s_res_http_minor,
    exec_s_res_first_status_code, exec_s_res_status_code, exec_s_res_status, exec_s_res_line_almost_done,
    exec_s_req_method, exec_s_req_spaces_before_url, exec_s_req_http_start, exec_s_req_first_http_major,
    exec_s_req_http_minor, exec_s_req_line_almost_done, exec_s_header_field_start, exec_s_header_field,
    exec_s_header_value_start, exec_s_header_value, exec_s_header_almost_done, exec_s_header_value_lws,
    exec_s_headers_almost_done, exec_s_headers_done, exec_s_body_identity, exec_s_body_identity_eof,
    exec_s_message_done, exec_s_chunk_size_start, exec_s_chunk_size, exec_s_chunk_parameters,
    exec_s_chunk_size_almost_done, exec_s_chunk_data, exec_s_chunk_data_almost_done, exec_s_chunk_data_done,
    take_body.
  all: try (switch_case He Hreq Hin HF Es; fail).
  - switch_case He Hreq Hin HF Es.
    all: match goal with H : switch_method _ _ _ = inr (Some _) |- _ =>
           apply switch_method_error in H; subst end; by leaf He Hreq Hin HF Es.
  - destruct (ch =? chr " "); [by leaf He Hreq Hin HF Es|]. unfold MARK.
    apply advance_url_good; destruct (get_mark D_url st); cbn; destruct (decide _); cbn; try done;
      intros HR; destruct (Hreq HR); cbn; by rewrite ?Es.
  - specialize (Hm Es). switch_case He Hreq Hin HF Es.
    all: apply keeps_good; [done|done|by rewrite Es|by rewrite Es|done| |by intros _|by eapply header_field_char_keeps].
    all: match goal with H : header_field_char _ _ _ = Some _ |- _ =>
           rewrite (header_field_char_state _ _ _ _ H), Es; discriminate 1 end.
  - destruct (_ || _); [by leaf He Hreq Hin HF Es|]. cbv zeta. unfold CALLBACK_DATA.
    specialize (HF ltac:(by rewrite Es)).
    set (st1 := upd (fun p => set_index 0 (set_state s_header_value p)) (MARK D_header_value st)).
    assert (H1 : hp_http_errno (c_parser st1) = HPE_OK /\ c_user st1 = c_user st /\
      hp_type (c_parser st1) = hp_type (c_parser st) /\ hp_state (c_parser st1) = s_header_value /\
      hp_flags (c_parser st1) = hp_flags (c_parser st))
      by (unfold st1, MARK; by destruct (get_mark D_header_value st)).
    clearbody st1. destruct H1 as (He1 & Hu1 & Ht1 & Hs1 & Hfl1). rewrite <- Hu1 in Hin, HF. rewrite <- Hfl1 in Hin.
    assert (Hreq1 : request_parser (c_parser st1)).
    { intros HR. destruct (Hreq HR). rewrite Ht1, Hs1. done. }
    assert (HF1 : in_value (hp_state (c_parser st1)) = true -> Qfield (c_user st1)) by done.
    clear He Hreq Es Hb. switch_case He1 Hreq1 Hin HF1 Hs1.
    all: apply keeps_good; [done|done|by rewrite Hs1|by rewrite Hs1|done|done|by unfold marked; rewrite Hs1|].
    all: by eapply header_value_first_keeps.
  - unfold CALLBACK_DATA, CALLBACK_DATA_NOADVANCE, fail.
    destruct (ch =? CR); [by leaf He Hreq Hin HF Es|]. destruct (ch =? LF); [by leaf He Hreq Hin HF Es|].
    destruct (header_value_char _ _) eqn:Hv; [|by leaf He Hreq Hin HF Es|done].
    apply keeps_good; [done|done|by rewrite Es|by rewrite Es|done| |done|by eapply header_value_char_keeps].
    intros _. apply HF. by rewrite Es.
  - unfold STRICT_CHECK, fail. destruct (negb (ch =? LF)); [by leaf He Hreq Hin HF Es|].
    unfold good, phase, marked. cbn.
    destruct (hp_header_state (c_parser st)); cbn; inside_leaf He Hreq Hin HF Es.
  - unfold STRICT_CHECK, fail, notify_message_complete, CALLBACK_NOTIFY.
    destruct (negb (ch =? LF)); [by leaf He Hreq Hin HF Es|].
    change (Qin (negb (has_flag (hp_flags (c_parser st)) F_TRAILING)) (c_user st)) in Hin.
    destruct (has_flag (hp_flags (c_parser st)) F_TRAILING); [by leaf He Hreq Hin HF Es|]. cbv zeta.
    apply headers_complete_good; cbn; [done| |done|exact Hin]. intros HR. by destruct (Hreq HR).
Qed.

Lemma between_switch (st : ctx U) ch :
  hp_http_errno (c_parser st) = HPE_OK -> request_parser (c_parser st) ->
  between (hp_state (c_parser st)) = true -> Qout (c_user st) ->
  good (exec_switch settings data st ch).
Proof.
  intros He Hreq Hb Hout. unfold exec_switch.
  assert (Hsame : good (Break st)).
  { split; [done|]. split; [split; [done|]; by rewrite Hb|]. intros E. by rewrite E in Hb. }
  assert (Herr : forall e p, e <> HPE_PAUSED ->
    good (Goto_error (upd (set_http_errno e) (upd p st)))) by (intros; split; [by apply (o_out Ho)|done]).
  assert (Hfail : forall e, e <> HPE_PAUSED -> good (fail e st)) by (intros; split; [by apply (o_out Ho)|done]).
  destruct (hp_state (c_parser st)) eqn:Es; try done.
  - unfold exec_s_dead. destruct (_ || _); [done|by apply Hfail].
  - assert (Hnr : requests = true -> False) by (intros HR; destruct (Hreq HR) as [_ Hr]; by rewrite Es in Hr).
    unfold exec_s_start_req_or_res. destruct (_ || _); [done|]. cbv zeta.
    destruct (ch =? chr "H").
    + by eapply begin_good; [| |intros HR; destruct (Hnr HR)|..].
    + split; [done|]. split; [|done]. split; [intros HR; by destruct (Hnr HR)|done].
  - assert (Hnr : requests = true -> False) by (intros HR; destruct (Hreq HR) as [_ Hr]; by rewrite Es in Hr).
    unfold exec_s_start_res. cbv zeta. destruct (ch =? chr "H").
    + by eapply begin_good; [| |intros HR; destruct (Hnr HR)|..].
    + destruct (_ || _); [|by apply Herr].
      eapply notify_good; [apply (o_begin Ho)| |done|done|done|done|intros HR; by destruct (Hnr HR)
        | |by cbn; rewrite Es|by cbn; rewrite Es];
        cbn; rewrite Es; cbn; (destruct (o_requests Ho) as [HR|[H1 H2]]; [by destruct (Hnr HR)|]); eauto.
  - unfold exec_s_start_req. destruct (_ || _); [done|]. cbv zeta.
    destruct (negb _); [by apply Herr|]. destruct (first_method ch); [|by split; [apply (o_out Ho)|]].
    eapply begin_good; try done.
    intros HR. by destruct (Hreq HR).
Qed.

Lemma switch_good (st : ctx U) ch :
  hp_http_errno (c_parser st) = HPE_OK -> phase (c_parser st) (c_user st) -> marked st ->
  good (exec_switch settings data st ch).
Proof.
  intros He [Hreq Hq] Hm. destruct (between (hp_state (c_parser st))) eqn:Hb.
  - by apply between_switch.
  - destruct Hq. by apply inside_switch.
Qed.

(** * The loop and the function *)

Lemma phase_any p u : phase p u -> Qany u.
Proof. intros [_ Hq]. destruct (between _); [by apply (o_out Ho)|eapply (o_in Ho), Hq]. Qed.

Lemma reexecute_good fuel st ch :
  hp_http_errno (c_parser st) = HPE_OK -> phase (c_parser st) (c_user st) -> marked st ->
  match reexecute_byte settings data fuel st ch with Goto_reexecute _ => True | o => good o end.
Proof.
  revert st. induction fuel as [|f IH]; intros st He Hp Hm; cbn [reexecute_byte];
    pose proof (switch_good st ch He Hp Hm) as H; destruct (exec_switch settings data st ch); try done.
  destruct H as (? & ? & ?). by apply IH.
Qed.

Lemma exec_byte_good st :
  hp_http_errno (c_parser st) = HPE_OK -> phase (c_parser st) (c_user st) -> marked st ->
  match exec_byte settings data st with Goto_reexecute _ => True | o => good o end.
Proof.
  intros He Hp Hm. unfold exec_byte, count_header_byte.
  destruct (PARSING_HEADER _); [|by apply reexecute_good]. cbv zeta. destruct (_ <? _).
  - cbn. split; [|done]. by apply (phase_any (c_parser st)).
  - by apply reexecute_good.
Qed.

Lemma exec_loop_good fuel st :
  hp_http_errno (c_parser st) = HPE_OK -> phase (c_parser st) (c_user st) -> marked st ->
  match exec_loop settings data fuel st with Goto_reexecute _ => True | o => good o end.
Proof.
  revert st. induction fuel as [|f IH]; intros st He Hp Hm; cbn [exec_loop];
    (destruct (_ =? _); [done|]); [done|].
  pose proof (exec_byte_good st He Hp Hm) as H. destruct (exec_byte settings data st); try done.
  destruct H as (? & ? & ?). by apply IH.
Qed.

(** A mark is set inside a message only, that of a value in a value only. *)
Definition marks_inside (st : ctx U) : Prop :=
  forall k, get_mark k st <> None ->
    between (hp_state (c_parser st)) = false /\
    (in_value (hp_state (c_parser st)) = true <-> k = D_header_value).

Lemma set_mark_get k k' v (st : ctx U) :
  get_mark k' (set_mark k v st) = if decide (k = k') then v else get_mark k' st.
Proof. by destruct k, k'. Qed.

Lemma flush_one_good k st (K : ctx U -> outcome U) :
  hp_http_errno (c_parser st) = HPE_OK -> phase (c_parser st) (c_user st) -> marks_inside st ->
  (forall st', hp_http_errno (c_parser st') = HPE_OK -> phase (c_parser st') (c_user st') ->
    marks_inside st' -> good (K st')) ->
  good (and_then (CALLBACK_DATA_NOADVANCE settings data k st) K).
Proof.
  intros He [Hreq Hq] Hm HK. unfold CALLBACK_DATA_NOADVANCE.
  destruct (get_mark k st) as [m|] eqn:Em.
  - destruct (Hm k) as [Hb Hv]; [by rewrite Em|]. rewrite Hb in Hq.
    pose proof (data_post k (c_p st) (c_p st) st He) as H.
    specialize (H ltac:(split; [apply Hq|intros ->; apply Hq; by apply Hv]) Hreq Hb).
    specialize (H ltac:(intros E; left; by apply Hv)).
    destruct (CALLBACK_DATA_ settings data k (c_p st) (c_p st) st) as [st'| | | | |] eqn:E; try done.
    destruct H as (He' & Hp' & Hs'). apply HK; [done|done|]. intros k' Hk'. rewrite Hs'. apply (Hm k').
    revert E Hk'. unfold CALLBACK_DATA_, assert_then. destruct (errno_ok _); [|done]. rewrite Em.
    destruct (data_cb settings k) as [f|].
    2: { intros [= <-]. rewrite set_mark_get. by destruct (decide _). }
    cbv zeta. set (r := f _ _ _). destruct (after_cb_spec r (data_errno k) st) as [e ->].
    destruct (errno_ok _); [|done]. intros [= <-]. rewrite set_mark_get. by destruct (decide _).
  - unfold CALLBACK_DATA_, assert_then. rewrite (proj2 (errno_ok_true _) He), Em. cbn. by apply HK.
Qed.

Lemma flush_good st :
  hp_http_errno (c_parser st) = HPE_OK -> phase (c_parser st) (c_user st) -> marks_inside st ->
  good (flush_marks settings data st).
Proof.
  intros He Hp Hm. unfold flush_marks, assert_then. destruct (_ <=? _); [|done].
  do 4 (apply flush_one_good; [done..|]; clear st He Hp Hm; intros st He Hp Hm).
  split; [by apply (phase_any (c_parser st))|split; [done|by rewrite He]].
Qed.

Lemma marks_inv_inside (st : ctx U) : marks_inv st -> marks_inside st.
Proof.
  intros Hm k Hk. specialize (Hm k). unfold mark_inv in Hm.
  destruct (get_mark k st); [|done]. destruct Hm as [_ Hm].
  destruct k, (hp_state (c_parser st)); done.
Qed.

Lemma initial_marked p u : marked (initial_ctx p u).
Proof. unfold marked. cbn. intros E. by rewrite E. Qed.

(** A call on bytes keeps the phase of the application with that of the parser,
    or returns an error number; it pauses where a callback did. *)
Lemma execute_phase_post p u :
  parser_ok p -> hp_http_errno p = HPE_OK -> phase p u -> data <> [] ->
  exists p' u' n, http_parser_execute settings data p u = Returned p' u' n /\ post p' u'.
Proof.
  intros Hok He Hp Hne.
  assert (Hinv : parser_inv 0 p) by (apply Hok; by rewrite He).
  destruct (execute_cases settings data p u Hinv He Hne) as (p' & u' & n & Heq & _).
  exists p', u', n. split; [done|]. revert Heq. unfold http_parser_execute, len.
  rewrite (proj2 (errno_ok_true _) He). cbn [negb].
  destruct (Z.eqb_spec (zlen data) 0) as [H0|_].
  { destruct data as [|b l]; [done|]. rewrite zlen_cons in H0. pose proof (zlen_nonneg l). lia. }
  pose proof (exec_loop_ok settings data (length data) _ (initial_loop_inv data p u Hinv He)) as Hl.
  specialize (Hl ltac:(simpl; unfold zlen; lia)).
  pose proof (exec_loop_good (length data) (initial_ctx p u) He Hp (initial_marked p u)) as Hg.
  destruct (exec_loop settings data (length data) (initial_ctx p u)) as [st| |st|st m| |]; try done;
    cbn [and_then].
  - destruct Hl as [[_ _ _ Hm] _]. destruct Hg as (He' & Hp' & _).
    pose proof (flush_good st He' Hp' (marks_inv_inside st Hm)) as Hf.
    destruct (flush_marks settings data st) as [st'| |st'|st' m| |]; try done; intros [= <- <- <-].
    + destruct Hf as (He2 & Hp2 & _). split; [by eapply phase_any|split; [done|by rewrite He2]].
    + destruct Hf as [Ha Hnp]. split; [done|]. unfold errno_ok.
      destruct (hp_http_errno (c_parser st')) eqn:E; cbn; rewrite ?E; done.
    + done.
  - destruct Hg as [Ha Hnp]. intros [= <- <- <-]. split; [done|]. unfold errno_ok.
    destruct (hp_http_errno (c_parser st)) eqn:E; cbn; rewrite ?E; done.
  - by intros [= <- <- <-].
Qed.

(** At the end of the input only on_message_complete can be called. *)
Lemma execute_eof_any p u :
  Qin false u -> data = [] -> forall p' u' n,
  http_parser_execute settings data p u = Returned p' u' n -> Qany u'.
Proof.
  intros Hin -> p' u' n. unfold http_parser_execute. destruct (negb _) eqn:He.
  { intros [= _ <- _]. by eapply (o_in Ho). }
  cbn [len]. change (zlen [] =? 0) with true. cbv iota. unfold execute_eof.
  assert (He' : hp_http_errno p = HPE_OK) by (apply errno_ok_true; by destruct (errno_ok p)).
  destruct (hp_state p) eqn:Es; try (intros [= _ <- _]; by eapply (o_in Ho)).
  unfold CALLBACK_NOTIFY_NOADVANCE, CALLBACK_NOTIFY_, assert_then. cbn [c_parser c_user].
  destruct (errno_ok p); [|done]. pose proof (o_complete Ho) as Hc.
  destruct (on_message_complete settings) as [f|]; [|intros [= _ <- _]; by eapply (o_in Ho)].
  destruct (Hc p u Hin) as (Hany & _). cbv zeta. set (r := f p u) in *.
  match goal with |- context [after_cb r ?er ?st] => destruct (after_cb_spec r er st) as [e ->] end.
  by destruct (errno_ok _); intros [= _ <- _].
Qed.

End Phase.

(** The end of the input leaves no parser inside a header. *)
Lemma execute_eof_state {U : Type} (settings : http_parser_settings U) p u p' u' n :
  hp_http_errno p = HPE_OK -> http_parser_execute settings [] p u = Returned p' u' n ->
  hp_http_errno p' = HPE_OK -> in_value (hp_state p') = false.
Proof.
  intros He. unfold http_parser_execute. rewrite (proj2 (errno_ok_true p) He). cbn [negb].
  change (len [] =? 0) with true. cbv iota. unfold execute_eof.
  destruct (hp_state p) eqn:Es; try (intros [= <- _ _]; cbn; congruence);
    try (intros [= <- _ _] _; by rewrite Es).
  unfold CALLBACK_NOTIFY_NOADVANCE, CALLBACK_NOTIFY_, assert_then. cbn [c_parser c_user].
  rewrite (proj2 (errno_ok_true p) He).
  destruct (on_message_complete settings) as [f|]; [|intros [= <- _ _] _; by rewrite Es].
  cbv zeta. set (r := f p u).
  match goal with |- context [after_cb r ?er ?st] => destruct (after_cb_spec r er st) as [e ->] end.
  by destruct (errno_ok _); intros [= <- _ _] _; cbn; rewrite Es.
Qed.

(** A property of the application that each callback keeps holds after a call,
    whatever the parser and the bytes. *)
Lemma execute_keeps {U : Type} (settings : http_parser_settings U) data (P : U -> Prop) p u :
  parser_ok p -> orderly settings false P (fun _ => P) P (fun _ => P) P -> P u ->
  exists p' u' n, http_parser_execute settings data p u = Returned p' u' n /\ parser_ok p' /\ P u'.
Proof.
  intros Hok Ho HP. destruct (execute_returns settings data p u Hok) as (p' & u' & n & Hr & Hok').
  exists p', u', n. split; [done|]. split; [done|].
  destruct (decide (hp_http_errno p = HPE_OK)) as [He|He].
  - destruct (decide (data = [])) as [->|Hne].
    + by eapply (execute_eof_any _ _ _ _ _ _ _ _ Ho).
    + destruct (execute_phase_post settings data _ _ _ _ _ _ Ho p u Hok He) as (q & v & m & Hr' & Hpost).
      * split; [done|]. by destruct (between _).
      * done.
      * rewrite Hr in Hr'. simplify_eq. by destruct Hpost.
  - revert Hr. unfold http_parser_execute. rewrite (proj2 (errno_ok_false p) He). by intros [= _ <- _].
Qed.

(** * The order of the callbacks of a request parser *)

Section Order.
Context {U : Type} (settings : http_parser_settings U).

(** Between messages, in the head of one or after it, and whether a header field
    was reported. *)
Inductive place := Outside | Inside (in_head named : bool).

Definition on_begin (t : place) : option place :=
  match t with Outside => Some (Inside true false) | _ => None end.
Definition on_part (t : place) : option place :=
  match t with Outside => None | _ => Some t end.
Definition on_name (t : place) : option place :=
  match t with Outside => None | Inside h _ => Some (Inside h true) end.
Definition on_value (t : place) : option place :=
  match t with Inside h true => Some t | _ => None end.
Definition on_headers (t : place) : option place :=
  match t with Inside true n => Some (Inside false n) | _ => None end.
Definition on_end (t : place) : option place :=
  match t with Inside false _ => Some Outside | _ => None end.

(** An application that also remembers the place, [None] when a callback came
    out of order. *)
Definition track_notify (move : place -> option place) (cb : option (http_cb (U := U)))
    : option (http_cb (U := option place * U)) :=
  Some (fun p '(t, u) =>
    match cb with
    | Some f => let r := f p u in mk_cb (cb_ret r) (cb_pause r) (t ≫= move, cb_user r)
    | None => mk_cb 0 None (t ≫= move, u)
    end).

Definition track_data (move : place -> option place) (cb : option (http_data_cb (U := U)))
    : option (http_data_cb (U := option place * U)) :=
  Some (fun p d '(t, u) =>
    match cb with
    | Some f => let r := f p d u in mk_cb (cb_ret r) (cb_pause r) (t ≫= move, cb_user r)
    | None => mk_cb 0 None (t ≫= move, u)
    end).

Definition track : http_parser_settings (option place * U) :=
  mk_settings (track_notify on_begin (on_message_begin settings))
    (track_data on_part (on_url settings)) (track_data on_name (on_header_field settings))
    (track_data on_value (on_header_value settings))
    (track_notify on_headers (on_headers_complete settings)) (track_data on_part (on_body settings))
    (track_notify on_end (on_message_complete settings)).

(** Calls on the buffers in their order; a buffer that is empty ends the input
    and is not among them. *)
Fixpoint feed (bufs : list (list Z)) (p : http_parser) (tu : option place * U)
    : http_parser * (option place * U) :=
  match bufs with
  | [] => (p, tu)
  | b :: bufs =>
      match http_parser_execute track b p tu with
      | Returned p tu _ => if errno_ok p then feed bufs p tu else (p, tu)
      | _ => (p, (None, tu.2))
      end
  end.

Definition inside (b : bool) (tu : option place * U) : Prop := exists n, tu.1 = Some (Inside b n).
Definition named (tu : option place * U) : Prop := exists b, tu.1 = Some (Inside b true).

Lemma track_orderly :
  orderly track true (fun tu => tu.1 = Some Outside) inside named (fun _ _ => True)
    (fun tu => tu.1 <> None).
Proof.
  unfold inside, named. constructor;
    [by left|by intros b [t u] [n H]; cbn in *; subst|by intros [t u] H; cbn in *; subst|..].
  - intros p [t u]. cbn. intros ->. destruct (on_message_begin settings); cbn; eauto 6.
  - intros p [t u]. cbn. intros [n ->]. destruct (on_headers_complete settings); cbn; eauto 6.
  - intros p [t u]. cbn. intros [n ->]. by destruct (on_message_complete settings); cbn.
  - intros b [] d p [t u] [[n Hin] Hv]; cbn in *; subst t; unfold after, inside, named; cbn.
    + destruct (on_header_field settings); cbn; eauto 10.
    + destruct (Hv eq_refl) as [b' [= _ ->]]. destruct (on_header_value settings); cbn; eauto 10.
    + destruct (on_url settings); cbn; naive_solver.
    + destruct (on_body settings); cbn; naive_solver.
Qed.

(** C11. A parser of requests calls on_message_begin before and on_message_complete
    after the other callbacks of every message, never twice, on_headers_complete
    exactly once in it, and a header value only after the name of a field of the
    same message, for every application and however the stream is cut into
    buffers. *)
Theorem callbacks_in_order (bufs : list (list Z)) (u : U) :
  Forall (fun b => b <> []) bufs ->
  (feed bufs (http_parser_init HTTP_REQUEST) (Some Outside, u)).2.1 <> None.
Proof.
  set (Q := phase true (fun tu : option place * U => tu.1 = Some Outside) inside named).
  assert (Hfeed : Forall (fun b => b <> []) bufs -> forall p tu,
    parser_ok p -> hp_http_errno p = HPE_OK -> Q p tu -> (feed bufs p tu).2.1 <> None).
  { induction 1 as [|b bufs Hb _ IH]; intros p tu Hok He Hp; cbn [feed].
    - exact (phase_any _ _ _ _ _ _ _ track_orderly _ _ Hp).
    - destruct (execute_phase_post track b _ _ _ _ _ _ track_orderly p tu Hok He Hp Hb)
        as (p' & tu' & n & Hr & Hany & Hph & _).
      destruct (execute_returns track b p tu Hok) as (q & v & m & Hr' & Hok').
      rewrite Hr in Hr' |- *. simplify_eq. destruct (errno_ok q) eqn:Eq; [|done].
      apply errno_ok_true in Eq. by apply IH; [| |apply Hph]. }
  intros Hb. apply Hfeed; [done|intros _; apply init_ok|done|]. split; done.
Qed.

End Order.

Lemma callbacks_in_order_witness :
  (feed no_callbacks [sample_request ++ str "PO"; str "ST / HTTP/1.1"; [CR]]
     (http_parser_init HTTP_REQUEST) (Some Outside, tt)).2.1 <> None.
Proof. apply callbacks_in_order. by repeat constructor. Defined.
