(* ===== verification/HttpSim.v ===== *)
(** src/http-parser, the recorder and the simulation: an application that records
    what the callbacks are told byte by byte, and the relation between a turn of
    the loop in the middle of a buffer and the same turn on a buffer of one
    byte. *)
From S2P Require Import Prelude HttpTypes HttpExec HttpInv HttpSwitch HttpSafety.

(** * An application that records everything it is told

    Data callbacks are recorded byte by byte, so that what is recorded does not
    depend on how a string was split over several callbacks; at the end of the
    headers and of the message the method that the parser holds is recorded.
    [skip] is the application's answer to on_headers_complete (1: no body
    follows). *)

Inductive token :=
  | T_byte (k : data_kind) (b : Z)
  | T_message_begin
  | T_headers_complete (me : http_method)
  | T_message_complete (me : http_method).

Definition bytes_of (k : data_kind) (l : list Z) : list token := map (T_byte k) l.

Definition record_notify (t : http_parser -> token) (ret : http_parser -> Z) : http_cb :=
  fun p u => mk_cb (ret p) None (u ++ [t p]).

Definition record_data (k : data_kind) : http_data_cb :=
  fun _ d u => mk_cb 0 None (u ++ bytes_of k d).

Definition recorder (skip : http_parser -> bool) : http_parser_settings (list token) :=
  mk_settings
    (Some (record_notify (fun _ => T_message_begin) (fun _ => 0)))
    (Some (record_data D_url))
    (Some (record_data D_header_field))
    (Some (record_data D_header_value))
    (Some (record_notify (fun p => T_headers_complete (hp_method p)) (fun p => if skip p then 1 else 0)))
    (Some (record_data D_body))
    (Some (record_notify (fun p => T_message_complete (hp_method p)) (fun _ => 0))).

(** * Two runs that see the same byte *)

(** The bytes already read but not yet delivered. *)
Definition pending_of (data : list Z) (st : ctx (list token)) (k : data_kind) : list token :=
  match get_mark k st with
  | Some m => bytes_of k (slice data m (c_p st))
  | None => []
  end.

Definition pending (data : list Z) (st : ctx (list token)) : list token :=
  pending_of data st D_header_field ++ pending_of data st D_header_value ++
  pending_of data st D_url ++ pending_of data st D_body.

(** Everything the application knows once the pending bytes are delivered. *)
Definition known (data : list Z) (st : ctx (list token)) : list token :=
  c_user st ++ pending data st.

Definition is_bulk (s : state) : bool :=
  match s with s_body_identity | s_body_identity_eof | s_chunk_data => true | _ => false end.

(** A run over [d1] whose application started with [T], and a run over [d2]
    whose application started empty. *)
Record sim (T : list token) (d1 d2 : list Z) (st1 st2 : ctx (list token)) : Prop := mk_sim {
  sim_parser : c_parser st1 = c_parser st2;
  sim_known : known d1 st1 = T ++ known d2 st2
}.

Definition stays (st st' : ctx (list token)) : Prop :=
  c_p st' = c_p st /\ body_mark st' = None.

(** Both runs leave the switch the same way. *)
Definition outcome_sim T d1 d2 (st1 st2 : ctx (list token)) (o1 o2 : outcome (list token)) : Prop :=
  match o1, o2 with
  | Break a, Break b => sim T d1 d2 a b /\ stays st1 a /\ stays st2 b
  | Goto_reexecute a, Goto_reexecute b =>
      sim T d1 d2 a b /\ stays st1 a /\ stays st2 b /\ is_bulk (hp_state (c_parser a)) = false
  | Goto_error a, Goto_error b =>
      sim T d1 d2 a b /\ c_p a = c_p st1 /\ c_p b = c_p st2 /\ (c_p st2 = 0 -> pending d2 b = [])
  | Assert_failed, Assert_failed => True
  | _, _ => False
  end.

Lemma bytes_of_app k l l' : bytes_of k (l ++ l') = bytes_of k l ++ bytes_of k l'.
Proof. apply map_app. Qed.

(** Keep the pure helpers of the switch folded: both runs call them with the
    same arguments. *)
#[local] Arguments parse_url_char : simpl never.
#[local] Arguments header_field_char : simpl never.
#[local] Arguments header_value_char : simpl never.
#[local] Arguments header_value_first : simpl never.
#[local] Arguments switch_method : simpl never.
#[local] Arguments http_message_needs_eof : simpl never.
#[local] Arguments NEW_MESSAGE : simpl never.
#[local] Arguments bytes_of : simpl never.

(** Close an equation between records: associate to the left. *)
Ltac tokens_eq :=
  unfold known, pending, pending_of in *; simpl in *;
  rewrite ?slice_nil by lia; unfold bytes_of in *; simpl in *;
  rewrite ?app_nil_r, ?app_nil_l, ?app_assoc in *; simpl in *;
  rewrite ?app_nil_r in *; try done; try congruence.

(** Open two related contexts and decide their marks from the state. *)
Ltac open_sim :=
  match goal with
  | Hs : sim _ _ _ ?st1 ?st2, H1 : marks_inv ?st1, H2 : marks_inv ?st2 |- _ =>
      destruct Hs as [Hpar Hk];
      pose proof (H1 D_header_field); pose proof (H1 D_header_value);
      pose proof (H1 D_url); pose proof (H1 D_body); clear H1;
      pose proof (H2 D_header_field); pose proof (H2 D_header_value);
      pose proof (H2 D_url); pose proof (H2 D_body); clear H2;
      destruct st2 as [p2 pos2 hf2 hv2 um2 bm2 u2];
      destruct st1 as [[ty fl s hs ix nr cl ma mi sc me er up] pos1 hf1 hv1 um1 bm1 u1];
      simpl in *; subst;
      unfold mark_inv in *; simpl in *; simplify_eq/=;
      destruct hf1, hv1, um1, bm1, hf2, hv2, um2, bm2; simpl in *;
      repeat match goal with
      | H : D_body = D_body \/ _ |- _ => clear H
      | H : False |- _ => destruct H
      | H : _ \/ _ |- _ => destruct H; discriminate
      | H : _ /\ false = true |- _ => destruct H; discriminate
      | H : _ /\ true = true |- _ => destruct H as [H _]
      end
  end.

Section Sim.
Context (skip : http_parser -> bool) (T : list token) (d1 d2 : list Z).

Lemma advance_url_sim st01 st02 st1 st2 ch :
  sim T d1 d2 st1 st2 -> stays st01 st1 -> stays st02 st2 -> (c_p st02 = 0 -> pending d2 st2 = []) ->
  outcome_sim T d1 d2 st01 st02 (advance_url st1 ch) (advance_url st2 ch).
Proof.
  destruct st1 as [p1 ? ? ? ? ? ?], st2 as [p2 ? ? ? ? ? ?].
  intros [Hp Hk] [? ?] [? ?] Hz; simpl in *; subst.
  unfold advance_url, fail, outcome_sim, upd, stays; simpl.
  destruct (parse_url_char _ ch); simpl; split_and!; try done; try (split; [done|exact Hk]); exact Hz.
Qed.

(** Run both sides of the switch through the same cases. *)
Ltac sim_run :=
  unfold notify_message_begin, notify_message_complete, reset_message,
    goto_state, fail, STRICT_CHECK, assert_then, CALLBACK_NOTIFY, CALLBACK_DATA,
    CALLBACK_DATA_NOADVANCE, CALLBACK_NOTIFY_, CALLBACK_DATA_,
    call_headers_complete, after_cb, after_pause, errno_ok, is_chunked; simpl;
  repeat (case_match; simpl; simplify_eq/=);
  try (apply advance_url_sim; [split; [done|tokens_eq]|done|done|
    simpl; intros ?; unfold pending, pending_of; simpl; rewrite ?slice_nil by lia; done]);
  unfold outcome_sim, stays; simpl; split_and?; try done;
  try (split; [done|]; tokens_eq);
  try (simpl; intros ?; unfold pending, pending_of; simpl; rewrite ?slice_nil by lia; done).

(** Outside the states that take a whole run of body bytes, the switch treats
    the byte the same way wherever the buffer starts. *)
Lemma switch_sim st1 st2 ch :
  marks_inv st1 -> marks_inv st2 -> hp_http_errno (c_parser st1) = HPE_OK ->
  sim T d1 d2 st1 st2 -> is_bulk (hp_state (c_parser st1)) = false ->
  outcome_sim T d1 d2 st1 st2
    (exec_switch (recorder skip) d1 st1 ch) (exec_switch (recorder skip) d2 st2 ch).
Proof.
  intros ? ? ? ? Hb. destruct (hp_state (c_parser st1)) eqn:Hs; try discriminate Hb;
    clear Hb; open_sim; unfold exec_switch; simpl; unfold
    exec_constant, exec_first_http_minor, exec_http_major,
    exec_s_chunk_data_almost_done, exec_s_chunk_data_done,
    exec_s_chunk_parameters, exec_s_chunk_size,
    exec_s_chunk_size_almost_done, exec_s_chunk_size_start, exec_s_dead,
    exec_s_header_almost_done, exec_s_header_field,
    exec_s_header_field_start, exec_s_header_value,
    exec_s_header_value_lws, exec_s_header_value_start,
    exec_s_headers_almost_done, exec_s_headers_done, exec_s_message_done,
    exec_s_req_first_http_major, exec_s_req_http_minor,
    exec_s_req_http_start, exec_s_req_line_almost_done, exec_s_req_method,
    exec_s_req_spaces_before_url, exec_s_res_first_http_major,
    exec_s_res_first_status_code, exec_s_res_http_minor,
    exec_s_res_line_almost_done, exec_s_res_or_resp_H, exec_s_res_status,
    exec_s_res_status_code, exec_s_start_req, exec_s_start_req_or_res,
    exec_s_start_res, exec_url_prefix, exec_url_rest, exec_minor_digit;
    sim_run.
Qed.
End Sim.
