(* ===== verification/HttpStream.v ===== *)
(** src/http-parser, streaming: [feed] calls the parser once per byte, and a call
    on a whole buffer refines it, although the code marks strings, reads bodies
    in bulk and delays callbacks to the end of the buffer. *)
From S2P Require Import Prelude HttpTypes HttpExec HttpInv HttpSwitch HttpSafety HttpSim.

(** * The reference: one call per byte *)

Section Feed.
Context (skip : http_parser -> bool).

(** Feed the bytes one at a time, stopping at the first error: the parser, the
    record, and the number of bytes accepted. *)
Fixpoint feed (p : http_parser) (bs : list Z) : http_parser * list token * Z :=
  match bs with
  | [] => (p, [], 0)
  | b :: bs' =>
      match http_parser_execute (recorder skip) [b] p [] with
      | Returned p' t n =>
          if errno_ok p' then
            let '(q, t', m) := feed p' bs' in (q, t ++ t', 1 + m)
          else (p', t, n)
      | _ => (p, [], 0)
      end
  end.
End Feed.

Lemma slice_self l a : slice l a a = [].
Proof. apply slice_nil. lia. Qed.

Lemma bytes_of_nil k : bytes_of k [] = [].
Proof. done. Qed.

Section Bytes.
Context (skip : http_parser -> bool) (T : list token) (d1 d2 : list Z).

Definition next (st : ctx (list token)) : ctx (list token) := set_p (c_p st + 1) st.

(** * One byte in both runs *)

(** Both runs read one byte, with related contexts afterwards, or fail alike. *)
Definition byte_sim (st1 st2 : ctx (list token)) (o1 o2 : outcome (list token)) : Prop :=
  match o1, o2 with
  | Break a, Break b =>
      sim T d1 d2 (next a) (next b) /\ c_p a = c_p st1 /\ c_p b = c_p st2
  | Goto_error a, Goto_error b =>
      sim T d1 d2 a b /\ c_p a = c_p st1 /\ c_p b = c_p st2 /\ (c_p st2 = 0 -> pending d2 b = [])
  | _, _ => False
  end.

(** The byte just read joins the string being read, if there is one. *)
Lemma sim_step a b :
  ctx_inv d1 0 a -> ctx_inv d2 0 b -> sim T d1 d2 a b ->
  body_mark a = None -> body_mark b = None ->
  zth d1 (c_p a) = zth d2 (c_p b) -> sim T d1 d2 (next a) (next b).
Proof.
  intros [_ _ Hpa Hma] [_ _ Hpb Hmb] [Heq Hk] Ha Hb Hz. split; [done|].
  pose proof (Hma D_header_field); pose proof (Hma D_header_value); pose proof (Hma D_url).
  pose proof (Hmb D_header_field); pose proof (Hmb D_header_value); pose proof (Hmb D_url).
  clear Hma Hmb. destruct a as [p ? hf1 hv1 um1 ? ?], b as [? ? hf2 hv2 um2 ? ?].
  unfold mark_inv, known, pending, pending_of in *; simpl in *; subst.
  rewrite !app_nil_r in *.
  destruct hf1, hv1, um1, hf2, hv2, um2; simpl in *;
    repeat match goal with
    | H : _ \/ _ |- _ => destruct H as [H|H]; try discriminate H
    | H : _ /\ _ |- _ => destruct H
    end; try congruence; try (destruct (hp_state _); discriminate);
    rewrite ?slice_snoc, ?bytes_of_app by lia; rewrite ?Hz; rewrite ?app_nil_r in *;
    rewrite ?app_assoc in *; congruence.
Qed.

Lemma reexecute_sim fuel st1 st2 ch :
  ctx_inv d1 1 st1 -> ctx_inv d2 1 st2 -> sim T d1 d2 st1 st2 ->
  is_bulk (hp_state (c_parser st1)) = false ->
  (reexec_rank (hp_state (c_parser st1)) <= fuel)%nat ->
  zth d1 (c_p st1) = zth d2 (c_p st2) ->
  byte_sim st1 st2 (reexecute_byte (recorder skip) d1 fuel st1 ch)
                   (reexecute_byte (recorder skip) d2 fuel st2 ch).
Proof.
  revert st1 st2. induction fuel as [|fuel IH]; intros st1 st2 H1 H2 Hs Hb Hr Hz;
    pose proof (exec_switch_ok (recorder skip) d1 st1 ch H1) as Hok1;
    pose proof (exec_switch_ok (recorder skip) d2 st2 ch H2) as Hok2;
    pose proof (switch_sim skip T d1 d2 st1 st2 ch (ci_marks _ _ _ H1) (ci_marks _ _ _ H2)
                  (ci_errno _ _ _ H1) Hs Hb) as Ho; simpl;
    destruct (exec_switch _ d1 st1 ch) as [a|a|a|a n| |],
      (exec_switch _ d2 st2 ch) as [b|b|b|b m| |]; try done; simpl in Ho, Hok1, Hok2.
  all: try lia.
  1, 2: destruct Ho as (Hs' & [Hp1 Hb1] & [Hp2 Hb2]); split_and!; try done;
    apply sim_step; try tauto; congruence.
  destruct Ho as (Hs' & [Hp1 Hb1] & [Hp2 Hb2] & Hbulk).
  destruct Hok1 as (Hi1 & _ & Hr1), Hok2 as (Hi2 & _ & _).
  specialize (IH a b Hi1 Hi2 Hs' Hbulk ltac:(lia) ltac:(congruence)).
  unfold byte_sim in *. by rewrite Hp1, Hp2 in IH.
Qed.

(** At the start of a buffer nothing is pending. *)
Lemma pending_start d (st : ctx (list token)) : marks_inv st -> c_p st = 0 -> pending d st = [].
Proof.
  intros Hm Hp. unfold pending, pending_of.
  assert (H : forall k m, get_mark k st = Some m -> slice d m (c_p st) = []).
  { intros k m Hk. specialize (Hm k). unfold mark_inv in Hm. rewrite Hk in Hm. apply slice_nil. lia. }
  destruct (get_mark D_header_field st) eqn:E1, (get_mark D_header_value st) eqn:E2,
    (get_mark D_url st) eqn:E3, (get_mark D_body st) eqn:E4; by rewrite ?(H _ _ E1), ?(H _ _ E2), ?(H _ _ E3), ?(H _ _ E4).
Qed.

(** The header-byte counter depends on the parser only. *)
Lemma count_sim st1 st2 :
  marks_inv st2 -> sim T d1 d2 st1 st2 ->
  match count_header_byte st1, count_header_byte st2 with
  | Break a, Break b =>
      sim T d1 d2 a b /\ c_p a = c_p st1 /\ c_p b = c_p st2 /\
      hp_state (c_parser a) = hp_state (c_parser st1)
  | Goto_error a, Goto_error b =>
      sim T d1 d2 a b /\ c_p a = c_p st1 /\ c_p b = c_p st2 /\ (c_p st2 = 0 -> pending d2 b = [])
  | _, _ => False
  end.
Proof.
  intros Hm. pose proof (pending_start d2 st2 Hm) as Hz. clear Hm.
  destruct st1 as [p ? ? ? ? ? ?], st2 as [q ? ? ? ? ? ?]. intros [Heq Hk]; simpl in *; subst.
  unfold count_header_byte, fail, upd; simpl.
  destruct (PARSING_HEADER (hp_state _)); simpl; [|by split_and!].
  destruct (_ <? _); simpl; by split_and!.
Qed.

Lemma exec_byte_sim st1 st2 :
  ctx_inv d1 0 st1 -> ctx_inv d2 0 st2 -> sim T d1 d2 st1 st2 ->
  is_bulk (hp_state (c_parser st1)) = false ->
  zth d1 (c_p st1) = zth d2 (c_p st2) ->
  byte_sim st1 st2 (exec_byte (recorder skip) d1 st1) (exec_byte (recorder skip) d2 st2).
Proof.
  intros H1 H2 Hs Hb Hz. unfold exec_byte.
  pose proof (count_header_byte_ok d1 st1 H1) as Hc1.
  pose proof (count_header_byte_ok d2 st2 H2) as Hc2.
  pose proof (count_sim st1 st2 (ci_marks _ _ _ H2) Hs) as Hc.
  destruct (count_header_byte st1) as [a|a|a|a n| |],
    (count_header_byte st2) as [b|b|b|b m| |]; try done; cbn [and_then].
  destruct Hc as (Hs' & Hp1 & Hp2 & Hst), Hc1 as [Hi1 _], Hc2 as [Hi2 _].
  pose proof (reexecute_sim REEXEC_FUEL a b (zth d1 (c_p st1)) Hi1 Hi2 Hs') as Hr.
  rewrite Hst, Hp1, Hp2 in Hr. specialize (Hr Hb (rank_le_fuel _) Hz).
  rewrite Hz in *. unfold byte_sim in *. by rewrite Hp1, Hp2 in Hr.
Qed.
End Bytes.

(** * The states that take a run of body bytes at once *)

#[local] Arguments NEW_MESSAGE : simpl never.
#[local] Arguments bytes_of : simpl never.
#[local] Arguments Z.min : simpl never.

Section Bulk.
Context (skip : http_parser -> bool).

(** The context that has read one byte more of a body. *)
Definition absorb (st : ctx (list token)) : ctx (list token) :=
  next (upd (fun p => match hp_state p with
                      | s_body_identity_eof => p
                      | _ => set_content_length (hp_content_length p - 1) p
                      end) (MARK D_body st)).

(** More of the body follows in the message. *)
Definition more_body (p : http_parser) : Prop :=
  is_bulk (hp_state p) = true /\
  (hp_state p = s_body_identity_eof \/ 1 < hp_content_length p).

Lemma more_body_dec p : {more_body p} + {~ more_body p}.
Proof.
  unfold more_body. destruct (is_bulk (hp_state p)); [|right; by intros [? _]].
  destruct (decide (hp_state p = s_body_identity_eof)); [left; auto|].
  destruct (decide (1 < hp_content_length p)); [left; auto|right; intuition].
Qed.

Ltac open_bulk H :=
  destruct H as [[? ? ? Hcl ? ? ? Hst] He Hpos Hm];
  pose proof (Hm D_header_field) as Hmf; pose proof (Hm D_header_value) as Hmv;
  pose proof (Hm D_url) as Hmu; pose proof (Hm D_body) as Hmb; clear Hm;
  match goal with st : ctx _ |- _ =>
    destruct st as [[ty fl s hs ix nr cl ma mi sc me er up] pos hf hv um bm u] end;
  unfold state_inv, mark_inv in Hst, Hmf, Hmv, Hmu, Hmb; simpl in *.

Lemma absorb_inv d (st : ctx (list token)) :
  ctx_inv d 0 st -> more_body (c_parser st) -> c_p st + 1 < zlen d ->
  ctx_inv d 0 (absorb st).
Proof.
  intros H [Hb Hmore] Hlt. open_bulk H.
  destruct s; try discriminate Hb; simpl in *; destruct Hmore as [Heq|Hmore]; simplify_eq;
    destruct hf, hv, um, bm; simpl in *;
    repeat match goal with H : _ /\ false = true |- _ => destruct H; discriminate end;
    (split; [split; simpl; unfold HTTP_MAX_HEADER_SIZE in *; try done; try lia
            |done|simpl; lia|intros []; unfold mark_inv; simpl; try (by auto); split; (done || lia)]);
    unfold state_inv; simpl; intuition lia.
Qed.

(** The bytes of the body that are in the buffer. *)
Definition body_run (d : list Z) (st : ctx (list token)) : Z :=
  match hp_state (c_parser st) with
  | s_body_identity_eof => zlen d - c_p st
  | _ => to_read d st
  end.

Lemma ctx_eq (a b : ctx (list token)) :
  c_parser a = c_parser b -> c_p a = c_p b ->
  header_field_mark a = header_field_mark b -> header_value_mark a = header_value_mark b ->
  url_mark a = url_mark b -> body_mark a = body_mark b -> c_user a = c_user b ->
  a = b.
Proof. destruct a, b; simpl; intros; subst; reflexivity. Qed.

(** The context after MARK(body) and the count of the bytes taken. *)
Definition body_from (st : ctx (list token)) : Z :=
  match body_mark st with Some m => m | None => c_p st end.

Definition taken (d : list Z) (st : ctx (list token)) : ctx (list token) :=
  set_p (c_p st + body_run d st - 1) (set_mark D_body (Some (body_from st)) st).

Definition counted (d : list Z) (st : ctx (list token)) : ctx (list token) :=
  upd (set_content_length (hp_content_length (c_parser st) - body_run d st)) (taken d st).

(** What one turn of the loop does in these states. *)
Definition bulk_result (d : list Z) (st : ctx (list token)) : ctx (list token) :=
  let st' := counted d st in
  match hp_state (c_parser st) with
  | s_body_identity_eof => taken d st
  | s_body_identity =>
      if hp_content_length (c_parser st') =? 0 then
        set_mark D_body None
          (set_user (c_user st ++
                     bytes_of D_body (slice d (body_from st) (c_p st + body_run d st)) ++
                     [T_message_complete (hp_method (c_parser st))])
             (upd (fun p => set_state (NEW_MESSAGE (set_state s_message_done p)) p) st'))
      else st'
  | _ => if hp_content_length (c_parser st') =? 0
         then upd (set_state s_chunk_data_almost_done) st' else st'
  end.

Lemma take_body_counted d (st : ctx (list token)) :
  ctx_inv d 0 st -> hp_state (c_parser st) <> s_body_identity_eof ->
  take_body d st = counted d st.
Proof.
  intros H Hs. pose proof (ci_p _ _ _ H). pose proof (inv_content_length _ _ (ci_parser _ _ _ H)).
  assert (body_run d st = to_read d st) as Hr by (unfold body_run; by destruct (hp_state _)).
  unfold counted, taken, take_body. rewrite Hr. clear Hr. unfold to_read, len, body_from, MARK.
  destruct st as [p pos hf hv um bm u]; simpl in *.
  destruct bm; simpl; unfold upd, set_p, set_mark; simpl;
    rewrite u64_small by lia; rewrite Z.add_sub_assoc; reflexivity.
Qed.

Lemma reexecute_S d fuel st ch :
  reexecute_byte (recorder skip) d (S fuel) st ch =
  match exec_switch (recorder skip) d st ch with
  | Goto_reexecute st' => reexecute_byte (recorder skip) d fuel st' ch
  | o => o
  end.
Proof. reflexivity. Qed.

Lemma exec_byte_body d st :
  PARSING_HEADER (hp_state (c_parser st)) = false ->
  exec_byte (recorder skip) d st =
  reexecute_byte (recorder skip) d REEXEC_FUEL st (zth d (c_p st)).
Proof. intros H. unfold exec_byte, count_header_byte. by rewrite H. Qed.

Lemma body_length_known d (st : ctx (list token)) :
  ctx_inv d 0 st -> hp_state (c_parser st) = s_body_identity \/ hp_state (c_parser st) = s_chunk_data ->
  content_length_known (c_parser st) = true.
Proof.
  intros [[? ? ? ? ? ? ? Hst] _ _ _] Hs. unfold state_inv in Hst. unfold content_length_known.
  rewrite (proj2 (Z.eqb_neq _ 0)), (proj2 (Z.eqb_neq _ ULLONG_MAX));
    [done|destruct Hs as [E|E]; rewrite E in Hst; lia..].
Qed.

(** The end of a body: on_body, then on_message_complete. *)
Lemma body_done d (st : ctx (list token)) m ch :
  hp_http_errno (c_parser st) = HPE_OK -> body_mark st = Some m ->
  hp_state (c_parser st) = s_message_done ->
  match and_then (CALLBACK_DATA_ (recorder skip) d D_body (c_p st + 1) (c_p st) st) Goto_reexecute with
  | Goto_reexecute st' => reexecute_byte (recorder skip) d 2 st' ch
  | o => o
  end =
  Break (set_mark D_body None
    (set_user (c_user st ++ bytes_of D_body (slice d m (c_p st + 1)) ++ [T_message_complete (hp_method (c_parser st))])
       (upd (fun p => set_state (NEW_MESSAGE p) p) st))).
Proof.
  intros He Hm Hs.
  destruct st as [[ty fl s hs ix nr cl ma mi sc me er up] pos hf hv um bm u].
  simpl in *; subst bm er s. rewrite app_assoc. reflexivity.
Qed.

Lemma exec_byte_bulk d (st : ctx (list token)) :
  ctx_inv d 0 st -> is_bulk (hp_state (c_parser st)) = true ->
  exec_byte (recorder skip) d st = Break (bulk_result d st).
Proof.
  intros H Hb. pose proof (ci_errno _ _ _ H) as He. pose proof (ci_p _ _ _ H).
  rewrite exec_byte_body by (by destruct (hp_state _)). unfold REEXEC_FUEL. rewrite reexecute_S.
  unfold exec_switch, bulk_result. destruct (hp_state (c_parser st)) eqn:Hs; try discriminate Hb.
  - unfold exec_s_chunk_data, assert_then. rewrite (body_length_known d) by auto.
    rewrite take_body_counted by (done || by rewrite Hs).
    assert (is_chunked st = true) as ->.
    { destruct H as [[? ? ? ? ? ? ? Hst] _ _ _]. unfold state_inv in Hst. rewrite Hs in Hst. apply Hst. }
    by destruct (_ =? 0).
  - unfold exec_s_body_identity, assert_then. rewrite (body_length_known d) by auto.
    rewrite take_body_counted by (done || by rewrite Hs).
    destruct (hp_content_length (c_parser (counted d st)) =? 0); [|done].
    rewrite (body_done d (upd (set_state s_message_done) (counted d st)) (body_from st)); try done.
    simpl. rewrite Z.sub_add. reflexivity.
  - unfold exec_s_body_identity_eof, taken, body_run, body_from, MARK, len. rewrite Hs.
    destruct st as [p pos hf hv um bm u]; simpl in *.
    replace (pos + (zlen d - pos) - 1) with (zlen d - 1) by lia. by destruct bm.
Qed.

(** Reading a byte of a body first, then the rest, is reading it all. *)
Lemma absorb_spec d (st : ctx (list token)) :
  ctx_inv d 0 st -> more_body (c_parser st) -> c_p st + 1 < zlen d ->
  hp_state (c_parser (absorb st)) = hp_state (c_parser st) /\
  c_p (absorb st) = c_p st + 1 /\ c_user (absorb st) = c_user st /\
  body_run d (absorb st) = body_run d st - 1 /\ body_from (absorb st) = body_from st.
Proof.
  intros H [Hb Hmore] Hlt. open_bulk H. unfold body_run, to_read, len, body_from.
  destruct s; try discriminate Hb; destruct Hmore as [Heq|Hmore]; simplify_eq;
    destruct bm; simpl; split_and!; (done || lia).
Qed.

Lemma absorb_taken d (st : ctx (list token)) :
  ctx_inv d 0 st -> more_body (c_parser st) -> c_p st + 1 < zlen d ->
  match hp_state (c_parser st) with
  | s_body_identity_eof => taken d (absorb st) = taken d st
  | _ => counted d (absorb st) = counted d st
  end.
Proof.
  intros H Hmore Hlt. destruct (absorb_spec d st H Hmore Hlt) as (Hs & Hp & Hu & Hr & Hf).
  unfold counted, taken. rewrite Hr, Hf, Hp.
  replace (c_p st + 1 + (body_run d st - 1) - 1) with (c_p st + body_run d st - 1) by lia.
  destruct Hmore as [Hb _]. clear - Hb. generalize (body_run d st) as r; intros r.
  destruct st as [[ty fl s hs ix nr cl ma mi sc me er up] pos hf hv um bm u]; simpl in *.
  destruct s; try discriminate Hb; destruct bm; apply ctx_eq; simpl; try reflexivity;
    unfold_setters; simpl; f_equal; lia.
Qed.

Lemma bulk_absorb d (st : ctx (list token)) :
  ctx_inv d 0 st -> more_body (c_parser st) -> c_p st + 1 < zlen d ->
  bulk_result d (absorb st) = bulk_result d st.
Proof.
  intros H Hmore Hlt. destruct (absorb_spec d st H Hmore Hlt) as (Hs & Hp & Hu & Hr & Hf).
  pose proof (absorb_taken d st H Hmore Hlt) as Ht.
  assert (Hme : hp_method (c_parser (absorb st)) = hp_method (c_parser st)).
  { unfold absorb, MARK. destruct st as [[ty fl s ? ? ? ? ? ? ? ? ? ?] ? ? ? ? bm ?]; destruct bm; simpl; by destruct s. }
  unfold bulk_result. rewrite Hs, Hu, Hf, Hr, Hp, Hme.
  replace (c_p st + 1 + (body_run d st - 1)) with (c_p st + body_run d st) by lia.
  destruct Hmore as [Hb _].
  destruct (hp_state (c_parser st)); try discriminate Hb; by rewrite Ht.
Qed.

(** A turn of the loop that reads one byte, not the last of the body. *)
Lemma bulk_one d (st : ctx (list token)) :
  ctx_inv d 0 st -> more_body (c_parser st) -> body_run d st = 1 ->
  next (bulk_result d st) = absorb st.
Proof.
  intros H [Hb Hmore] Hrun. unfold bulk_result, counted, taken, body_from. rewrite Hrun.
  clear Hrun. open_bulk H.
  destruct s; try discriminate Hb; destruct Hmore as [Heq|Hmore]; simplify_eq; simpl;
    try rewrite (proj2 (Z.eqb_neq (cl - 1) 0)) by lia;
    destruct bm; apply ctx_eq; simpl; rewrite ?Z.add_simpl_r; reflexivity.
Qed.

(** One byte of a body in both runs. *)
Lemma bulk_sim T d1 d2 st1 st2 :
  ctx_inv d1 0 st1 -> ctx_inv d2 0 st2 -> sim T d1 d2 st1 st2 ->
  is_bulk (hp_state (c_parser st1)) = true ->
  body_run d1 st1 = 1 -> body_run d2 st2 = 1 ->
  zth d1 (c_p st1) = zth d2 (c_p st2) ->
  byte_sim T d1 d2 st1 st2 (Break (bulk_result d1 st1)) (Break (bulk_result d2 st2)).
Proof.
  intros [_ _ Hp1 H1] [_ _ Hp2 H2] Hs Hb Hr1 Hr2 Hz. 
  unfold bulk_result, counted, taken, body_from. rewrite Hr1, Hr2.
  destruct (hp_state (c_parser st1)) eqn:Hst; try discriminate Hb; clear Hb Hr1 Hr2;
    open_sim; try case_match; simpl; rewrite ?Z.add_simpl_r; split_and!; try done;
    (split; [done|]); unfold known, pending, pending_of in *; simpl in *; rewrite ?Z.add_simpl_r, ?Z.sub_add.
  all: rewrite ?slice_snoc, ?slice_nil, ?bytes_of_app, ?Hz in * by lia; rewrite ?app_nil_r, ?app_assoc in *;
    simpl in *; rewrite ?app_nil_r in *; 
    rewrite ?slice_self, ?bytes_of_nil, ?app_nil_r in *; congruence.
Qed.

(** A byte that is not the last of the buffer nor of the body. *)
Lemma absorb_sim T d1 d2 st1 st2 :
  ctx_inv d1 0 st1 -> ctx_inv d2 0 st2 -> sim T d1 d2 st1 st2 ->
  is_bulk (hp_state (c_parser st1)) = true ->
  zth d1 (c_p st1) = zth d2 (c_p st2) ->
  sim T d1 d2 (absorb st1) (absorb st2).
Proof.
  intros [_ _ Hp1 H1] [_ _ Hp2 H2] Hs Hb Hz.
  destruct (hp_state (c_parser st1)) eqn:Hst; try discriminate Hb; clear Hb;
    open_sim; (split; [done|]); unfold known, pending, pending_of in *; simpl in *.
  all: rewrite ?slice_snoc, ?bytes_of_app, ?Hz in * by lia;
    rewrite ?slice_self, ?bytes_of_nil, ?app_nil_r, ?app_assoc in *;
    simpl in *; rewrite ?app_nil_r in *; congruence.
Qed.

(** * The whole buffer against one call per byte *)

Lemma flush_known d st :
  loop_inv d st -> c_p st = zlen d ->
  exists st', flush_marks (recorder skip) d st = Return st' (zlen d) /\
    c_parser st' = c_parser st /\ c_user st' = known d st.
Proof.
  intros [_ He _ Hm] Hp. unfold flush_marks, assert_then.
  pose proof (mark_count_le_one st Hm) as ->%Z.leb_le. clear Hm.
  destruct st as [[ty fl s hs ix nr cl ma mi sc me er up] pos hf hv um bm u].
  simpl in *; subst er pos.
  unfold CALLBACK_DATA_NOADVANCE, CALLBACK_DATA_, known, pending, pending_of.
  destruct hf, hv, um, bm; simpl; eexists; (split; [reflexivity|]); simpl; split; try done;
    rewrite ?app_nil_r, ?app_assoc; done.
Qed.

(** The label error. *)
Definition error_of (p : http_parser) : http_parser :=
  if errno_ok p then set_http_errno HPE_UNKNOWN p else p.

Lemma error_of_errno p : errno_ok (error_of p) = false.
Proof. unfold error_of. destruct (errno_ok p) eqn:E; [by destruct p|done]. Qed.

Lemma single_inv p b :
  parser_inv 0 p -> hp_http_errno p = HPE_OK -> ctx_inv [b] 0 (initial_ctx p ([] : list token)).
Proof.
  intros Hp He. destruct (initial_loop_inv [b] p ([] : list token) Hp He) as [? ? ? ?].
  split; try done.
Qed.

(** A call with one byte. *)
Lemma execute_single p b :
  parser_inv 0 p -> hp_http_errno p = HPE_OK ->
  match exec_byte (recorder skip) [b] (initial_ctx p []) with
  | Break a => c_p a = 0 ->
      http_parser_execute (recorder skip) [b] p [] =
        Returned (c_parser a) (known [b] (next a)) 1 /\ parser_inv 0 (c_parser a) /\
      hp_http_errno (c_parser a) = HPE_OK
  | Goto_error a =>
      http_parser_execute (recorder skip) [b] p [] =
        Returned (error_of (c_parser a)) (c_user a) (c_p a)
  | _ => True
  end.
Proof.
  intros Hp He. pose proof (single_inv p b Hp He) as Hinv.
  pose proof (exec_byte_ok (recorder skip) [b] _ Hinv) as Hok.
  unfold http_parser_execute. rewrite (proj2 (errno_ok_true p) He).
  change (length [b]) with 1%nat. cbn [negb].
  change (len [b] =? 0) with false. cbv iota. cbn [exec_loop].
  change (c_p (initial_ctx p ([] : list token)) =? len [b]) with false. cbv iota.
  destruct (exec_byte _ _ _) as [a| |a| | |]; cbn [and_then]; try done.
  intros Ha. destruct Hok as [Hci _].
  destruct (flush_known [b] (next a)) as (st' & Hf & Hq & Hu).
  { by apply loop_inv_step. }
  { simpl. by rewrite Ha. }
  assert ((c_p (set_p (c_p a + 1) a) =? len [b]) = true) as -> by (simpl; by rewrite Ha).
  cbn [and_then]. unfold next in Hf. rewrite Hf. simpl.
  by rewrite Hq, Hu; split_and!; destruct Hci.
Qed.

Lemma exec_loop_S d fuel (st : ctx (list token)) :
  c_p st <> zlen d ->
  exec_loop (recorder skip) d (S fuel) st =
  and_then (exec_byte (recorder skip) d st) (fun st' => exec_loop (recorder skip) d fuel (next st')).
Proof. intros H. simpl. unfold len. by rewrite (proj2 (Z.eqb_neq _ _) H). Qed.

Lemma initial_sim d (st : ctx (list token)) b :
  sim (known d st) d [b] st (initial_ctx (c_parser st) []).
Proof.
  split; [done|]. unfold known, pending, pending_of, initial_ctx. simpl.
  destruct (bool_decide _), (bool_decide _), (is_url_state _); simpl; by rewrite !app_nil_r.
Qed.

Lemma rest_cons d (st : ctx (list token)) :
  0 <= c_p st < zlen d ->
  slice d (c_p st) (zlen d) = zth d (c_p st) :: slice d (c_p st + 1) (zlen d).
Proof.
  intros Hp. rewrite <- (slice_join d (c_p st) (c_p st + 1)) by lia. by rewrite slice_one.
Qed.

(** One turn of the loop that reads one byte agrees with a call for that byte. *)
Lemma turn_sim d (st : ctx (list token)) :
  ctx_inv d 0 st ->
  is_bulk (hp_state (c_parser st)) = false \/ body_run d st = 1 ->
  byte_sim (known d st) d [zth d (c_p st)] st (initial_ctx (c_parser st) [])
    (exec_byte (recorder skip) d st)
    (exec_byte (recorder skip) [zth d (c_p st)] (initial_ctx (c_parser st) [])).
Proof.
  intros H Hr. set (b := zth d (c_p st)).
  pose proof (single_inv _ b (ci_parser _ _ _ H) (ci_errno _ _ _ H)) as H2.
  pose proof (initial_sim d st b) as Hs.
  destruct (is_bulk (hp_state (c_parser st))) eqn:Hb.
  - destruct Hr as [?|Hr]; [done|].
    rewrite !exec_byte_bulk by done. apply bulk_sim; try done.
    destruct H as [[] ? ? ?]. unfold body_run, to_read, len in *. simpl.
    unfold state_inv in *. destruct (hp_state (c_parser st)); try done.
    all: change (zlen [b]) with 1; lia.
  - by apply exec_byte_sim.
Qed.

(** The step of the reference that goes with it. *)
Lemma feed_step p b bs :
  parser_inv 0 p -> hp_http_errno p = HPE_OK ->
  match exec_byte (recorder skip) [b] (initial_ctx p []) with
  | Break a => c_p a = 0 ->
      feed skip p (b :: bs) =
      let '(q, t, m) := feed skip (c_parser a) bs in (q, known [b] (next a) ++ t, 1 + m)
  | Goto_error a => feed skip p (b :: bs) = (error_of (c_parser a), c_user a, c_p a)
  | _ => True
  end.
Proof.
  intros Hp He. pose proof (execute_single p b Hp He) as H.
  destruct (exec_byte _ _ _) as [a| |a| | |]; try done; cbn [feed].
  - intros Ha. destruct (H Ha) as (-> & _ & He'). by rewrite (proj2 (errno_ok_true _) He').
  - by rewrite H, error_of_errno.
Qed.

(** How the loop of a call over [d] agrees with the bytes fed one by one. *)
Definition agrees (d : list Z) (st : ctx (list token)) (o : outcome (list token))
    (r : http_parser * list token * Z) : Prop :=
  let '(q, t, m) := r in
  match o with
  | Break st' => c_parser st' = q /\ known d st' = known d st ++ t /\ m = zlen d - c_p st
  | Goto_error st' => error_of (c_parser st') = q /\ known d st' = known d st ++ t /\ m = c_p st' - c_p st
  | _ => False
  end.

Lemma agrees_step d st st' o t r :
  known d st' = known d st ++ t -> c_p st' = c_p st + 1 ->
  agrees d st' o r ->
  agrees d st o (let '(q, t', m) := r in (q, t ++ t', 1 + m)).
Proof.
  intros Hk Hp. destruct r as [[q t'] m]. unfold agrees. rewrite Hk, Hp, <- app_assoc.
  destruct o; try done; intuition lia.
Qed.

(** A turn reads one byte, or a run of body bytes longer than one. *)
Lemma turn_cases d (st : ctx (list token)) :
  ctx_inv d 0 st ->
  (is_bulk (hp_state (c_parser st)) = false \/ body_run d st = 1) \/
  (more_body (c_parser st) /\ c_p st + 1 < zlen d).
Proof.
  intros [[? ? ? ? ? ? ? Hst] _ Hp _]. unfold more_body, body_run, to_read, len, state_inv in *.
  destruct (decide (c_p st + 1 = zlen d)), (decide (1 < hp_content_length (c_parser st)));
    destruct (hp_state (c_parser st)); simpl; try (by auto);
    first [left; right; lia | right; split; [by auto|lia]].
Qed.

Lemma feed_more d (st : ctx (list token)) bs :
  ctx_inv d 0 st -> more_body (c_parser st) ->
  let b := zth d (c_p st) in
  let st2 := initial_ctx (c_parser st) [] in
  known d (absorb st) = known d st ++ known [b] (absorb st2) /\
  feed skip (c_parser st) (b :: bs) =
    let '(q, t, m) := feed skip (c_parser (absorb st)) bs in
    (q, known [b] (absorb st2) ++ t, 1 + m).
Proof.
  intros Hc Hmore b st2. pose proof Hmore as [Hb _].
  pose proof (ci_parser _ _ _ Hc) as Hp. pose proof (ci_errno _ _ _ Hc) as He.
  pose proof (single_inv _ b Hp He) as H2.
  destruct (absorb_sim (known d st) d [b] st st2 Hc H2 (initial_sim d st b) Hb) as [Hq Hk]; [done|].
  split; [done|]. rewrite Hq.
  pose proof (feed_step (c_parser st) b bs Hp He) as Hstep.
  assert (body_run [b] st2 = 1) as Hone.
  { unfold body_run, to_read. simpl. change (len [b] - 0) with 1.
    destruct Hmore as [_ Hm]. destruct (hp_state (c_parser st)); try discriminate Hb; try done;
      destruct Hm; (done || lia). }
  pose proof (bulk_one [b] st2 H2 Hmore Hone) as Hnext.
  rewrite exec_byte_bulk in Hstep by done. fold st2 in Hstep. rewrite <- Hnext. apply Hstep.
  assert (c_p (next (bulk_result [b] st2)) = 1) as Hpos by (by rewrite Hnext; unfold absorb, MARK).
  simpl in Hpos. lia.
Qed.

Lemma loop_agrees n fuel d st :
  loop_inv d st -> zlen d - c_p st = Z.of_nat n -> (n <= fuel)%nat ->
  agrees d st (exec_loop (recorder skip) d fuel st)
    (feed skip (c_parser st) (slice d (c_p st) (zlen d))).
Proof.
  revert fuel st. induction n as [|n IH]; intros fuel st Hinv Hn Hf.
  { rewrite slice_nil by lia. assert (c_p st = zlen d) as Hp by lia.
    destruct fuel; simpl; unfold len; rewrite Hp, Z.eqb_refl; simpl; split_and!; try done;
      rewrite ?app_nil_r; (done || lia). }
  destruct fuel as [|fuel]; [lia|].
  assert (ctx_inv d 0 st) as Hc by (destruct Hinv; split; try done; lia).
  pose proof (ci_parser _ _ _ Hc) as Hp. pose proof (ci_errno _ _ _ Hc) as He.
  pose proof (ci_p _ _ _ Hc). rewrite rest_cons by lia. set (b := zth d (c_p st)).
  pose proof (feed_step (c_parser st) b (slice d (c_p st + 1) (zlen d)) Hp He) as Hstep.
  rewrite exec_loop_S by lia.
  assert ((is_bulk (hp_state (c_parser st)) = false \/ body_run d st = 1) \/
          (more_body (c_parser st) /\ c_p st + 1 < zlen d)) as [Hone|[Hmore Hlt]].
  { by apply turn_cases. }
  - pose proof (turn_sim d st Hc Hone) as Hsim. fold b in Hsim.
    pose proof (exec_byte_ok (recorder skip) d st Hc) as Hok.
    destruct (exec_byte _ d st) as [a| |a| | |], (exec_byte _ [b] _) as [a'| |a'| | |]; try done.
    + destruct Hsim as ([Hq Hk] & Hpa & Hpa'). rewrite (Hstep Hpa').
      apply (agrees_step d st (next a)); [done|simpl; by rewrite Hpa|].
      cbn [and_then]. simpl in Hq. rewrite <- Hq. change (c_parser a) with (c_parser (next a)).
      replace (c_p st + 1) with (c_p (next a)) by (simpl; by rewrite Hpa).
      apply IH; [by apply loop_inv_step, Hok|simpl; lia|lia].
    + destruct Hsim as ([Hq Hk] & Hpa & Hpa' & Hz). rewrite Hstep. simpl.
      rewrite Hq, Hpa, Hpa', Hk. unfold known at 2. rewrite Hz, app_nil_r by done. split_and!; [done|done|simpl; lia].
  - pose proof (absorb_inv d st Hc Hmore Hlt) as Hc'.
    destruct (absorb_spec d st Hc Hmore Hlt) as (Hst & Hpa & _).
    destruct (feed_more d st (slice d (c_p st + 1) (zlen d)) Hc Hmore) as [Hk Hfeed]. fold b in Hfeed, Hk. rewrite Hfeed.
    apply (agrees_step d st (absorb st)); [done|done|].
    assert (exec_byte (recorder skip) d st = exec_byte (recorder skip) d (absorb st)) as ->.
    { destruct Hmore as [Hb ?]. rewrite !exec_byte_bulk, bulk_absorb; try done. by rewrite Hst. }
    rewrite <- exec_loop_S by lia. rewrite <- Hpa.
    apply IH; [destruct Hc'; split; (done || lia)|lia|lia].
Qed.

(** A byte of a string or of a body. *)
Definition is_data (t : token) : Prop := match t with T_byte _ _ => True | _ => False end.

Lemma pending_data d (st : ctx (list token)) : Forall is_data (pending d st).
Proof.
  assert (H : forall k, Forall is_data (pending_of d st k)).
  { intros k. unfold pending_of. destruct (get_mark k st); [|constructor]. apply Forall_map, Forall_true. done. }
  unfold pending. by repeat apply Forall_app_2.
Qed.

(** A call, whatever its length, against the reference. *)
Lemma execute_feed_lost p data u :
  parser_inv 0 p -> hp_http_errno p = HPE_OK -> data <> [] ->
  exists q v t m, http_parser_execute (recorder skip) data p u = Returned q v m /\
    feed skip p data = (q, t, m) /\
    exists lost, u ++ t = v ++ lost /\ Forall is_data lost /\ (hp_http_errno q = HPE_OK -> lost = []).
Proof.
  intros Hp He Hne. pose proof (initial_loop_inv data p u Hp He) as Hli.
  pose proof (loop_agrees (length data) (length data) data _ Hli) as Hag.
  specialize (Hag ltac:(simpl; unfold zlen; lia) ltac:(lia)). simpl in Hag.
  rewrite slice_full in Hag.
  pose proof (exec_loop_ok (recorder skip) data (length data) _ Hli ltac:(simpl; unfold zlen; lia)) as Hok.
  assert (known data (initial_ctx p u) = u) as Hu.
  { unfold known, pending, pending_of, initial_ctx. simpl.
    destruct (bool_decide _), (bool_decide _), (is_url_state _); simpl; by rewrite ?app_nil_r. }
  unfold http_parser_execute. rewrite (proj2 (errno_ok_true p) He). cbn [negb].
  assert ((len data =? 0) = false) as ->.
  { apply Z.eqb_neq. unfold len. destruct data as [|b l]; [done|].
    rewrite zlen_cons. pose proof (zlen_nonneg l). lia. }
  destruct (feed skip p data) as [[q t] m].
  destruct (exec_loop _ _ _ _) as [st| |st| | |]; try done; cbn [and_then].
  - destruct Hag as (Hq & Hk & Hm), Hok as [Hli' Hlen].
    destruct (flush_known data st Hli' Hlen) as (st' & Hfl & Hq' & Hu').
    rewrite Hfl. simpl. exists q, (u ++ t), t, m.
    rewrite Hq', Hu', Hk, Hu, Hq. subst m. rewrite Z.sub_0_r. split_and!; [done..|].
    exists []. by rewrite app_nil_r.
  - destruct Hag as (Hq & Hk & Hm). simpl. exists q, (c_user st), t, m.
    split_and!; [|done|].
    + unfold error_of in Hq. rewrite Hq, Hm. by rewrite Z.sub_0_r.
    + exists (pending data st). rewrite Hu in Hk. split; [by symmetry|]. split; [apply pending_data|].
      intros Hqe. apply errno_ok_true in Hqe. by rewrite <- Hq, error_of_errno in Hqe.
Qed.

Lemma execute_feed p data u :
  parser_inv 0 p -> hp_http_errno p = HPE_OK -> data <> [] ->
  exists q v t m, http_parser_execute (recorder skip) data p u = Returned q v m /\
    feed skip p data = (q, t, m) /\ (hp_http_errno q = HPE_OK -> v = u ++ t).
Proof.
  intros Hp He Hne. destruct (execute_feed_lost p data u Hp He Hne) as (q & v & t & m & H1 & H2 & lost & Hl & _ & Ho).
  exists q, v, t, m. split_and!; [done..|]. intros Hq. rewrite Hl, (Ho Hq). by rewrite app_nil_r.
Qed.

(** * The reference on two fragments *)

Lemma feed_app p d1 d2 :
  parser_inv 0 p -> hp_http_errno p = HPE_OK ->
  feed skip p (d1 ++ d2) =
  let '(q, t, m) := feed skip p d1 in
  if errno_ok q then let '(q', t', m') := feed skip q d2 in (q', t ++ t', m + m')
  else (q, t, m).
Proof.
  revert p. induction d1 as [|b d1 IH]; intros p Hp He.
  { simpl. rewrite (proj2 (errno_ok_true p) He). by destruct (feed skip p d2) as [[? ?] ?]. }
  simpl. destruct (execute_cases (recorder skip) [b] p [] Hp He) as (q & v & m & -> & _ & Hq & _); [done|].
  destruct (errno_ok q) eqn:Hok; [|by rewrite Hok].
  apply errno_ok_true in Hok. rewrite IH by (try done; apply Hq; by rewrite Hok).
  destruct (feed skip q d1) as [[q1 t1] m1]. destruct (errno_ok q1); [|done].
  destruct (feed skip q1 d2) as [[q2 t2] m2]. by rewrite app_assoc, Z.add_assoc.
Qed.
End Bulk.

(** C2. Streaming, for an application whose callbacks record what they are told and
    succeed (it may skip bodies): a call of http_parser_execute on a non-empty
    buffer, from any parser an application can hold that has no error, leaves the
    same parser and the same count as feeding the buffer's bytes one call at a
    time, up to the first error, and delivers the same events with the same bytes;
    when an error is found, the bytes of the string that was being read may be
    missing at the end, and nothing else.  So the fast loops over bodies, the marks
    and their flushing at the end of a buffer are invisible. *)
Theorem execute_streams skip p data u :
  reachable p -> hp_http_errno p = HPE_OK -> data <> [] ->
  exists q v t m, http_parser_execute (recorder skip) data p u = Returned q v m /\
    feed skip p data = (q, t, m) /\
    exists lost, u ++ t = v ++ lost /\ Forall is_data lost /\ (hp_http_errno q = HPE_OK -> lost = []).
Proof.
  intros Hr%reachable_ok He. apply execute_feed_lost; [|done]. apply Hr. by rewrite He.
Qed.

Lemma execute_streams_witness :
  exists q v t m,
    http_parser_execute (recorder (fun _ => false)) sample_request
      (http_parser_init HTTP_REQUEST) [] = Returned q v m /\
    feed (fun _ => false) (http_parser_init HTTP_REQUEST) sample_request = (q, t, m) /\
    exists lost, [] ++ t = v ++ lost /\ Forall is_data lost /\ (hp_http_errno q = HPE_OK -> lost = []).
Proof.
  apply (execute_streams (fun _ => false)); [apply reach_init|reflexivity|discriminate].
Defined.

(** The byte of a target before a byte that no target has: delivered when it comes alone,
    not when the error is found in the same call. *)
Example error_loses_data :
  (match http_parser_execute (recorder (fun _ => false)) (str "GET /" ++ [1]) (http_parser_init HTTP_REQUEST) [] with
   | Returned q v _ => Some (v, hp_http_errno q)
   | _ => None
   end) = Some ([T_message_begin], HPE_INVALID_URL) /\
  (feed (fun _ => false) (http_parser_init HTTP_REQUEST) (str "GET /" ++ [1])).1.2 =
    [T_message_begin; T_byte D_url (chr "/")].
Proof. vm_compute. done. Qed.

(** Fragmentation independence: splitting a buffer at any point and
    handing the two pieces to two calls gives the same final parser, the same
    events and the same number of accepted bytes as one call with the whole
    buffer. *)
Theorem execute_fragments skip p d1 d2 u q v m :
  reachable p -> hp_http_errno p = HPE_OK -> d1 <> [] -> d2 <> [] ->
  http_parser_execute (recorder skip) (d1 ++ d2) p u = Returned q v m ->
  exists q1 v1 m1, http_parser_execute (recorder skip) d1 p u = Returned q1 v1 m1 /\
    (if errno_ok q1 then
       exists v2 m2, http_parser_execute (recorder skip) d2 q1 v1 = Returned q v2 m2 /\
         m = m1 + m2 /\ (hp_http_errno q = HPE_OK -> v2 = v)
     else q = q1 /\ m = m1).
Proof.
  intros Hr%reachable_ok He H1 H2 Hex.
  assert (parser_inv 0 p) as Hp by (apply Hr; by rewrite He).
  destruct (execute_feed skip p d1 u Hp He H1) as (q1 & v1 & t1 & m1 & E1 & F1 & K1).
  exists q1, v1, m1. split; [done|].
  destruct (execute_feed skip p (d1 ++ d2) u Hp He) as (q3 & v3 & t3 & m3 & E3 & F3 & K3).
  { by destruct d1. }
  rewrite E3 in Hex. simplify_eq. rewrite feed_app, F1 in F3 by done.
  destruct (errno_ok q1) eqn:Hq1; [|by simplify_eq].
  apply errno_ok_true in Hq1.
  destruct (execute_cases (recorder skip) d1 p u Hp He H1) as (q1' & v1' & m1' & E1' & _ & Hok & _).
  rewrite E1 in E1'. simplify_eq.
  destruct (execute_feed skip q1' d2 v1') as (q2 & v2 & t2 & m2 & E2 & F2 & K2);
    [apply Hok; by rewrite Hq1|done..|].
  rewrite F2 in F3. simplify_eq. exists v2, m2. split_and!; try done.
  intros Hq. rewrite (K2 Hq), (K3 Hq), (K1 Hq1). by rewrite app_assoc.
Qed.

Lemma execute_fragments_witness :
  let p := http_parser_init HTTP_REQUEST in
  exists q v m,
    http_parser_execute (recorder (fun _ => false)) (str "GE" ++ str "T /") p [] = Returned q v m /\
    exists q1 v1 m1,
      http_parser_execute (recorder (fun _ => false)) (str "GE") p [] = Returned q1 v1 m1 /\
      (if errno_ok q1 then
         exists v2 m2,
           http_parser_execute (recorder (fun _ => false)) (str "T /") q1 v1 = Returned q v2 m2 /\
           m = m1 + m2 /\ (hp_http_errno q = HPE_OK -> v2 = v)
       else q = q1 /\ m = m1).
Proof.
  eexists _, _, _. split; [vm_compute; reflexivity|].
  eapply (execute_fragments (fun _ => false)).
  - apply reach_init.
  - reflexivity.
  - discriminate.
  - discriminate.
  - vm_compute. reflexivity.
Defined.
