(* ===== verification/HttpUrl.v ===== *)
(** The URL parser of http_parser.c: http_parse_host_char, http_parse_host and
    http_parser_parse_url, with the result structure of http_parser.h.

    The buffer is the memory from [buf] on, which may go on after its [buflen]
    bytes (strtoul reads until the first non-digit).  The result structure is an
    argument: the function does not initialise all of it. *)
From S2P Require Import Prelude HttpTypes HttpExec HttpInv.

(** * Data *)

Inductive http_host_state :=
  | s_http_host_dead | s_http_userinfo_start | s_http_userinfo
  | s_http_host_start | s_http_host_v6_start | s_http_host | s_http_host_v6
  | s_http_host_v6_end | s_http_host_port_start | s_http_host_port.

#[export] Instance http_host_state_eq_dec : EqDecision http_host_state.
Proof. solve_decision. Defined.

Inductive http_parser_url_fields :=
  | UF_SCHEMA | UF_HOST | UF_PORT | UF_PATH | UF_QUERY | UF_FRAGMENT | UF_USERINFO | UF_MAX.

#[export] Instance http_parser_url_fields_eq_dec : EqDecision http_parser_url_fields.
Proof. solve_decision. Defined.

Definition uf_num (uf : http_parser_url_fields) : Z :=
  match uf with
  | UF_SCHEMA => 0 | UF_HOST => 1 | UF_PORT => 2 | UF_PATH => 3 | UF_QUERY => 4
  | UF_FRAGMENT => 5 | UF_USERINFO => 6 | UF_MAX => 7
  end.

(** An element of field_data: two uint16_t. *)
Record url_field := mk_field { uf_off : Z; uf_len : Z }.

(** struct http_parser_url: field_data has UF_MAX elements. *)
Record http_parser_url := mk_url {
  u_field_set : Z;
  u_port : Z;
  u_field_data : list url_field
}.

Definition get_field (uf : http_parser_url_fields) (u : http_parser_url) : url_field :=
  nth (Z.to_nat (uf_num uf)) (u_field_data u) (mk_field 0 0).

Definition set_field (uf : http_parser_url_fields) (f : url_field) (u : http_parser_url) :
    http_parser_url :=
  mk_url (u_field_set u) (u_port u) (<[Z.to_nat (uf_num uf) := f]> (u_field_data u)).

(** 1 << uf *)
Definition uf_bit (uf : http_parser_url_fields) : Z := Z.shiftl 1 (uf_num uf).

Definition is_set (uf : http_parser_url_fields) (u : http_parser_url) : bool :=
  has_flag (u_field_set u) (uf_bit uf).

(** u->field_set |= (1 << uf) *)
Definition mark_set (uf : http_parser_url_fields) (u : http_parser_url) : http_parser_url :=
  mk_url (Z.lor (u_field_set u) (uf_bit uf)) (u_port u) (u_field_data u).

(** field_data[uf].len++ on a uint16_t *)
Definition incr_len (uf : http_parser_url_fields) (u : http_parser_url) : http_parser_url :=
  let f := get_field uf u in set_field uf (mk_field (uf_off f) (u16 (uf_len f + 1))) u.

(** field_data[uf].off = p - buf, truncated to a uint16_t *)
Definition set_off (uf : http_parser_url_fields) (pos : Z) (u : http_parser_url) : http_parser_url :=
  set_field uf (mk_field (u16 pos) (uf_len (get_field uf u))) u.

Definition set_len (uf : http_parser_url_fields) (n : Z) (u : http_parser_url) : http_parser_url :=
  set_field uf (mk_field (uf_off (get_field uf u)) n) u.

(** * The host part *)

Definition http_parse_host_char (s : http_host_state) (ch : Z) : http_host_state :=
  let v6_end := if ch =? chr ":" then s_http_host_port_start else s_http_host_dead in
  let v6_start :=
    if IS_HEX ch || (ch =? chr ":") then s_http_host_v6 else s_http_host_dead in
  match s with
  | s_http_userinfo | s_http_userinfo_start =>
      if ch =? chr "@" then s_http_host_start
      else if IS_USERINFO_CHAR ch then s_http_userinfo
      else s_http_host_dead
  | s_http_host_start =>
      if ch =? chr "[" then s_http_host_v6_start
      else if IS_HOST_CHAR ch then s_http_host
      else s_http_host_dead
  | s_http_host => if IS_HOST_CHAR ch then s_http_host else v6_end
  | s_http_host_v6_end => v6_end
  | s_http_host_v6 => if ch =? chr "]" then s_http_host_v6_end else v6_start
  | s_http_host_v6_start => v6_start
  | s_http_host_port | s_http_host_port_start =>
      if IS_NUM ch then s_http_host_port else s_http_host_dead
  | s_http_host_dead => s_http_host_dead
  end.

(** The body of the loop after the state moved from [s] to [new_s]. *)
Definition host_fields (s new_s : http_host_state) (pos : Z) (u : http_parser_url) : http_parser_url :=
  let start uf u :=
    if decide (new_s = s) then u else mark_set uf (set_len uf 0 (set_off uf pos u)) in
  match new_s with
  | s_http_host | s_http_host_v6 =>
      incr_len UF_HOST (if decide (new_s = s) then u else set_off UF_HOST pos u)
  | s_http_host_port => incr_len UF_PORT (start UF_PORT u)
  | s_http_userinfo => incr_len UF_USERINFO (start UF_USERINFO u)
  | _ => u
  end.

(** The loop over the bytes of the host part, the first at offset [pos];
    [None] is the early [return 1]. *)
Fixpoint http_parse_host_loop (bs : list Z) (pos : Z) (s : http_host_state) (u : http_parser_url) :
    option http_host_state * http_parser_url :=
  match bs with
  | [] => (Some s, u)
  | ch :: bs' =>
      let new_s := http_parse_host_char s ch in
      if decide (new_s = s_http_host_dead) then (None, u)
      else http_parse_host_loop bs' (pos + 1) new_s (host_fields s new_s pos u)
  end.

(** The states the host part must not end in. *)
Definition host_unfinished (s : http_host_state) : bool :=
  match s with
  | s_http_host_start | s_http_host_v6_start | s_http_host_v6 | s_http_host_port_start
  | s_http_userinfo | s_http_userinfo_start => true
  | _ => false
  end.

(** The [n] bytes of memory at offset [off]. *)
Definition read_mem (buf : list Z) (off n : Z) : list Z :=
  map (fun i => zth buf (off + Z.of_nat i)) (seq 0 (Z.to_nat n)).

(** http_parse_host: the return value and the structure. *)
Definition http_parse_host (buf : list Z) (u : http_parser_url) (found_at : bool) :
    Z * http_parser_url :=
  let h := get_field UF_HOST u in
  let u := set_len UF_HOST 0 u in
  let s := if found_at then s_http_userinfo_start else s_http_host_start in
  match http_parse_host_loop (read_mem buf (uf_off h) (uf_len h)) (uf_off h) s u with
  | (None, u) => (1, u)
  | (Some s, u) => (if host_unfinished s then 1 else 0, u)
  end.

(** * strtoul(s, NULL, 10) of the C library *)

Definition is_space (c : Z) : bool :=
  (c =? chr " ") || ((TAB <=? c) && (c <=? CR)).

Fixpoint skip_spaces (s : list Z) : list Z :=
  match s with
  | c :: s' => if is_space c then skip_spaces s' else s
  | [] => []
  end.

Definition ULONG_MAX : Z := 2 ^ 64 - 1.

(** The value saturates at ULONG_MAX; a minus sign negates it in the type. *)
Definition strtoul (s : list Z) : Z :=
  let s := skip_spaces s in
  let value s := Z.min ULONG_MAX (digits_value 0 s) in
  match s with
  | c :: s' =>
      if c =? chr "-" then
        (if ULONG_MAX <? digits_value 0 s' then ULONG_MAX else u64 (- value s'))
      else if c =? chr "+" then value s' else value s
  | [] => 0
  end.

(** * http_parser_parse_url *)

(** The variables of the loop. *)
Record url_run := mk_run {
  r_s : state;
  r_old_uf : http_parser_url_fields;
  r_found_at : bool;
  r_url : http_parser_url
}.

(** How a turn of the loop ends: [return 1], the next turn, or the assertion
    "Unexpected state". *)
Inductive url_step :=
  | Url_return (u : http_parser_url)
  | Url_continue (r : url_run)
  | Url_assert.

(** The end of the body: extend the current field or start a new one. *)
Definition url_field_byte (uf : http_parser_url_fields) (pos : Z) (s : state) (found_at : bool)
    (r : url_run) : url_step :=
  if decide (uf = r_old_uf r) then
    Url_continue (mk_run s (r_old_uf r) found_at (incr_len uf (r_url r)))
  else
    Url_continue (mk_run s uf found_at
      (mark_set uf (set_len uf 1 (set_off uf pos (r_url r))))).

Definition parse_url_byte (pos ch : Z) (r : url_run) : url_step :=
  let s := parse_url_char (r_s r) ch in
  let at_ := r_found_at r in
  match s with
  | s_dead => Url_return (r_url r)
  | s_req_schema_slash | s_req_schema_slash_slash | s_req_server_start
  | s_req_query_string_start | s_req_fragment_start =>
      Url_continue (mk_run s (r_old_uf r) at_ (r_url r))
  | s_req_schema => url_field_byte UF_SCHEMA pos s at_ r
  | s_req_server_with_at => url_field_byte UF_HOST pos s true r
  | s_req_server => url_field_byte UF_HOST pos s at_ r
  | s_req_path => url_field_byte UF_PATH pos s at_ r
  | s_req_query_string => url_field_byte UF_QUERY pos s at_ r
  | s_req_fragment => url_field_byte UF_FRAGMENT pos s at_ r
  | _ => Url_assert
  end.

Fixpoint parse_url_loop (bs : list Z) (pos : Z) (r : url_run) : url_step :=
  match bs with
  | [] => Url_continue r
  | ch :: bs' =>
      match parse_url_byte pos ch r with
      | Url_continue r' => parse_url_loop bs' (pos + 1) r'
      | o => o
      end
  end.

(** The conversion of the port, which is the end of the function. *)
Definition parse_url_port (buf : list Z) (u : http_parser_url) : Z * http_parser_url :=
  if is_set UF_PORT u then
    let v := strtoul (drop (Z.to_nat (uf_off (get_field UF_PORT u))) buf) in
    if 65535 <? v then (1, u)
    else (0, mk_url (u_field_set u) (u16 v) (u_field_data u))
  else (0, u).

(** What follows the loop. *)
Definition parse_url_finish (buf : list Z) (is_connect : bool) (r : url_run) : Z * http_parser_url :=
  let u := r_url r in
  let '(host_rv, u) :=
    if has_flag (u_field_set u) (Z.lor (uf_bit UF_SCHEMA) (uf_bit UF_HOST))
    then http_parse_host buf u (r_found_at r) else (0, u) in
  if negb (host_rv =? 0) then (1, u)
  else if is_connect && negb (u_field_set u =? Z.lor (uf_bit UF_HOST) (uf_bit UF_PORT)) then (1, u)
  else parse_url_port buf u.

(** The return value and the structure; [None] when the assertion fails. *)
Definition http_parser_parse_url (buf : list Z) (buflen : Z) (is_connect : bool)
    (u : http_parser_url) : option (Z * http_parser_url) :=
  let u := mk_url 0 0 (u_field_data u) in
  let s := if is_connect then s_req_server_start else s_req_spaces_before_url in
  match parse_url_loop (read_mem buf 0 buflen) 0 (mk_run s UF_MAX false u) with
  | Url_return u => Some (1, u)
  | Url_assert => None
  | Url_continue r => Some (parse_url_finish buf is_connect r)
  end.

(** * The fields of the structure *)

Section Fields.
Context (u : http_parser_url).

Definition well_sized : Prop := length (u_field_data u) = 7%nat.

Lemma uf_index uf : uf <> UF_MAX -> (Z.to_nat (uf_num uf) < 7)%nat.
Proof. destruct uf; simpl; (done || lia). Qed.

Lemma uf_num_inj uf uf' : Z.to_nat (uf_num uf) = Z.to_nat (uf_num uf') -> uf = uf'.
Proof. by destruct uf, uf'. Qed.

Lemma get_set_same uf f : well_sized -> uf <> UF_MAX -> get_field uf (set_field uf f u) = f.
Proof.
  intros Hl Hu. unfold get_field, set_field. simpl.
  rewrite nth_lookup, list_lookup_insert_eq; [done|]. rewrite Hl. by apply uf_index.
Qed.

Lemma get_set_other uf uf' f : uf <> uf' -> get_field uf (set_field uf' f u) = get_field uf u.
Proof.
  intros Hne. unfold get_field, set_field. simpl.
  rewrite !nth_lookup, list_lookup_insert_ne; [done|]. intros H%uf_num_inj. by subst.
Qed.

Lemma set_set uf f g : set_field uf f (set_field uf g u) = set_field uf f u.
Proof. unfold set_field. simpl. by rewrite list_insert_insert_eq. Qed.

Lemma set_field_sized uf f : well_sized -> length (u_field_data (set_field uf f u)) = 7%nat.
Proof. intros. unfold set_field. simpl. by rewrite length_insert. Qed.

Lemma is_set_mark uf uf' : is_set uf (mark_set uf' u) = is_set uf u || bool_decide (uf' = uf).
Proof.
  unfold is_set, mark_set. simpl. rewrite has_flag_lor. f_equal. by destruct uf, uf'.
Qed.

Lemma is_set_set uf uf' f : is_set uf (set_field uf' f u) = is_set uf u.
Proof. done. Qed.
End Fields.

(** Every field of the group [P] that is set lies before [pos]. *)
Record url_inv (P : http_parser_url_fields -> bool) (pos : Z) (u : http_parser_url) : Prop := mk_url_inv {
  ui_sized : well_sized u;
  ui_fields : forall uf, uf <> UF_MAX -> P uf = true -> is_set uf u = true ->
    0 <= uf_off (get_field uf u) /\ 0 <= uf_len (get_field uf u) /\
    uf_off (get_field uf u) + uf_len (get_field uf u) <= pos
}.

Lemma u16_le z : 0 <= z -> 0 <= u16 z <= z.
Proof. intros. unfold u16. split; [apply Z.mod_pos_bound; lia|apply Z.mod_le; lia]. Qed.

Section Bounds.
Context (P : http_parser_url_fields -> bool).

Lemma url_inv_weaken pos pos' u : url_inv P pos u -> pos <= pos' -> url_inv P pos' u.
Proof. intros [Hs Hf] Hle. split; [done|]. intros uf Hm HP Hu. specialize (Hf uf Hm HP Hu). lia. Qed.

(** Writing a field that ends by [pos]. *)
Lemma url_inv_set pos u uf f :
  url_inv P pos u -> 0 <= uf_off f -> 0 <= uf_len f -> uf_off f + uf_len f <= pos ->
  url_inv P pos (set_field uf f u).
Proof.
  intros [Hs Hf] H1 H2 H3. split; [by apply set_field_sized|].
  intros uf' Hm HP Hu. rewrite is_set_set in Hu. destruct (decide (uf' = uf)) as [->|Hne].
  - by rewrite get_set_same.
  - rewrite get_set_other by done. by apply Hf.
Qed.

Lemma url_inv_mark pos u uf :
  url_inv P pos u -> 0 <= uf_off (get_field uf u) -> 0 <= uf_len (get_field uf u) ->
  uf_off (get_field uf u) + uf_len (get_field uf u) <= pos ->
  url_inv P pos (mark_set uf u).
Proof.
  intros [Hs Hf] H1 H2 H3. split; [done|]. intros uf' Hm HP Hu. rewrite is_set_mark in Hu.
  apply orb_true_iff in Hu as [Hu|Hu]; [by apply Hf|].
  apply bool_decide_eq_true in Hu. by subst.
Qed.

(** A field that starts at [pos] with [n] bytes. *)
Definition put_field uf off n (u : http_parser_url) : http_parser_url :=
  mark_set uf (set_field uf (mk_field off n) u).

Lemma set_len_off uf pos n u :
  well_sized u -> uf <> UF_MAX ->
  mark_set uf (set_len uf n (set_off uf pos u)) = put_field uf (u16 pos) n u.
Proof.
  intros Hs Hm. unfold set_len, set_off, put_field. by rewrite get_set_same, set_set by done.
Qed.

Lemma incr_put uf off n u :
  well_sized u -> uf <> UF_MAX ->
  incr_len uf (put_field uf off n u) = put_field uf off (u16 (n + 1)) u.
Proof.
  intros Hs Hm. unfold incr_len, put_field.
  assert (forall f v, set_field uf f (mark_set uf v) = mark_set uf (set_field uf f v)) as Hc by done.
  assert (forall v, get_field uf (mark_set uf v) = get_field uf v) as Hg by done.
  rewrite Hg, get_set_same by done. by rewrite Hc, set_set.
Qed.

Lemma put_inv pos u uf off n :
  url_inv P pos u -> uf <> UF_MAX -> 0 <= off -> 0 <= n -> off + n <= pos ->
  url_inv P pos (put_field uf off n u).
Proof.
  intros H Hm H1 H2 H3. unfold put_field.
  apply url_inv_mark; [by apply url_inv_set|rewrite get_set_same by (done || apply H); simpl; lia..].
Qed.

Lemma incr_inv pos u uf :
  url_inv P pos u -> uf <> UF_MAX ->
  0 <= uf_off (get_field uf u) -> 0 <= uf_len (get_field uf u) ->
  uf_off (get_field uf u) + uf_len (get_field uf u) <= pos ->
  url_inv P (pos + 1) (incr_len uf u).
Proof.
  intros H Hm H1 H2 H3. unfold incr_len.
  pose proof (u16_le (uf_len (get_field uf u) + 1) ltac:(lia)).
  apply url_inv_set; simpl; try lia. apply (url_inv_weaken pos); [done|lia].
Qed.

End Bounds.

(** * The loop of http_parser_parse_url *)

(** The group of all fields. *)
Definition all_fields (uf : http_parser_url_fields) : bool := true.

(** The fields the loop itself sets. *)
Definition loop_field (uf : http_parser_url_fields) : bool :=
  match uf with UF_PORT | UF_USERINFO | UF_MAX => false | _ => true end.

(** The host slot keeps what it held, [h0], until a host is found. *)
Record run_inv (h0 : url_field) (pos : Z) (r : url_run) : Prop := mk_run_inv {
  ri_url : url_inv all_fields pos (r_url r);
  ri_old : r_old_uf r = UF_MAX \/ is_set (r_old_uf r) (r_url r) = true;
  ri_host : is_set UF_HOST (r_url r) = true \/ get_field UF_HOST (r_url r) = h0;
  ri_unset : forall uf, loop_field uf = false -> is_set uf (r_url r) = false
}.

Lemma url_field_byte_inv h0 uf pos s at_ r :
  run_inv h0 pos r -> 0 <= pos -> loop_field uf = true ->
  exists r', url_field_byte uf pos s at_ r = Url_continue r' /\ run_inv h0 (pos + 1) r' /\ r_s r' = s.
Proof.
  intros [Hu Ho Hh Hn] Hpos Hlf. assert (uf <> UF_MAX) as Hm by (by intros ->).
  unfold url_field_byte. destruct (decide (uf = r_old_uf r)) as [->|Hne].
  - eexists. split; [done|]. split; [|done].
    destruct Ho as [?|Ho]; [done|]. pose proof (ui_fields _ _ _ Hu _ Hm eq_refl Ho).
    split; simpl; [apply incr_inv; (done || lia)|by right| |exact Hn].
    destruct Hh as [?|Hh]; [by left|]. destruct (decide (UF_HOST = r_old_uf r)) as [E|E].
    + left. by rewrite <- E in Ho.
    + right. unfold incr_len. by rewrite get_set_other.
  - eexists. split; [done|]. split; [|done]. rewrite set_len_off by (done || apply Hu).
    pose proof (u16_le pos Hpos). split; simpl.
    + apply put_inv; try done; try lia. apply (url_inv_weaken _ pos); [done|lia].
    + right. unfold put_field. rewrite is_set_mark. by rewrite bool_decide_true, orb_true_r.
    + unfold put_field. rewrite is_set_mark. destruct (decide (UF_HOST = uf)) as [<-|E].
      * left. by rewrite bool_decide_true, orb_true_r.
      * destruct Hh as [Hh|Hh]; [left; by rewrite is_set_set, Hh|right].
        change (get_field UF_HOST (mark_set uf ?v)) with (get_field UF_HOST v).
        by rewrite get_set_other.
    + intros uf' Hlf'. unfold put_field. rewrite is_set_mark, is_set_set, Hn by done.
      rewrite bool_decide_false; [done|congruence].
Qed.

(** The URL machine never yields a state the loop does not expect. *)
Lemma parse_url_byte_inv h0 pos ch r :
  run_inv h0 pos r -> 0 <= pos ->
  match parse_url_byte pos ch r with
  | Url_continue r' => run_inv h0 (pos + 1) r'
  | Url_return u => url_inv all_fields pos u
  | Url_assert => False
  end.
Proof.
  intros H Hpos. unfold parse_url_byte.
  assert (forall uf s at_, loop_field uf = true ->
    match url_field_byte uf pos s at_ r with
    | Url_continue r' => run_inv h0 (pos + 1) r'
    | Url_return u => url_inv all_fields pos u
    | Url_assert => False
    end) as Hf.
  { intros uf s at_ Hm. by destruct (url_field_byte_inv h0 uf pos s at_ r H Hpos Hm) as (r' & -> & ? & _). }
  assert (forall s at_, run_inv h0 (pos + 1) (mk_run s (r_old_uf r) at_ (r_url r))) as Hd.
  { intros. destruct H. split; [|done..]. apply (url_inv_weaken _ pos); [done|lia]. }
  destruct (parse_url_char_cases (r_s r) ch) as [-> | Hu]; [apply H|].
  destruct (parse_url_char (r_s r) ch); try discriminate Hu; (by apply Hf) || apply Hd.
Qed.

Lemma parse_url_loop_inv h0 bs pos r :
  run_inv h0 pos r -> 0 <= pos ->
  match parse_url_loop bs pos r with
  | Url_continue r' => run_inv h0 (pos + zlen bs) r'
  | Url_return u => True
  | Url_assert => False
  end.
Proof.
  revert pos r. induction bs as [|ch bs IH]; intros pos r H Hpos; simpl.
  { change (zlen []) with 0. by rewrite Z.add_0_r. }
  pose proof (parse_url_byte_inv h0 pos ch r H Hpos) as Hb.
  destruct (parse_url_byte pos ch r) as [u|r'|]; try done.
  specialize (IH (pos + 1) r' Hb ltac:(lia)). rewrite zlen_cons.
  by replace (pos + (1 + zlen bs)) with (pos + 1 + zlen bs) by lia.
Qed.

Lemma read_mem_len buf off n : 0 <= n -> zlen (read_mem buf off n) = n.
Proof. intros. unfold read_mem, zlen. rewrite length_map, length_seq. lia. Qed.

(** * The loop of http_parse_host *)

(** The fields http_parse_host writes. *)
Definition in_host (uf : http_parser_url_fields) : bool :=
  match uf with UF_HOST | UF_PORT | UF_USERINFO => true | _ => false end.

(** The states before the host name starts. *)
Definition before_host (s : http_host_state) : bool :=
  match s with
  | s_http_userinfo_start | s_http_userinfo | s_http_host_start | s_http_host_v6_start => true
  | _ => false
  end.

Record host_inv (s : http_host_state) (pos : Z) (u : http_parser_url) : Prop := mk_host_inv {
  hi_url : url_inv in_host pos u;
  hi_set : is_set UF_HOST u = true;
  hi_before : before_host s = true -> uf_len (get_field UF_HOST u) = 0;
  hi_port : s = s_http_host_port -> is_set UF_PORT u = true;
  hi_userinfo : s = s_http_userinfo -> is_set UF_USERINFO u = true
}.

(** The three kinds of update of the loop. *)
Lemma host_keep s n pos u :
  host_inv s pos u -> before_host n = false \/ before_host s = true ->
  n <> s_http_host_port -> n <> s_http_userinfo -> host_inv n (pos + 1) u.
Proof.
  intros [Hu Hs Hb Hp Hi] Hn H1 H2. split; try done.
  - apply (url_inv_weaken _ pos); [done|lia].
  - intros Hn'. apply Hb. destruct Hn as [Hn|Hn]; congruence.
Qed.

Lemma host_extend s pos u uf :
  host_inv s pos u -> in_host uf = true -> is_set uf u = true ->
  before_host s = false \/ uf <> UF_HOST -> host_inv s (pos + 1) (incr_len uf u).
Proof.
  intros [Hu Hs Hb Hp Hi] Hin Huf Hn. assert (uf <> UF_MAX) as Hm by (by intros ->).
  pose proof (ui_fields _ _ _ Hu uf Hm Hin Huf).
  split; try done; [apply incr_inv; (done || lia)|].
  intros Hb'. destruct Hn as [Hn|Hn]; [congruence|].
  unfold incr_len. rewrite get_set_other by congruence. by apply Hb.
Qed.

Lemma host_start s n pos u :
  host_inv s pos u -> 0 <= pos -> before_host s = true ->
  n = s_http_host \/ n = s_http_host_v6 ->
  host_inv n (pos + 1) (incr_len UF_HOST (set_off UF_HOST pos u)).
Proof.
  intros [Hu Hs Hb Hp Hi] Hpos Hb' Hn. pose proof (u16_le pos Hpos). specialize (Hb Hb').
  assert (url_inv in_host pos (set_off UF_HOST pos u)) as Hu'.
  { unfold set_off. rewrite Hb. apply url_inv_set; simpl; (done || lia). }
  pose proof (ui_fields _ _ _ Hu' UF_HOST ltac:(done) eq_refl Hs).
  split; try done; try (destruct Hn; subst; done). apply incr_inv; (done || lia).
Qed.

Lemma part_start s n pos u uf :
  host_inv s pos u -> 0 <= pos ->
  (n = s_http_host_port /\ uf = UF_PORT) \/
  (n = s_http_userinfo /\ uf = UF_USERINFO /\ before_host s = true) ->
  host_inv n (pos + 1) (incr_len uf (mark_set uf (set_len uf 0 (set_off uf pos u)))).
Proof.
  intros [Hu Hs Hb Hp Hi] Hpos Hn. pose proof (u16_le pos Hpos).
  assert (uf <> UF_MAX /\ UF_HOST <> uf) as [Hm Hh] by (destruct Hn as [[_ ->]|(_ & -> & _)]; done).
  rewrite set_len_off, incr_put by (done || apply Hu). change (u16 (0 + 1)) with 1.
  assert (get_field UF_HOST (put_field uf (u16 pos) 1 u) = get_field UF_HOST u) as Hg.
  { unfold put_field. change (get_field UF_HOST (mark_set uf ?v)) with (get_field UF_HOST v).
    by apply get_set_other. }
  assert (forall uf', is_set uf' (put_field uf (u16 pos) 1 u) = is_set uf' u || bool_decide (uf = uf')) as Hset.
  { intros. unfold put_field. by rewrite is_set_mark. }
  split.
  - apply put_inv; try done; try lia. apply (url_inv_weaken _ pos); [done|lia].
  - by rewrite Hset, Hs.
  - rewrite Hg. destruct Hn as [[-> _]|(-> & _ & ?)]; by auto.
  - intros ->. destruct Hn as [[_ ->]|[? _]]; [|done]. by rewrite Hset, orb_true_r.
  - intros ->. destruct Hn as [[? _]|(_ & -> & _)]; [done|]. by rewrite Hset, orb_true_r.
Qed.

Lemma host_step s ch pos u :
  host_inv s pos u -> 0 <= pos -> http_parse_host_char s ch <> s_http_host_dead ->
  let n := http_parse_host_char s ch in host_inv n (pos + 1) (host_fields s n pos u).
Proof.
  intros H Hpos. unfold http_parse_host_char.
  destruct s; repeat case_match; intros Hd; try done; unfold host_fields; simpl;
    first [ eapply host_keep; [eassumption|(by left) || (by right)|done|done]
          | eapply host_extend; [eassumption|done|apply H; done|(by left) || (by right)]
          | eapply host_start; [eassumption|done|done|by auto]
          | eapply part_start; [eassumption|done|by auto] ].
Qed.

Lemma host_loop_inv bs pos s u :
  host_inv s pos u -> 0 <= pos ->
  match http_parse_host_loop bs pos s u with
  | (Some s', u') => host_inv s' (pos + zlen bs) u'
  | (None, u') => True
  end.
Proof.
  revert pos s u. induction bs as [|ch bs IH]; intros pos s u H Hpos; simpl.
  { change (zlen []) with 0. by rewrite Z.add_0_r. }
  destruct (decide _) as [|Hd]; [done|].
  specialize (IH (pos + 1) _ _ (host_step s ch pos u H Hpos Hd) ltac:(lia)).
  rewrite zlen_cons. by replace (pos + (1 + zlen bs)) with (pos + 1 + zlen bs) by lia.
Qed.

(** The other fields stay as they were. *)
Definition same_field uf (u u' : http_parser_url) : Prop :=
  get_field uf u' = get_field uf u /\ is_set uf u' = is_set uf u.

Lemma host_fields_other s n pos u uf :
  in_host uf = false -> same_field uf u (host_fields s n pos u).
Proof.
  intros Hin.
  assert (forall uf' u', in_host uf' = true -> same_field uf u u' ->
    same_field uf u (mark_set uf' u') /\ forall f, same_field uf u (set_field uf' f u')) as Hk.
  { intros uf' u' Hin' [Hg Hs]. assert (uf <> uf') by congruence. split; [split|intros f; split].
    - done.
    - rewrite is_set_mark, bool_decide_false by congruence. by rewrite orb_false_r.
    - by rewrite get_set_other.
    - done. }
  unfold host_fields, incr_len, set_len, set_off.
  repeat case_match; repeat (apply Hk; [done|]); done.
Qed.

Lemma host_loop_other bs pos s u uf :
  in_host uf = false -> same_field uf u (http_parse_host_loop bs pos s u).2.
Proof.
  intros Hin. revert pos s u. induction bs as [|ch bs IH]; intros pos s u; simpl; [done|].
  destruct (decide _); [done|].
  destruct (IH (pos + 1) (http_parse_host_char s ch)
             (host_fields s (http_parse_host_char s ch) pos u)) as [Hg Hs].
  destruct (host_fields_other s (http_parse_host_char s ch) pos u uf Hin) as [Hg' Hs'].
  split; congruence.
Qed.

(** * The whole function *)

Definition initial_run (is_connect : bool) (u : http_parser_url) : url_run :=
  mk_run (if is_connect then s_req_server_start else s_req_spaces_before_url) UF_MAX false
    (mk_url 0 0 (u_field_data u)).

Lemma initial_run_inv is_connect u :
  well_sized u -> run_inv (get_field UF_HOST u) 0 (initial_run is_connect u).
Proof. intros H. split; [split; [done|]|by left|by right|by intros []]. intros [] ? ?; done. Qed.

(** A successful host part: what it sets and where. *)
Lemma http_parse_host_ok buf u found_at u' B :
  url_inv all_fields B u -> is_set UF_HOST u = true ->
  is_set UF_PORT u = false -> is_set UF_USERINFO u = false ->
  http_parse_host buf u found_at = (0, u') ->
  url_inv all_fields B u' /\ is_set UF_HOST u' = true.
Proof.
  intros Hu Hh Hp Hi. unfold http_parse_host.
  pose proof (ui_fields _ _ _ Hu UF_HOST ltac:(done) eq_refl Hh) as (Ho & Hl & Hb).
  set (h := get_field UF_HOST u) in *. set (u1 := set_len UF_HOST 0 u).
  set (s0 := if found_at then _ else _).
  assert (get_field UF_HOST u1 = mk_field (uf_off h) 0) as Hg by (apply get_set_same; [apply Hu|done]).
  assert (host_inv s0 (uf_off h) u1) as Hinv.
  { split; try done; [split|rewrite Hg; done|by destruct found_at..].
    - apply set_field_sized, Hu.
    - intros [] ? Hin Hs; try done.
      + rewrite Hg. simpl. lia.
      + change (is_set UF_PORT u = true) in Hs. congruence.
      + change (is_set UF_USERINFO u = true) in Hs. congruence. }
  pose proof (host_loop_inv (read_mem buf (uf_off h) (uf_len h)) (uf_off h) s0 u1 Hinv Ho) as Hloop.
  pose proof (host_loop_other (read_mem buf (uf_off h) (uf_len h)) (uf_off h) s0 u1) as Hother.
  rewrite read_mem_len in Hloop by done.
  destruct (http_parse_host_loop _ _ _ _) as [[s'|] u2]; [|done]. simpl in Hother.
  destruct (host_unfinished s'); [done|]. intros E. simplify_eq.
  destruct Hloop as [[Hs Hf] Hset _ _ _]. split; [split; [done|]|done].
  intros uf Hm _ Hu'. destruct (in_host uf) eqn:Hin.
  - specialize (Hf uf Hm Hin Hu'). lia.
  - destruct (Hother uf Hin) as [Hg1 Hs1]. rewrite Hs1 in Hu'.
    assert (get_field uf u1 = get_field uf u) as Hg2 by (apply get_set_other; by intros ->).
    rewrite Hg1, Hg2. by apply (ui_fields _ _ _ Hu).
Qed.

(** No host was found: the zero-length slot fails. *)
Lemma http_parse_host_empty buf u found_at :
  uf_len (get_field UF_HOST u) = 0 -> (http_parse_host buf u found_at).1 = 1.
Proof. intros H. unfold http_parse_host. rewrite H. by destruct found_at. Qed.

Lemma parse_url_port_ok buf B u u' :
  parse_url_port buf u = (0, u') ->
  url_inv all_fields B u -> (is_set UF_SCHEMA u = true -> is_set UF_HOST u = true) ->
  url_inv all_fields B u' /\ (is_set UF_SCHEMA u' = true -> is_set UF_HOST u' = true).
Proof.
  unfold parse_url_port. intros E Hu Hs. repeat case_match; simplify_eq; try done.
  split; [|done]. destruct Hu as [? Hf]. by split.
Qed.

Lemma parse_url_ok buf buflen is_connect u u' :
  well_sized u -> 0 <= buflen -> uf_len (get_field UF_HOST u) = 0 ->
  http_parser_parse_url buf buflen is_connect u = Some (0, u') ->
  url_inv all_fields buflen u' /\ (is_set UF_SCHEMA u' = true -> is_set UF_HOST u' = true).
Proof.
  intros Hs Hl Hz. unfold http_parser_parse_url.
  pose proof (parse_url_loop_inv _ (read_mem buf 0 buflen) 0 _ (initial_run_inv is_connect u Hs)
                ltac:(lia)) as Hloop.
  rewrite read_mem_len, Z.add_0_l in Hloop by done. unfold initial_run in Hloop.
  destruct (parse_url_loop _ _ _) as [u1|r|]; [by intros|..|done].
  intros E. destruct Hloop as [Hu _ Hh Hn]. injection E as E. revert E. unfold parse_url_finish.
  destruct (has_flag (u_field_set (r_url r)) (Z.lor (uf_bit UF_SCHEMA) (uf_bit UF_HOST))) eqn:Hsh.
  - destruct (http_parse_host buf (r_url r) (r_found_at r)) as [rv u2] eqn:Hhost.
    destruct (Z.eqb_spec rv 0) as [->|]; [|done]. simpl.
    destruct (is_connect && _); [done|]. intros E. apply (parse_url_port_ok _ _ _ _ E).
    all: destruct Hh as [Hh|Hh];
      [edestruct http_parse_host_ok as [? ?]; [exact Hu|exact Hh|by apply Hn..|exact Hhost|done]|].
    all: pose proof (http_parse_host_empty buf (r_url r) (r_found_at r)) as He;
      rewrite Hh, Hhost in He; simpl in He; specialize (He Hz); lia.
  - simpl. destruct (is_connect && _); [done|]. intros E. apply (parse_url_port_ok _ _ _ _ E); [done|].
    unfold is_set. intros Hsc. unfold has_flag in *. rewrite Z.land_lor_distr_r in Hsh. zbool.
    apply Z.lor_eq_0_iff in Hsh. lia.
Qed.

(** * URLs put together from their parts *)

(** A URL scheme://host[:port]path[?query][#fragment]. *)
Record url_parts := mk_parts {
  p_scheme : list Z;
  p_host : list Z;
  p_port : option (list Z);
  p_path : list Z;
  p_query : option (list Z);
  p_fragment : option (list Z)
}.

Definition opt_part (sep : Z) (o : option (list Z)) : list Z :=
  match o with Some l => sep :: l | None => [] end.

Definition render (c : url_parts) : list Z :=
  p_scheme c ++ str "://" ++ p_host c ++ opt_part (chr ":") (p_port c) ++ p_path c ++
  opt_part (chr "?") (p_query c) ++ opt_part (chr "#") (p_fragment c).

(** Characters allowed in each part. *)
Definition opt_ok (f : Z -> bool) (o : option (list Z)) : bool :=
  match o with Some l => negb (bool_decide (l = [])) && forallb f l | None => true end.

Definition port_value (o : option (list Z)) : Z :=
  match o with Some l => digits_value 0 l | None => 0 end.

Definition parts_ok (c : url_parts) : bool :=
  opt_ok IS_ALPHA (Some (p_scheme c)) && opt_ok IS_HOST_CHAR (Some (p_host c)) &&
  opt_ok IS_NUM (p_port c) && (port_value (p_port c) <=? 65535) &&
  match p_path c with
  | slash :: l => (slash =? chr "/") && forallb IS_URL_CHAR l
  | [] => false
  end &&
  opt_ok IS_URL_CHAR (p_query c) && opt_ok IS_URL_CHAR (p_fragment c) &&
  (zlen (render c) <=? 65535).

(** The text of a field, when it is set. *)
Definition url_part (uf : http_parser_url_fields) (buf : list Z) (u : http_parser_url) :
    option (list Z) :=
  if is_set uf u then
    let f := get_field uf u in Some (slice buf (uf_off f) (uf_off f + uf_len f))
  else None.

(** Decide a comparison of [ch] with a literal from its character class. *)
Ltac char_ne :=
  repeat match goal with
  | |- context [?c =? ?n] => is_var c; destruct (Z.eqb_spec c n); [subst; done|]
  end.

Lemma alpha_schema c : IS_ALPHA c = true -> parse_url_char s_req_schema c = s_req_schema.
Proof. intros H. unfold parse_url_char, CR, LF, TAB, FF. rewrite H. by char_ne. Qed.

Lemma alpha_first c : IS_ALPHA c = true -> parse_url_char s_req_spaces_before_url c = s_req_schema.
Proof. intros H. unfold parse_url_char, CR, LF, TAB, FF. rewrite H. by char_ne. Qed.

Lemma host_char_userinfo c : IS_HOST_CHAR c = true -> IS_USERINFO_CHAR c = true.
Proof.
  unfold IS_HOST_CHAR, IS_USERINFO_CHAR, IS_MARK. intros H.
  destruct (IS_ALPHANUM c); [done|]. simpl in *. apply orb_true_iff in H as [H|H]; rewrite H; simpl;
    by rewrite ?orb_true_r.
Qed.

Lemma num_host_char c : IS_NUM c = true -> IS_HOST_CHAR c = true.
Proof. unfold IS_HOST_CHAR, IS_ALPHANUM. intros ->. by rewrite orb_true_r. Qed.

(** A character of host[:port] keeps the loop in s_req_server. *)
Lemma server_char s c :
  s = s_req_server_start \/ s = s_req_server ->
  IS_HOST_CHAR c = true \/ c = chr ":" -> parse_url_char s c = s_req_server.
Proof.
  intros Hs [H| ->]; [|by destruct Hs as [-> | ->]].
  pose proof (host_char_userinfo c H) as Hu. unfold parse_url_char, CR, LF, TAB, FF.
  rewrite Hu. destruct Hs as [-> | ->]; by char_ne.
Qed.

Lemma path_char c : IS_URL_CHAR c = true -> parse_url_char s_req_path c = s_req_path.
Proof. intros H. unfold parse_url_char, CR, LF, TAB, FF. rewrite H. by char_ne. Qed.

Lemma query_char s c :
  s = s_req_query_string_start \/ s = s_req_query_string ->
  IS_URL_CHAR c = true -> parse_url_char s c = s_req_query_string.
Proof.
  intros Hs H. unfold parse_url_char, CR, LF, TAB, FF. rewrite H.
  destruct Hs as [-> | ->]; by char_ne.
Qed.

Lemma fragment_char s c :
  s = s_req_fragment_start \/ s = s_req_fragment ->
  IS_URL_CHAR c = true -> parse_url_char s c = s_req_fragment.
Proof.
  intros Hs H. unfold parse_url_char, CR, LF, TAB, FF. rewrite H.
  destruct Hs as [-> | ->]; by char_ne.
Qed.

(** ** A run of bytes of one field *)

Definition state_field (s : state) : option http_parser_url_fields :=
  match s with
  | s_req_schema => Some UF_SCHEMA
  | s_req_server => Some UF_HOST
  | s_req_path => Some UF_PATH
  | s_req_query_string => Some UF_QUERY
  | s_req_fragment => Some UF_FRAGMENT
  | _ => None
  end.

Lemma parse_url_byte_field s uf pos ch r :
  parse_url_char (r_s r) ch = s -> state_field s = Some uf ->
  parse_url_byte pos ch r = url_field_byte uf pos s (r_found_at r) r.
Proof. intros H Hs. unfold parse_url_byte. rewrite H. by destruct s; simplify_eq/=. Qed.

Lemma put_sized uf o n u : well_sized u -> well_sized (put_field uf o n u).
Proof. intros H. unfold put_field. by apply set_field_sized. Qed.

Lemma url_same_run uf s at_ cs rest pos o n u :
  state_field s = Some uf -> well_sized u ->
  Forall (fun c => parse_url_char s c = s) cs -> 0 <= n -> n + zlen cs <= 65535 ->
  parse_url_loop (cs ++ rest) pos (mk_run s uf at_ (put_field uf o n u)) =
  parse_url_loop rest (pos + zlen cs) (mk_run s uf at_ (put_field uf o (n + zlen cs) u)).
Proof.
  intros Hs Hw. assert (uf <> UF_MAX) as Hm by (destruct s; simplify_eq/=; done).
  revert pos n. induction cs as [|c cs IH]; intros pos n Hall Hn Hle; simpl.
  { change (zlen []) with 0. by rewrite !Z.add_0_r. }
  apply Forall_cons in Hall as [Hc Hall]. rewrite zlen_cons in *. pose proof (zlen_nonneg cs).
  rewrite (parse_url_byte_field s uf) by done. unfold url_field_byte. simpl.
  rewrite decide_True by done. rewrite incr_put, u16_small, IH by (done || lia).
  by rewrite !Z.add_assoc.
Qed.

Lemma url_field_run uf s c cs rest pos r :
  state_field s = Some uf -> well_sized (r_url r) -> uf <> r_old_uf r ->
  parse_url_char (r_s r) c = s -> Forall (fun c => parse_url_char s c = s) cs ->
  0 <= pos -> pos + zlen (c :: cs) <= 65535 ->
  parse_url_loop ((c :: cs) ++ rest) pos r =
  parse_url_loop rest (pos + zlen (c :: cs))
    (mk_run s uf (r_found_at r) (put_field uf pos (zlen (c :: cs)) (r_url r))).
Proof.
  intros Hs Hw Hne Hc Hall Hpos Hle. rewrite zlen_cons in *. pose proof (zlen_nonneg cs).
  assert (uf <> UF_MAX) as Hm by (destruct s; simplify_eq/=; done).
  simpl. rewrite (parse_url_byte_field s uf) by done. unfold url_field_byte.
  rewrite decide_False by done. rewrite set_len_off, u16_small by (done || lia).
  rewrite url_same_run by (done || lia). by rewrite !Z.add_assoc.
Qed.

(** A delimiter changes the state only. *)
Lemma url_delim s c rest pos r :
  parse_url_char (r_s r) c = s ->
  match s with
  | s_req_schema_slash | s_req_schema_slash_slash | s_req_server_start
  | s_req_query_string_start | s_req_fragment_start => true
  | _ => false
  end = true ->
  parse_url_loop (c :: rest) pos r =
  parse_url_loop rest (pos + 1) (mk_run s (r_old_uf r) (r_found_at r) (r_url r)).
Proof. intros H Hs. simpl. unfold parse_url_byte. rewrite H. by destruct s. Qed.

(** An optional part after its separator. *)
Lemma url_opt_run uf s0 s sep o pos r :
  parse_url_char (r_s r) sep = s0 ->
  (s0 = s_req_query_string_start /\ s = s_req_query_string /\ uf = UF_QUERY \/
   s0 = s_req_fragment_start /\ s = s_req_fragment /\ uf = UF_FRAGMENT) ->
  opt_ok IS_URL_CHAR (Some o) = true -> well_sized (r_url r) -> uf <> r_old_uf r ->
  0 <= pos -> pos + 1 + zlen o <= 65535 ->
  forall rest,
  parse_url_loop (sep :: o ++ rest) pos r =
  parse_url_loop rest (pos + 1 + zlen o)
    (mk_run s uf (r_found_at r) (put_field uf (pos + 1) (zlen o) (r_url r))).
Proof.
  intros Hsep Hs Hok Hw Hne Hpos Hle rest. destruct o as [|c cs]; [done|].
  simpl in Hok. apply andb_true_iff in Hok as [Hc Hcs]. apply forallb_Forall_true in Hcs.
  rewrite (url_delim s0) by (done || by destruct Hs as [(-> & _)|(-> & _)]).
  rewrite (url_field_run uf s); try done; try lia.
  - by destruct Hs as [(_ & -> & ->)|(_ & -> & ->)].
  - simpl. destruct Hs as [(-> & -> & _)|(-> & -> & _)]; [apply query_char|apply fragment_char]; auto.
  - apply (Forall_impl _ _ _ Hcs). intros x Hx.
    destruct Hs as [(_ & -> & _)|(_ & -> & _)]; [apply query_char|apply fragment_char]; auto.
Qed.

Lemma url_opt_part uf s0 s sep o pos r rest :
  parse_url_char (r_s r) sep = s0 ->
  (s0 = s_req_query_string_start /\ s = s_req_query_string /\ uf = UF_QUERY \/
   s0 = s_req_fragment_start /\ s = s_req_fragment /\ uf = UF_FRAGMENT) ->
  opt_ok IS_URL_CHAR o = true -> well_sized (r_url r) -> uf <> r_old_uf r ->
  0 <= pos -> pos + zlen (opt_part sep o) <= 65535 ->
  parse_url_loop (opt_part sep o ++ rest) pos r =
  parse_url_loop rest (pos + zlen (opt_part sep o))
    (match o with
     | Some l => mk_run s uf (r_found_at r) (put_field uf (pos + 1) (zlen l) (r_url r))
     | None => r
     end).
Proof.
  intros Hsep Hs Hok Hw Hne Hpos Hle. destruct o as [l|]; cbn [opt_part app] in Hle |- *.
  - rewrite zlen_cons in *. rewrite (url_opt_run uf s0 s) by (done || lia).
    by rewrite Z.add_assoc.
  - change (zlen []) with 0. by rewrite Z.add_0_r.
Qed.

(** ** The host part of such a URL *)

Lemma host_char_step c : IS_HOST_CHAR c = true -> http_parse_host_char s_http_host c = s_http_host.
Proof. intros H. simpl. by rewrite H. Qed.

Lemma host_char_first c :
  IS_HOST_CHAR c = true -> http_parse_host_char s_http_host_start c = s_http_host.
Proof. intros H. simpl. rewrite H. by char_ne. Qed.

Lemma incr_set uf o n u :
  well_sized u -> uf <> UF_MAX ->
  incr_len uf (set_field uf (mk_field o n) u) = set_field uf (mk_field o (u16 (n + 1))) u.
Proof. intros. unfold incr_len. by rewrite get_set_same, set_set. Qed.

Lemma host_same_run cs rest pos o n u :
  well_sized u -> Forall (fun c => IS_HOST_CHAR c = true) cs -> 0 <= n -> n + zlen cs <= 65535 ->
  http_parse_host_loop (cs ++ rest) pos s_http_host (set_field UF_HOST (mk_field o n) u) =
  http_parse_host_loop rest (pos + zlen cs) s_http_host
    (set_field UF_HOST (mk_field o (n + zlen cs)) u).
Proof.
  intros Hw. revert pos n. induction cs as [|c cs IH]; intros pos n Hall Hn Hle.
  { simpl. change (zlen []) with 0. by rewrite !Z.add_0_r. }
  apply Forall_cons in Hall as [Hc Hall]. rewrite zlen_cons in *. pose proof (zlen_nonneg cs).
  cbn [app http_parse_host_loop]. rewrite host_char_step by done. simpl.
  rewrite incr_set, u16_small, IH by (done || lia). by rewrite !Z.add_assoc.
Qed.

Lemma port_same_run cs pos o n u :
  well_sized u -> Forall (fun c => IS_NUM c = true) cs -> 0 <= n -> n + zlen cs <= 65535 ->
  http_parse_host_loop cs pos s_http_host_port (put_field UF_PORT o n u) =
  (Some s_http_host_port, put_field UF_PORT o (n + zlen cs) u).
Proof.
  intros Hw. revert pos n. induction cs as [|c cs IH]; intros pos n Hall Hn Hle.
  { simpl. change (zlen []) with 0. by rewrite !Z.add_0_r. }
  apply Forall_cons in Hall as [Hc Hall]. rewrite zlen_cons in *. pose proof (zlen_nonneg cs).
  cbn [http_parse_host_loop http_parse_host_char]. rewrite Hc. simpl.
  rewrite incr_put, u16_small, IH by (done || lia). by rewrite !Z.add_assoc.
Qed.

(** The structure after the host part was split. *)
Definition split_host (off : Z) (host : list Z) (port : option (list Z)) (u : http_parser_url) :
    http_parser_url :=
  let u := set_field UF_HOST (mk_field off (zlen host)) u in
  match port with
  | Some l => put_field UF_PORT (off + zlen host + 1) (zlen l) u
  | None => u
  end.

Lemma http_parse_host_parts buf u host port :
  let f := get_field UF_HOST u in
  well_sized u -> opt_ok IS_HOST_CHAR (Some host) = true -> opt_ok IS_NUM port = true ->
  read_mem buf (uf_off f) (uf_len f) = host ++ opt_part (chr ":") port ->
  0 <= uf_off f -> uf_off f + zlen (host ++ opt_part (chr ":") port) <= 65535 ->
  http_parse_host buf u false = (0, split_host (uf_off f) host port u).
Proof.
  intros f Hw Hh Hp Hmem Hoff Hle. unfold http_parse_host. fold f. rewrite Hmem.
  destruct host as [|h hs]; [done|]. simpl in Hh. apply andb_true_iff in Hh as [Hh Hhs].
  apply forallb_Forall_true in Hhs. rewrite zlen_app, zlen_cons in Hle.
  pose proof (zlen_nonneg hs). pose proof (zlen_nonneg (opt_part (chr ":") port)).
  cbn [app http_parse_host_loop]. rewrite host_char_first by done. simpl.
  unfold set_off, set_len. fold f. rewrite get_set_same, set_set by done. simpl.
  rewrite incr_set, u16_small by (done || lia). rewrite (u16_small (0 + 1)) by lia.
  rewrite host_same_run by (done || lia). unfold split_host. rewrite zlen_cons.
  destruct port as [l|]; [|done]. destruct l as [|d ds]; [done|].
  simpl in Hp. apply andb_true_iff in Hp as [Hd Hds]. apply forallb_Forall_true in Hds.
  simpl in Hle. rewrite !zlen_cons in Hle. pose proof (zlen_nonneg ds).
  assert (well_sized (set_field UF_HOST (mk_field (uf_off f) (1 + zlen hs)) u)) as Hw'
    by (by apply set_field_sized).
  cbn [http_parse_host_loop opt_part]. simpl. rewrite Hd. simpl.
  rewrite set_len_off, incr_put by done. rewrite (u16_small (0 + 1)) by lia.
  rewrite u16_small, port_same_run by (done || lia). simpl.
  replace (uf_off f + 1 + zlen hs + 1) with (uf_off f + (1 + zlen hs) + 1) by lia.
  by rewrite zlen_cons.
Qed.

Lemma read_mem_slice buf off n :
  0 <= off -> 0 <= n -> off + n <= zlen buf -> read_mem buf off n = slice buf off (off + n).
Proof.
  intros Ho Hn. rewrite <- (Z2Nat.id n) by done. generalize (Z.to_nat n) as k. clear n Hn.
  induction k as [|k IH]; intros Hle.
  { simpl. by rewrite slice_nil by lia. }
  unfold read_mem in *. rewrite Nat2Z.id in *. rewrite seq_S, map_app, IH by lia. simpl.
  replace (off + Z.of_nat (S k)) with (off + Z.of_nat k + 1) by lia.
  by rewrite slice_snoc by lia.
Qed.

(** ** The whole URL *)

Lemma opt_ok_some f l :
  opt_ok f (Some l) = true -> exists c cs, l = c :: cs /\ f c = true /\ Forall (fun c => f c = true) cs.
Proof.
  destruct l as [|c cs]; [done|]. intros H. simpl in H. apply andb_true_iff in H as [H1 H2].
  apply forallb_Forall_true in H2. eauto.
Qed.

(** The positions of the parts. *)
Definition off_host (c : url_parts) : Z := zlen (p_scheme c) + 3.
Definition host_port (c : url_parts) : list Z := p_host c ++ opt_part (chr ":") (p_port c).
Definition off_path (c : url_parts) : Z := off_host c + zlen (host_port c).
Definition off_query (c : url_parts) : Z := off_path c + zlen (p_path c).
Definition off_fragment (c : url_parts) : Z := off_query c + zlen (opt_part (chr "?") (p_query c)).

Definition put_opt uf off (o : option (list Z)) (u : http_parser_url) : http_parser_url :=
  match o with Some l => put_field uf (off + 1) (zlen l) u | None => u end.

(** The structure after the loop. *)
Definition loop_fields (c : url_parts) (u : http_parser_url) : http_parser_url :=
  put_opt UF_FRAGMENT (off_fragment c) (p_fragment c)
    (put_opt UF_QUERY (off_query c) (p_query c)
       (put_field UF_PATH (off_path c) (zlen (p_path c))
          (put_field UF_HOST (off_host c) (zlen (host_port c))
             (put_field UF_SCHEMA 0 (zlen (p_scheme c)) u)))).

Lemma render_bound c :
  zlen (render c) =
  off_fragment c + zlen (opt_part (chr "#") (p_fragment c)).
Proof.
  unfold render, off_fragment, off_query, off_path, off_host, host_port.
  rewrite !zlen_app. change (zlen (str "://")) with 3. lia.
Qed.

Lemma host_port_chars c :
  opt_ok IS_HOST_CHAR (Some (p_host c)) = true -> opt_ok IS_NUM (p_port c) = true ->
  exists h hs, host_port c = h :: hs /\ IS_HOST_CHAR h = true /\
    Forall (fun x => parse_url_char s_req_server x = s_req_server) hs.
Proof.
  intros (h & hs & Hh & Hc & Hcs)%opt_ok_some Hp. unfold host_port. rewrite Hh.
  eexists h, _. split; [reflexivity|]. split; [done|].
  assert (forall l, Forall (fun x => IS_HOST_CHAR x = true) l ->
    Forall (fun x => parse_url_char s_req_server x = s_req_server) l) as Hall.
  { intros l Hl. apply (Forall_impl _ _ _ Hl). intros x Hx. apply server_char; auto. }
  apply Forall_app_2; [by apply Hall|].
  destruct (p_port c) as [l|]; [|done]. apply opt_ok_some in Hp as (d & ds & -> & Hd & Hds).
  apply Forall_cons_2; [by apply server_char; auto|]. apply Hall, Forall_cons_2.
  - by apply num_host_char.
  - apply (Forall_impl _ _ _ Hds). intros x. apply num_host_char.
Qed.

(** The optional parts after the path. *)
Lemma url_tail_run q f pos u :
  opt_ok IS_URL_CHAR q = true -> opt_ok IS_URL_CHAR f = true -> well_sized u -> 0 <= pos ->
  pos + zlen (opt_part (chr "?") q) + zlen (opt_part (chr "#") f) <= 65535 ->
  exists s uf, parse_url_loop (opt_part (chr "?") q ++ opt_part (chr "#") f) pos
      (mk_run s_req_path UF_PATH false u) =
    Url_continue (mk_run s uf false
      (put_opt UF_FRAGMENT (pos + zlen (opt_part (chr "?") q)) f (put_opt UF_QUERY pos q u))).
Proof.
  intros Hq Hf Hw Hpos Hle. pose proof (zlen_nonneg (opt_part (chr "?") q)).
  pose proof (zlen_nonneg (opt_part (chr "#") f)).
  rewrite (url_opt_part UF_QUERY s_req_query_string_start s_req_query_string);
    [|done|by auto|done|done|done|done|lia].
  rewrite <- (app_nil_r (opt_part (chr "#") f)).
  rewrite (url_opt_part UF_FRAGMENT s_req_fragment_start s_req_fragment); try lia; try done.
  - simpl. destruct q, f; simpl; eauto.
  - by destruct q.
  - by auto.
  - destruct q; [by apply put_sized|done].
  - by destruct q.
Qed.

Lemma loop_render c u :
  parts_ok c = true -> well_sized u ->
  exists s uf, parse_url_loop (render c) 0 (initial_run false u) =
    Url_continue (mk_run s uf false (loop_fields c (mk_url 0 0 (u_field_data u)))).
Proof.
  intros Hok Hw. unfold parts_ok in Hok. rewrite !andb_true_iff in Hok.
  destruct Hok as [[[[[[[Hs Hh] Hp] _] Hpath] Hq] Hf] Hlen].
  apply Z.leb_le in Hlen. rewrite render_bound in Hlen.
  apply opt_ok_some in Hs as (s & ss & Hse & Hs & Hss).
  destruct (host_port_chars c Hh Hp) as (h & hs & Hhe & Hhc & Hhs).
  destruct (p_path c) as [|sl path] eqn:Hpe; [done|].
  apply andb_true_iff in Hpath as [->%Z.eqb_eq Hpath]. apply forallb_Forall_true in Hpath.
  unfold render. rewrite Hpe.
  pose proof (zlen_nonneg (p_scheme c)). pose proof (zlen_nonneg (host_port c)).
  pose proof (zlen_nonneg (p_path c)). pose proof (zlen_nonneg (opt_part (chr "?") (p_query c))).
  pose proof (zlen_nonneg (opt_part (chr "#") (p_fragment c))).
  assert (zlen (p_scheme c) = zlen (s :: ss)) as Hse' by (by rewrite Hse).
  assert (zlen (host_port c) = zlen (h :: hs)) as Hhe' by (by rewrite Hhe).
  assert (zlen (p_path c) = zlen (47 :: path)) as Hpe' by (by rewrite Hpe).
  rewrite (app_assoc (p_host c)). fold (host_port c). rewrite Hse, Hhe.
  unfold off_fragment, off_query, off_path, off_host in *.
  rewrite (url_field_run UF_SCHEMA s_req_schema);
    [|done|done|done|by apply alpha_first|by apply (Forall_impl _ _ _ Hss), alpha_schema|lia|lia].
  cbn [app]. rewrite (url_delim s_req_schema_slash), (url_delim s_req_schema_slash_slash),
    (url_delim s_req_server_start) by done.
  change (h :: hs ++ ?l) with ((h :: hs) ++ l).
  rewrite (url_field_run UF_HOST s_req_server);
    [|done|by apply put_sized|done|by apply server_char; auto|done|simpl; lia|simpl; lia].
  change (47 :: path ++ ?l) with ((47 :: path) ++ l).
  rewrite (url_field_run UF_PATH s_req_path);
    [|done|by repeat apply put_sized|done|done|by apply (Forall_impl _ _ _ Hpath), path_char
     |simpl; lia|simpl; lia].
  cbn [r_found_at r_url initial_run].
  rewrite <- Hse', <- Hhe', <- Hpe', Z.add_0_l.
  replace (zlen (p_scheme c) + 1 + 1 + 1) with (zlen (p_scheme c) + 3) by lia.
  destruct (url_tail_run (p_query c) (p_fragment c)
    (zlen (p_scheme c) + 3 + zlen (host_port c) + zlen (p_path c))
    (put_field UF_PATH (zlen (p_scheme c) + 3 + zlen (host_port c)) (zlen (p_path c))
       (put_field UF_HOST (zlen (p_scheme c) + 3) (zlen (host_port c))
          (put_field UF_SCHEMA 0 (zlen (p_scheme c)) (mk_url 0 0 (u_field_data u))))))
    as (s0 & uf & ->); try done; try lia.
  { by repeat apply put_sized. }
  eexists s0, uf. unfold loop_fields, off_fragment, off_query, off_path, off_host. done.
Qed.

Lemma digits_value_app l acc c rest :
  Forall (fun x => IS_NUM x = true) l -> IS_NUM c = false ->
  digits_value acc (l ++ c :: rest) = digits_value acc l.
Proof.
  intros Hl Hc. revert acc. induction Hl as [|x l Hx _ IH]; intros acc; simpl; rewrite ?Hc, ?Hx; auto.
Qed.

(** strtoul on a number that is followed by something else. *)
Lemma strtoul_digits l c rest :
  opt_ok IS_NUM (Some l) = true -> IS_NUM c = false -> digits_value 0 l <= 65535 ->
  strtoul (l ++ c :: rest) = digits_value 0 l.
Proof.
  intros (d & ds & -> & Hd & Hds)%opt_ok_some Hc Hle.
  assert (is_space d = false) as Hsp.
  { unfold is_space, IS_NUM, TAB, CR in *. zbool. apply orb_false_iff. split; [lia|].
    apply andb_false_iff. right. lia. }
  unfold strtoul. cbn [app skip_spaces]. rewrite Hsp.
  destruct (Z.eqb_spec d (chr "-")) as [->|]; [done|].
  destruct (Z.eqb_spec d (chr "+")) as [->|]; [done|].
  change (d :: ds ++ c :: rest) with ((d :: ds) ++ c :: rest).
  rewrite digits_value_app by (by try apply Forall_cons_2).
  pose proof (digits_value_nonneg (d :: ds) 0 ltac:(lia)). unfold ULONG_MAX. lia.
Qed.

(** The fields after the host part was split. *)
Definition final_fields (c : url_parts) (u : http_parser_url) : http_parser_url :=
  split_host (off_host c) (p_host c) (p_port c) (loop_fields c (mk_url 0 0 (u_field_data u))).

Lemma seven_fields u :
  well_sized u -> exists f0 f1 f2 f3 f4 f5 f6, u_field_data u = [f0; f1; f2; f3; f4; f5; f6].
Proof.
  unfold well_sized. intros H. destruct (u_field_data u) as [|f0 [|f1 [|f2 [|f3 [|f4 [|f5 [|f6 [|]]]]]]]];
    try discriminate H. by eexists _, _, _, _, _, _, _.
Qed.

(** Which fields are set, and where each one is. *)
Lemma final_fields_spec c u :
  well_sized u ->
  let v := final_fields c u in
  let isome (o : option (list Z)) := match o with Some _ => true | None => false end in
  (is_set UF_SCHEMA v = true /\ get_field UF_SCHEMA v = mk_field 0 (zlen (p_scheme c))) /\
  (is_set UF_HOST v = true /\ get_field UF_HOST v = mk_field (off_host c) (zlen (p_host c))) /\
  (is_set UF_PATH v = true /\ get_field UF_PATH v = mk_field (off_path c) (zlen (p_path c))) /\
  is_set UF_USERINFO v = false /\
  (is_set UF_PORT v = isome (p_port c) /\ forall l, p_port c = Some l ->
     get_field UF_PORT v = mk_field (off_host c + zlen (p_host c) + 1) (zlen l)) /\
  (is_set UF_QUERY v = isome (p_query c) /\ forall l, p_query c = Some l ->
     get_field UF_QUERY v = mk_field (off_query c + 1) (zlen l)) /\
  (is_set UF_FRAGMENT v = isome (p_fragment c) /\ forall l, p_fragment c = Some l ->
     get_field UF_FRAGMENT v = mk_field (off_fragment c + 1) (zlen l)) /\
  u_port v = 0.
Proof.
  intros (f0 & f1 & f2 & f3 & f4 & f5 & f6 & Hf)%seven_fields v isome.
  unfold v, final_fields, loop_fields. rewrite Hf.
  destruct (p_port c), (p_query c), (p_fragment c); simpl; split_and!; try done;
    intros ? Heq; simplify_eq; reflexivity.
Qed.

Lemma loop_fields_host c u :
  well_sized u ->
  let v := loop_fields c (mk_url 0 0 (u_field_data u)) in
  well_sized v /\ get_field UF_HOST v = mk_field (off_host c) (zlen (host_port c)) /\
  has_flag (u_field_set v) (Z.lor (uf_bit UF_SCHEMA) (uf_bit UF_HOST)) = true.
Proof.
  intros (f0 & f1 & f2 & f3 & f4 & f5 & f6 & Hf)%seven_fields v. unfold v, loop_fields.
  rewrite Hf. destruct (p_query c), (p_fragment c); done.
Qed.

(** Where each part is in the text. *)
Lemma render_slices c junk :
  let buf := render c ++ junk in
  slice buf 0 (zlen (p_scheme c)) = p_scheme c /\
  slice buf (off_host c) (off_host c + zlen (p_host c)) = p_host c /\
  slice buf (off_host c) (off_host c + zlen (host_port c)) = host_port c /\
  slice buf (off_path c) (off_path c + zlen (p_path c)) = p_path c /\
  (forall l, p_port c = Some l ->
     let o := off_host c + zlen (p_host c) + 1 in slice buf o (o + zlen l) = l) /\
  (forall l, p_query c = Some l ->
     slice buf (off_query c + 1) (off_query c + 1 + zlen l) = l) /\
  (forall l, p_fragment c = Some l ->
     slice buf (off_fragment c + 1) (off_fragment c + 1 + zlen l) = l).
Proof.
  intros buf.
  assert (forall a m b o, buf = a ++ m ++ b -> o = zlen a -> slice buf o (o + zlen m) = m) as Hm.
  { intros a m b o -> ->. apply slice_mid. }
  unfold buf, render, off_fragment, off_query, off_path, off_host, host_port in *.
  set (sep := str "://") in *.
  assert (zlen sep = 3) as H3 by done. clearbody sep.
  split_and!.
  - rewrite <- (Z.add_0_l (zlen (p_scheme c))). eapply (Hm []); [|done].
    by rewrite <- !app_assoc.
  - eapply (Hm (p_scheme c ++ sep)); [|rewrite zlen_app; lia]. by rewrite <- !app_assoc.
  - eapply (Hm (p_scheme c ++ sep)); [|rewrite zlen_app; lia]. by rewrite <- !app_assoc.
  - eapply (Hm (p_scheme c ++ sep ++ p_host c ++ opt_part 58 (p_port c)));
      [|rewrite !zlen_app; lia]. by rewrite <- !app_assoc.
  - intros l Hl. cbv zeta. rewrite Hl in *. set (o := zlen (p_scheme c) + 3 + zlen (p_host c) + 1).
    eapply (Hm (p_scheme c ++ sep ++ p_host c ++ [58]));
      [|rewrite !zlen_app, H3; unfold o; change (zlen [58]) with 1; lia]. by rewrite <- !app_assoc.
  - intros l Hl. rewrite Hl in *.
    eapply (Hm (p_scheme c ++ sep ++ p_host c ++ opt_part 58 (p_port c) ++ p_path c ++ [63]));
      [|rewrite !zlen_app, H3; change (zlen [63]) with 1; lia]. by rewrite <- !app_assoc.
  - intros l Hl. rewrite Hl in *.
    eapply (Hm (p_scheme c ++ sep ++ p_host c ++ opt_part 58 (p_port c) ++ p_path c ++
                opt_part 63 (p_query c) ++ [35]));
      [|rewrite !zlen_app, H3; change (zlen [35]) with 1; lia]. by rewrite <- !app_assoc.
Qed.

Lemma http_parse_host_render c u junk :
  parts_ok c = true -> well_sized u ->
  http_parse_host (render c ++ junk) (loop_fields c (mk_url 0 0 (u_field_data u))) false =
  (0, final_fields c u).
Proof.
  intros Hok Hw. destruct (loop_fields_host c u Hw) as (Hw' & Hg & _).
  unfold parts_ok in Hok. rewrite !andb_true_iff in Hok.
  destruct Hok as [[[[[[[Hs Hh] Hp] _] _] _] _] Hlen]. apply Z.leb_le in Hlen.
  destruct (render_slices c junk) as (_ & _ & Hslice & _).
  pose proof (render_bound c) as Hb. unfold off_fragment, off_query, off_path in Hb.
  pose proof (zlen_nonneg (p_path c)). pose proof (zlen_nonneg (opt_part (chr "?") (p_query c))).
  pose proof (zlen_nonneg (opt_part (chr "#") (p_fragment c))). pose proof (zlen_nonneg junk).
  pose proof (zlen_nonneg (host_port c)). pose proof (zlen_nonneg (p_scheme c)).
  rewrite (http_parse_host_parts _ _ (p_host c) (p_port c)); rewrite ?Hg; simpl; try done.
  - rewrite read_mem_slice; unfold off_host in *; rewrite ?zlen_app; (exact Hslice || lia).
  - unfold off_host. lia.
  - fold (host_port c). lia.
Qed.

(** What is read from the port's first digit on. *)
Lemma port_render c l junk :
  parts_ok c = true -> p_port c = Some l ->
  strtoul (drop (Z.to_nat (off_host c + zlen (p_host c) + 1)) (render c ++ junk)) = port_value (Some l).
Proof.
  intros Hok Hl. unfold parts_ok in Hok. rewrite !andb_true_iff in Hok.
  destruct Hok as [[[[[[_ Hp] Hv] Hpath] _] _] _].
  rewrite Hl in Hp, Hv. simpl port_value in *. apply Z.leb_le in Hv.
  destruct (p_path c) as [|sl path] eqn:Hpe; [done|].
  apply andb_true_iff in Hpath as [->%Z.eqb_eq _].
  unfold render, off_host. rewrite Hl, Hpe. cbn [opt_part].
  set (rest := opt_part (chr "?") (p_query c) ++ opt_part (chr "#") (p_fragment c)).
  replace ((p_scheme c ++ str "://" ++ p_host c ++ (58 :: l) ++ (47 :: path) ++ rest) ++ junk)
    with ((p_scheme c ++ str "://" ++ p_host c ++ [58]) ++ l ++ 47 :: (path ++ rest ++ junk))
    by (by rewrite <- !app_assoc).
  replace (Z.to_nat (zlen (p_scheme c) + 3 + zlen (p_host c) + 1))
    with (length (p_scheme c ++ str "://" ++ p_host c ++ [58])).
  - rewrite drop_app_length. by apply strtoul_digits.
  - rewrite !length_app. unfold zlen. simpl. lia.
Qed.

(** An unset structure, as the callers that clear it first have it. *)
Definition zeroed : http_parser_url := mk_url 0 0 (repeat (mk_field 0 0) 7).

(** C24. Http_parser_parse_url always returns 0 or 1: the assertion on
    unexpected states never fails, whatever the bytes, whatever follows them in
    memory, and whatever the result structure held. *)
Theorem parse_url_total buf buflen is_connect u :
  well_sized u -> 0 <= buflen ->
  exists rv u', http_parser_parse_url buf buflen is_connect u = Some (rv, u') /\ (rv = 0 \/ rv = 1).
Proof.
  intros Hs Hl. unfold http_parser_parse_url.
  pose proof (parse_url_loop_inv _ (read_mem buf 0 buflen) 0 _ (initial_run_inv is_connect u Hs)
                ltac:(lia)) as Hloop.
  unfold initial_run in Hloop. destruct (parse_url_loop _ _ _) as [u1|r|]; [by eauto| |done].
  unfold parse_url_finish, parse_url_port. repeat case_match; simplify_eq; eauto.
Qed.

Lemma parse_url_total_witness :
  exists rv u', http_parser_parse_url (str "/a?b") 4 false zeroed = Some (rv, u') /\ (rv = 0 \/ rv = 1).
Proof. apply parse_url_total; [reflexivity|lia]. Defined.

(** When http_parser_parse_url succeeds on a structure whose host slot was
    empty, every field it reports lies inside the buffer (also for buffers
    longer than the 16-bit offsets can express), and a URL with a scheme has a
    host. *)
Theorem parse_url_in_bounds buf buflen is_connect u u' :
  well_sized u -> 0 <= buflen -> uf_len (get_field UF_HOST u) = 0 ->
  http_parser_parse_url buf buflen is_connect u = Some (0, u') ->
  (forall uf, uf <> UF_MAX -> is_set uf u' = true ->
     0 <= uf_off (get_field uf u') /\ 0 <= uf_len (get_field uf u') /\
     uf_off (get_field uf u') + uf_len (get_field uf u') <= buflen) /\
  (is_set UF_SCHEMA u' = true -> is_set UF_HOST u' = true).
Proof.
  intros Hs Hl Hz H. destruct (parse_url_ok _ _ _ _ _ Hs Hl Hz H) as [Hu Hsh].
  split; [|done]. intros uf Hm Hset. by apply (ui_fields _ _ _ Hu).
Qed.

Lemma parse_url_in_bounds_witness :
  exists u', http_parser_parse_url (str "http://a.b:80/c") 15 false zeroed = Some (0, u') /\
    uf_off (get_field UF_PATH u') + uf_len (get_field UF_PATH u') <= 15.
Proof.
  eexists. split; [vm_compute; reflexivity|].
  eapply (parse_url_in_bounds (str "http://a.b:80/c") 15 false zeroed);
    [reflexivity|lia|reflexivity|vm_compute; reflexivity|discriminate|reflexivity].
Defined.

(** C14. Round trip: a URL written from its parts (scheme, host, optional port
    up to 65535, path, optional query and fragment, of at most 65535 bytes in
    all) is parsed back into exactly these parts, with the port converted to its
    value, whatever follows the buffer and whatever the result structure held. *)
Theorem parse_url_render c junk u :
  parts_ok c = true -> well_sized u ->
  exists u', http_parser_parse_url (render c ++ junk) (zlen (render c)) false u = Some (0, u') /\
    let buf := render c ++ junk in
    url_part UF_SCHEMA buf u' = Some (p_scheme c) /\
    url_part UF_HOST buf u' = Some (p_host c) /\
    url_part UF_PORT buf u' = p_port c /\
    url_part UF_PATH buf u' = Some (p_path c) /\
    url_part UF_QUERY buf u' = p_query c /\
    url_part UF_FRAGMENT buf u' = p_fragment c /\
    url_part UF_USERINFO buf u' = None /\
    u_port u' = port_value (p_port c).
Proof.
  intros Hok Hw. destruct (loop_render c u Hok Hw) as (s & uf & Hloop).
  destruct (loop_fields_host c u Hw) as (_ & _ & Hflag).
  pose proof (final_fields_spec c u Hw) as Hspec. cbv zeta in Hspec.
  destruct Hspec as ([Ss Sg] & [Hs Hg] & [Ps Pg] & Us & [Ts Tg] & [Qs Qg] & [Fs Fg] & Hp0).
  destruct (render_slices c junk) as (E1 & E2 & _ & E4 & E5 & E6 & E7).
  set (v := final_fields c u) in *. pose proof (zlen_nonneg (render c)).
  exists (mk_url (u_field_set v) (port_value (p_port c)) (u_field_data v)). split.
  - unfold http_parser_parse_url. rewrite read_mem_slice by (rewrite ?zlen_app; pose proof (zlen_nonneg junk); lia).
    rewrite Z.add_0_l. pose proof (slice_mid [] (render c) junk) as Hsl.
    change (zlen []) with 0 in Hsl. rewrite Z.add_0_l in Hsl. simpl app in Hsl. rewrite Hsl.
    fold (initial_run false u). rewrite Hloop. unfold parse_url_finish. cbn [r_url r_found_at].
    rewrite Hflag, (http_parse_host_render c u junk Hok Hw). cbn [negb Z.eqb andb].
    f_equal. fold v. unfold parse_url_port. rewrite Ts.
    destruct (p_port c) as [l|] eqn:Hl.
    + rewrite (Tg l eq_refl). cbn [uf_off]. rewrite (port_render c l junk Hok Hl).
      unfold parts_ok in Hok. rewrite !andb_true_iff, Hl in Hok.
      destruct Hok as [[[[[_ Hv] _] _] _] _]. apply Z.leb_le in Hv. simpl in Hv |- *.
      pose proof (digits_value_nonneg l 0 ltac:(lia)).
      rewrite (proj2 (Z.ltb_ge _ _)), u16_small by lia. done.
    + simpl. rewrite <- Hp0. by destruct v.
  - unfold url_part. set (w := mk_url _ _ _).
    assert (forall uf', is_set uf' w = is_set uf' v) as Hw1 by done.
    assert (forall uf', get_field uf' w = get_field uf' v) as Hw2 by done.
    rewrite !Hw1, !Hw2, Ss, Hs, Ps, Us, Ts, Qs, Fs, Sg, Hg, Pg. cbn [uf_off uf_len].
    rewrite Z.add_0_l, E1, E2, E4.
    destruct (p_port c), (p_query c), (p_fragment c);
      rewrite ?(Tg _ eq_refl), ?(Qg _ eq_refl), ?(Fg _ eq_refl); cbn [uf_off uf_len];
      rewrite ?E5, ?E6, ?E7 by done; done.
Qed.

Lemma parse_url_render_witness :
  let c := mk_parts (str "http") (str "a.com") (Some (str "8080")) (str "/x") (Some (str "q=1")) None in
  parts_ok c = true /\
  exists u', http_parser_parse_url (render c ++ []) (zlen (render c)) false zeroed = Some (0, u') /\
    u_port u' = 8080.
Proof.
  split; [reflexivity|].
  destruct (parse_url_render
    (mk_parts (str "http") (str "a.com") (Some (str "8080")) (str "/x") (Some (str "q=1")) None)
    [] zeroed eq_refl eq_refl) as (u' & H & _ & _ & _ & _ & _ & _ & _ & Hp).
  exists u'. split; [exact H|exact Hp].
Defined.

(** The port conversion does not stop at the end of the buffer: strtoul
    reads on while digits follow, so the same eleven bytes give two ports in two
    memories.  The fields reported are the same. *)
Theorem parse_url_port_overread :
  http_parser_parse_url (str "http://a:80" ++ [0]) 11 false zeroed =
    Some (0, mk_url 7 80 [mk_field 0 4; mk_field 7 1; mk_field 9 2; mk_field 0 0;
                          mk_field 0 0; mk_field 0 0; mk_field 0 0]) /\
  http_parser_parse_url (str "http://a:80" ++ str "55 HTTP/1.1") 11 false zeroed =
    Some (0, mk_url 7 8055 [mk_field 0 4; mk_field 7 1; mk_field 9 2; mk_field 0 0;
                            mk_field 0 0; mk_field 0 0; mk_field 0 0]).
Proof. split; vm_compute; reflexivity. Qed.

(** A URL with a scheme and no host, "http:///toto", is refused when the
    host slot of the structure was cleared, and accepted when it held the stale
    position of a plausible name: the slot is read before it is written. *)
Theorem parse_url_stale_host :
  http_parser_parse_url (str "http:///toto") 12 false zeroed =
    Some (1, mk_url 9 0 [mk_field 0 4; mk_field 0 0; mk_field 0 0; mk_field 7 5;
                         mk_field 0 0; mk_field 0 0; mk_field 0 0]) /\
  http_parser_parse_url (str "http:///toto") 12 false (set_field UF_HOST (mk_field 8 4) zeroed) =
    Some (0, mk_url 9 0 [mk_field 0 4; mk_field 8 4; mk_field 0 0; mk_field 7 5;
                         mk_field 0 0; mk_field 0 0; mk_field 0 0]).
Proof. split; vm_compute; reflexivity. Qed.
