(* ===== verification/HttpRun.v ===== *)
(** Running the parser through stretches of a message.

    [runs p bs p' ts] says that a good parser [p] reads all of [bs], ends up as
    [p'] and reports [ts].  It composes, so a message can be followed piece by
    piece; by the streaming theorem (HttpStream.v) what it says of the reference
    [feed] holds of http_parser_execute on any buffer. *)
From S2P Require Import Prelude HttpTypes HttpExec HttpInv HttpSafety HttpSim HttpStream.

Section Runs.
Context (skip : http_parser -> bool).

Record good (p : http_parser) : Prop := mk_good {
  good_inv : parser_inv 0 p;
  good_errno : hp_http_errno p = HPE_OK
}.

Definition runs (p : http_parser) (bs : list Z) (p' : http_parser) (ts : list token) : Prop :=
  good p -> feed skip p bs = (p', ts, zlen bs) /\ good p'.

Lemma runs_nil p : runs p [] p [].
Proof. by split. Qed.

Lemma runs_app p bs1 p1 ts1 bs2 p2 ts2 :
  runs p bs1 p1 ts1 -> runs p1 bs2 p2 ts2 -> runs p (bs1 ++ bs2) p2 (ts1 ++ ts2).
Proof.
  intros H1 H2 Hg. destruct (H1 Hg) as [F1 G1]. destruct (H2 G1) as [F2 G2].
  split; [|done]. destruct Hg, G1 as [? E1]. rewrite feed_app, F1, F2, zlen_app by done.
  by rewrite (proj2 (errno_ok_true p1) E1).
Qed.

Lemma runs_cons p b p1 ts1 bs p2 ts2 :
  runs p [b] p1 ts1 -> runs p1 bs p2 ts2 -> runs p (b :: bs) p2 (ts1 ++ ts2).
Proof. apply (runs_app p [b]). Qed.

(** A piece that reports nothing, before or after another. *)
Lemma runs_silent_app p bs1 p1 bs2 p2 ts :
  runs p bs1 p1 [] -> runs p1 bs2 p2 ts -> runs p (bs1 ++ bs2) p2 ts.
Proof. apply (runs_app p bs1 p1 []). Qed.

Lemma runs_app_silent p bs1 p1 bs2 p2 ts :
  runs p bs1 p1 ts -> runs p1 bs2 p2 [] -> runs p (bs1 ++ bs2) p2 ts.
Proof. intros H1 H2. rewrite <- (app_nil_r ts). by eapply runs_app. Qed.

(** * One byte *)

Definition count_byte (p : http_parser) : http_parser :=
  if PARSING_HEADER (hp_state p) then set_nread (hp_nread p + 1) p else p.

Definition switch_on (b : Z) (p : http_parser) : outcome (list token) :=
  exec_switch (recorder skip) [b] (initial_ctx p []) b.

Lemma exec_byte_counted p b :
  good p -> hp_nread (count_byte p) <= HTTP_MAX_HEADER_SIZE ->
  exec_byte (recorder skip) [b] (initial_ctx p []) =
  reexecute_byte (recorder skip) [b] REEXEC_FUEL (initial_ctx (count_byte p) []) b.
Proof.
  intros [Hp He] Hn. unfold exec_byte, count_header_byte, count_byte in *. simpl c_parser.
  destruct (PARSING_HEADER (hp_state p)) eqn:Hh; [|done]. simpl hp_nread in *.
  destruct Hp as [? ? Hnr ? ? ? ? ?]. unfold HTTP_MAX_HEADER_SIZE in *.
  unfold upd. simpl. rewrite u32_small by lia. simpl.
  rewrite (proj2 (Z.ltb_ge _ _)) by lia. done.
Qed.

Lemma runs_byte p b a :
  hp_nread (count_byte p) <= HTTP_MAX_HEADER_SIZE ->
  reexecute_byte (recorder skip) [b] REEXEC_FUEL (initial_ctx (count_byte p) []) b = Break a ->
  c_p a = 0 -> runs p [b] (c_parser a) (known [b] (next a)).
Proof.
  intros Hn Hs Ha Hg. pose proof (exec_byte_counted p b Hg Hn) as Heq.
  destruct Hg as [Hp He]. pose proof (execute_single skip p b Hp He) as Hx.
  rewrite Heq, Hs in Hx. destruct (Hx Ha) as (Hex & Hinv & Herr). split; [|done].
  cbn [feed]. rewrite Hex, (proj2 (errno_ok_true _) Herr). by rewrite app_nil_r.
Qed.

(** The switch falls through at once, or after one jump to reexecute_byte. *)
Lemma runs_break p b a p' ts :
  hp_nread (count_byte p) <= HTTP_MAX_HEADER_SIZE ->
  switch_on b (count_byte p) = Break a -> c_p a = 0 -> c_parser a = p' ->
  known [b] (next a) = ts -> runs p [b] p' ts.
Proof.
  intros Hn Hs Ha <- <-. apply runs_byte; try done. unfold REEXEC_FUEL. rewrite reexecute_S.
  unfold switch_on in Hs. by rewrite Hs.
Qed.

Lemma runs_again p b a1 a p' ts :
  hp_nread (count_byte p) <= HTTP_MAX_HEADER_SIZE ->
  switch_on b (count_byte p) = Goto_reexecute a1 ->
  exec_switch (recorder skip) [b] a1 b = Break a -> c_p a = 0 -> c_parser a = p' ->
  known [b] (next a) = ts -> runs p [b] p' ts.
Proof.
  intros Hn Hs Hs1 Ha <- <-. apply runs_byte; try done. unfold REEXEC_FUEL. rewrite reexecute_S.
  unfold switch_on in Hs. rewrite Hs, reexecute_S. by rewrite Hs1.
Qed.

(** * From the reference to http_parser_execute *)

Lemma runs_execute p bs p' ts u :
  runs p bs p' ts -> good p -> bs <> [] ->
  http_parser_execute (recorder skip) bs p u = Returned p' (u ++ ts) (zlen bs).
Proof.
  intros H Hg Hne. destruct (H Hg) as [Hf [_ He']]. destruct Hg as [Hp He].
  destruct (execute_feed skip p bs u Hp He Hne) as (q & v & t & m & Hx & Hf' & Hv).
  rewrite Hf in Hf'. simplify_eq. by rewrite Hx, (Hv He').
Qed.
End Runs.

(** * The parts of the parser a piece of a message leaves alone *)

(** What a message is described by. *)
Record message := mk_message {
  m_type : http_parser_type;
  m_flags : Z;
  m_length : Z;
  m_major : Z;
  m_minor : Z;
  m_status : Z;
  m_method : http_method;
  m_upgrade : bool
}.

(** The parser in state [s], with [n] header bytes counted. *)
Definition at_ (s : state) (hs : header_states) (ix n : Z) (m : message) : http_parser :=
  mk_parser (m_type m) (m_flags m) s hs ix n (m_length m) (m_major m) (m_minor m)
    (m_status m) (m_method m) HPE_OK (m_upgrade m).

Definition with_length (v : Z) (m : message) : message :=
  mk_message (m_type m) (m_flags m) v (m_major m) (m_minor m) (m_status m) (m_method m) (m_upgrade m).
Definition with_flags (v : Z) (m : message) : message :=
  mk_message (m_type m) v (m_length m) (m_major m) (m_minor m) (m_status m) (m_method m) (m_upgrade m).
Definition with_version (a b : Z) (m : message) : message :=
  mk_message (m_type m) (m_flags m) (m_length m) a b (m_status m) (m_method m) (m_upgrade m).
Definition with_method (v : http_method) (m : message) : message :=
  mk_message (m_type m) (m_flags m) (m_length m) (m_major m) (m_minor m) (m_status m) v (m_upgrade m).
Definition with_upgrade (v : bool) (m : message) : message :=
  mk_message (m_type m) (m_flags m) (m_length m) (m_major m) (m_minor m) (m_status m) (m_method m) v.

(** One byte whose case needs no hypothesis on it. *)
Ltac budget := unfold HTTP_MAX_HEADER_SIZE in *; simpl in *; lia.
Ltac run_fixed :=
  first [ eapply runs_break; [budget|reflexivity|reflexivity|reflexivity|reflexivity]
        | eapply runs_again; [budget|reflexivity|reflexivity|reflexivity|reflexivity|reflexivity] ].

(** One byte whose case [tac] decides. *)
Ltac by_switch tac :=
  eapply runs_break;
  [budget|unfold switch_on, exec_switch; simpl; tac; reflexivity|reflexivity|reflexivity|reflexivity].

(** ... on to state [s], which leaves the message as [m]. *)
Ltac hop s m :=
  match goal with |- runs _ (at_ _ ?hs ?ix ?n _) _ _ _ =>
    eapply (runs_cons _ _ _ (at_ s hs ix (n + 1) m) []); [run_fixed|] end.

(** The header bytes counted one by one. *)
Lemma runs_same skip s hs ix n n' m : n = n' -> runs skip (at_ s hs ix n m) [] (at_ s hs ix n' m) [].
Proof. intros <-. apply runs_nil. Qed.

Section Fixed.
Context (skip : http_parser -> bool).

(** The recorder's callbacks: each one only adds to the record. *)
Lemma ctx_eta (st : ctx (list token)) : upd (fun p => p) st = st.
Proof. by destruct st. Qed.

Lemma recorder_begin st :
  hp_http_errno (c_parser st) = HPE_OK ->
  notify_message_begin (recorder skip) st = Break (set_user (c_user st ++ [T_message_begin]) st).
Proof.
  intros He. unfold notify_message_begin, CALLBACK_NOTIFY, CALLBACK_NOTIFY_, assert_then, errno_ok.
  rewrite He. unfold after_cb, after_pause. simpl. rewrite He. by destruct st.
Qed.

Lemma recorder_complete st :
  hp_http_errno (c_parser st) = HPE_OK ->
  notify_message_complete (recorder skip) st =
    Break (set_user (c_user st ++ [T_message_complete (hp_method (c_parser st))]) st).
Proof.
  intros He. unfold notify_message_complete, CALLBACK_NOTIFY, CALLBACK_NOTIFY_, assert_then, errno_ok.
  rewrite He. unfold after_cb, after_pause. simpl. rewrite He. by destruct st.
Qed.

Lemma recorder_data d k e ER st :
  hp_http_errno (c_parser st) = HPE_OK ->
  CALLBACK_DATA_ (recorder skip) d k e ER st =
    Break match get_mark k st with
          | Some m => set_mark k None (set_user (c_user st ++ bytes_of k (slice d m e)) st)
          | None => st
          end.
Proof.
  intros He. unfold CALLBACK_DATA_, assert_then, errno_ok. rewrite He.
  destruct (get_mark k st) as [m|]; [|done].
  destruct k; unfold after_cb, after_pause; simpl; rewrite He; by destruct st.
Qed.

Lemma recorder_headers_complete st :
  hp_http_errno (c_parser st) = HPE_OK ->
  call_headers_complete (recorder skip) st =
    Break (upd (if skip (c_parser st) then or_flags F_SKIPBODY else fun p => p)
             (set_user (c_user st ++ [T_headers_complete (hp_method (c_parser st))]) st)).
Proof.
  intros He. unfold call_headers_complete, after_pause. simpl.
  destruct (skip (c_parser st)); by destruct st.
Qed.

(** The states of a request target from its first slash on: path, query, fragment. *)
Definition is_target (s : state) : bool :=
  match s with
  | s_req_path | s_req_query_string_start | s_req_query_string | s_req_fragment_start | s_req_fragment => true
  | _ => false
  end.

Lemma runs_http_version s hs ix n m :
  is_target s = true -> 0 <= n -> n + 11 <= HTTP_MAX_HEADER_SIZE ->
  runs skip (at_ s hs ix n m) (str " HTTP/1.1" ++ [CR; LF])
    (at_ s_header_field_start hs ix (n + 11) (with_version 1 1 m)) [].
Proof.
  intros Hs H0 Hn. simpl app.
  eapply (runs_cons _ _ _ (at_ s_req_http_start hs ix (n + 1) m) []); [destruct s; try discriminate Hs; run_fixed|]. hop s_req_http_H m. hop s_req_http_HT m. hop s_req_http_HTT m.
  hop s_req_http_HTTP m. hop s_req_first_http_major m.
  hop s_req_http_major (with_version 1 (m_minor m) m).
  hop s_req_first_http_minor (with_version 1 (m_minor m) m).
  hop s_req_http_minor (with_version 1 1 m). hop s_req_line_almost_done (with_version 1 1 m).
  hop s_header_field_start (with_version 1 1 m). apply runs_same. lia.
Qed.
End Fixed.
