(* ===== verification/HttpHeader.v ===== *)
(** Recognition of the header names that http_parser.c treats specially: the
    automaton of s_header_field follows a name character by character through
    header_state and index, and ends in a special state exactly for the names
    Connection, Proxy-Connection, Content-Length, Transfer-Encoding and Upgrade,
    in any mixture of cases. *)
From S2P Require Import Prelude HttpTypes HttpExec HttpInv HttpSwitch HttpSafety HttpSim HttpStream HttpRun.

(** * The specification *)

(** The state a complete name, in lower case, should lead to. *)
Definition name_class (l : list Z) : header_states :=
  if bool_decide (l = CONNECTION) || bool_decide (l = PROXY_CONNECTION) then h_connection
  else if bool_decide (l = CONTENT_LENGTH) then h_content_length
  else if bool_decide (l = TRANSFER_ENCODING) then h_transfer_encoding
  else if bool_decide (l = UPGRADE) then h_upgrade
  else h_general.

(** What s_header_value_start makes of a state: unfinished matches count as
    general. *)
Definition effective (hs : header_states) : header_states :=
  match hs with
  | h_connection | h_content_length | h_transfer_encoding | h_upgrade => hs
  | _ => h_general
  end.

Definition special_names : list (list Z) :=
  [CONNECTION; PROXY_CONNECTION; CONTENT_LENGTH; TRANSFER_ENCODING; UPGRADE].

(** * The automaton on header_state and index *)

Definition match_step (s : list Z) (cur final : header_states) (c ix : Z) : header_states * Z :=
  let ix := u8 (ix + 1) in
  if (sizeof_str s - 1 <? ix) || negb (c =? cstr_at s ix) then (h_general, ix)
  else if ix =? sizeof_str s - 2 then (final, ix)
  else (cur, ix).

Definition name_step (hi : header_states * Z) (c : Z) : header_states * Z :=
  let (hs, ix) := hi in
  match hs with
  | h_C => (if c =? chr "o" then h_CO else h_general, u8 (ix + 1))
  | h_CO => (if c =? chr "n" then h_CON else h_general, u8 (ix + 1))
  | h_CON => (if c =? chr "n" then h_matching_connection
              else if c =? chr "t" then h_matching_content_length else h_general, u8 (ix + 1))
  | h_matching_connection => match_step CONNECTION hs h_connection c ix
  | h_matching_proxy_connection => match_step PROXY_CONNECTION hs h_connection c ix
  | h_matching_content_length => match_step CONTENT_LENGTH hs h_content_length c ix
  | h_matching_transfer_encoding => match_step TRANSFER_ENCODING hs h_transfer_encoding c ix
  | h_matching_upgrade => match_step UPGRADE hs h_upgrade c ix
  | _ => (h_general, ix)
  end.

Definition name_track (l : list Z) : header_states * Z :=
  match l with
  | [] => (h_general, 0)
  | c :: l' => foldl name_step (first_header_state c, 0) l'
  end.

(** * The automaton against the specification *)

(** No special name starts with [l]. *)
Definition dead_name (l : list Z) : Prop := Forall (fun s => take (length l) s <> l) special_names.

(** [k] characters of the literal [s] were read, the last at index [k - 1]. *)
Definition partial (s : list Z) (lo : nat) (l : list Z) (ix : Z) : Prop :=
  exists k, (lo <= k < length s)%nat /\ l = take k s /\ ix = Z.of_nat k - 1.

Definition name_rel (l : list Z) (hi : header_states * Z) : Prop :=
  let (hs, ix) := hi in
  match hs with
  | h_general => dead_name l
  | h_C => l = str "c" /\ ix = 0
  | h_CO => l = str "co" /\ ix = 1
  | h_CON => l = str "con" /\ ix = 2
  | h_matching_connection => partial CONNECTION 4 l ix
  | h_matching_proxy_connection => partial PROXY_CONNECTION 1 l ix
  | h_matching_content_length => partial CONTENT_LENGTH 4 l ix
  | h_matching_transfer_encoding => partial TRANSFER_ENCODING 1 l ix
  | h_matching_upgrade => partial UPGRADE 1 l ix
  | h_connection => l = CONNECTION \/ l = PROXY_CONNECTION
  | h_content_length => l = CONTENT_LENGTH
  | h_transfer_encoding => l = TRANSFER_ENCODING
  | h_upgrade => l = UPGRADE
  | _ => False
  end.

Lemma dead_snoc l c : dead_name l -> dead_name (l ++ [c]).
Proof.
  unfold dead_name. intros H. apply (Forall_impl _ _ _ H). intros s Hs Heq. apply Hs.
  apply (f_equal (take (length l))) in Heq. rewrite take_take, length_app in Heq.
  replace (length l `min` (length l + length [c]))%nat with (length l) in Heq by lia.
  rewrite Heq. apply take_app_length.
Qed.

(** A concrete text followed by one unknown character. *)
Ltac concrete_name :=
  repeat first [apply Forall_cons_2 | apply Forall_nil_2]; simpl; intros ?; simplify_eq; try done.

Lemma partial_step s lo cur final l ix c :
  (1 <= lo)%nat -> (length s < 200)%nat -> partial s lo l ix ->
  match_step s cur final c ix =
    if c =? nth (length l) s 0 then
      (if decide (S (length l) = length s) then final else cur, Z.of_nat (length l))
    else (h_general, Z.of_nat (length l)).
Proof.
  intros Hlo Hs (k & Hk & -> & ->). rewrite length_take.
  replace (k `min` length s)%nat with k by lia. unfold match_step, sizeof_str, zlen.
  replace (Z.of_nat k - 1 + 1) with (Z.of_nat k) by lia. rewrite u8_small by lia.
  destruct (Z.ltb_spec (Z.of_nat (length s) + 1 - 1) (Z.of_nat k)); [lia|]. simpl.
  assert (cstr_at s (Z.of_nat k) = nth k s 0) as ->.
  { unfold cstr_at, zth. destruct (Z.ltb_spec (Z.of_nat k) 0); [lia|]. rewrite Nat2Z.id.
    apply app_nth1. lia. }
  destruct (c =? nth k s 0); simpl; [|done].
  destruct (Z.eqb_spec (Z.of_nat k) (Z.of_nat (length s) + 1 - 2)), (decide (S k = length s));
    (done || lia).
Qed.

(** One more character of a literal, or a mismatch with it. *)
Lemma partial_next s lo l ix :
  partial s lo l ix -> l ++ [nth (length l) s 0] = take (S (length l)) s.
Proof.
  intros (k & Hk & -> & _). rewrite length_take. replace (k `min` length s)%nat with k by lia.
  symmetry. apply take_S_r. destruct (nth_lookup_or_length s k 0) as [H|H]; [exact H|lia].
Qed.

Lemma partial_length s lo l ix :
  partial s lo l ix -> (lo <= length l < length s)%nat /\ l = take (length l) s.
Proof.
  intros (k & Hk & -> & _). rewrite length_take. by replace (k `min` length s)%nat with k by lia.
Qed.

Lemma partial_dead s lo l ix c :
  partial s lo l ix -> c <> nth (length l) s 0 ->
  Forall (fun s' => s' = s \/ take lo s' <> take lo s) special_names -> dead_name (l ++ [c]).
Proof.
  intros Hp Hc Hsep. destruct (partial_length _ _ _ _ Hp) as [Hk Hl].
  apply (Forall_impl _ _ _ Hsep). intros s' [->|Hne] Heq; rewrite length_app in Heq; simpl in Heq;
    rewrite Nat.add_1_r in Heq.
  - rewrite <- (partial_next _ _ _ _ Hp) in Heq. apply app_inv_head in Heq. by simplify_eq.
  - apply Hne. apply (f_equal (take lo)) in Heq. rewrite take_take, take_app_le in Heq by lia.
    replace (lo `min` S (length l))%nat with lo in Heq by lia.
    rewrite Heq, Hl, take_take. f_equal. lia.
Qed.

(** Following a literal keeps the relation. *)
Lemma literal_rel s lo cur final l ix c :
  (1 <= lo)%nat -> (length s < 200)%nat -> partial s lo l ix ->
  Forall (fun s' => s' = s \/ take lo s' <> take lo s) special_names ->
  (forall l' ix', partial s lo l' ix' -> name_rel l' (cur, ix')) ->
  (forall ix', name_rel s (final, ix')) ->
  name_rel (l ++ [c]) (match_step s cur final c ix).
Proof.
  intros Hlo Hs Hp Hsep Hcur Hfin. rewrite (partial_step _ lo _ _ l) by done.
  destruct (partial_length _ _ _ _ Hp) as [Hk Hl]. pose proof (partial_next _ _ _ _ Hp) as Hnext.
  destruct (Z.eqb_spec c (nth (length l) s 0)) as [->|Hc].
  - rewrite Hnext. destruct (decide _) as [E|E].
    + rewrite E, firstn_all. apply Hfin.
    + apply Hcur. exists (S (length l)). split_and!; (done || lia).
  - by eapply partial_dead.
Qed.

Ltac separate := repeat first [apply Forall_cons_2 | apply Forall_nil_2]; (by left) || (by right).

Ltac follow_literal :=
  eapply literal_rel;
  [|simpl; lia|eassumption|separate|by intros|intros; simpl; by auto]; lia.

Lemma name_step_rel l hi c : name_rel l hi -> name_rel (l ++ [c]) (name_step hi c).
Proof.
  destruct hi as [hs ix]. destruct hs; simpl; try done; intros H.
  - by apply dead_snoc.
  - destruct H as [-> ->]. destruct (Z.eqb_spec c (chr "o")) as [->|]; [done|]. by concrete_name.
  - destruct H as [-> ->]. destruct (Z.eqb_spec c (chr "n")) as [->|]; [done|]. by concrete_name.
  - destruct H as [-> ->]. destruct (Z.eqb_spec c (chr "n")) as [->|].
    { exists 4%nat. by split_and!; [simpl; lia|simpl; lia| |]. }
    destruct (Z.eqb_spec c (chr "t")) as [->|].
    { exists 4%nat. by split_and!; [simpl; lia|simpl; lia| |]. }
    by concrete_name.
  - follow_literal.
  - follow_literal.
  - follow_literal.
  - follow_literal.
  - follow_literal.
  - destruct H as [-> | ->]; by concrete_name.
  - subst. by concrete_name.
  - subst. by concrete_name.
  - subst. by concrete_name.
Qed.

Lemma name_track_rel c l : name_rel (c :: l) (name_track (c :: l)).
Proof.
  induction l as [|x l IH] using rev_ind.
  - unfold name_track, first_header_state. simpl.
    destruct (Z.eqb_spec c (chr "c")) as [->|]; [done|].
    destruct (Z.eqb_spec c (chr "p")) as [->|]; [exists 1%nat; by split_and!; [simpl; lia|simpl; lia| |]|].
    destruct (Z.eqb_spec c (chr "t")) as [->|]; [exists 1%nat; by split_and!; [simpl; lia|simpl; lia| |]|].
    destruct (Z.eqb_spec c (chr "u")) as [->|]; [exists 1%nat; by split_and!; [simpl; lia|simpl; lia| |]|].
    simpl. by concrete_name.
  - cbn [name_track] in *. rewrite foldl_app. simpl.
    rewrite (app_comm_cons l [x] c). by apply name_step_rel.
Qed.

Lemma name_class_cases l :
  (l <> CONNECTION /\ l <> PROXY_CONNECTION /\ l <> CONTENT_LENGTH /\ l <> TRANSFER_ENCODING /\
   l <> UPGRADE) -> name_class l = h_general.
Proof.
  intros (H1 & H2 & H3 & H4 & H5). unfold name_class.
  by rewrite !bool_decide_false by done.
Qed.

Lemma not_special l : Forall (fun s => l <> s) special_names -> name_class l = h_general.
Proof.
  intros H. apply name_class_cases. unfold special_names in H.
  rewrite !Forall_cons in H. tauto.
Qed.

Lemma partial_not_special s lo l ix :
  partial s lo l ix -> Forall (fun s' => s' = s \/ take lo s' <> take lo s) special_names ->
  name_class l = h_general.
Proof.
  intros Hp Hsep. destruct (partial_length _ _ _ _ Hp) as [Hk Hl]. apply not_special.
  apply (Forall_impl _ _ _ Hsep). intros s' [->|Hne] Heq; [subst; lia|].
  apply Hne. rewrite <- Heq, Hl, take_take. f_equal. lia.
Qed.

(** The automaton ends where the specification says. *)
Lemma name_track_class c l : effective (name_track (c :: l)).1 = name_class (c :: l).
Proof.
  pose proof (name_track_rel c l) as H. destruct (name_track (c :: l)) as [hs ix]. simpl.
  generalize dependent (c :: l). clear c l. intros l H.
  destruct hs; simpl in H |- *; try done; symmetry;
    try (by eapply partial_not_special; [eassumption|separate]);
    try (by subst); try (destruct H as [-> ?]; done).
  - apply not_special. apply (Forall_impl _ _ _ H). intros s Hs ->. apply Hs. apply firstn_all.
  - by destruct H as [-> | ->].
Qed.

(** * The parser on a header name *)

Section Name.
Context (skip : http_parser -> bool).

Definition is_token (b : Z) : bool := negb (TOKEN b =? 0).

(** A token character is none of the separators. *)
Lemma token_not_sep b :
  is_token b = true ->
  (b =? CR) = false /\ (b =? LF) = false /\ (b =? chr " ") = false /\ (b =? TAB) = false /\
  (b =? chr ":") = false.
Proof.
  unfold is_token, CR, LF, TAB. intros H.
  repeat match goal with |- context [b =? ?k] => destruct (Z.eqb_spec b k); [subst; done|] end. done.
Qed.

Lemma header_field_char_at b hs ix n m :
  field_state hs = true -> is_token b = true ->
  header_field_char b (TOKEN b) (at_ s_header_field hs ix n m) =
  Some (at_ s_header_field (name_step (hs, ix) (TOKEN b)).1
          (match hs with
           | h_general | h_connection | h_content_length | h_transfer_encoding | h_upgrade => ix
           | _ => (name_step (hs, ix) (TOKEN b)).2
           end) n m).
Proof.
  intros Hf Hb. destruct (token_not_sep b Hb) as (_ & _ & Hsp & _).
  unfold header_field_char.
  destruct hs; try discriminate Hf; simpl; rewrite ?Hsp; try reflexivity;
    clear Hsp Hb; unfold match_literal, match_step; simpl; destruct (_ || _); try reflexivity;
    destruct (_ =? _); reflexivity.
Qed.

Lemma name_step_index hs ix c :
  field_state hs = true ->
  match hs with
  | h_general | h_connection | h_content_length | h_transfer_encoding | h_upgrade => ix
  | _ => (name_step (hs, ix) c).2
  end = (name_step (hs, ix) c).2.
Proof. by destruct hs. Qed.

Lemma name_step_field hs ix c : field_state hs = true -> field_state (name_step (hs, ix) c).1 = true.
Proof.
  intros H. destruct hs; try done; simpl; unfold match_step; repeat case_match; done.
Qed.

Lemma runs_name_char hs ix n m b :
  0 <= n -> n + 1 <= HTTP_MAX_HEADER_SIZE -> is_token b = true -> field_state hs = true ->
  let hi := name_step (hs, ix) (TOKEN b) in
  runs skip (at_ s_header_field hs ix n m) [b] (at_ s_header_field hi.1 hi.2 (n + 1) m)
    [T_byte D_header_field b].
Proof.
  intros H0 Hn Hb Hf hi.
  eapply (runs_break _ _ _ (initial_ctx (at_ s_header_field hi.1 hi.2 (n + 1) m) []));
    [budget| |reflexivity|reflexivity|reflexivity].
  change (switch_on skip b ?p) with (exec_s_header_field (recorder skip) [b] (initial_ctx p []) b).
  unfold exec_s_header_field. unfold is_token in Hb. rewrite Hb.
  change (c_parser (initial_ctx ?p [])) with p.
  change (count_byte (at_ s_header_field hs ix n m)) with (at_ s_header_field hs ix (n + 1) m).
  rewrite header_field_char_at by done. rewrite name_step_index by done. reflexivity.
Qed.

Lemma runs_name_rest l hs ix n m :
  0 <= n -> n + zlen l <= HTTP_MAX_HEADER_SIZE -> forallb is_token l = true -> field_state hs = true ->
  let hi := foldl name_step (hs, ix) (map TOKEN l) in
  runs skip (at_ s_header_field hs ix n m) l (at_ s_header_field hi.1 hi.2 (n + zlen l) m)
    (bytes_of D_header_field l) /\ field_state hi.1 = true.
Proof.
  revert hs ix n. induction l as [|b l IH]; intros hs ix n H0 Hn Hall Hf; cbn [map foldl].
  { change (zlen []) with 0. rewrite Z.add_0_r. split; [apply runs_nil|done]. }
  simpl in Hall. apply andb_true_iff in Hall as [Hb Hall]. rewrite zlen_cons in *.
  pose proof (zlen_nonneg l). rewrite Z.add_assoc.
  pose proof (name_step_field hs ix (TOKEN b) Hf) as Hf'.
  destruct (name_step (hs, ix) (TOKEN b)) as [hs' ix'] eqn:Hst.
  destruct (IH hs' ix' (n + 1) ltac:(lia) ltac:(lia) Hall Hf') as [Hr Hfin]. split; [|done].
  apply (runs_cons _ _ _ (at_ s_header_field hs' ix' (n + 1) m) [T_byte D_header_field b]); [|done].
  pose proof (runs_name_char hs ix n m b H0 ltac:(lia) Hb Hf) as Hc. by rewrite Hst in Hc.
Qed.

(** The states in which a header line starts. *)
Definition line_start (s : state) : Prop := s = s_header_field_start \/ s = s_header_value_lws.

Lemma first_header_state_field c : field_state (first_header_state c) = true.
Proof. unfold first_header_state. repeat case_match; done. Qed.

Lemma field_start_at b p :
  is_token b = true ->
  exec_s_header_field_start (initial_ctx p ([] : list token)) b =
  Break (upd (fun p => set_header_state (first_header_state (TOKEN b))
                         (set_state s_header_field (set_index 0 p)))
           (MARK D_header_field (initial_ctx p []))).
Proof.
  intros Hb. destruct (token_not_sep b Hb) as (H1 & H2 & _). unfold exec_s_header_field_start.
  rewrite H1, H2. unfold is_token in Hb. apply negb_true_iff in Hb. by rewrite Hb.
Qed.

Lemma runs_name_first s hs ix n m b :
  line_start s -> 0 <= n -> n + 1 <= HTTP_MAX_HEADER_SIZE -> is_token b = true ->
  runs skip (at_ s hs ix n m) [b]
    (at_ s_header_field (first_header_state (TOKEN b)) 0 (n + 1) m) [T_byte D_header_field b].
Proof.
  intros [-> | ->] H0 Hn Hb.
  - eapply runs_break; [budget| | | |].
    + change (switch_on skip b ?p) with (exec_s_header_field_start (initial_ctx p ([] : list token)) b).
      rewrite field_start_at by done. reflexivity.
    + reflexivity.
    + reflexivity.
    + reflexivity.
  - destruct (token_not_sep b Hb) as (_ & _ & H3 & H4 & _).
    eapply runs_again; [budget| | | | |].
    + change (switch_on skip b ?p) with (exec_s_header_value_lws (initial_ctx p ([] : list token)) b).
      unfold exec_s_header_value_lws. rewrite H3, H4. reflexivity.
    + change (exec_switch (recorder skip) [b] (upd (set_state s_header_field_start) (initial_ctx ?p [])) b)
        with (exec_s_header_field_start
                (initial_ctx (set_state s_header_field_start p) ([] : list token)) b).
      rewrite field_start_at by done. reflexivity.
    + reflexivity.
    + reflexivity.
    + reflexivity.
Qed.

(** A whole name and its colon. *)
Lemma runs_name s hs ix n m name :
  line_start s -> name <> [] -> forallb is_token name = true ->
  0 <= n -> n + zlen name + 1 <= HTTP_MAX_HEADER_SIZE ->
  let hi := name_track (map TOKEN name) in
  runs skip (at_ s hs ix n m) (name ++ [chr ":"])
    (at_ s_header_value_start hi.1 hi.2 (n + zlen name + 1) m) (bytes_of D_header_field name) /\
  effective hi.1 = name_class (map TOKEN name).
Proof.
  intros Hs Hne Hall H0 Hn hi. destruct name as [|b l]; [done|].
  simpl in Hall. apply andb_true_iff in Hall as [Hb Hall]. rewrite zlen_cons in *.
  pose proof (zlen_nonneg l). split; [|apply name_track_class].
  destruct (runs_name_rest l (first_header_state (TOKEN b)) 0 (n + 1) m) as [Hr _];
    [lia|lia|done|apply first_header_state_field|].
  rewrite <- (app_nil_r (bytes_of D_header_field (b :: l))).
  eapply runs_app; [eapply (runs_cons _ _ _ _ [T_byte D_header_field b]); [by apply runs_name_first; (done || lia)|exact Hr]|].
  eapply runs_break; [budget|reflexivity|reflexivity| |reflexivity].
  unfold hi, at_. simpl. rewrite Z.add_assoc. reflexivity.
Qed.
End Name.
