(* ===== verification/HttpMsg.v ===== *)
(** src/http-parser, the pieces of a message as runs of the parser: the method, the
    URL and version of the request line, header lines with ordinary names, the
    digits of Content-Length, the end of the headers and the body. *)
From S2P Require Import Prelude HttpTypes HttpExec HttpInv HttpSwitch HttpSafety HttpSim HttpStream HttpRun HttpHeader.

Section Pieces.
Context (skip : http_parser -> bool).

(** * The request line *)

(** The guesses of s_req_method, on the method and the index alone. *)
Definition method_step (mi : http_method * Z) (ch : Z) : option (http_method * Z) :=
  let (me, ix) := mi in
  if ch =? cstr_at (matcher_of me) ix then Some (me, u8 (ix + 1))
  else match switch_method me ix ch with
       | inl me' => Some (me', u8 (ix + 1))
       | inr _ => None
       end.

Fixpoint method_walk (mi : http_method * Z) (l : list Z) : option (http_method * Z) :=
  match l with
  | [] => Some mi
  | c :: l' => match method_step mi c with Some mi' => method_walk mi' l' | None => None end
  end.

Lemma runs_method_byte hs ix n m me ix' ch :
  0 <= n -> n + 1 <= HTTP_MAX_HEADER_SIZE -> ch <> 0 -> ch <> chr " " ->
  method_step (m_method m, ix) ch = Some (me, ix') ->
  runs skip (at_ s_req_method hs ix n m) [ch] (at_ s_req_method hs ix' (n + 1) (with_method me m)) [].
Proof.
  intros H0 Hn Hz Hsp Hs. unfold method_step in Hs.
  assert (exists st, switch_on skip ch (count_byte (at_ s_req_method hs ix n m)) = Break st /\
    c_p st = 0 /\ c_parser st = at_ s_req_method hs ix' (n + 1) (with_method me m) /\
    known [ch] (next st) = []) as (st & H1 & H2 & H3 & H4).
  { unfold switch_on, exec_switch. simpl. unfold exec_s_req_method. simpl.
    rewrite (proj2 (Z.eqb_neq ch 0)), (proj2 (Z.eqb_neq ch (chr " "))) by done. simpl.
    destruct (ch =? cstr_at (matcher_of (m_method m)) ix); simplify_eq.
    - eexists; split_and!; reflexivity.
    - destruct (switch_method (m_method m) ix ch); simplify_eq. eexists; split_and!; reflexivity. }
  eapply runs_break; eassumption.
Qed.

Lemma runs_method_walk l hs ix n m me ix' :
  0 <= n -> n + zlen l <= HTTP_MAX_HEADER_SIZE ->
  Forall (fun c => c <> 0 /\ c <> chr " ") l ->
  method_walk (m_method m, ix) l = Some (me, ix') ->
  runs skip (at_ s_req_method hs ix n m) l (at_ s_req_method hs ix' (n + zlen l) (with_method me m)) [].
Proof.
  revert ix n m. induction l as [|c l IH]; intros ix n m H0 Hn Hall Hw.
  { simpl in Hw. simplify_eq. change (zlen []) with 0. rewrite Z.add_0_r. destruct m. apply runs_nil. }
  apply Forall_cons in Hall as [[Hc Hc'] Hall]. rewrite zlen_cons in *. pose proof (zlen_nonneg l).
  cbn [method_walk] in Hw. destruct (method_step (m_method m, ix) c) as [[me1 ix1]|] eqn:Hs; [|done].
  eapply (runs_cons _ _ _ _ []); [eapply runs_method_byte; try done; lia|].
  rewrite Z.add_assoc. apply (IH ix1 (n + 1) (with_method me1 m)); try done; lia.
Qed.

(** The message as the first letter of a request leaves it. *)
Definition new_request (me : http_method) (m : message) : message :=
  with_method me (with_length ULLONG_MAX (with_flags 0 m)).

Lemma start_req_letter {U : Type} (settings : http_parser_settings U) st ch me :
  (ch =? CR) || (ch =? LF) = false -> IS_ALPHA ch = true -> first_method ch = Some me ->
  exec_s_start_req settings st ch =
  notify_message_begin settings
    (upd (fun p => set_state s_req_method (set_method me p))
       (upd (fun p => set_index 1 (set_method HTTP_DELETE p)) (upd reset_message st))).
Proof. intros Hc Ha Hm. unfold exec_s_start_req. rewrite Hc, Ha, Hm. reflexivity. Qed.

Lemma runs_first_letter hs ix n m ch me :
  0 <= n -> n + 1 <= HTTP_MAX_HEADER_SIZE ->
  first_method ch = Some me -> IS_ALPHA ch = true -> (ch =? CR) || (ch =? LF) = false ->
  runs skip (at_ s_start_req hs ix n m) [ch] (at_ s_req_method hs 1 (n + 1) (new_request me m))
    [T_message_begin].
Proof.
  intros H0 Hn Hm Ha Hc. eapply runs_break; [budget| | | |].
  1: { change (switch_on skip ch ?p) with (exec_s_start_req (recorder skip) (initial_ctx p []) ch).
    rewrite (start_req_letter _ _ _ _ Hc Ha Hm), recorder_begin by done. reflexivity. }
  all: reflexivity.
Qed.

(** The walk through each method string, from the guess of its first letter. *)
Definition method_found (me : http_method) : bool :=
  match matcher_of me with
  | [] => false
  | c :: l =>
      IS_ALPHA c && negb ((c =? CR) || (c =? LF)) &&
      forallb (fun x => negb (x =? 0) && negb (x =? chr " ")) l &&
      match first_method c with
      | None => false
      | Some me0 =>
          bool_decide (method_walk (me0, 1) l = Some (me, zlen (matcher_of me)))
      end
  end.

Lemma all_methods_found me : method_found me = true.
Proof. destruct me; vm_compute; reflexivity. Qed.

Lemma matcher_end me : cstr_at (matcher_of me) (zlen (matcher_of me)) = 0.
Proof. destruct me; vm_compute; reflexivity. Qed.

Lemma runs_method hs ix n m me :
  0 <= n -> n + zlen (matcher_of me) + 1 <= HTTP_MAX_HEADER_SIZE ->
  runs skip (at_ s_start_req hs ix n m) (matcher_of me ++ [chr " "])
    (at_ s_req_spaces_before_url hs (zlen (matcher_of me) + 1) (n + zlen (matcher_of me) + 1)
       (new_request me m)) [T_message_begin].
Proof.
  intros H0 Hn. pose proof (all_methods_found me) as Hf. unfold method_found in Hf.
  pose proof (matcher_end me) as Hend.
  assert (0 <= zlen (matcher_of me) <= 11) as Hlen by (destruct me; vm_compute; split; discriminate).
  destruct (matcher_of me) as [|c l] eqn:Hm; [done|]. rewrite !andb_true_iff in Hf.
  destruct Hf as [[[Ha Hc] Hl] Hw]. apply negb_true_iff in Hc. apply forallb_Forall_true in Hl.
  destruct (first_method c) as [me0|] eqn:Hfm; [|done]. apply bool_decide_eq_true in Hw.
  rewrite zlen_cons in *. pose proof (zlen_nonneg l).
  eapply (runs_app _ _ (c :: l) _ [T_message_begin] _ _ []).
  - eapply (runs_cons _ _ _ _ [T_message_begin] _ _ []); [eapply runs_first_letter; try done; lia|].
    eapply (runs_method_walk l hs 1 (n + 1) (new_request me0 m)); try done; try lia.
    apply (Forall_impl _ _ _ Hl). intros x Hx. zbool. done.
  - replace (n + (1 + zlen l) + 1) with (n + 1 + zlen l + 1) by lia.
    eapply runs_break; [budget| | | |].
    + unfold switch_on, exec_switch. simpl. unfold exec_s_req_method. simpl.
      rewrite Hm, Hend. reflexivity.
    + reflexivity.
    + simpl. rewrite u8_small by lia. unfold at_. simpl. unfold_setters. f_equal; lia.
    + reflexivity.
Qed.

(** A path and what follows it up to the space. *)
Lemma runs_target_char s hs ix n m b :
  is_target s = true -> is_target (parse_url_char s b) = true ->
  0 <= n -> n + 1 <= HTTP_MAX_HEADER_SIZE ->
  runs skip (at_ s hs ix n m) [b] (at_ (parse_url_char s b) hs ix (n + 1) m) [T_byte D_url b].
Proof.
  intros Hs Hb H0 Hn.
  assert ((b =? chr " ") = false /\ (b =? CR) || (b =? LF) = false) as [Hsp Hcl].
  { unfold parse_url_char in Hb. split; [by destruct (b =? chr " ")|]. by destruct (b =? chr " "), (b =? CR), (b =? LF). }
  eapply (runs_break _ _ _ (initial_ctx (at_ (parse_url_char s b) hs ix (n + 1) m) []));
    [destruct s; try discriminate Hs; budget| |destruct (parse_url_char s b); try discriminate Hb; reflexivity..].
  assert (Hd : parse_url_char s b <> s_dead) by (intros E; by rewrite E in Hb).
  destruct s; try discriminate Hs; unfold switch_on, exec_switch; simpl; unfold exec_url_rest; rewrite Hsp, Hcl;
    unfold advance_url, upd; simpl; destruct (parse_url_char _ b); try discriminate Hb; reflexivity.
Qed.

Lemma runs_each s hs ix m (f : Z -> bool) (k : data_kind) l :
  (forall n b, 0 <= n -> n + 1 <= HTTP_MAX_HEADER_SIZE -> f b = true ->
     runs skip (at_ s hs ix n m) [b] (at_ s hs ix (n + 1) m) [T_byte k b]) ->
  forall n, 0 <= n -> n + zlen l <= HTTP_MAX_HEADER_SIZE -> forallb f l = true ->
  runs skip (at_ s hs ix n m) l (at_ s hs ix (n + zlen l) m) (bytes_of k l).
Proof.
  intros Hstep. induction l as [|b l IH]; intros n H0 Hn Hall.
  { change (zlen []) with 0. rewrite Z.add_0_r. apply runs_nil. }
  simpl in Hall. apply andb_true_iff in Hall as [Hb Hall]. rewrite zlen_cons in *.
  pose proof (zlen_nonneg l). rewrite Z.add_assoc.
  apply (runs_cons _ _ _ (at_ s hs ix (n + 1) m) [T_byte k b]); [apply Hstep; (done || lia)|apply IH; (done || lia)].
Qed.

(** A request target that starts with a slash: a path, and possibly a query and a
    fragment, of the characters that the parser takes. *)
Definition path_ok (path : list Z) : bool :=
  match path with c :: l => (c =? chr "/") && is_target (foldl parse_url_char s_req_path l) | [] => false end.

Lemma parse_url_dead l : is_target (foldl parse_url_char s_dead l) = false.
Proof.
  induction l as [|b l IH]; [done|]. cbn [foldl]. replace (parse_url_char s_dead b) with s_dead; [done|].
  unfold parse_url_char. by repeat case_match.
Qed.

Lemma parse_url_target s b : is_target s = true -> is_target (parse_url_char s b) = true \/ parse_url_char s b = s_dead.
Proof.
  intros Hs. unfold parse_url_char. destruct (_ || _); [by right|]. destruct (_ || _); [by right|].
  destruct s; try discriminate Hs; repeat case_match; auto.
Qed.

Lemma runs_target s hs ix n m l :
  is_target s = true -> is_target (foldl parse_url_char s l) = true -> 0 <= n -> n + zlen l <= HTTP_MAX_HEADER_SIZE ->
  runs skip (at_ s hs ix n m) l (at_ (foldl parse_url_char s l) hs ix (n + zlen l) m) (bytes_of D_url l).
Proof.
  revert s n. induction l as [|b l IH]; intros s n Hs Hl H0 Hn.
  { change (zlen []) with 0. rewrite Z.add_0_r. apply runs_nil. }
  rewrite zlen_cons in *. pose proof (zlen_nonneg l). rewrite Z.add_assoc. cbn [foldl] in *.
  assert (Hb : is_target (parse_url_char s b) = true).
  { destruct (parse_url_target s b Hs) as [?|Hd]; [done|]. by rewrite Hd, parse_url_dead in Hl. }
  apply (runs_cons _ _ _ (at_ (parse_url_char s b) hs ix (n + 1) m) [T_byte D_url b]);
    [apply runs_target_char; (done || lia)|apply IH; (done || lia)].
Qed.

Lemma runs_url hs ix n m path :
  0 <= n -> n + zlen path <= HTTP_MAX_HEADER_SIZE -> path_ok path = true ->
  m_method m <> HTTP_CONNECT ->
  exists s, is_target s = true /\
  runs skip (at_ s_req_spaces_before_url hs ix n m) path
    (at_ s hs ix (n + zlen path) m) (bytes_of D_url path).
Proof.
  intros H0 Hn Hp Hc. destruct path as [|c l]; [done|]. simpl in Hp.
  apply andb_true_iff in Hp as [->%Z.eqb_eq Hl]. rewrite zlen_cons in *. pose proof (zlen_nonneg l).
  eexists. split; [exact Hl|].
  rewrite Z.add_assoc. apply (runs_cons _ _ _ (at_ s_req_path hs ix (n + 1) m) [T_byte D_url 47]).
  - by_switch ltac:(unfold exec_s_req_spaces_before_url; simpl; rewrite decide_False by done).
  - apply runs_target; (done || lia).
Qed.

(** * Header lines *)

(** A character that may stand in a header value. *)
Definition value_char (b : Z) : bool := negb (b =? CR) && negb (b =? LF).

(** A value: no line end inside, no white space in front. *)
Definition value_ok (v : list Z) : bool :=
  match v with
  | b :: _ => negb (b =? chr " ") && negb (b =? TAB) && forallb value_char v
  | [] => false
  end.

Lemma runs_value_space hs ix n m :
  0 <= n -> n + 1 <= HTTP_MAX_HEADER_SIZE ->
  runs skip (at_ s_header_value_start hs ix n m) [chr " "] (at_ s_header_value_start hs ix (n + 1) m) [].
Proof. intros H0 Hn. run_fixed. Qed.

(** The first character of a value, when the switch on header_state makes [p']
    of the parser. *)
Lemma runs_value_first hs ix n m b hs' m' :
  0 <= n -> n + 1 <= HTTP_MAX_HEADER_SIZE -> value_ok [b] = true ->
  header_value_first b (at_ s_header_value hs 0 (n + 1) m) = Some (at_ s_header_value hs' 0 (n + 1) m') ->
  runs skip (at_ s_header_value_start hs ix n m) [b] (at_ s_header_value hs' 0 (n + 1) m')
    [T_byte D_header_value b].
Proof.
  intros H0 Hn Hv Hf. unfold value_ok, value_char in Hv. simpl in Hv. rewrite !andb_true_iff in Hv.
  destruct Hv as [[Hsp Htab] [[Hcr Hlf] _]]. apply negb_true_iff in Hsp, Htab, Hcr, Hlf.
  eapply runs_break; [budget| | | |].
  - change (switch_on skip b ?p)
      with (exec_s_header_value_start (recorder skip) [b] (initial_ctx p []) b).
    unfold exec_s_header_value_start. rewrite Hsp, Htab, Hcr, Hlf. cbn [orb].
    change (c_parser (upd (fun p => set_index 0 (set_state s_header_value p))
      (MARK D_header_value (initial_ctx (count_byte (at_ s_header_value_start hs ix n m)) []))))
      with (at_ s_header_value hs 0 (n + 1) m).
    rewrite Hf. reflexivity.
  - reflexivity.
  - reflexivity.
  - reflexivity.
Qed.

Lemma runs_value_char hs ix n m b hs' ix' m' :
  0 <= n -> n + 1 <= HTTP_MAX_HEADER_SIZE -> value_char b = true ->
  header_value_char b (at_ s_header_value hs ix (n + 1) m) =
    Value_ok (at_ s_header_value hs' ix' (n + 1) m') ->
  runs skip (at_ s_header_value hs ix n m) [b] (at_ s_header_value hs' ix' (n + 1) m')
    [T_byte D_header_value b].
Proof.
  intros H0 Hn Hv Hf. unfold value_char in Hv. apply andb_true_iff in Hv as [Hcr Hlf].
  apply negb_true_iff in Hcr, Hlf. eapply runs_break; [budget| | | |].
  - change (switch_on skip b ?p)
      with (exec_s_header_value (recorder skip) [b] (initial_ctx p []) b).
    unfold exec_s_header_value. rewrite Hcr, Hlf.
    change (c_parser (initial_ctx ?p [])) with p.
    change (count_byte (at_ s_header_value hs ix n m)) with (at_ s_header_value hs ix (n + 1) m).
    rewrite Hf. reflexivity.
  - reflexivity.
  - reflexivity.
  - reflexivity.
Qed.

(** The flag a finished value sets. *)
Definition value_flag (hs : header_states) : Z :=
  match hs with
  | h_connection_keep_alive => F_CONNECTION_KEEP_ALIVE
  | h_connection_close => F_CONNECTION_CLOSE
  | h_transfer_encoding_chunked => F_CHUNKED
  | _ => 0
  end.

Lemma runs_value_end hs ix n m :
  0 <= n -> n + 2 <= HTTP_MAX_HEADER_SIZE ->
  runs skip (at_ s_header_value hs ix n m) [CR; LF]
    (at_ s_header_value_lws hs ix (n + 2) (with_flags (Z.lor (m_flags m) (value_flag hs)) m)) [].
Proof.
  intros H0 Hn. hop s_header_almost_done m.
  eapply (runs_cons _ _ _
    (at_ s_header_value_lws hs ix (n + 1 + 1) (with_flags (Z.lor (m_flags m) (value_flag hs)) m)) []).
  - eapply runs_break; [budget|reflexivity|reflexivity| |reflexivity].
    destruct m, hs; simpl; rewrite ?Z.lor_0_r; reflexivity.
  - apply runs_same. lia.
Qed.

(** ** A header without special meaning *)

Lemma value_first_general hs b n m :
  effective hs = h_general ->
  header_value_first b (at_ s_header_value hs 0 n m) = Some (at_ s_header_value h_general 0 n m).
Proof. intros H. destruct hs; try discriminate H; reflexivity. Qed.

Definition header_line (h : list Z * list Z) : list Z :=
  h.1 ++ [chr ":"] ++ [chr " "] ++ h.2 ++ [CR; LF].

Definition header_events (h : list Z * list Z) : list token :=
  bytes_of D_header_field h.1 ++ bytes_of D_header_value h.2.

(** A header line the parser passes on without looking at its value. *)
Definition plain_header (h : list Z * list Z) : bool :=
  negb (bool_decide (h.1 = [])) && forallb is_token h.1 &&
  bool_decide (name_class (map TOKEN h.1) = h_general) && value_ok h.2.

Lemma runs_value_general hs ix n m v :
  effective hs = h_general -> value_ok v = true -> 0 <= n -> n + zlen v <= HTTP_MAX_HEADER_SIZE ->
  runs skip (at_ s_header_value_start hs ix n m) v (at_ s_header_value h_general 0 (n + zlen v) m)
    (bytes_of D_header_value v).
Proof.
  intros He Hv H0 Hn. destruct v as [|b l]; [done|]. unfold value_ok in Hv.
  rewrite !andb_true_iff in Hv. destruct Hv as [[Hsp Htab] Hall]. cbn [forallb] in Hall.
  apply andb_true_iff in Hall as [Hb Hall]. rewrite zlen_cons in *. pose proof (zlen_nonneg l).
  rewrite Z.add_assoc.
  apply (runs_cons _ _ _ (at_ s_header_value h_general 0 (n + 1) m) [T_byte D_header_value b]).
  - apply (runs_value_first _ _ _ _ _ _ m); try lia; [|by apply value_first_general].
    unfold value_ok. simpl. by rewrite Hsp, Htab, Hb.
  - apply (runs_each s_header_value h_general 0 m value_char); try done; try lia.
    intros k c Hk Hk' Hc. by apply runs_value_char.
Qed.

Lemma header_line_len h : zlen (header_line h) = zlen h.1 + zlen h.2 + 4.
Proof. unfold header_line. rewrite !zlen_app. unfold zlen. simpl. lia. Qed.

Lemma runs_plain_header s hs ix n m h :
  line_start s -> plain_header h = true -> 0 <= n -> n + zlen (header_line h) <= HTTP_MAX_HEADER_SIZE ->
  runs skip (at_ s hs ix n m) (header_line h)
    (at_ s_header_value_lws h_general 0 (n + zlen (header_line h)) m) (header_events h).
Proof.
  intros Hs Hp H0 Hn. rewrite header_line_len in *. unfold plain_header in Hp.
  rewrite !andb_true_iff in Hp. destruct Hp as [[[Hne Htok] Hcl] Hv].
  apply negb_true_iff, bool_decide_eq_false in Hne. apply bool_decide_eq_true in Hcl.
  pose proof (zlen_nonneg h.1). pose proof (zlen_nonneg h.2).
  destruct (runs_name skip s hs ix n m h.1) as [Hname Heff]; try done; try lia.
  rewrite Hcl in Heff. unfold header_line, header_events. rewrite app_assoc.
  apply (runs_app _ _ _ _ _ _ _ _ Hname).
  eapply runs_silent_app; [by apply runs_value_space; lia|].
  eapply runs_app_silent; [apply runs_value_general; (done || lia)|].
  replace (n + (zlen h.1 + zlen h.2 + 4)) with (n + zlen h.1 + 1 + 1 + zlen h.2 + 2) by lia.
  pose proof (runs_value_end h_general 0 (n + zlen h.1 + 1 + 1 + zlen h.2) m) as Hend.
  simpl value_flag in Hend. rewrite Z.lor_0_r in Hend. destruct m. apply Hend; lia.
Qed.

Lemma runs_plain_headers s hs ix n m l :
  line_start s -> forallb plain_header l = true -> 0 <= n ->
  n + zlen (concat (map header_line l)) <= HTTP_MAX_HEADER_SIZE ->
  exists s' hs' ix', line_start s' /\
  runs skip (at_ s hs ix n m) (concat (map header_line l))
    (at_ s' hs' ix' (n + zlen (concat (map header_line l))) m) (concat (map header_events l)).
Proof.
  revert s hs ix n. induction l as [|h l IH]; intros s hs ix n Hs Hall H0 Hn; simpl.
  { exists s, hs, ix. split; [done|]. change (zlen []) with 0. rewrite Z.add_0_r. apply runs_nil. }
  simpl in Hall. apply andb_true_iff in Hall as [Hh Hall]. simpl in Hn. rewrite zlen_app in *.
  pose proof (zlen_nonneg (header_line h)). pose proof (zlen_nonneg (concat (map header_line l))).
  destruct (IH s_header_value_lws h_general 0 (n + zlen (header_line h)))
    as (s' & hs' & ix' & Hs' & Hr); [by right|done|lia|lia|].
  exists s', hs', ix'. split; [done|]. rewrite Z.add_assoc.
  eapply runs_app; [apply runs_plain_header; (done || lia)|done].
Qed.

(** ** Content-Length *)

(** The decimal digits accumulate to their value as long as it fits. *)
Lemma accumulate_exact v d :
  0 <= v -> 0 <= d -> v * 10 + d < ULLONG_MAX -> accumulate 10 v d = Some (v * 10 + d).
Proof.
  unfold accumulate, ULLONG_MAX. intros Hv Hd Hlt. rewrite (u64_small (v * 10)) by lia.
  rewrite u64_small by lia.
  destruct (Z.ltb_spec (v * 10 + d) v); [lia|]. by rewrite (proj2 (Z.eqb_neq _ _)) by lia.
Qed.

Lemma digits_value_mono l acc : 0 <= acc -> forallb IS_NUM l = true -> acc <= digits_value acc l.
Proof.
  revert acc. induction l as [|c l IH]; intros acc Ha Hall; simpl; [done|].
  simpl in Hall. apply andb_true_iff in Hall as [Hc Hall]. rewrite Hc.
  pose proof (IS_NUM_digit c Hc). specialize (IH (acc * 10 + (c - 48)) ltac:(lia) Hall). lia.
Qed.

Lemma num_value_char c : IS_NUM c = true -> value_char c = true /\ (c =? chr " ") = false.
Proof. unfold IS_NUM, value_char, CR, LF. intros H. zbool. split; lia. Qed.

Lemma runs_length_digits l n m acc :
  0 <= n -> n + zlen l <= HTTP_MAX_HEADER_SIZE -> forallb IS_NUM l = true ->
  m_length m = acc -> 0 <= acc -> digits_value acc l < ULLONG_MAX ->
  runs skip (at_ s_header_value h_content_length 0 n m) l
    (at_ s_header_value h_content_length 0 (n + zlen l) (with_length (digits_value acc l) m))
    (bytes_of D_header_value l).
Proof.
  revert n m acc. induction l as [|c l IH]; intros n m acc H0 Hn Hall Hm Ha Hlt.
  { change (zlen []) with 0. rewrite Z.add_0_r. simpl. subst acc. destruct m. apply runs_nil. }
  simpl in Hall. apply andb_true_iff in Hall as [Hc Hall]. rewrite zlen_cons in *.
  pose proof (zlen_nonneg l). simpl in Hlt. rewrite Hc in Hlt. simpl digits_value. rewrite Hc.
  pose proof (IS_NUM_digit c Hc) as Hd. destruct (num_value_char c Hc) as [Hvc Hsp].
  pose proof (digits_value_mono l (acc * 10 + (c - 48)) ltac:(lia) Hall).
  rewrite Z.add_assoc. eapply (runs_cons _ _ _ _ [T_byte D_header_value c]).
  - apply (runs_value_char _ _ _ _ _ h_content_length 0 (with_length (acc * 10 + (c - 48)) m));
      try done; try lia.
    unfold header_value_char. simpl. rewrite Hsp, Hc, Hm, accumulate_exact by lia. reflexivity.
  - apply (IH (n + 1) (with_length (acc * 10 + (c - 48)) m)); try done; lia.
Qed.

Lemma runs_content_length s hs ix n m name ds :
  line_start s -> map TOKEN name = CONTENT_LENGTH -> forallb is_token name = true ->
  ds <> [] -> forallb IS_NUM ds = true -> digits_value 0 ds < ULLONG_MAX ->
  0 <= n -> n + zlen (header_line (name, ds)) <= HTTP_MAX_HEADER_SIZE ->
  runs skip (at_ s hs ix n m) (header_line (name, ds))
    (at_ s_header_value_lws h_content_length 0 (n + zlen (header_line (name, ds)))
       (with_length (digits_value 0 ds) m)) (header_events (name, ds)).
Proof.
  intros Hs Hname Htok Hds Hnum Hlt H0 Hn. rewrite header_line_len in *.
  unfold header_line, header_events. cbn [fst snd] in *. rewrite app_assoc.
  pose proof (zlen_nonneg name). pose proof (zlen_nonneg ds).
  destruct (runs_name skip s hs ix n m name) as [Hn1 Heff]; try done; try lia.
  { by intros ->. }
  apply (runs_app _ _ _ _ _ _ _ _ Hn1). rewrite Hname in Heff |- *.
  change (name_track CONTENT_LENGTH) with (h_content_length, 13). cbn [fst snd].
  eapply runs_silent_app; [by apply runs_value_space; lia|].
  destruct ds as [|d ds]; [done|]. simpl in Hnum. apply andb_true_iff in Hnum as [Hd Hnum].
  rewrite zlen_cons in *. pose proof (zlen_nonneg ds). pose proof (IS_NUM_digit d Hd) as Hdr.
  destruct (num_value_char d Hd) as [Hvc Hsp].
  simpl in Hlt. rewrite Hd in Hlt. simpl digits_value. rewrite Hd.
  eapply runs_app_silent.
  - eapply (runs_cons _ _ _ _ [T_byte D_header_value d]).
    + apply (runs_value_first _ _ _ _ _ h_content_length (with_length (d - 48) m)); try lia.
      { unfold value_ok. simpl. rewrite Hsp, Hvc. unfold IS_NUM, TAB in *. zbool. lia. }
      unfold header_value_first. simpl. rewrite Hd, u64_small by lia. reflexivity.
    + apply (runs_length_digits ds _ _ (d - 48)); try done; lia.
  - replace (n + (zlen name + (1 + zlen ds) + 4)) with (n + zlen name + 1 + 1 + 1 + zlen ds + 2) by lia.
    pose proof (runs_value_end h_content_length 0 (n + zlen name + 1 + 1 + 1 + zlen ds)
                  (with_length (digits_value (d - 48) ds) m)) as Hend.
    simpl value_flag in Hend. rewrite Z.lor_0_r in Hend. destruct m. apply Hend; lia.
Qed.

(** * The end of the headers and the body *)

(** A plain HTTP/1.1 request, whose headers gave the length [len]. *)
Definition request_message (me : http_method) (len st : Z) : message :=
  mk_message HTTP_REQUEST 0 len 1 1 st me false.

Lemma runs_headers_cr s hs ix n m :
  line_start s -> 0 <= n -> n + 1 <= HTTP_MAX_HEADER_SIZE ->
  runs skip (at_ s hs ix n m) [CR] (at_ s_headers_almost_done hs ix (n + 1) m) [].
Proof. intros [-> | ->] H0 Hn; run_fixed. Qed.

Lemma request_keeps_alive hs ix n me len st s :
  NEW_MESSAGE (at_ s hs ix n (request_message me len st)) = s_start_req.
Proof. reflexivity. Qed.

Lemma headers_done_request b hs ix n me len st (t : list token) :
  b = LF ->
  let st0 := mk_ctx (at_ s_headers_done hs ix n (request_message me len st)) 0 None None None None t in
  exec_s_headers_done (recorder skip) st0 b =
  Break (if (len =? 0) || (len =? ULLONG_MAX)
         then mk_ctx (at_ s_start_req hs ix 0 (request_message me len st)) 0 None None None None
                (t ++ [T_message_complete me])
         else mk_ctx (at_ s_body_identity hs ix 0 (request_message me len st)) 0 None None None None t).
Proof.
  intros -> st0. unfold exec_s_headers_done, STRICT_CHECK. cbn [negb LF Z.eqb Pos.eqb].
  destruct (Z.eqb_spec len 0) as [->|H0].
  - change (if hp_upgrade _ then _ else _) with
      (notify_message_complete (recorder skip)
         (mk_ctx (at_ s_start_req hs ix 0 (request_message me 0 st)) 0 None None None None t)).
    by rewrite recorder_complete.
  - destruct (Z.eqb_spec len ULLONG_MAX) as [->|H1].
    + change (if hp_upgrade _ then _ else _) with
        (notify_message_complete (recorder skip)
           (mk_ctx (at_ s_start_req hs ix 0 (request_message me ULLONG_MAX st)) 0 None None None None t)).
      by rewrite recorder_complete.
    + simpl. rewrite (proj2 (Z.eqb_neq len 0) H0), (proj2 (Z.eqb_neq len ULLONG_MAX) H1). reflexivity.
Qed.

Context (no_skip : forall p, skip p = false).

Lemma runs_headers_lf hs ix n me len st :
  0 <= n -> n + 1 <= HTTP_MAX_HEADER_SIZE -> me <> HTTP_CONNECT ->
  let done_ := (len =? 0) || (len =? ULLONG_MAX) in
  runs skip (at_ s_headers_almost_done hs ix n (request_message me len st)) [LF]
    (at_ (if done_ then s_start_req else s_body_identity) hs ix 0 (request_message me len st))
    (T_headers_complete me :: if done_ then [T_message_complete me] else []).
Proof.
  intros H0 Hn Hme done_. eapply runs_again; [budget| | | | |].
  - change (switch_on skip LF ?p)
      with (exec_s_headers_almost_done (recorder skip) (initial_ctx p []) LF).
    unfold exec_s_headers_almost_done, STRICT_CHECK. cbn [negb LF Z.eqb Pos.eqb].
    change (if has_flag _ _ then _ else ?x) with x. cbv zeta.
    rewrite recorder_headers_complete by done. rewrite no_skip, ctx_eta. reflexivity.
  - match goal with |- exec_switch _ _ ?x _ = _ =>
      replace x with (mk_ctx (at_ s_headers_done hs ix (n + 1) (request_message me len st))
        0 None None None None [T_headers_complete me]) end.
    + change (exec_switch (recorder skip) [LF] ?x LF) with (exec_s_headers_done (recorder skip) x LF).
      rewrite headers_done_request by done. reflexivity.
    + unfold upd, set_user. simpl. rewrite bool_decide_false by done. reflexivity.
  - by destruct (_ || _).
  - unfold done_. by destruct (_ || _).
  - unfold done_. by destruct (_ || _).
Qed.

(** ** A body of known length *)

Lemma take_one_body b hs ix n m s :
  1 <= m_length m < 2 ^ 64 ->
  take_body [b] (initial_ctx (at_ s hs ix n m) ([] : list token)) =
  set_mark D_body (Some 0) (initial_ctx (at_ s hs ix n (with_length (m_length m - 1) m)) []).
Proof.
  intros Hl. unfold take_body, to_read. change (len [b]) with 1. simpl.
  replace (Z.min (m_length m) (1 - 0)) with 1 by lia. unfold MARK, upd, set_p. simpl.
  rewrite u64_small by lia. reflexivity.
Qed.

Lemma body_length_ok m s hs ix n :
  1 <= m_length m < ULLONG_MAX -> content_length_known (at_ s hs ix n m) = true.
Proof.
  intros H. unfold content_length_known. simpl.
  by rewrite (proj2 (Z.eqb_neq _ 0)), (proj2 (Z.eqb_neq _ ULLONG_MAX)) by lia.
Qed.

Lemma runs_body_byte hs ix m b :
  1 < m_length m < ULLONG_MAX ->
  runs skip (at_ s_body_identity hs ix 0 m) [b]
    (at_ s_body_identity hs ix 0 (with_length (m_length m - 1) m)) [T_byte D_body b].
Proof.
  intros Hl. assert (ULLONG_MAX < 2 ^ 64) by (unfold ULLONG_MAX; lia).
  eapply runs_break; [budget| | | |].
  - change (switch_on skip b ?p)
      with (exec_s_body_identity (recorder skip) [b] (initial_ctx p []) b).
    unfold exec_s_body_identity, assert_then.
    change (count_byte (at_ s_body_identity hs ix 0 m)) with (at_ s_body_identity hs ix 0 m).
    change (c_parser (initial_ctx ?p [])) with p. rewrite body_length_ok, take_one_body by lia.
    simpl hp_content_length. rewrite (proj2 (Z.eqb_neq _ 0)) by lia. reflexivity.
  - reflexivity.
  - reflexivity.
  - reflexivity.
Qed.

Lemma runs_body_last hs ix me st b :
  runs skip (at_ s_body_identity hs ix 0 (request_message me 1 st)) [b]
    (at_ s_start_req hs ix 0 (request_message me 0 st)) [T_byte D_body b; T_message_complete me].
Proof.
  eapply runs_again; [budget| | | | |].
  - change (switch_on skip b ?p)
      with (exec_s_body_identity (recorder skip) [b] (initial_ctx p []) b).
    unfold exec_s_body_identity, assert_then.
    change (count_byte (at_ s_body_identity hs ix 0 ?m)) with (at_ s_body_identity hs ix 0 m).
    change (c_parser (initial_ctx ?p [])) with p.
    rewrite body_length_ok, take_one_body by (unfold ULLONG_MAX; simpl; lia).
    change (hp_content_length _ =? 0) with true. cbv zeta iota.
    rewrite recorder_data by done. reflexivity.
  - match goal with |- exec_switch _ _ ?x _ = _ =>
      change x with (mk_ctx (at_ s_message_done hs ix 0 (request_message me 0 st))
        0 None None None None [T_byte D_body b]) end.
    change (exec_switch (recorder skip) [b] ?x b) with (exec_s_message_done (recorder skip) x b).
    unfold exec_s_message_done. rewrite recorder_complete by done. reflexivity.
  - reflexivity.
  - reflexivity.
  - reflexivity.
Qed.

Lemma runs_body l hs ix me st :
  l <> [] -> zlen l < ULLONG_MAX ->
  runs skip (at_ s_body_identity hs ix 0 (request_message me (zlen l) st)) l
    (at_ s_start_req hs ix 0 (request_message me 0 st)) (bytes_of D_body l ++ [T_message_complete me]).
Proof.
  induction l as [|b l IH]; intros Hne Hlt; [done|]. rewrite zlen_cons in *.
  pose proof (zlen_nonneg l). destruct l as [|b' l].
  - change (1 + zlen []) with 1. apply runs_body_last.
  - eapply (runs_cons _ _ _ _ [T_byte D_body b]).
    + apply runs_body_byte. simpl m_length. rewrite zlen_cons in *. pose proof (zlen_nonneg l). lia.
    + replace (with_length _ _) with (request_message me (zlen (b' :: l)) st).
      * apply IH; [done|lia].
      * unfold request_message, with_length. simpl. f_equal. lia.
Qed.
End Pieces.
