(* ===== verification/HttpRequest.v ===== *)
(** Whole HTTP/1.1 requests: what http_parser_execute reports for a request
    that a client serialised, for several requests pipelined on one connection,
    and for the pieces of a request that have rules of their own (methods,
    header names, Content-Length). *)
From S2P Require Import Prelude HttpTypes HttpExec HttpInv HttpSafety HttpSim HttpStream HttpRun HttpHeader HttpMsg.

(** * Requests and their text *)

Record request := mk_request {
  rq_method : http_method;
  rq_path : list Z;
  rq_headers : list (list Z * list Z);
  rq_digits : list Z; (* the decimal digits sent as Content-Length *)
  rq_body : list Z
}.

Definition request_line (r : request) : list Z :=
  (matcher_of (rq_method r) ++ [chr " "]) ++ rq_path r ++ str " HTTP/1.1" ++ [CR; LF].

Definition length_header (r : request) : list Z * list Z := (str "Content-Length", rq_digits r).

Definition request_head (r : request) : list Z :=
  request_line r ++ concat (map header_line (rq_headers r)) ++ header_line (length_header r) ++ [CR; LF].

Definition serialize (r : request) : list Z := request_head r ++ rq_body r.

(** What the application should be told. *)
Definition request_events (r : request) : list token :=
  [T_message_begin] ++ bytes_of D_url (rq_path r) ++
  concat (map header_events (rq_headers r)) ++ header_events (length_header r) ++
  [T_headers_complete (rq_method r)] ++ bytes_of D_body (rq_body r) ++ [T_message_complete (rq_method r)].

Definition request_ok (r : request) : bool :=
  negb (bool_decide (rq_method r = HTTP_CONNECT)) && path_ok (rq_path r) &&
  forallb plain_header (rq_headers r) &&
  negb (bool_decide (rq_digits r = [])) && forallb IS_NUM (rq_digits r) &&
  (digits_value 0 (rq_digits r) =? zlen (rq_body r)) &&
  (zlen (rq_body r) <? ULLONG_MAX) &&
  (zlen (request_head r) <=? HTTP_MAX_HEADER_SIZE).

(** A parser between two requests. *)
Definition idle (p : http_parser) : Prop :=
  exists hs ix m, p = at_ s_start_req hs ix 0 m /\ m_type m = HTTP_REQUEST /\ m_upgrade m = false.

Section Request.
Context (skip : http_parser -> bool) (no_skip : forall p, skip p = false).

Lemma request_line_len r :
  zlen (request_line r) = zlen (matcher_of (rq_method r)) + zlen (rq_path r) + 12.
Proof. unfold request_line. rewrite !zlen_app. unfold zlen. simpl. lia. Qed.

Lemma runs_request_line hs ix m r :
  rq_method r <> HTTP_CONNECT -> path_ok (rq_path r) = true ->
  zlen (request_line r) <= HTTP_MAX_HEADER_SIZE ->
  runs skip (at_ s_start_req hs ix 0 m) (request_line r)
    (at_ s_header_field_start hs (zlen (matcher_of (rq_method r)) + 1) (zlen (request_line r))
       (with_version 1 1 (new_request (rq_method r) m)))
    ([T_message_begin] ++ bytes_of D_url (rq_path r)).
Proof.
  intros Hme Hp Hmax. rewrite request_line_len in *. unfold request_line.
  pose proof (zlen_nonneg (matcher_of (rq_method r))). pose proof (zlen_nonneg (rq_path r)).
  eapply runs_app; [apply runs_method; lia|].
  destruct (runs_url skip hs (zlen (matcher_of (rq_method r)) + 1) (0 + zlen (matcher_of (rq_method r)) + 1)
    (new_request (rq_method r) m) (rq_path r)) as (s & Hs & Hurl); [lia|lia|done|done|].
  eapply runs_app_silent; [exact Hurl|].
  match goal with |- runs _ (at_ _ _ _ ?n _) _ (at_ _ _ _ ?k _) _ => replace k with (n + 11) by lia end.
  apply runs_http_version; (done || lia).
Qed.

Lemma runs_head hs ix m r :
  request_ok r = true -> m_type m = HTTP_REQUEST -> m_upgrade m = false ->
  exists n, 0 <= n /\ n + 2 <= HTTP_MAX_HEADER_SIZE /\
  runs skip (at_ s_start_req hs ix 0 m)
    (request_line r ++ concat (map header_line (rq_headers r)) ++ header_line (length_header r))
    (at_ s_header_value_lws h_content_length 0 n
       (request_message (rq_method r) (zlen (rq_body r)) (m_status m)))
    (([T_message_begin] ++ bytes_of D_url (rq_path r)) ++
     concat (map header_events (rq_headers r)) ++ header_events (length_header r)).
Proof.
  intros Hok Hty Hup. unfold request_ok in Hok. rewrite !andb_true_iff in Hok.
  destruct Hok as [[[[[[[Hme Hpath] Hh] Hne] Hnum] Hval] Hlt] Hmax].
  apply negb_true_iff, bool_decide_eq_false in Hme. apply negb_true_iff, bool_decide_eq_false in Hne.
  apply Z.eqb_eq in Hval. apply Z.ltb_lt in Hlt. apply Z.leb_le in Hmax.
  unfold request_head in Hmax. rewrite !zlen_app in Hmax. change (zlen [CR; LF]) with 2 in Hmax.
  pose proof (zlen_nonneg (request_line r)).
  pose proof (zlen_nonneg (concat (map header_line (rq_headers r)))).
  pose proof (zlen_nonneg (header_line (length_header r))).
  set (m1 := with_version 1 1 (new_request (rq_method r) m)).
  destruct (runs_plain_headers skip s_header_field_start hs (zlen (matcher_of (rq_method r)) + 1)
              (zlen (request_line r)) m1 (rq_headers r))
    as (s' & hs' & ix' & Hs' & Hrun); [by left|done|lia|lia|].
  eexists. split; [|split]; [| |eapply runs_app; [apply runs_request_line; (done || lia)|
    eapply runs_app; [exact Hrun|]]].
  3: { replace (request_message _ _ _) with (with_length (digits_value 0 (rq_digits r)) m1).
       - apply runs_content_length; (done || (unfold length_header in *; lia)).
       - rewrite Hval. unfold m1, request_message. destruct m; simpl in *. by subst. }
  all: unfold length_header in *; lia.
Qed.

(** A request from its first byte to its last. *)
Lemma runs_request p r :
  idle p -> request_ok r = true -> exists p', idle p' /\ runs skip p (serialize r) p' (request_events r).
Proof.
  intros (hs & ix & m & -> & Hty & Hup) Hok.
  destruct (runs_head hs ix m r Hok Hty Hup) as (n & H0 & Hn & Hhead).
  assert (rq_method r <> HTTP_CONNECT /\ zlen (rq_body r) < ULLONG_MAX) as [Hme Hlt].
  { unfold request_ok in Hok. rewrite !andb_true_iff in Hok.
    destruct Hok as [[[[[[[Hme _] _] _] _] _] Hlt] _].
    apply negb_true_iff, bool_decide_eq_false in Hme. by apply Z.ltb_lt in Hlt. }
  set (me := rq_method r) in *. set (st := m_status m) in *.
  exists (at_ s_start_req h_content_length 0 0 (request_message me 0 st)).
  split; [by eexists _, _, _|].
  pose proof (runs_headers_lf skip no_skip h_content_length 0 (n + 1) me (zlen (rq_body r)) st
                ltac:(lia) ltac:(lia) Hme) as Hlf. cbv zeta in Hlf.
  pose proof (runs_headers_cr skip s_header_value_lws h_content_length 0 n
                (request_message me (zlen (rq_body r)) st) ltac:(by right) H0 ltac:(lia)) as Hcr.
  replace (serialize r) with
    ((request_line r ++ concat (map header_line (rq_headers r)) ++ header_line (length_header r)) ++
     [CR] ++ [LF] ++ rq_body r) by (unfold serialize, request_head; by rewrite <- !app_assoc).
  replace (request_events r) with
    ((([T_message_begin] ++ bytes_of D_url (rq_path r)) ++
      concat (map header_events (rq_headers r)) ++ header_events (length_header r)) ++
     [T_headers_complete (rq_method r)] ++ bytes_of D_body (rq_body r) ++ [T_message_complete (rq_method r)])
    by (unfold request_events; by rewrite <- !app_assoc).
  apply (runs_app _ _ _ _ _ _ _ _ Hhead), (runs_silent_app _ _ _ _ _ _ _ Hcr).
  rewrite (proj2 (Z.eqb_neq _ ULLONG_MAX)), orb_false_r in Hlf by lia.
  destruct (rq_body r) as [|b l] eqn:Hb.
  - change (zlen [] =? 0) with true in Hlf. exact Hlf.
  - assert (zlen (b :: l) <> 0) as Hnz by (rewrite zlen_cons; pose proof (zlen_nonneg l); lia).
    rewrite (proj2 (Z.eqb_neq _ 0) Hnz) in Hlf.
    eapply (runs_app _ _ _ _ [T_headers_complete (rq_method r)]); [exact Hlf|]. by apply runs_body.
Qed.

(** Requests one after the other. *)
Lemma runs_pipeline rs p :
  idle p -> forallb request_ok rs = true ->
  exists p', idle p' /\ runs skip p (concat (map serialize rs)) p' (concat (map request_events rs)).
Proof.
  revert p. induction rs as [|r rs IH]; intros p Hp Hall; cbn [map concat].
  { exists p. split; [done|apply runs_nil]. }
  simpl in Hall. apply andb_true_iff in Hall as [Hr Hall].
  destruct (runs_request p r Hp Hr) as (p1 & Hp1 & H1).
  destruct (IH p1 Hp1 Hall) as (p2 & Hp2 & H2). exists p2. split; [done|by eapply runs_app].
Qed.
End Request.

(** * The properties *)

Lemma init_good t : good (http_parser_init t).
Proof. split; [apply init_ok|done]. Qed.

Definition never : http_parser -> bool := fun _ => false.

(** C3. Round trip for requests: any non-empty sequence of HTTP/1.1 requests, each with a
    method other than CONNECT, a target that begins with a slash (with or without a query
    and a fragment), plain headers (a token as a name, one whose value the parser does not
    interpret, and a non-empty value of one line that begins with no blank), a last
    header Content-Length with the length of the body, and a head of at
    most HTTP_MAX_HEADER_SIZE bytes, written one after the other, makes a fresh request
    parser report exactly these requests, byte for byte and in order, with the method of
    each in the parser when the application is told that the headers and the message
    are complete, consume the whole text, and end ready for the next request. *)
Theorem requests_parse rs :
  forallb request_ok rs = true -> rs <> [] ->
  let text := concat (map serialize rs) in
  exists p', http_parser_execute (recorder never) text (http_parser_init HTTP_REQUEST) [] =
      Returned p' (concat (map request_events rs)) (zlen text) /\
    hp_state p' = s_start_req /\ hp_http_errno p' = HPE_OK.
Proof.
  intros Hok Hne text.
  destruct (runs_pipeline never (fun _ => eq_refl) rs (http_parser_init HTTP_REQUEST))
    as (p' & (hs & ix & m & -> & _) & Hrun); [|done|].
  { by exists h_general, 0, (mk_message HTTP_REQUEST 0 0 0 0 0 HTTP_DELETE false). }
  exists (at_ s_start_req hs ix 0 m). split; [|done].
  apply (runs_execute never _ text _ _ [] Hrun); [apply init_good|].
  destruct rs as [|r rs]; [done|]. unfold text, serialize, request_head, request_line. simpl.
  by destruct (matcher_of (rq_method r)).
Qed.

Definition sample_post : request :=
  mk_request HTTP_POST (str "/form?x=1#y") [(str "Host", str "example.com"); (str "X-A", str "b c")]
    (str "5") (str "hello").

Lemma requests_parse_witness :
  exists p', http_parser_execute (recorder never) (concat (map serialize [sample_post; sample_post]))
      (http_parser_init HTTP_REQUEST) [] =
      Returned p' (concat (map request_events [sample_post; sample_post]))
        (zlen (concat (map serialize [sample_post; sample_post]))) /\
    hp_state p' = s_start_req /\ hp_http_errno p' = HPE_OK.
Proof.
  apply (requests_parse [sample_post; sample_post]); [vm_compute; reflexivity|discriminate].
Defined.

(** Every method of the table is recognised: its string and a space take a
    fresh parser to the URL with that method, although the parser only guesses
    from the first letter and repairs the guess as it reads. *)
Theorem methods_parse me :
  exists p', http_parser_execute (recorder never) (matcher_of me ++ [chr " "])
      (http_parser_init HTTP_REQUEST) [] =
      Returned p' [T_message_begin] (zlen (matcher_of me) + 1) /\
    hp_method p' = me /\ hp_state p' = s_req_spaces_before_url.
Proof.
  assert (0 <= zlen (matcher_of me) <= 11) as Hlen by (destruct me; vm_compute; split; discriminate).
  pose proof (runs_method never h_general 0 0
    (mk_message HTTP_REQUEST 0 0 0 0 0 HTTP_DELETE false) me ltac:(lia)
    ltac:(unfold HTTP_MAX_HEADER_SIZE; lia)) as Hrun.
  eexists. split; [|split].
  - change (zlen (matcher_of me) + 1) with (zlen (matcher_of me) + zlen [chr " "]).
    rewrite <- zlen_app.
    apply (runs_execute never _ _ _ _ [] Hrun (init_good HTTP_REQUEST)). by destruct (matcher_of me).
  - done.
  - done.
Qed.

(** Header names are recognised in any mixture of cases and only as a
    whole: a name of token characters, read at the start of a header line, gets
    the special treatment of Connection, Proxy-Connection, Content-Length,
    Transfer-Encoding or Upgrade exactly when it is that name. *)
Theorem header_names_recognised skip s hs ix n m name u :
  line_start s -> good (at_ s hs ix n m) -> 0 <= n ->
  n + zlen name + 1 <= HTTP_MAX_HEADER_SIZE -> name <> [] -> forallb is_token name = true ->
  exists p', http_parser_execute (recorder skip) (name ++ [chr ":"]) (at_ s hs ix n m) u =
      Returned p' (u ++ bytes_of D_header_field name) (zlen name + 1) /\
    hp_state p' = s_header_value_start /\
    effective (hp_header_state p') = name_class (map TOKEN name).
Proof.
  intros Hs Hg H0 Hn Hne Htok.
  destruct (runs_name skip s hs ix n m name Hs Hne Htok H0 Hn) as [Hrun Heff].
  eexists. split; [|split].
  - change (zlen name + 1) with (zlen name + zlen [chr ":"]). rewrite <- zlen_app.
    apply (runs_execute skip _ _ _ _ u Hrun Hg). by destruct name.
  - done.
  - exact Heff.
Qed.

Lemma header_names_recognised_witness :
  let p := at_ s_header_field_start h_general 0 0 (mk_message HTTP_REQUEST 0 0 1 1 0 HTTP_GET false) in
  exists p', http_parser_execute (recorder never) (str "CONTENT-length" ++ [chr ":"]) p [] =
      Returned p' ([] ++ bytes_of D_header_field (str "CONTENT-length")) (14 + 1) /\
    hp_state p' = s_header_value_start /\ effective (hp_header_state p') = h_content_length.
Proof.
  apply (header_names_recognised never s_header_field_start h_general 0 0
    (mk_message HTTP_REQUEST 0 0 1 1 0 HTTP_GET false) (str "CONTENT-length") []);
    [by left| |lia|vm_compute; discriminate|discriminate|vm_compute; reflexivity].
  split; [split; simpl; (lia || (unfold HTTP_MAX_HEADER_SIZE; lia) || exact I)|reflexivity].
Defined.

(** Content-Length: the digits of the header (in any mixture of cases of
    its name) make the parser expect exactly their decimal value, for every
    value below ULLONG_MAX. *)
Theorem content_length_exact skip s hs ix n m name ds u :
  line_start s -> good (at_ s hs ix n m) -> 0 <= n ->
  n + zlen (header_line (name, ds)) <= HTTP_MAX_HEADER_SIZE ->
  map TOKEN name = CONTENT_LENGTH -> forallb is_token name = true ->
  ds <> [] -> forallb IS_NUM ds = true -> digits_value 0 ds < ULLONG_MAX ->
  exists p', http_parser_execute (recorder skip) (header_line (name, ds)) (at_ s hs ix n m) u =
      Returned p' (u ++ header_events (name, ds)) (zlen (header_line (name, ds))) /\
    hp_content_length p' = digits_value 0 ds.
Proof.
  intros Hs Hg H0 Hn Hname Htok Hds Hnum Hlt.
  pose proof (runs_content_length skip s hs ix n m name ds Hs Hname Htok Hds Hnum Hlt H0 Hn) as Hrun.
  eexists. split; [apply (runs_execute skip _ _ _ _ u Hrun Hg)|reflexivity].
  unfold header_line. by destruct name.
Qed.

Lemma content_length_exact_witness :
  let p := at_ s_header_field_start h_general 0 0 (mk_message HTTP_REQUEST 0 0 1 1 0 HTTP_GET false) in
  exists p', http_parser_execute (recorder never) (header_line (str "Content-Length", str "1234")) p [] =
      Returned p' ([] ++ header_events (str "Content-Length", str "1234")) 22 /\
    hp_content_length p' = 1234.
Proof.
  apply (content_length_exact never s_header_field_start h_general 0 0
    (mk_message HTTP_REQUEST 0 0 1 1 0 HTTP_GET false) (str "Content-Length") (str "1234") []);
    [by left| |lia|vm_compute; discriminate|reflexivity|reflexivity|discriminate|reflexivity
    |vm_compute; reflexivity].
  split; [split; simpl; (lia || (unfold HTTP_MAX_HEADER_SIZE; lia) || exact I)|reflexivity].
Defined.

(** A digit of Content-Length after the value [v]: the new value, or none when
    the test of the code refuses it. *)
Definition next_length (v d : Z) : option Z :=
  let n := v * 10 + d in
  if n <? ULLONG_MAX then Some n
  else if n =? ULLONG_MAX then None
  else let t := n - (n / 2 ^ 64) * 2 ^ 64 in
       if (v <=? t) && negb (t =? ULLONG_MAX) then Some t else None.

Lemma accumulate_next v d : 0 <= v -> 0 <= d <= 9 -> accumulate 10 v d = next_length v d.
Proof.
  intros Hv Hd. unfold next_length. destruct (Z.ltb_spec (v * 10 + d) ULLONG_MAX) as [Hlt|Hge].
  { by apply accumulate_exact; [|lia|]. }
  unfold accumulate. cbn zeta.
  assert (Ht : u64 (u64 (v * 10) + d) = (v * 10 + d) mod 2 ^ 64).
  { unfold u64. by rewrite Zplus_mod_idemp_l. }
  assert (Hm : (v * 10 + d) mod 2 ^ 64 = v * 10 + d - (v * 10 + d) / 2 ^ 64 * 2 ^ 64)
    by (rewrite Z.mod_eq; lia).
  rewrite Ht, Hm. destruct (Z.eqb_spec (v * 10 + d) ULLONG_MAX) as [->|Hne].
  - by change (ULLONG_MAX - ULLONG_MAX / 2 ^ 64 * 2 ^ 64) with ULLONG_MAX; rewrite Z.eqb_refl, orb_true_r.
  - set (t := _ - _). destruct (Z.ltb_spec t v), (Z.leb_spec v t), (t =? ULLONG_MAX); done || lia.
Qed.

Lemma length_digit_refused skip n m c :
  good (at_ s_header_value h_content_length 0 n m) -> 0 <= n ->
  n + 1 <= HTTP_MAX_HEADER_SIZE -> IS_NUM c = true ->
  accumulate 10 (m_length m) (c - 48) = None ->
  exists p' u' k, http_parser_execute (recorder skip) [c] (at_ s_header_value h_content_length 0 n m) []
      = Returned p' u' k /\ hp_http_errno p' = HPE_INVALID_CONTENT_LENGTH.
Proof.
  intros Hg H0 Hn Hc Ha. pose proof (exec_byte_counted skip _ c Hg Hn) as Hb.
  pose proof Hg as [Hi He]. pose proof (execute_single skip _ c Hi He) as Hx. rewrite Hb in Hx.
  destruct (num_value_char c Hc) as [Hvc Hsp]. unfold value_char in Hvc.
  apply andb_true_iff in Hvc as [Hcr Hlf]. apply negb_true_iff in Hcr, Hlf.
  unfold REEXEC_FUEL in Hx. rewrite reexecute_S in Hx.
  set (q := count_byte _) in Hx.
  change (exec_switch (recorder skip) [c] (initial_ctx q []) c)
    with (exec_s_header_value (recorder skip) [c] (initial_ctx q []) c) in Hx.
  unfold exec_s_header_value in Hx. rewrite Hcr, Hlf in Hx.
  change (c_parser (initial_ctx q [])) with q in Hx.
  assert (Hv : header_value_char c q = Value_error).
  { unfold header_value_char. change (hp_header_state q) with h_content_length. cbn beta iota zeta.
    rewrite Hsp, Hc. change (hp_content_length q) with (m_length m).
    change (chr "0") with 48. by rewrite Ha. }
  rewrite Hv in Hx. cbn beta iota in Hx. do 3 eexists. split; [exact Hx|reflexivity].
Qed.

(** C25. The overflow test of Content-Length, on every digit of every value.  A
    value that stays below ULLONG_MAX is exact, ULLONG_MAX is refused; but a value
    that does not fit is refused only when, taken modulo 2^64, it has become
    smaller than the value before the digit, or is ULLONG_MAX.  Otherwise the parser goes on with a
    wrong length: 23058430092136939520 is read as 4611686018427387904. *)
Theorem content_length_wraps skip n m c :
  good (at_ s_header_value h_content_length 0 n m) -> 0 <= n ->
  n + 1 <= HTTP_MAX_HEADER_SIZE -> IS_NUM c = true ->
  exists p' u' k, http_parser_execute (recorder skip) [c]
      (at_ s_header_value h_content_length 0 n m) [] = Returned p' u' k /\
    match next_length (m_length m) (c - 48) with
    | Some v => hp_http_errno p' = HPE_OK /\ hp_content_length p' = v
    | None => hp_http_errno p' = HPE_INVALID_CONTENT_LENGTH
    end.
Proof.
  intros Hg H0 Hn Hc. pose proof (IS_NUM_digit c Hc). destruct (num_value_char c Hc) as [Hvc Hsp].
  assert (Hl : 0 <= m_length m) by apply (inv_content_length _ _ (good_inv _ Hg)).
  rewrite <- accumulate_next by lia.
  destruct (accumulate 10 (m_length m) (c - 48)) as [v|] eqn:Ha; [|by apply length_digit_refused].
  assert (Hr : runs skip (at_ s_header_value h_content_length 0 n m) [c]
    (at_ s_header_value h_content_length 0 (n + 1) (with_length v m)) [T_byte D_header_value c]).
  { apply runs_value_char; [done|done|done|]. unfold header_value_char. simpl.
    by rewrite Hsp, Hc, Ha. }
  do 3 eexists. split; [by apply (runs_execute skip _ _ _ _ [] Hr Hg)|done].
Qed.

Lemma content_length_wraps_witness :
  let m := mk_message HTTP_REQUEST 0 2305843009213693952 1 1 0 HTTP_GET false in
  exists p' u' k, http_parser_execute (recorder never) [chr "0"]
      (at_ s_header_value h_content_length 0 40 m) [] = Returned p' u' k /\
    hp_http_errno p' = HPE_OK /\ hp_content_length p' = 4611686018427387904.
Proof.
  apply (content_length_wraps never 40
    (mk_message HTTP_REQUEST 0 2305843009213693952 1 1 0 HTTP_GET false) (chr "0"));
    [|lia|vm_compute; discriminate|reflexivity].
  split; [split; simpl; (lia || (unfold HTTP_MAX_HEADER_SIZE; lia) || reflexivity)|reflexivity].
Defined.

(** Is the method [me] with its letter [k] replaced by [c] taken for [me]? *)
Definition taken_for (me : http_method) (k : nat) (c : Z) : bool :=
  match http_parser_execute (recorder never) (<[k := c]> (matcher_of me) ++ [chr " "])
          (http_parser_init HTTP_REQUEST) [] with
  | Returned p _ _ =>
      bool_decide (hp_http_errno p = HPE_OK) && bool_decide (hp_method p = me) &&
      bool_decide (hp_state p = s_req_spaces_before_url)
  | _ => false
  end.

(** The methods whose third letter may be [c], whatever it should be. *)
Definition third_letter_free (me : http_method) (c : Z) : bool :=
  negb (c =? 0) &&
  match me with
  | HTTP_CONNECT | HTTP_COPY | HTTP_MKCOL | HTTP_MKACTIVITY | HTTP_SUBSCRIBE | HTTP_UNSUBSCRIBE
  | HTTP_PURGE => false
  | HTTP_PUT => negb (c =? chr "R")
  | HTTP_UNLOCK => negb (c =? chr "S")
  | _ => true
  end.

Definition letters_checked (me : http_method) : bool :=
  forallb (fun k => forallb (fun c =>
      Bool.eqb (taken_for me k c)
        ((c =? zth (matcher_of me) (Z.of_nat k)) || ((k =? 2)%nat && third_letter_free me c)))
    (seqZ 0 256)) (seq 0 (length (matcher_of me))).

Lemma letters_checked_all me : letters_checked me = true.
Proof. destruct me; vm_compute; reflexivity. Qed.

(** C26. How far the letters of a method are checked.  A method with one letter
    replaced by another byte is refused or is another method, but for the third
    letter: of every method but seven it is not checked at all, so that GEX is
    taken for GET (only NUL is refused, and the letters that turn PUT into PURGE
    and UNLOCK into UNSUBSCRIBE are seen). *)
Theorem method_third_letter_unchecked (me : http_method) (k : nat) (c : Z) :
  (k < length (matcher_of me))%nat -> 0 <= c < 256 ->
  taken_for me k c = true <->
  c = zth (matcher_of me) (Z.of_nat k) \/ k = 2%nat /\ third_letter_free me c = true.
Proof.
  intros Hk Hc. pose proof (letters_checked_all me) as H. unfold letters_checked in H.
  rewrite forallb_forall in H. specialize (H k ltac:(apply in_seq; lia)).
  rewrite forallb_forall in H.
  specialize (H c ltac:(apply list_elem_of_In, elem_of_seqZ; lia)).
  apply Bool.eqb_prop in H. rewrite H, orb_true_iff, andb_true_iff, Z.eqb_eq, Nat.eqb_eq. done.
Qed.

Lemma method_third_letter_unchecked_witness : taken_for HTTP_GET 2 (chr "X") = true.
Proof.
  apply (method_third_letter_unchecked HTTP_GET 2 (chr "X"));
    [vm_compute; lia|lia|right; split; reflexivity].
Defined.
