(* ===== verification/HtParse.v ===== *)
(** The second HTTP parser of the client, client/htparse/htparse.c: its parser
    object, its hooks and htparser_run, one definition per case of the switch.

    The parser keeps the text of the current element in a fixed buffer and hands
    it to the hooks by pointer: pointers into that buffer are offsets here, and a
    write outside the buffer is the outcome [Overrun] of a step. *)
From S2P Require Import Prelude.

(** * Enumerations *)

Inductive htp_type := htp_type_request | htp_type_response.

Inductive htp_scheme :=
  | htp_scheme_none | htp_scheme_ftp | htp_scheme_http | htp_scheme_https
  | htp_scheme_nfs | htp_scheme_unknown.

Inductive htp_method :=
  | htp_method_GET | htp_method_HEAD | htp_method_POST | htp_method_PUT
  | htp_method_DELETE | htp_method_MKCOL | htp_method_COPY | htp_method_MOVE
  | htp_method_OPTIONS | htp_method_PROPFIND | htp_method_PROPPATCH
  | htp_method_LOCK | htp_method_UNLOCK | htp_method_TRACE
  | htp_method_CONNECT | htp_method_UNKNOWN.

Definition method_num (m : htp_method) : Z :=
  match m with
  | htp_method_GET => 0 | htp_method_HEAD => 1 | htp_method_POST => 2
  | htp_method_PUT => 3 | htp_method_DELETE => 4 | htp_method_MKCOL => 5
  | htp_method_COPY => 6 | htp_method_MOVE => 7 | htp_method_OPTIONS => 8
  | htp_method_PROPFIND => 9 | htp_method_PROPPATCH => 10 | htp_method_LOCK => 11
  | htp_method_UNLOCK => 12 | htp_method_TRACE => 13 | htp_method_CONNECT => 14
  | htp_method_UNKNOWN => 15
  end.

Inductive htpparse_error :=
  | htparse_error_none | htparse_error_too_big | htparse_error_inval_method
  | htparse_error_inval_reqline | htparse_error_inval_schema
  | htparse_error_inval_proto | htparse_error_inval_ver | htparse_error_inval_hdr
  | htparse_error_inval_chunk_sz | htparse_error_inval_chunk
  | htparse_error_inval_state | htparse_error_user | htparse_error_status
  | htparse_error_generic.

Definition error_num (e : htpparse_error) : Z :=
  match e with
  | htparse_error_none => 0 | htparse_error_too_big => 1
  | htparse_error_inval_method => 2 | htparse_error_inval_reqline => 3
  | htparse_error_inval_schema => 4 | htparse_error_inval_proto => 5
  | htparse_error_inval_ver => 6 | htparse_error_inval_hdr => 7
  | htparse_error_inval_chunk_sz => 8 | htparse_error_inval_chunk => 9
  | htparse_error_inval_state => 10 | htparse_error_user => 11
  | htparse_error_status => 12 | htparse_error_generic => 13
  end.

Inductive eval_hdr_val :=
  | eval_hdr_val_none | eval_hdr_val_connection | eval_hdr_val_proxy_connection
  | eval_hdr_val_content_length | eval_hdr_val_transfer_encoding
  | eval_hdr_val_hostname | eval_hdr_val_content_type.

Definition parser_flag_chunked : Z := 1.
Definition parser_flag_connection_keep_alive : Z := 2.
Definition parser_flag_connection_close : Z := 4.
Definition parser_flag_trailing : Z := 8.
Definition parser_flag_content_length : Z := 16.

Inductive parser_state :=
  | s_start | s_method | s_spaces_before_uri | s_schema | s_schema_slash
  | s_schema_slash_slash | s_host | s_port | s_after_slash_in_uri | s_check_uri
  | s_uri | s_http_09 | s_http_H | s_http_HT | s_http_HTT | s_http_HTTP
  | s_first_major_digit | s_major_digit | s_first_minor_digit | s_minor_digit
  | s_spaces_after_digit | s_almost_done | s_done | s_hdrline_start
  | s_hdrline_hdr_almost_done | s_hdrline_hdr_done | s_hdrline_hdr_key
  | s_hdrline_hdr_space_before_val | s_hdrline_hdr_val | s_hdrline_almost_done
  | s_hdrline_done | s_body_read | s_chunk_size_start | s_chunk_size
  | s_chunk_size_almost_done | s_chunk_data | s_chunk_data_almost_done
  | s_chunk_data_done | s_status | s_space_after_status | s_status_text.

#[export] Instance htp_type_eq_dec : EqDecision htp_type.
Proof. solve_decision. Defined.
#[export] Instance htp_method_eq_dec : EqDecision htp_method.
Proof. solve_decision. Defined.
#[export] Instance htpparse_error_eq_dec : EqDecision htpparse_error.
Proof. solve_decision. Defined.
#[export] Instance parser_state_eq_dec : EqDecision parser_state.
Proof. solve_decision. Defined.

(** * Tables *)

Definition PARSER_STACK_MAX : Z := 8192.

Definition usual : list Z :=
  [4294958078; 2147432406; 4294967295; 4294967295;
   4294967295; 4294967295; 4294967295; 4294967295].

(** usual[ch >> 5] & (1 << (ch & 0x1f)) *)
Definition is_usual (ch : Z) : bool :=
  negb (Z.land (zth usual (Z.shiftr ch 5)) (Z.shiftl 1 (Z.land ch 31)) =? 0).

(** As in http_parser.c, only 128 of the 256 entries are written out. *)
Definition unhex : list Z :=
  repeat (-1) 48 ++ [0; 1; 2; 3; 4; 5; 6; 7; 8; 9] ++ repeat (-1) 7 ++
  [10; 11; 12; 13; 14; 15] ++ repeat (-1) 26 ++ [10; 11; 12; 13; 14; 15] ++
  repeat (-1) 25 ++ repeat 0 128.

Definition errstr_map : list (list Z) :=
  [str "htparse_error_none"; str "htparse_error_too_big";
   str "htparse_error_invalid_method"; str "htparse_error_invalid_requestline";
   str "htparse_error_invalid_schema"; str "htparse_error_invalid_protocol";
   str "htparse_error_invalid_version"; str "htparse_error_invalid_header";
   str "htparse_error_invalid_chunk_size"; str "htparse_error_invalid_chunk";
   str "htparse_error_invalid_state"; str "htparse_error_user";
   str "htparse_error_unknown"].

Definition method_strmap : list (list Z) :=
  [str "GET"; str "HEAD"; str "POST"; str "PUT"; str "DELETE"; str "MKCOL";
   str "COPY"; str "MOVE"; str "OPTIONS"; str "PROPFIND"; str "PROPATCH";
   str "LOCK"; str "UNLOCK"; str "TRACE"].

(** * struct htparser *)

Record htparser := mk_ht {
  ht_error : htpparse_error;
  ht_state : parser_state;
  ht_flags : Z;
  ht_heval : eval_hdr_val;
  ht_type : htp_type;
  ht_scheme : htp_scheme;
  ht_method : htp_method;
  ht_multipart : Z; (* unsigned char *)
  ht_major : Z; (* unsigned char *)
  ht_minor : Z; (* unsigned char *)
  ht_content_len : Z; (* uint64_t *)
  ht_bytes_read : Z; (* uint64_t *)
  ht_total_bytes_read : Z; (* uint64_t *)
  ht_status : Z; (* unsigned int *)
  ht_status_count : Z; (* unsigned int *)
  ht_buf : list Z; (* char[PARSER_STACK_MAX] *)
  ht_buf_idx : Z; (* unsigned int *)
  (* pointers into buf, NULL is None *)
  ht_scheme_offset : option Z;
  ht_host_offset : option Z;
  ht_port_offset : option Z;
  ht_path_offset : option Z;
  ht_args_offset : option Z
}.

(** Assignments [p->f = v]. *)
Definition set_error (v : htpparse_error) (p : htparser) : htparser :=
  mk_ht v (ht_state p) (ht_flags p) (ht_heval p) (ht_type p) (ht_scheme p)
    (ht_method p) (ht_multipart p) (ht_major p) (ht_minor p) (ht_content_len p)
    (ht_bytes_read p) (ht_total_bytes_read p) (ht_status p) (ht_status_count p)
    (ht_buf p) (ht_buf_idx p) (ht_scheme_offset p) (ht_host_offset p)
    (ht_port_offset p) (ht_path_offset p) (ht_args_offset p).
Definition set_state (v : parser_state) (p : htparser) : htparser :=
  mk_ht (ht_error p) v (ht_flags p) (ht_heval p) (ht_type p) (ht_scheme p)
    (ht_method p) (ht_multipart p) (ht_major p) (ht_minor p) (ht_content_len p)
    (ht_bytes_read p) (ht_total_bytes_read p) (ht_status p) (ht_status_count p)
    (ht_buf p) (ht_buf_idx p) (ht_scheme_offset p) (ht_host_offset p)
    (ht_port_offset p) (ht_path_offset p) (ht_args_offset p).
Definition set_flags (v : Z) (p : htparser) : htparser :=
  mk_ht (ht_error p) (ht_state p) v (ht_heval p) (ht_type p) (ht_scheme p)
    (ht_method p) (ht_multipart p) (ht_major p) (ht_minor p) (ht_content_len p)
    (ht_bytes_read p) (ht_total_bytes_read p) (ht_status p) (ht_status_count p)
    (ht_buf p) (ht_buf_idx p) (ht_scheme_offset p) (ht_host_offset p)
    (ht_port_offset p) (ht_path_offset p) (ht_args_offset p).
Definition set_heval (v : eval_hdr_val) (p : htparser) : htparser :=
  mk_ht (ht_error p) (ht_state p) (ht_flags p) v (ht_type p) (ht_scheme p)
    (ht_method p) (ht_multipart p) (ht_major p) (ht_minor p) (ht_content_len p)
    (ht_bytes_read p) (ht_total_bytes_read p) (ht_status p) (ht_status_count p)
    (ht_buf p) (ht_buf_idx p) (ht_scheme_offset p) (ht_host_offset p)
    (ht_port_offset p) (ht_path_offset p) (ht_args_offset p).
Definition set_scheme (v : htp_scheme) (p : htparser) : htparser :=
  mk_ht (ht_error p) (ht_state p) (ht_flags p) (ht_heval p) (ht_type p) v (ht_method
    p) (ht_multipart p) (ht_major p) (ht_minor p) (ht_content_len p) (ht_bytes_read
    p) (ht_total_bytes_read p) (ht_status p) (ht_status_count p) (ht_buf p)
    (ht_buf_idx p) (ht_scheme_offset p) (ht_host_offset p) (ht_port_offset p)
    (ht_path_offset p) (ht_args_offset p).
Definition set_method (v : htp_method) (p : htparser) : htparser :=
  mk_ht (ht_error p) (ht_state p) (ht_flags p) (ht_heval p) (ht_type p) (ht_scheme
    p) v (ht_multipart p) (ht_major p) (ht_minor p) (ht_content_len p)
    (ht_bytes_read p) (ht_total_bytes_read p) (ht_status p) (ht_status_count p)
    (ht_buf p) (ht_buf_idx p) (ht_scheme_offset p) (ht_host_offset p)
    (ht_port_offset p) (ht_path_offset p) (ht_args_offset p).
Definition set_multipart (v : Z) (p : htparser) : htparser :=
  mk_ht (ht_error p) (ht_state p) (ht_flags p) (ht_heval p) (ht_type p) (ht_scheme
    p) (ht_method p) v (ht_major p) (ht_minor p) (ht_content_len p) (ht_bytes_read
    p) (ht_total_bytes_read p) (ht_status p) (ht_status_count p) (ht_buf p)
    (ht_buf_idx p) (ht_scheme_offset p) (ht_host_offset p) (ht_port_offset p)
    (ht_path_offset p) (ht_args_offset p).
Definition set_major (v : Z) (p : htparser) : htparser :=
  mk_ht (ht_error p) (ht_state p) (ht_flags p) (ht_heval p) (ht_type p) (ht_scheme
    p) (ht_method p) (ht_multipart p) v (ht_minor p) (ht_content_len p)
    (ht_bytes_read p) (ht_total_bytes_read p) (ht_status p) (ht_status_count p)
    (ht_buf p) (ht_buf_idx p) (ht_scheme_offset p) (ht_host_offset p)
    (ht_port_offset p) (ht_path_offset p) (ht_args_offset p).
Definition set_minor (v : Z) (p : htparser) : htparser :=
  mk_ht (ht_error p) (ht_state p) (ht_flags p) (ht_heval p) (ht_type p) (ht_scheme
    p) (ht_method p) (ht_multipart p) (ht_major p) v (ht_content_len p)
    (ht_bytes_read p) (ht_total_bytes_read p) (ht_status p) (ht_status_count p)
    (ht_buf p) (ht_buf_idx p) (ht_scheme_offset p) (ht_host_offset p)
    (ht_port_offset p) (ht_path_offset p) (ht_args_offset p).
Definition set_content_len (v : Z) (p : htparser) : htparser :=
  mk_ht (ht_error p) (ht_state p) (ht_flags p) (ht_heval p) (ht_type p) (ht_scheme
    p) (ht_method p) (ht_multipart p) (ht_major p) (ht_minor p) v (ht_bytes_read p)
    (ht_total_bytes_read p) (ht_status p) (ht_status_count p) (ht_buf p) (ht_buf_idx
    p) (ht_scheme_offset p) (ht_host_offset p) (ht_port_offset p) (ht_path_offset p)
    (ht_args_offset p).
Definition set_bytes_read (v : Z) (p : htparser) : htparser :=
  mk_ht (ht_error p) (ht_state p) (ht_flags p) (ht_heval p) (ht_type p) (ht_scheme
    p) (ht_method p) (ht_multipart p) (ht_major p) (ht_minor p) (ht_content_len p) v
    (ht_total_bytes_read p) (ht_status p) (ht_status_count p) (ht_buf p) (ht_buf_idx
    p) (ht_scheme_offset p) (ht_host_offset p) (ht_port_offset p) (ht_path_offset p)
    (ht_args_offset p).
Definition set_total_bytes_read (v : Z) (p : htparser) : htparser :=
  mk_ht (ht_error p) (ht_state p) (ht_flags p) (ht_heval p) (ht_type p) (ht_scheme
    p) (ht_method p) (ht_multipart p) (ht_major p) (ht_minor p) (ht_content_len p)
    (ht_bytes_read p) v (ht_status p) (ht_status_count p) (ht_buf p) (ht_buf_idx p)
    (ht_scheme_offset p) (ht_host_offset p) (ht_port_offset p) (ht_path_offset p)
    (ht_args_offset p).
Definition set_status (v : Z) (p : htparser) : htparser :=
  mk_ht (ht_error p) (ht_state p) (ht_flags p) (ht_heval p) (ht_type p) (ht_scheme
    p) (ht_method p) (ht_multipart p) (ht_major p) (ht_minor p) (ht_content_len p)
    (ht_bytes_read p) (ht_total_bytes_read p) v (ht_status_count p) (ht_buf p)
    (ht_buf_idx p) (ht_scheme_offset p) (ht_host_offset p) (ht_port_offset p)
    (ht_path_offset p) (ht_args_offset p).
Definition set_status_count (v : Z) (p : htparser) : htparser :=
  mk_ht (ht_error p) (ht_state p) (ht_flags p) (ht_heval p) (ht_type p) (ht_scheme
    p) (ht_method p) (ht_multipart p) (ht_major p) (ht_minor p) (ht_content_len p)
    (ht_bytes_read p) (ht_total_bytes_read p) (ht_status p) v (ht_buf p) (ht_buf_idx
    p) (ht_scheme_offset p) (ht_host_offset p) (ht_port_offset p) (ht_path_offset p)
    (ht_args_offset p).
Definition set_buf (v : list Z) (p : htparser) : htparser :=
  mk_ht (ht_error p) (ht_state p) (ht_flags p) (ht_heval p) (ht_type p) (ht_scheme
    p) (ht_method p) (ht_multipart p) (ht_major p) (ht_minor p) (ht_content_len p)
    (ht_bytes_read p) (ht_total_bytes_read p) (ht_status p) (ht_status_count p) v
    (ht_buf_idx p) (ht_scheme_offset p) (ht_host_offset p) (ht_port_offset p)
    (ht_path_offset p) (ht_args_offset p).
Definition set_buf_idx (v : Z) (p : htparser) : htparser :=
  mk_ht (ht_error p) (ht_state p) (ht_flags p) (ht_heval p) (ht_type p) (ht_scheme
    p) (ht_method p) (ht_multipart p) (ht_major p) (ht_minor p) (ht_content_len p)
    (ht_bytes_read p) (ht_total_bytes_read p) (ht_status p) (ht_status_count p)
    (ht_buf p) v (ht_scheme_offset p) (ht_host_offset p) (ht_port_offset p)
    (ht_path_offset p) (ht_args_offset p).
Definition set_scheme_offset (v : option Z) (p : htparser) : htparser :=
  mk_ht (ht_error p) (ht_state p) (ht_flags p) (ht_heval p) (ht_type p) (ht_scheme
    p) (ht_method p) (ht_multipart p) (ht_major p) (ht_minor p) (ht_content_len p)
    (ht_bytes_read p) (ht_total_bytes_read p) (ht_status p) (ht_status_count p)
    (ht_buf p) (ht_buf_idx p) v (ht_host_offset p) (ht_port_offset p)
    (ht_path_offset p) (ht_args_offset p).
Definition set_host_offset (v : option Z) (p : htparser) : htparser :=
  mk_ht (ht_error p) (ht_state p) (ht_flags p) (ht_heval p) (ht_type p) (ht_scheme
    p) (ht_method p) (ht_multipart p) (ht_major p) (ht_minor p) (ht_content_len p)
    (ht_bytes_read p) (ht_total_bytes_read p) (ht_status p) (ht_status_count p)
    (ht_buf p) (ht_buf_idx p) (ht_scheme_offset p) v (ht_port_offset p)
    (ht_path_offset p) (ht_args_offset p).
Definition set_port_offset (v : option Z) (p : htparser) : htparser :=
  mk_ht (ht_error p) (ht_state p) (ht_flags p) (ht_heval p) (ht_type p) (ht_scheme
    p) (ht_method p) (ht_multipart p) (ht_major p) (ht_minor p) (ht_content_len p)
    (ht_bytes_read p) (ht_total_bytes_read p) (ht_status p) (ht_status_count p)
    (ht_buf p) (ht_buf_idx p) (ht_scheme_offset p) (ht_host_offset p) v
    (ht_path_offset p) (ht_args_offset p).
Definition set_path_offset (v : option Z) (p : htparser) : htparser :=
  mk_ht (ht_error p) (ht_state p) (ht_flags p) (ht_heval p) (ht_type p) (ht_scheme
    p) (ht_method p) (ht_multipart p) (ht_major p) (ht_minor p) (ht_content_len p)
    (ht_bytes_read p) (ht_total_bytes_read p) (ht_status p) (ht_status_count p)
    (ht_buf p) (ht_buf_idx p) (ht_scheme_offset p) (ht_host_offset p)
    (ht_port_offset p) v (ht_args_offset p).
Definition set_args_offset (v : option Z) (p : htparser) : htparser :=
  mk_ht (ht_error p) (ht_state p) (ht_flags p) (ht_heval p) (ht_type p) (ht_scheme
    p) (ht_method p) (ht_multipart p) (ht_major p) (ht_minor p) (ht_content_len p)
    (ht_bytes_read p) (ht_total_bytes_read p) (ht_status p) (ht_status_count p)
    (ht_buf p) (ht_buf_idx p) (ht_scheme_offset p) (ht_host_offset p)
    (ht_port_offset p) (ht_path_offset p) v.

(** Reduce assignments on an explicit parser object. *)
Ltac ht_setters :=
  unfold set_error, set_state, set_flags, set_heval, set_scheme, set_method,
    set_multipart, set_major, set_minor, set_content_len, set_bytes_read,
    set_total_bytes_read, set_status, set_status_count, set_buf, set_buf_idx,
    set_scheme_offset, set_host_offset, set_port_offset, set_path_offset,
    set_args_offset in *; simpl in *.

(** * Accessors and small functions *)

(** htparser_init: memset to 0, then error and type. *)
Definition htparser_init (t : htp_type) : htparser :=
  mk_ht htparse_error_none s_start 0 eval_hdr_val_none t htp_scheme_none htp_method_GET
    0 0 0 0 0 0 0 0 (repeat 0 (Z.to_nat PARSER_STACK_MAX)) 0 None None None None None.

Definition htparser_get_error : htparser -> htpparse_error := ht_error.
Definition htparser_get_status : htparser -> Z := ht_status.
Definition htparser_get_scheme : htparser -> htp_scheme := ht_scheme.
Definition htparser_get_method : htparser -> htp_method := ht_method.
Definition htparser_get_major : htparser -> Z := ht_major.
Definition htparser_get_minor : htparser -> Z := ht_minor.
Definition htparser_get_multipart : htparser -> Z := ht_multipart.
Definition htparser_get_content_length : htparser -> Z := ht_content_len.
Definition htparser_get_bytes_read : htparser -> Z := ht_bytes_read.
Definition htparser_get_total_bytes_read : htparser -> Z := ht_total_bytes_read.
Definition htparser_set_major (v : Z) : htparser -> htparser := set_major (u8 v).
Definition htparser_set_minor (v : Z) : htparser -> htparser := set_minor (u8 v).

(** The result of reading an array of strings: outside it is undefined. *)
Inductive str_result :=
  | Str (s : list Z)
  | Null
  | Out_of_array.

Definition array_at (a : list (list Z)) (i : Z) : str_result :=
  if (0 <=? i) && (i <? Z.of_nat (length a)) then Str (nth (Z.to_nat i) a []) else Out_of_array.

Definition htparser_get_strerror (p : htparser) : str_result :=
  let e := error_num (htparser_get_error p) in
  if error_num htparse_error_generic <? e then Str (str "htparse_no_such_error")
  else array_at errstr_map e.

Definition htparser_get_methodstr (p : htparser) : str_result :=
  if method_num htp_method_UNKNOWN <=? method_num (ht_method p) then Null
  else array_at method_strmap (method_num (ht_method p)).

Definition htparser_should_keep_alive (p : htparser) : bool :=
  if (0 <? ht_major p) && (0 <? ht_minor p)
  then negb (has_flag (ht_flags p) parser_flag_connection_close)
  else has_flag (ht_flags p) parser_flag_connection_keep_alive.

(** ** Comparisons of the buffer with literals *)

(** A char of the buffer, sign-extended to int. *)
Definition schar (b : Z) : Z := if b <? 128 then b else b - 256.

(** to_uint32(m + o) *)
Definition to_uint32 (m : list Z) (o : Z) : Z :=
  u32 (Z.lor (Z.lor (Z.lor (Z.shiftl (schar (zth m (o + 3))) 24)
                           (Z.shiftl (schar (zth m (o + 2))) 16))
                    (Z.shiftl (schar (zth m (o + 1))) 8))
             (schar (zth m o))).

(** ((c3 << 24) | (c2 << 16) | (c1 << 8) | c0) *)
Definition pack4 (c0 c1 c2 c3 : Z) : Z :=
  Z.lor (Z.lor (Z.lor (Z.shiftl c3 24) (Z.shiftl c2 16)) (Z.shiftl c1 8)) c0.

(** _str3_cmp, _str3Ocmp and _str4cmp *)
Definition str4cmp (m : list Z) (o : Z) (l : list Z) : bool :=
  to_uint32 m o =? pack4 (zth l 0) (zth l 1) (zth l 2) (zth l 3).
Definition str5cmp (m : list Z) (o : Z) (l : list Z) : bool :=
  str4cmp m o l && (zth m (o + 4) =? zth l 4).
Definition str6cmp (m : list Z) (o : Z) (l : list Z) : bool :=
  str4cmp m o l &&
  (Z.land (to_uint32 m (o + 4)) 65535 =? Z.lor (Z.shiftl (zth l 5) 8) (zth l 4)).
(** _str7_cmp and _str8cmp *)
Definition str8cmp (m : list Z) (o : Z) (l : list Z) : bool :=
  str4cmp m o l &&
  (to_uint32 m (o + 4) =? pack4 (zth l 4) (zth l 5) (zth l 6) (zth l 7)).
Definition str9cmp (m : list Z) (o : Z) (l : list Z) : bool :=
  str8cmp m o l && (zth m (o + 8) =? zth l 8).

(** strcasecmp(buf, l) == 0 for a literal [l] in lower case. *)
Definition tolower (b : Z) : Z :=
  if (chr "A" <=? b) && (b <=? chr "Z") then b + 32 else b.

Fixpoint cstring (m : list Z) : list Z :=
  match m with
  | b :: m' => if b =? 0 then [] else b :: cstring m'
  | [] => []
  end.

Definition strcasecmp_eq (m : list Z) (l : list Z) : bool :=
  bool_decide (map tolower (cstring m) = l).

(** str_to_uint64(str, n, err): [None] is err = 1.  The test
    check > UINT64_MAX is never true of a uint64_t. *)
Fixpoint str_to_uint64_loop (value : Z) (s : list Z) : option Z :=
  match s with
  | [] => Some value
  | c :: s' =>
      if (schar c <? chr "0") || (chr "9" <? schar c) then None
      else
        let check := u64 (u64 (value * 10) + (schar c - chr "0")) in
        if (negb (value =? 0) && (check <=? value)) || (2 ^ 64 - 1 <? check) then None
        else str_to_uint64_loop check s'
  end.

Definition str_to_uint64 (s : list Z) : option Z :=
  if 20 <? zlen s then None else str_to_uint64_loop 0 s.

(** _str_to_ssize_t: -1 for an empty or malformed text.  The arithmetic is on a
    signed type: outside its range the C text is undefined. *)
Fixpoint str_to_ssize_t_loop (value : Z) (s : list Z) : Z :=
  match s with
  | [] => value
  | c :: s' =>
      if (schar c <? chr "0") || (chr "9" <? schar c) then -1
      else str_to_ssize_t_loop (value * 10 + (schar c - chr "0")) s'
  end.

Definition _str_to_ssize_t (s : list Z) : Z :=
  match s with [] => -1 | _ => str_to_ssize_t_loop 0 s end.

(** * Hooks and steps *)

Section Run.
Context {U : Type}.

(** What a hook does: its return value, the versions it set with
    htparser_set_major and htparser_set_minor, and the new user data. *)
Record hook_result := mk_hook_result {
  hr_ret : Z;
  hr_major : option Z;
  hr_minor : option Z;
  hr_user : U
}.

(** A data hook gets a pointer into the parser's buffer and a length; the body
    hook gets bytes of the caller's data. *)
Definition htparse_hook : Type := htparser -> U -> hook_result.
Definition htparse_data_hook : Type := htparser -> option Z -> Z -> U -> hook_result.
Definition htparse_body_hook : Type := htparser -> list Z -> U -> hook_result.

Record htparse_hooks := mk_hooks {
  on_msg_begin : option htparse_hook;
  h_method : option htparse_data_hook;
  h_scheme : option htparse_data_hook;
  h_host : option htparse_data_hook;
  h_port : option htparse_data_hook;
  h_path : option htparse_data_hook;
  h_args : option htparse_data_hook;
  h_uri : option htparse_data_hook;
  on_hdrs_begin : option htparse_hook;
  h_hdr_key : option htparse_data_hook;
  h_hdr_val : option htparse_data_hook;
  h_hostname : option htparse_data_hook;
  on_hdrs_complete : option htparse_hook;
  on_new_chunk : option htparse_hook;
  on_chunk_complete : option htparse_hook;
  on_chunks_complete : option htparse_hook;
  h_body : option htparse_body_hook;
  on_msg_complete : option htparse_hook
}.

(** How a turn of the loop ends: with the next index, by a return, or with a
    write outside the buffer. *)
Inductive step :=
  | Continue (p : htparser) (i : Z) (u : U)
  | Stop (p : htparser) (n : Z) (u : U)
  | Overrun.

Context (hooks : htparse_hooks).
Context (data : list Z).

Definition after_hook (r : hook_result) (p : htparser) : htparser :=
  let p := match hr_major r with Some v => htparser_set_major v p | None => p end in
  match hr_minor r with Some v => htparser_set_minor v p | None => p end.

(** hook_NAME_run: the value, the parser and the user data afterwards. *)
Definition run_hook (h : option htparse_hook) (p : htparser) (u : U) : Z * htparser * U :=
  match h with
  | Some f => let r := f p u in (hr_ret r, after_hook r p, hr_user r)
  | None => (0, p, u)
  end.

Definition run_data_hook (h : option htparse_data_hook) (off : option Z) (n : Z)
    (p : htparser) (u : U) : Z * htparser * U :=
  match h with
  | Some f => let r := f p off n u in (hr_ret r, after_hook r p, hr_user r)
  | None => (0, p, u)
  end.

Definition run_body_hook (bs : list Z) (p : htparser) (u : U) : Z * htparser * U :=
  match h_body hooks with
  | Some f => let r := f p bs u in (hr_ret r, after_hook r p, hr_user r)
  | None => (0, p, u)
  end.

(** p->error = e; return i + 1; *)
Definition stop (e : htpparse_error) (p : htparser) (i : Z) (u : U) : step :=
  Stop (set_error e p) (i + 1) u.

(** if (res) { p->error = htparse_error_user; return i + 1; } break; *)
Definition check_user (res : Z) (p : htparser) (i : Z) (u : U) : step :=
  if res =? 0 then Continue p i u else stop htparse_error_user p i u.

(** p->buf[p->buf_idx++] = ch; p->buf[p->buf_idx] = '\0'; *)
Definition append (ch : Z) (p : htparser) : option htparser :=
  let k := ht_buf_idx p in
  if k + 1 <? PARSER_STACK_MAX then
    Some (set_buf_idx (k + 1)
            (set_buf (<[Z.to_nat (k + 1) := 0]> (<[Z.to_nat k := ch]> (ht_buf p))) p))
  else None.

Definition put (ch : Z) (p : htparser) (k : htparser -> step) : step :=
  match append ch p with Some p' => k p' | None => Overrun end.

(** The usual end of a case: store the byte and go to state [s]. *)
Definition put_goto (ch : Z) (s : parser_state) (p : htparser) (i : Z) (u : U) : step :=
  put ch p (fun p => Continue (set_state s p) i u).

Definition put_stay (ch : Z) (p : htparser) (i : Z) (u : U) : step :=
  put ch p (fun p => Continue p i u).

Definition goto (s : parser_state) (p : htparser) (i : Z) (u : U) : step :=
  Continue (set_state s p) i u.

(** &p->buf[p->buf_idx] *)
Definition here (p : htparser) : option Z := Some (ht_buf_idx p).

(** &p->buf[p->buf_idx] - off, converted to the size_t of the hook's parameter *)
Definition since (off : option Z) (p : htparser) : Z :=
  u64 (ht_buf_idx p - match off with Some o => o | None => 0 end).

Definition buf_start : option Z := Some 0.

Definition is_upper_or_underscore (ch : Z) : bool :=
  ((chr "A" <=? ch) && (ch <=? chr "Z")) || (ch =? chr "_").

Definition is_digit (ch : Z) : bool := (chr "0" <=? ch) && (ch <=? chr "9").

(** c = (unsigned char)(ch | 0x20); c >= 'a' && c <= 'z' *)
Definition is_alpha (ch : Z) : bool :=
  let c := schar (u8 (Z.lor ch 32)) in (chr "a" <=? c) && (c <=? chr "z").

(** * The cases of the switch *)

(** ** Start and method *)

Definition run_s_start (p : htparser) (i ch : Z) (u : U) : step :=
  let p := set_flags 0 p in
  if (ch =? CR) || (ch =? LF) then Continue p i u
  else if negb (is_upper_or_underscore ch) then stop htparse_error_inval_reqline p i u
  else
    let '(res, p, u) := run_hook (on_msg_begin hooks) p u in
    put ch p (fun p =>
      match ht_type p with
      | htp_type_request => check_user res (set_state s_method p) i u
      | htp_type_response =>
          if ch =? chr "H" then check_user res (set_state s_http_H p) i u
          else stop htparse_error_inval_reqline p i u
      end).

(** The method of the text in the buffer; [None] leaves p->method as it is. *)
Definition find_method (m : list Z) (n : Z) : option htp_method :=
  if n =? 3 then
    if str4cmp m 0 (str "GET" ++ [0]) then Some htp_method_GET
    else if str4cmp m 0 (str "PUT" ++ [0]) then Some htp_method_PUT else None
  else if n =? 4 then
    if zth m 1 =? chr "O" then
      if str4cmp m 0 (str "POST") then Some htp_method_POST
      else if str4cmp m 0 (str "COPY") then Some htp_method_COPY
      else if str4cmp m 0 (str "MOVE") then Some htp_method_MOVE
      else if str4cmp m 0 (str "LOCK") then Some htp_method_LOCK else None
    else if str4cmp m 0 (str "HEAD") then Some htp_method_HEAD else None
  else if n =? 5 then
    if str5cmp m 0 (str "MKCOL") then Some htp_method_MKCOL
    else if str5cmp m 0 (str "TRACE") then Some htp_method_TRACE else None
  else if n =? 6 then
    if str6cmp m 0 (str "DELETE") then Some htp_method_DELETE
    else if str6cmp m 0 (str "UNLOCK") then Some htp_method_UNLOCK else None
  else if n =? 7 then
    if str8cmp m 0 (str "CONNECT" ++ [0]) then Some htp_method_CONNECT
    else if str8cmp m 0 (str "OPTIONS" ++ [0]) then Some htp_method_OPTIONS else None
  else if n =? 8 then
    if str8cmp m 0 (str "PROPFIND") then Some htp_method_PROPFIND else None
  else if n =? 9 then
    if str9cmp m 0 (str "PROPPATCH") then Some htp_method_PROPPATCH else None
  else None.

Definition run_s_method (p : htparser) (i ch : Z) (u : U) : step :=
  if ch =? chr " " then
    let p := match find_method (ht_buf p) (ht_buf_idx p) with
             | Some m => set_method m p
             | None => p
             end in
    let '(res, p, u) := run_data_hook (h_method hooks) buf_start (ht_buf_idx p) p u in
    check_user res (set_state s_spaces_before_uri (set_buf_idx 0 p)) i u
  else if negb (is_upper_or_underscore ch) then stop htparse_error_inval_method p i u
  else put_stay ch p i u.

(** ** The URI *)

Definition run_s_spaces_before_uri (p : htparser) (i ch : Z) (u : U) : step :=
  if ch =? chr " " then Continue p i u
  else if ch =? chr "/" then
    put_goto ch s_after_slash_in_uri (set_path_offset (here p) p) i u
  else if is_alpha ch then
    if decide (ht_method p = htp_method_CONNECT)
    then put_goto ch s_after_slash_in_uri (set_path_offset (here p) p) i u
    else put_goto ch s_schema (set_scheme_offset (here p) p) i u
  else stop htparse_error_inval_reqline p i u.

Definition find_scheme (m : list Z) (o n : Z) : htp_scheme :=
  if n =? 3 then
    if str4cmp m o (str "ftp ") then htp_scheme_ftp
    else if str4cmp m o (str "nfs ") then htp_scheme_nfs else htp_scheme_unknown
  else if n =? 4 then
    if str4cmp m o (str "http") then htp_scheme_http else htp_scheme_unknown
  else if n =? 5 then
    if str5cmp m o (str "https") then htp_scheme_https else htp_scheme_unknown
  else htp_scheme_unknown.

Definition offset_or_0 (o : option Z) : Z := match o with Some z => z | None => 0 end.

Definition run_s_schema (p : htparser) (i ch : Z) (u : U) : step :=
  if is_alpha ch then put_stay ch p i u
  else if ch =? chr ":" then
    let p := set_scheme
               (find_scheme (ht_buf p) (offset_or_0 (ht_scheme_offset p)) (ht_buf_idx p)) p in
    let '(res, p, u) :=
      run_data_hook (h_scheme hooks) (ht_scheme_offset p) (ht_buf_idx p) p u in
    put ch p (fun p => check_user res (set_state s_schema_slash p) i u)
  else stop htparse_error_inval_schema p i u.

Definition run_s_schema_slash (p : htparser) (i ch : Z) (u : U) : step :=
  if ch =? chr "/" then put_goto ch s_schema_slash_slash p i u
  else stop htparse_error_inval_schema p i u.

Definition run_s_schema_slash_slash (p : htparser) (i ch : Z) (u : U) : step :=
  if ch =? chr "/" then
    put ch p (fun p => Continue (set_state s_host (set_host_offset (here p) p)) i u)
  else stop htparse_error_inval_schema p i u.

Definition run_s_host (p : htparser) (i ch : Z) (u : U) : step :=
  if is_alpha ch then put_stay ch p i u
  else if is_digit ch || (ch =? chr ".") || (ch =? chr "-") then put_stay ch p i u
  else
    let '(res, p, u) :=
      run_data_hook (h_host hooks) (ht_host_offset p) (since (ht_host_offset p) p) p u in
    if ch =? chr ":" then
      put ch p (fun p =>
        check_user res (set_state s_port (set_port_offset (here p) p)) i u)
    else if ch =? chr "/" then
      put ch (set_path_offset (here p) p) (fun p =>
        check_user res (set_state s_after_slash_in_uri p) i u)
    else if ch =? chr " " then check_user res (set_state s_http_09 p) i u
    else stop htparse_error_inval_schema p i u.

Definition run_s_port (p : htparser) (i ch : Z) (u : U) : step :=
  if is_digit ch then put_stay ch p i u
  else
    let '(res, p, u) := run_data_hook (h_port hooks) buf_start (ht_buf_idx p) p u in
    if ch =? chr "/" then
      put ch p (fun p =>
        check_user res
          (set_state s_after_slash_in_uri (set_path_offset (Some (ht_buf_idx p - 1)) p)) i u)
    else if ch =? chr " " then
      check_user res (set_buf_idx 0 (set_state s_http_09 p)) i u
    else stop htparse_error_inval_reqline p i u.

(** r1 || r2 *)
Definition either (r1 r2 : Z) : Z := if (r1 =? 0) && (r2 =? 0) then 0 else 1.

(** The end of the URI: the hooks [h] and uri, then s_http_09. *)
Definition uri_done (h : option htparse_data_hook) (off : option Z) (n : Z)
    (p : htparser) (i : Z) (u : U) : step :=
  let '(r1, p, u) := run_data_hook h off n p u in
  let '(r2, p, u) := run_data_hook (h_uri hooks) buf_start (ht_buf_idx p) p u in
  check_user (either r1 r2) (set_buf_idx 0 (set_state s_http_09 p)) i u.

Definition run_s_after_slash_in_uri (p : htparser) (i ch : Z) (u : U) : step :=
  if is_usual ch then put_goto ch s_check_uri p i u
  else if ch =? chr " " then
    uri_done (h_path hooks) (ht_path_offset p) (ht_buf_idx p) p i u
  else if ch =? CR then goto s_almost_done (set_minor 9 p) i u
  else if ch =? LF then goto s_hdrline_start (set_minor 9 p) i u
  else if (ch =? chr ".") || (ch =? chr "%") || (ch =? chr "/") || (ch =? chr "#") then
    put_goto ch s_uri p i u
  else if ch =? chr "?" then
    let '(res, p, u) := run_data_hook (h_path hooks) buf_start (ht_buf_idx p) p u in
    put ch p (fun p => check_user res (set_state s_uri (set_args_offset (here p) p)) i u)
  else put_goto ch s_check_uri p i u.

Definition run_s_check_uri (p : htparser) (i ch : Z) (u : U) : step :=
  if is_usual ch then put_stay ch p i u
  else if ch =? chr " " then
    match ht_args_offset p with
    | Some _ => uri_done (h_args hooks) (ht_args_offset p) (ht_buf_idx p) p i u
    | None => uri_done (h_path hooks) buf_start (ht_buf_idx p) p i u
    end
  else if ch =? chr "/" then put_goto ch s_after_slash_in_uri p i u
  else if ch =? CR then goto s_almost_done (set_buf_idx 0 (set_minor 9 p)) i u
  else if ch =? LF then goto s_hdrline_start (set_buf_idx 0 (set_minor 9 p)) i u
  else
    let '(res, p, u) :=
      if ch =? chr "?" then
        let '(res, p, u) :=
          run_data_hook (h_path hooks) (ht_path_offset p) (since (ht_path_offset p) p) p u in
        (res, set_args_offset (here p) p, u)
      else (0, p, u) in
    put ch p (fun p => check_user res (set_state s_uri p) i u).

Definition run_s_uri (p : htparser) (i ch : Z) (u : U) : step :=
  if is_usual ch then put_stay ch p i u
  else if ch =? chr " " then
    match ht_args_offset p with
    | Some _ =>
        uri_done (h_args hooks) (ht_args_offset p) (since (ht_args_offset p) p) p i u
    | None =>
        uri_done (h_path hooks) (ht_path_offset p) (since (ht_path_offset p) p) p i u
    end
  else if ch =? CR then goto s_almost_done (set_buf_idx 0 (set_minor 9 p)) i u
  else if ch =? LF then goto s_hdrline_start (set_buf_idx 0 (set_minor 9 p)) i u
  else put_stay ch p i u.

(** ** Protocol, version and status *)

Definition run_s_http_09 (p : htparser) (i ch : Z) (u : U) : step :=
  if ch =? chr " " then Continue p i u
  else if ch =? CR then goto s_almost_done (set_buf_idx 0 (set_minor 9 p)) i u
  else if ch =? LF then goto s_hdrline_start (set_buf_idx 0 (set_minor 9 p)) i u
  else if ch =? chr "H" then goto s_http_H (set_buf_idx 0 p) i u
  else stop htparse_error_inval_proto p i u.

(** s_http_H, s_http_HT, s_http_HTT and s_http_HTTP: one letter of the protocol *)
Definition run_proto (c : Z) (next : parser_state) (p : htparser) (i ch : Z) (u : U) : step :=
  if ch =? c then goto next p i u else stop htparse_error_inval_proto p i u.

Definition run_s_first_major_digit (p : htparser) (i ch : Z) (u : U) : step :=
  if (ch <? chr "1") || (chr "9" <? ch) then stop htparse_error_inval_ver p i u
  else goto s_major_digit (set_major (u8 (ch - chr "0")) p) i u.

Definition run_s_major_digit (p : htparser) (i ch : Z) (u : U) : step :=
  if ch =? chr "." then goto s_first_minor_digit p i u
  else if negb (is_digit ch) then stop htparse_error_inval_ver p i u
  else Continue (set_major (u8 (ht_major p * 10 + ch - chr "0")) p) i u.

Definition run_s_first_minor_digit (p : htparser) (i ch : Z) (u : U) : step :=
  if negb (is_digit ch) then stop htparse_error_inval_ver p i u
  else goto s_minor_digit (set_minor (u8 (ch - chr "0")) p) i u.

Definition run_s_minor_digit (p : htparser) (i ch : Z) (u : U) : step :=
  if ch =? chr " " then
    match ht_type p with
    | htp_type_request => goto s_spaces_after_digit p i u
    | htp_type_response => goto s_status (set_status 0 p) i u
    end
  else if ch =? CR then goto s_almost_done p i u
  else if ch =? LF then goto s_hdrline_start p i u
  else if negb (is_digit ch) then stop htparse_error_inval_ver p i u
  else Continue (set_minor (u8 (ht_minor p * 10 + ch - chr "0")) p) i u.

Definition run_s_status (p : htparser) (i ch : Z) (u : U) : step :=
  if ch =? chr " " then
    if negb (ht_status p =? 0) then goto s_status_text p i u else Continue p i u
  else if negb (is_digit ch) then stop htparse_error_status p i u
  else
    let p := set_status (u32 (ht_status p * 10 + ch - chr "0")) p in
    let p := set_status_count (u32 (ht_status_count p + 1)) p in
    if ht_status_count p =? 3 then goto s_space_after_status p i u else Continue p i u.

Definition run_s_space_after_status (p : htparser) (i ch : Z) (u : U) : step :=
  if ch =? chr " " then goto s_status_text p i u
  else if ch =? CR then goto s_almost_done p i u
  else if ch =? LF then goto s_hdrline_start p i u
  else stop htparse_error_generic p i u.

Definition run_s_status_text (p : htparser) (i ch : Z) (u : U) : step :=
  if ch =? CR then goto s_almost_done p i u
  else if ch =? LF then goto s_hdrline_start p i u
  else Continue p i u.

Definition run_s_spaces_after_digit (p : htparser) (i ch : Z) (u : U) : step :=
  if ch =? chr " " then Continue p i u
  else if ch =? CR then goto s_almost_done p i u
  else if ch =? LF then goto s_hdrline_start p i u
  else stop htparse_error_inval_ver p i u.

(** The value of on_hdrs_begin is not looked at. *)
Definition run_s_almost_done (p : htparser) (i ch : Z) (u : U) : step :=
  if ch =? LF then
    if (match ht_type p with htp_type_response => true | _ => false end) &&
       (100 <=? ht_status p) && (ht_status p <? 200)
    then goto s_start (set_status_count 0 (set_status 0 p)) i u
    else
      let '(_, p, u) := run_hook (on_hdrs_begin hooks) (set_state s_done p) u in
      Continue p i u
  else stop htparse_error_inval_reqline p i u.

(** ** Header lines *)

Definition run_s_hdrline_start (p : htparser) (i ch : Z) (u : U) : step :=
  let p := set_buf_idx 0 p in
  if ch =? CR then goto s_hdrline_hdr_almost_done p i u
  else if ch =? LF then goto s_hdrline_hdr_done p i u
  else put_goto ch s_hdrline_hdr_key p i u.

Definition run_s_done (p : htparser) (i ch : Z) (u : U) : step :=
  if ch =? CR then
    let '(res, p, u) := run_hook (on_hdrs_complete hooks) (set_state s_hdrline_almost_done p) u in
    check_user res p i u
  else if ch =? LF then Stop p (i + 1) u
  else run_s_hdrline_start p i ch u.

(** Which header is it? *)
Definition find_heval (m : list Z) (n : Z) : eval_hdr_val :=
  if (n + 1 =? 5) && strcasecmp_eq m (str "host") then eval_hdr_val_hostname
  else if (n + 1 =? 11) && strcasecmp_eq m (str "connection") then eval_hdr_val_connection
  else if (n + 1 =? 13) && strcasecmp_eq m (str "content-type") then eval_hdr_val_content_type
  else if (n + 1 =? 15) && strcasecmp_eq m (str "content-length") then eval_hdr_val_content_length
  else if (n + 1 =? 17) && strcasecmp_eq m (str "proxy-connection")
  then eval_hdr_val_proxy_connection
  else if (n + 1 =? 18) && strcasecmp_eq m (str "transfer-encoding")
  then eval_hdr_val_transfer_encoding
  else eval_hdr_val_none.

Definition run_s_hdrline_hdr_key (p : htparser) (i ch : Z) (u : U) : step :=
  if ch =? chr ":" then
    let '(res, p, u) := run_data_hook (h_hdr_key hooks) buf_start (ht_buf_idx p) p u in
    let p := set_heval (find_heval (ht_buf p) (ht_buf_idx p)) p in
    check_user res (set_state s_hdrline_hdr_space_before_val (set_buf_idx 0 p)) i u
  else if ch =? CR then goto s_hdrline_hdr_almost_done p i u
  else if ch =? LF then goto s_hdrline_hdr_done p i u
  else put_stay ch p i u.

(** The state after the CR or LF that ends a value. *)
Definition after_value (ch : Z) : parser_state :=
  if ch =? CR then s_hdrline_hdr_almost_done else s_hdrline_hdr_done.

Definition run_s_hdrline_hdr_space_before_val (p : htparser) (i ch : Z) (u : U) : step :=
  if ch =? chr " " then Continue p i u
  else if (ch =? CR) || (ch =? LF) then
    let '(_, p, u) := run_data_hook (h_hdr_val hooks) buf_start (ht_buf_idx p) p u in
    Continue (set_buf_idx 0 (set_state (after_value ch) p)) i u
  else put_goto ch s_hdrline_hdr_val p i u.

Definition add_flag (f : Z) (p : htparser) : htparser := set_flags (Z.lor (ht_flags p) f) p.

(** What a Connection value sets. *)
Definition eval_connection (p : htparser) : htparser :=
  let m := ht_buf p in
  if (zth m 0 =? chr "K") || (zth m 0 =? chr "k") then
    if strcasecmp_eq m (str "keep-alive") then add_flag parser_flag_connection_keep_alive p else p
  else if zth m 0 =? chr "c" then
    if strcasecmp_eq m (str "close") then add_flag parser_flag_connection_close p else p
  else p.

Definition eval_content_type (p : htparser) : htparser :=
  let m := ht_buf p in
  if (zth m 0 =? chr "m") || (zth m 0 =? chr "M") then
    if str8cmp m 1 (str "ultipart") then set_multipart 1 p else p
  else p.

(** The end of a value: the hook, then the header's own treatment. *)
Definition run_value_end (p : htparser) (i ch : Z) (u : U) : step :=
  let '(res, p, u) := run_data_hook (h_hdr_val hooks) buf_start (ht_buf_idx p) p u in
  let finish res p u := check_user res (set_buf_idx 0 (set_state (after_value ch) p)) i u in
  match ht_heval p with
  | eval_hdr_val_hostname =>
      let '(res, p, u) := run_data_hook (h_hostname hooks) buf_start (ht_buf_idx p) p u in
      finish res p u
  | eval_hdr_val_content_length =>
      match str_to_uint64 (slice (ht_buf p) 0 (ht_buf_idx p)) with
      | None => stop htparse_error_too_big (set_content_len 0 p) i u
      | Some v => finish res (add_flag parser_flag_content_length (set_content_len v p)) u
      end
  | eval_hdr_val_connection => finish res (eval_connection p) u
  | eval_hdr_val_transfer_encoding =>
      finish res
        (if strcasecmp_eq (ht_buf p) (str "chunked") then add_flag parser_flag_chunked p else p) u
  | eval_hdr_val_content_type => finish res (eval_content_type p) u
  | _ => finish res p u
  end.

Definition run_s_hdrline_hdr_val (p : htparser) (i ch : Z) (u : U) : step :=
  if (ch =? CR) || (ch =? LF) then run_value_end p i ch u else put_stay ch p i u.

(** res = hook_on_msg_complete_run(p, hooks); p->state = s_start; *)
Definition msg_complete (p : htparser) (i : Z) (u : U) : step :=
  let '(res, p, u) := run_hook (on_msg_complete hooks) p u in
  check_user res (set_state s_start p) i u.

Definition run_s_hdrline_hdr_almost_done (p : htparser) (i ch : Z) (u : U) : step :=
  if ch =? LF then
    if has_flag (ht_flags p) parser_flag_trailing then msg_complete p i u
    else goto s_hdrline_hdr_done p i u
  else stop htparse_error_inval_hdr p i u.

Definition run_s_hdrline_hdr_done (p : htparser) (i ch : Z) (u : U) : step :=
  if ch =? CR then
    let '(res, p, u) := run_hook (on_hdrs_complete hooks) (set_state s_hdrline_almost_done p) u in
    check_user res p i u
  else if ch =? LF then Stop p (i + 1) u
  else put_goto ch s_hdrline_hdr_key (set_buf_idx 0 p) i u.

(** A response that does not keep the connection, or a CONNECT request. *)
Definition reads_to_eof (p : htparser) : bool :=
  match ht_type p with
  | htp_type_response => negb (htparser_should_keep_alive p)
  | htp_type_request => bool_decide (ht_method p = htp_method_CONNECT)
  end.

Definition run_s_hdrline_almost_done (p : htparser) (i ch : Z) (u : U) : step :=
  if ch =? LF then
    let p := set_buf_idx 0 p in
    if has_flag (ht_flags p) parser_flag_trailing then msg_complete p i u
    else if has_flag (ht_flags p) parser_flag_chunked then goto s_chunk_size_start p i u
    else if 0 <? ht_content_len p then goto s_body_read p i u
    else if negb (has_flag (ht_flags p) parser_flag_content_length) && reads_to_eof p
    then goto s_body_read p i u
    else if ht_content_len p =? 0 then msg_complete p i u
    else goto s_hdrline_done p i u
  else stop htparse_error_inval_hdr p i u.

(** The byte is looked at again (i--) when a body follows; the value of
    on_msg_complete is not looked at with trailing headers. *)
Definition run_s_hdrline_done (p : htparser) (i ch : Z) (u : U) : step :=
  if has_flag (ht_flags p) parser_flag_trailing then
    let '(_, p, u) := run_hook (on_msg_complete hooks) p u in goto s_start p i u
  else if has_flag (ht_flags p) parser_flag_chunked then goto s_chunk_size_start p (i - 1) u
  else if 0 <? ht_content_len p then goto s_body_read p (i - 1) u
  else if ht_content_len p =? 0 then msg_complete p i u
  else Continue p i u.

(** ** Bodies *)

Definition unhex_val (ch : Z) : Z := zth unhex (u8 ch).

Definition run_s_chunk_size_start (p : htparser) (i ch : Z) (u : U) : step :=
  if unhex_val ch =? -1 then stop htparse_error_inval_chunk_sz p i u
  else goto s_chunk_size (set_content_len (unhex_val ch) p) i u.

Definition run_s_chunk_size (p : htparser) (i ch : Z) (u : U) : step :=
  if ch =? CR then goto s_chunk_size_almost_done p i u
  else if unhex_val ch =? -1 then stop htparse_error_inval_chunk_sz p i u
  else Continue (set_content_len (u64 (u64 (ht_content_len p * 16) + unhex_val ch)) p) i u.

Definition run_s_chunk_size_almost_done (p : htparser) (i ch : Z) (u : U) : step :=
  if negb (ch =? LF) then stop htparse_error_inval_chunk_sz p i u
  else if ht_content_len p =? 0 then
    let '(res, p, u) := run_hook (on_chunks_complete hooks) p u in
    check_user res (set_state s_hdrline_start (add_flag parser_flag_trailing p)) i u
  else
    let '(res, p, u) := run_hook (on_new_chunk hooks) p u in
    check_user res (set_state s_chunk_data p) i u.

Definition len : Z := zlen data.

Definition run_s_chunk_data (p : htparser) (i ch : Z) (u : U) : step :=
  let to_read := Z.min (len - i) (ht_content_len p) in
  let '(res, p, u, i) :=
    if 0 <? to_read then
      let '(res, p, u) := run_body_hook (slice data i (i + to_read)) p u in
      (res, p, u, i + (to_read - 1))
    else (0, p, u, i) in
  let p := if to_read =? ht_content_len p then set_state s_chunk_data_almost_done p else p in
  check_user res (set_content_len (u64 (ht_content_len p - to_read)) p) i u.

Definition run_s_chunk_data_almost_done (p : htparser) (i ch : Z) (u : U) : step :=
  if negb (ch =? CR) then stop htparse_error_inval_chunk p i u
  else goto s_chunk_data_done p i u.

Definition run_s_chunk_data_done (p : htparser) (i ch : Z) (u : U) : step :=
  if negb (ch =? LF) then stop htparse_error_inval_chunk p i u
  else
    let '(res, p, u) := run_hook (on_chunk_complete hooks) (set_state s_chunk_size_start p) u in
    check_user res p i u.

Definition run_s_body_read (p : htparser) (i ch : Z) (u : U) : step :=
  let known := has_flag (ht_flags p) parser_flag_content_length in
  let to_read := if known then Z.min (len - i) (ht_content_len p) else len - i in
  if 0 <? to_read then
    let '(res, p, u) := run_body_hook (slice data i (i + to_read)) p u in
    let i := i + (to_read - 1) in
    let p := set_content_len (u64 (ht_content_len p - to_read)) p in
    if has_flag (ht_flags p) parser_flag_content_length && (ht_content_len p =? 0)
    then msg_complete p i u
    else check_user res p i u
  else msg_complete p i u.

(** * htparser_run *)

Definition run_switch (p : htparser) (i ch : Z) (u : U) : step :=
  match ht_state p with
  | s_start => run_s_start p i ch u
  | s_method => run_s_method p i ch u
  | s_spaces_before_uri => run_s_spaces_before_uri p i ch u
  | s_schema => run_s_schema p i ch u
  | s_schema_slash => run_s_schema_slash p i ch u
  | s_schema_slash_slash => run_s_schema_slash_slash p i ch u
  | s_host => run_s_host p i ch u
  | s_port => run_s_port p i ch u
  | s_after_slash_in_uri => run_s_after_slash_in_uri p i ch u
  | s_check_uri => run_s_check_uri p i ch u
  | s_uri => run_s_uri p i ch u
  | s_http_09 => run_s_http_09 p i ch u
  | s_http_H => run_proto (chr "T") s_http_HT p i ch u
  | s_http_HT => run_proto (chr "T") s_http_HTT p i ch u
  | s_http_HTT => run_proto (chr "P") s_http_HTTP p i ch u
  | s_http_HTTP => run_proto (chr "/") s_first_major_digit p i ch u
  | s_first_major_digit => run_s_first_major_digit p i ch u
  | s_major_digit => run_s_major_digit p i ch u
  | s_first_minor_digit => run_s_first_minor_digit p i ch u
  | s_minor_digit => run_s_minor_digit p i ch u
  | s_status => run_s_status p i ch u
  | s_space_after_status => run_s_space_after_status p i ch u
  | s_status_text => run_s_status_text p i ch u
  | s_spaces_after_digit => run_s_spaces_after_digit p i ch u
  | s_almost_done => run_s_almost_done p i ch u
  | s_done => run_s_done p i ch u
  | s_hdrline_start => run_s_hdrline_start p i ch u
  | s_hdrline_hdr_key => run_s_hdrline_hdr_key p i ch u
  | s_hdrline_hdr_space_before_val => run_s_hdrline_hdr_space_before_val p i ch u
  | s_hdrline_hdr_val => run_s_hdrline_hdr_val p i ch u
  | s_hdrline_hdr_almost_done => run_s_hdrline_hdr_almost_done p i ch u
  | s_hdrline_hdr_done => run_s_hdrline_hdr_done p i ch u
  | s_hdrline_almost_done => run_s_hdrline_almost_done p i ch u
  | s_hdrline_done => run_s_hdrline_done p i ch u
  | s_chunk_size_start => run_s_chunk_size_start p i ch u
  | s_chunk_size => run_s_chunk_size p i ch u
  | s_chunk_size_almost_done => run_s_chunk_size_almost_done p i ch u
  | s_chunk_data => run_s_chunk_data p i ch u
  | s_chunk_data_almost_done => run_s_chunk_data_almost_done p i ch u
  | s_chunk_data_done => run_s_chunk_data_done p i ch u
  | s_body_read => run_s_body_read p i ch u
  end.

(** The head of the loop body. *)
Definition run_byte (p : htparser) (i : Z) (u : U) : step :=
  if PARSER_STACK_MAX <=? ht_buf_idx p then stop htparse_error_too_big p i u
  else
    let p := set_total_bytes_read (u64 (ht_total_bytes_read p + 1)) p in
    let p := set_bytes_read (u64 (ht_bytes_read p + 1)) p in
    run_switch p i (zth data i) u.

(** How a call ends. *)
Inductive run_result :=
  | Returned (p : htparser) (u : U) (n : Z)
  | Buffer_overrun
  | Out_of_fuel.

(** for (i = 0; i < len; i++) *)
Fixpoint run_loop (fuel : nat) (p : htparser) (i : Z) (u : U) : run_result :=
  if len <=? i then Returned p u i
  else match fuel with
       | O => Out_of_fuel
       | S f =>
           match run_byte p i u with
           | Continue p' i' u' => run_loop f p' (i' + 1) u'
           | Stop p' n u' => Returned p' u' n
           | Overrun => Buffer_overrun
           end
       end.

(** s_hdrline_done looks at a byte twice, so two turns per byte are enough. *)
Definition htparser_run (p : htparser) (u : U) : run_result :=
  run_loop (2 * length data) (set_bytes_read 0 (set_error htparse_error_none p)) 0 u.
End Run.

Arguments hook_result U : clear implicits.
Arguments htparse_hooks U : clear implicits.
Arguments step U : clear implicits.
Arguments run_result U : clear implicits.
