(* ===== verification/HtSafety.v ===== *)
(** htparse.c, safety of htparser_run.

    - the invariant [ht_wf] of the parser object: the buffer has its size and
      holds bytes, the index points into it, every counter is in the range of
      its type, and the states that read a body have something to read;
    - [run_byte_ok]: one turn of the loop keeps the invariant and moves forward;
    - the theorems about a whole call: it always ends, it returns a count within
      the data, and it leaves the buffer only through the terminating NUL. *)
From S2P Require Import Prelude HtParse.

(** * The invariant *)

Definition offset_ok (o : option Z) : Prop :=
  match o with Some z => 0 <= z < PARSER_STACK_MAX | None => True end.

(** The fields, whatever the state. *)
Record ht_fields (p : htparser) : Prop := {
  wf_len : zlen (ht_buf p) = PARSER_STACK_MAX;
  wf_bytes : Forall is_byte (ht_buf p);
  wf_idx : 0 <= ht_buf_idx p < PARSER_STACK_MAX;
  wf_flags : 0 <= ht_flags p < 2 ^ 5;
  wf_multipart : 0 <= ht_multipart p < 256;
  wf_major : 0 <= ht_major p < 256;
  wf_minor : 0 <= ht_minor p < 256;
  wf_content_len : 0 <= ht_content_len p < 2 ^ 64;
  wf_bytes_read : 0 <= ht_bytes_read p < 2 ^ 64;
  wf_total : 0 <= ht_total_bytes_read p < 2 ^ 64;
  wf_status : 0 <= ht_status p < 2 ^ 32;
  wf_status_count : 0 <= ht_status_count p < 2 ^ 32;
  wf_scheme_offset : offset_ok (ht_scheme_offset p);
  wf_host_offset : offset_ok (ht_host_offset p);
  wf_port_offset : offset_ok (ht_port_offset p);
  wf_path_offset : offset_ok (ht_path_offset p);
  wf_args_offset : offset_ok (ht_args_offset p)
}.

(** What a state promises about the length to read.  The state s_hdrline_done
    is never entered. *)
Definition state_ok (p : htparser) : Prop :=
  match ht_state p with
  | s_hdrline_done => False
  | s_chunk_data => 0 < ht_content_len p
  | s_body_read =>
      has_flag (ht_flags p) parser_flag_content_length = true -> 0 < ht_content_len p
  | _ => True
  end.

Definition ht_wf (p : htparser) : Prop := ht_fields p /\ state_ok p.

Create HintDb ht.
#[export] Hint Constants Opaque : ht.

(** ** The fields through assignments *)

Ltac fields_solve := intros []; constructor; ht_setters; auto.

Lemma fields_set_error v p : ht_fields p -> ht_fields (set_error v p).
Proof. fields_solve. Qed.
Lemma fields_set_state v p : ht_fields p -> ht_fields (set_state v p).
Proof. fields_solve. Qed.
Lemma fields_set_flags v p : ht_fields p -> 0 <= v < 2 ^ 5 -> ht_fields (set_flags v p).
Proof. fields_solve. Qed.
Lemma fields_set_heval v p : ht_fields p -> ht_fields (set_heval v p).
Proof. fields_solve. Qed.
Lemma fields_set_scheme v p : ht_fields p -> ht_fields (set_scheme v p).
Proof. fields_solve. Qed.
Lemma fields_set_method v p : ht_fields p -> ht_fields (set_method v p).
Proof. fields_solve. Qed.
Lemma fields_set_multipart v p :
  ht_fields p -> 0 <= v < 256 -> ht_fields (set_multipart v p).
Proof. fields_solve. Qed.
Lemma fields_set_major v p : ht_fields p -> ht_fields (set_major (u8 v) p).
Proof. fields_solve; auto with bytes. Qed.
Lemma fields_set_minor v p : ht_fields p -> ht_fields (set_minor (u8 v) p).
Proof. fields_solve; auto with bytes. Qed.
Lemma fields_set_minor_9 p : ht_fields p -> ht_fields (set_minor 9 p).
Proof. fields_solve; lia. Qed.
Lemma fields_set_content_len v p :
  ht_fields p -> 0 <= v < 2 ^ 64 -> ht_fields (set_content_len v p).
Proof. fields_solve. Qed.
Lemma fields_set_bytes_read v p :
  ht_fields p -> 0 <= v < 2 ^ 64 -> ht_fields (set_bytes_read v p).
Proof. fields_solve. Qed.
Lemma fields_set_total v p :
  ht_fields p -> 0 <= v < 2 ^ 64 -> ht_fields (set_total_bytes_read v p).
Proof. fields_solve. Qed.
Lemma fields_set_status v p : ht_fields p -> 0 <= v < 2 ^ 32 -> ht_fields (set_status v p).
Proof. fields_solve. Qed.
Lemma fields_set_status_count v p :
  ht_fields p -> 0 <= v < 2 ^ 32 -> ht_fields (set_status_count v p).
Proof. fields_solve. Qed.
Lemma fields_set_buf_idx_0 p : ht_fields p -> ht_fields (set_buf_idx 0 p).
Proof. fields_solve; unfold PARSER_STACK_MAX; lia. Qed.
Lemma fields_set_scheme_offset v p :
  ht_fields p -> offset_ok v -> ht_fields (set_scheme_offset v p).
Proof. fields_solve. Qed.
Lemma fields_set_host_offset v p :
  ht_fields p -> offset_ok v -> ht_fields (set_host_offset v p).
Proof. fields_solve. Qed.
Lemma fields_set_port_offset v p :
  ht_fields p -> offset_ok v -> ht_fields (set_port_offset v p).
Proof. fields_solve. Qed.
Lemma fields_set_path_offset v p :
  ht_fields p -> offset_ok v -> ht_fields (set_path_offset v p).
Proof. fields_solve. Qed.
Lemma fields_set_args_offset v p :
  ht_fields p -> offset_ok v -> ht_fields (set_args_offset v p).
Proof. fields_solve. Qed.

Lemma fields_add_flag f p :
  ht_fields p -> 0 <= f < 2 ^ 5 -> ht_fields (add_flag f p).
Proof.
  intros Hp Hf. apply fields_set_flags; [done|].
  apply lor_range; [lia|apply Hp|done].
Qed.

Lemma here_ok p : ht_fields p -> offset_ok (here p).
Proof. intros []. done. Qed.

Lemma u32_range z : 0 <= u32 z < 2 ^ 32.
Proof. apply Z.mod_pos_bound. lia. Qed.

#[export] Hint Resolve fields_set_error fields_set_state fields_set_flags
  fields_set_heval fields_set_scheme fields_set_method fields_set_multipart
  fields_set_major fields_set_minor fields_set_minor_9 fields_set_content_len
  fields_set_bytes_read fields_set_total fields_set_status fields_set_status_count
  fields_set_buf_idx_0 fields_set_scheme_offset fields_set_host_offset
  fields_set_port_offset fields_set_path_offset fields_set_args_offset
  fields_add_flag here_ok u32_range u64_range u8_range : ht.
#[export] Hint Extern 5 (_ <= _ < _) =>
  unfold parser_flag_chunked, parser_flag_trailing, parser_flag_content_length; lia : ht.

(** ** The buffer *)

Lemma Forall_insert_byte n b l : Forall is_byte l -> is_byte b -> Forall is_byte (<[n:=b]> l).
Proof. intros. by apply Forall_insert. Qed.

(** Storing a byte moves the index by one; it fails at the last position. *)
Lemma append_cases ch p :
  ht_fields p -> is_byte ch ->
  match append ch p with
  | Some p' =>
      ht_fields p' /\ ht_buf_idx p' = ht_buf_idx p + 1 /\
      p' = set_buf_idx (ht_buf_idx p') (set_buf (ht_buf p') p)
  | None => ht_buf_idx p = PARSER_STACK_MAX - 1
  end.
Proof.
  intros Hp Hch. unfold append. destruct (Z.ltb_spec (ht_buf_idx p + 1) PARSER_STACK_MAX).
  - split; [|done].
    destruct Hp. constructor; ht_setters; auto; try lia.
    + unfold zlen in *. rewrite !length_insert. done.
    + repeat apply Forall_insert_byte; auto; unfold is_byte; lia.
  - pose proof (wf_idx p Hp). lia.
Qed.

(** ** Numbers *)

Lemma str_to_uint64_loop_range s v w :
  0 <= v < 2 ^ 64 -> str_to_uint64_loop v s = Some w -> 0 <= w < 2 ^ 64.
Proof.
  revert v. induction s as [|c s IH]; simpl; intros v Hv Hw; [congruence|].
  repeat case_match; try done. eapply IH; [|exact Hw]. apply u64_range.
Qed.

Lemma str_to_uint64_range s v : str_to_uint64 s = Some v -> 0 <= v < 2 ^ 64.
Proof.
  unfold str_to_uint64. case_match; [done|]. apply str_to_uint64_loop_range. lia.
Qed.

(** ** Hooks *)

(** A hook changes nothing but the version numbers. *)
Definition hooked (p p' : htparser) : Prop :=
  exists M m, 0 <= M < 256 /\ 0 <= m < 256 /\ p' = set_minor m (set_major M p).

Lemma hooked_refl p : ht_fields p -> hooked p p.
Proof. intros []. exists (ht_major p), (ht_minor p). destruct p. auto. Qed.

Lemma fields_hooked p p' : ht_fields p -> hooked p p' -> ht_fields p'.
Proof.
  intros Hp (M & m & HM & Hm & ->).
  rewrite <- (u8_small M), <- (u8_small m) by done. auto with ht.
Qed.

Section Hooks.
Context {U : Type}.

Lemma after_hook_hooked (r : hook_result U) p : ht_fields p -> hooked p (after_hook r p).
Proof.
  intros Hp. pose proof (wf_major p Hp). pose proof (wf_minor p Hp).
  unfold after_hook, htparser_set_major, htparser_set_minor.
  destruct (hr_major r) as [M|], (hr_minor r) as [m|].
  - exists (u8 M), (u8 m). auto with bytes.
  - exists (u8 M), (ht_minor p). refine (conj _ (conj _ _)); auto with bytes.
  - exists (ht_major p), (u8 m). destruct p. refine (conj _ (conj _ _)); auto with bytes.
  - by apply hooked_refl.
Qed.

Lemma run_hook_hooked (h : option (htparse_hook)) p (u : U) :
  ht_fields p -> hooked p (run_hook h p u).1.2.
Proof. intros. destruct h; simpl; auto using after_hook_hooked, hooked_refl. Qed.

Lemma run_data_hook_hooked (h : option (htparse_data_hook)) o n p (u : U) :
  ht_fields p -> hooked p (run_data_hook h o n p u).1.2.
Proof. intros. destruct h; simpl; auto using after_hook_hooked, hooked_refl. Qed.

Lemma run_body_hook_hooked (hooks : htparse_hooks U) bs p (u : U) :
  ht_fields p -> hooked p (run_body_hook hooks bs p u).1.2.
Proof.
  intros. unfold run_body_hook. destruct (h_body hooks); simpl;
    auto using after_hook_hooked, hooked_refl.
Qed.
End Hooks.

(** * One turn of the loop *)

(** Read a field through assignments; for goals about fields only. *)
Ltac ht_read :=
  cbn [ht_error ht_state ht_flags ht_heval ht_type ht_scheme ht_method ht_multipart
       ht_major ht_minor ht_content_len ht_bytes_read ht_total_bytes_read ht_status
       ht_status_count ht_buf ht_buf_idx ht_scheme_offset ht_host_offset
       ht_port_offset ht_path_offset ht_args_offset
       set_error set_state set_flags set_heval set_scheme set_method set_multipart
       set_major set_minor set_content_len set_bytes_read set_total_bytes_read
       set_status set_status_count set_buf set_buf_idx set_scheme_offset
       set_host_offset set_port_offset set_path_offset set_args_offset add_flag].
Tactic Notation "ht_read" "in" hyp(H) :=
  cbn [ht_error ht_state ht_flags ht_heval ht_type ht_scheme ht_method ht_multipart
       ht_major ht_minor ht_content_len ht_bytes_read ht_total_bytes_read ht_status
       ht_status_count ht_buf ht_buf_idx ht_scheme_offset ht_host_offset
       ht_port_offset ht_path_offset ht_args_offset
       set_error set_state set_flags set_heval set_scheme set_method set_multipart
       set_major set_minor set_content_len set_bytes_read set_total_bytes_read
       set_status set_status_count set_buf set_buf_idx set_scheme_offset
       set_host_offset set_port_offset set_path_offset set_args_offset add_flag] in H.

Section Step.
Context {U : Type} (hooks : htparse_hooks U) (data : list Z).

(** What a turn at index [i] from buffer index [k] gives. *)
Definition step_ok (k i : Z) (st : step U) : Prop :=
  match st with
  | Continue p' i' _ =>
      ht_wf p' /\ ht_error p' = htparse_error_none /\ i <= i' < zlen data /\
      ht_buf_idx p' <= k + 1
  | Stop p' n _ =>
      ht_wf p' /\ i < n <= zlen data /\
      (ht_error p' = htparse_error_none ->
       zth data (n - 1) = LF /\ (ht_state p' = s_done \/ ht_state p' = s_hdrline_hdr_done)) /\
      (ht_error p' = htparse_error_too_big ->
       ht_state p' = s_hdrline_hdr_val /\ ht_heval p' = eval_hdr_val_content_length)
  | Overrun => k = PARSER_STACK_MAX - 1
  end.

Lemma continue_ok k i i' p u :
  ht_fields p -> state_ok p -> ht_error p = htparse_error_none ->
  i <= i' < zlen data -> ht_buf_idx p <= k + 1 ->
  step_ok k i (Continue p i' u).
Proof. intros Hp Hs He Hi Hk. exact (conj (conj Hp Hs) (conj He (conj Hi Hk))). Qed.

Lemma stop_ok e k i i' p u :
  ht_fields p -> state_ok p -> e <> htparse_error_none -> e <> htparse_error_too_big ->
  i <= i' < zlen data -> step_ok k i (stop e p i' u).
Proof.
  intros Hp Hs He1 He2 Hi. unfold stop, step_ok, ht_wf.
  refine (conj (conj _ _) (conj _ (conj _ _))); [auto with ht|exact Hs|lia|done..].
Qed.

Lemma check_user_ok res k i i' p u :
  ht_fields p -> state_ok p -> ht_error p = htparse_error_none ->
  i <= i' < zlen data -> ht_buf_idx p <= k + 1 ->
  step_ok k i (check_user res p i' u).
Proof.
  intros. unfold check_user. case_match; [by apply continue_ok|by apply stop_ok].
Qed.

(** A Content-Length that is not a number is the one error too_big. *)
Lemma stop_too_big_ok k i p u :
  ht_fields p -> state_ok p -> 0 <= i < zlen data ->
  ht_state p = s_hdrline_hdr_val -> ht_heval p = eval_hdr_val_content_length ->
  step_ok k i (stop htparse_error_too_big p i u).
Proof.
  intros Hp Hs Hi Hst Hh. unfold stop, step_ok, ht_wf.
  refine (conj (conj _ _) (conj _ (conj _ _))); [auto with ht|exact Hs|lia|done|by split].
Qed.

(** Storing a byte, then [f]. *)
Lemma put_ok k i ch p (f : htparser -> step U) :
  ht_fields p -> is_byte ch -> ht_buf_idx p <= k -> k < PARSER_STACK_MAX ->
  (forall b n, n = ht_buf_idx p + 1 -> ht_fields (set_buf_idx n (set_buf b p)) ->
     step_ok k i (f (set_buf_idx n (set_buf b p)))) ->
  step_ok k i (put ch p f).
Proof.
  intros Hp Hch Hk HM Hf. unfold put. pose proof (append_cases ch p Hp Hch) as H.
  destruct (append ch p) as [p'|]; [|simpl; lia].
  destruct H as (Hp' & Hn & He). rewrite He. apply Hf; [done|]. by rewrite <- He.
Qed.

#[local] Hint Extern 4 (offset_ok (Some _)) =>
  ht_read; unfold offset_ok, PARSER_STACK_MAX in *; lia : ht.

(** An LF in place of a header line ends the call without an error. *)
Lemma blank_line_ok k i p u :
  ht_fields p -> state_ok p -> 0 <= i < zlen data -> (zth data i =? LF) = true ->
  ht_error p = htparse_error_none -> ht_state p = s_done \/ ht_state p = s_hdrline_hdr_done ->
  step_ok k i (Stop p (i + 1) u).
Proof.
  intros Hp Hs Hi Hch He Hst. apply Z.eqb_eq in Hch.
  refine (conj (conj Hp Hs) (conj _ (conj _ _))); [lia| |congruence].
  intros _. replace (i + 1 - 1) with i by lia. done.
Qed.

(** The header values change flags only, or the multipart mark. *)
Lemma eval_connection_flags p :
  ht_fields p -> exists f, 0 <= f < 2 ^ 5 /\ eval_connection p = set_flags f p.
Proof.
  intros Hp. unfold eval_connection, add_flag.
  assert (Hor : forall b, 0 <= b < 2 ^ 5 -> 0 <= Z.lor (ht_flags p) b < 2 ^ 5).
  { intros. apply lor_range; [lia|apply Hp|done]. }
  repeat case_match; try (eexists; split; [|reflexivity]; apply Hor; by compute);
    exists (ht_flags p); (split; [apply Hp|by destruct p]).
Qed.

Lemma eval_content_type_multipart p :
  ht_fields p -> exists v, 0 <= v < 256 /\ eval_content_type p = set_multipart v p.
Proof.
  intros Hp. unfold eval_content_type.
  repeat case_match; try (exists 1; split; [lia|reflexivity]);
    exists (ht_multipart p); (split; [apply Hp|by destruct p]).
Qed.

(** Case on the first test; the result of a hook is replaced by what is known
    of it. *)
Ltac hook_known Hh :=
  cbn [fst snd] in Hh;
  match type of Hh with
  | ?P -> _ =>
      let HP := fresh "HP" in let Hp1 := fresh "Hp1" in
      assert (HP : P) by auto 20 with ht;
      specialize (Hh HP); pose proof (fields_hooked _ _ HP Hh) as Hp1; clear HP
  end;
  destruct Hh as (? & ? & _ & _ & ->).

Ltac test_case t :=
  let Hh := fresh "Hh" in let res := fresh "res" in
  let p1 := fresh "p1" in let u1 := fresh "u1" in
  match t with
  | run_hook ?h ?p ?u =>
      pose proof (run_hook_hooked h p u) as Hh;
      destruct (run_hook h p u) as [[res p1] u1]; hook_known Hh
  | run_data_hook ?h ?o ?n ?p ?u =>
      pose proof (run_data_hook_hooked h o n p u) as Hh;
      destruct (run_data_hook h o n p u) as [[res p1] u1]; hook_known Hh
  | run_body_hook ?h ?b ?p ?u =>
      pose proof (run_body_hook_hooked h b p u) as Hh;
      destruct (run_body_hook h b p u) as [[res p1] u1]; hook_known Hh
  | _ => destruct t eqn:?
  end.

Ltac step_side :=
  match goal with
  | |- ht_fields _ => solve [auto 20 with ht]
  | |- state_ok _ =>
      solve [exact I
            | unfold state_ok, after_value; ht_read;
              match goal with |- context [if ?b then _ else _] => destruct b; exact I end
            | unfold state_ok in *; ht_read;
              match goal with H : ht_state _ = _ |- _ => rewrite H in * end; done]
  | |- _ <> _ => discriminate
  | |- is_byte _ => assumption
  | |- _ \/ _ => solve [auto]
  | |- _ => ht_read; unfold PARSER_STACK_MAX in *; first [assumption | reflexivity | lia]
  end.

Ltac step_go :=
  repeat (cbn beta zeta;
    match goal with
    | |- step_ok _ _ (Continue _ _ _) => apply continue_ok
    | |- step_ok _ _ (goto _ _ _ _) => apply continue_ok
    | |- step_ok _ _ (stop _ _ _ _) => apply stop_ok
    | |- step_ok _ _ (check_user _ _ _ _) => apply check_user_ok
    | |- step_ok _ _ (put_goto _ _ _ _ _) => unfold put_goto
    | |- step_ok _ _ (put_stay _ _ _ _) => unfold put_stay
    | |- step_ok _ _ (put _ _ _) =>
        apply put_ok; [..|let b := fresh "b" in let n := fresh "n" in
                          let Hn := fresh "Hn" in intros b n Hn ?; ht_read in Hn]
    | |- step_ok _ _ (Stop _ _ _) => apply blank_line_ok
    | |- step_ok _ _ (msg_complete _ _ _ _) => unfold msg_complete
    | |- step_ok _ _ (uri_done _ _ _ _ _ _ _) => unfold uri_done
    | |- step_ok _ _ ?st =>
        match st with
        | context [find_method ?b ?n] => destruct (find_method b n)
        | match ?x with _ => _ end => let t := first_test x in test_case t
        end
    end);
  try step_side.

(** Where a turn of the loop starts. *)
Definition turn (p : htparser) (i : Z) : Prop :=
  ht_fields p /\ state_ok p /\ ht_error p = htparse_error_none /\ 0 <= i < zlen data /\
  is_byte (zth data i) /\ 0 <= ht_buf_idx p < PARSER_STACK_MAX.

Ltac case_solve def :=
  let Hp := fresh "Hp" in
  intros ? (Hp & ? & ? & ? & ? & ?); unfold def; step_go.

Lemma s_start_ok p i u :
  ht_state p = s_start -> turn p i ->
  step_ok (ht_buf_idx p) i (run_s_start hooks p i (zth data i) u).
Proof. case_solve @run_s_start. Qed.
Lemma s_method_ok p i u :
  ht_state p = s_method -> turn p i ->
  step_ok (ht_buf_idx p) i (run_s_method hooks p i (zth data i) u).
Proof. case_solve @run_s_method. Qed.
Lemma s_spaces_before_uri_ok p i u :
  ht_state p = s_spaces_before_uri -> turn p i ->
  step_ok (ht_buf_idx p) i (run_s_spaces_before_uri p i (zth data i) u).
Proof. case_solve @run_s_spaces_before_uri. Qed.
Lemma s_schema_ok p i u :
  ht_state p = s_schema -> turn p i ->
  step_ok (ht_buf_idx p) i (run_s_schema hooks p i (zth data i) u).
Proof. case_solve @run_s_schema. Qed.
Lemma s_schema_slash_ok p i u :
  ht_state p = s_schema_slash -> turn p i ->
  step_ok (ht_buf_idx p) i (run_s_schema_slash p i (zth data i) u).
Proof. case_solve @run_s_schema_slash. Qed.
Lemma s_schema_slash_slash_ok p i u :
  ht_state p = s_schema_slash_slash -> turn p i ->
  step_ok (ht_buf_idx p) i (run_s_schema_slash_slash p i (zth data i) u).
Proof. case_solve @run_s_schema_slash_slash. Qed.
Lemma s_host_ok p i u :
  ht_state p = s_host -> turn p i ->
  step_ok (ht_buf_idx p) i (run_s_host hooks p i (zth data i) u).
Proof. case_solve @run_s_host. Qed.
Lemma s_port_ok p i u :
  ht_state p = s_port -> turn p i ->
  step_ok (ht_buf_idx p) i (run_s_port hooks p i (zth data i) u).
Proof. case_solve @run_s_port. Qed.
Lemma s_after_slash_in_uri_ok p i u :
  ht_state p = s_after_slash_in_uri -> turn p i ->
  step_ok (ht_buf_idx p) i (run_s_after_slash_in_uri hooks p i (zth data i) u).
Proof. case_solve @run_s_after_slash_in_uri. Qed.
Lemma s_check_uri_ok p i u :
  ht_state p = s_check_uri -> turn p i ->
  step_ok (ht_buf_idx p) i (run_s_check_uri hooks p i (zth data i) u).
Proof. case_solve @run_s_check_uri. Qed.
Lemma s_uri_ok p i u :
  ht_state p = s_uri -> turn p i ->
  step_ok (ht_buf_idx p) i (run_s_uri hooks p i (zth data i) u).
Proof. case_solve @run_s_uri. Qed.
Lemma s_http_09_ok p i u :
  ht_state p = s_http_09 -> turn p i ->
  step_ok (ht_buf_idx p) i (run_s_http_09 p i (zth data i) u).
Proof. case_solve @run_s_http_09. Qed.
Lemma s_first_major_digit_ok p i u :
  ht_state p = s_first_major_digit -> turn p i ->
  step_ok (ht_buf_idx p) i (run_s_first_major_digit p i (zth data i) u).
Proof. case_solve @run_s_first_major_digit. Qed.
Lemma s_major_digit_ok p i u :
  ht_state p = s_major_digit -> turn p i ->
  step_ok (ht_buf_idx p) i (run_s_major_digit p i (zth data i) u).
Proof. case_solve @run_s_major_digit. Qed.
Lemma s_first_minor_digit_ok p i u :
  ht_state p = s_first_minor_digit -> turn p i ->
  step_ok (ht_buf_idx p) i (run_s_first_minor_digit p i (zth data i) u).
Proof. case_solve @run_s_first_minor_digit. Qed.
Lemma s_minor_digit_ok p i u :
  ht_state p = s_minor_digit -> turn p i ->
  step_ok (ht_buf_idx p) i (run_s_minor_digit p i (zth data i) u).
Proof. case_solve @run_s_minor_digit. Qed.
Lemma s_status_ok p i u :
  ht_state p = s_status -> turn p i ->
  step_ok (ht_buf_idx p) i (run_s_status p i (zth data i) u).
Proof. case_solve @run_s_status. Qed.
Lemma s_space_after_status_ok p i u :
  ht_state p = s_space_after_status -> turn p i ->
  step_ok (ht_buf_idx p) i (run_s_space_after_status p i (zth data i) u).
Proof. case_solve @run_s_space_after_status. Qed.
Lemma s_status_text_ok p i u :
  ht_state p = s_status_text -> turn p i ->
  step_ok (ht_buf_idx p) i (run_s_status_text p i (zth data i) u).
Proof. case_solve @run_s_status_text. Qed.
Lemma s_spaces_after_digit_ok p i u :
  ht_state p = s_spaces_after_digit -> turn p i ->
  step_ok (ht_buf_idx p) i (run_s_spaces_after_digit p i (zth data i) u).
Proof. case_solve @run_s_spaces_after_digit. Qed.
Lemma s_almost_done_ok p i u :
  ht_state p = s_almost_done -> turn p i ->
  step_ok (ht_buf_idx p) i (run_s_almost_done hooks p i (zth data i) u).
Proof. case_solve @run_s_almost_done. Qed.
Lemma s_hdrline_start_ok p i u :
  turn p i ->
  step_ok (ht_buf_idx p) i (run_s_hdrline_start p i (zth data i) u).
Proof. intros (Hp & ? & ? & ? & ? & ?). unfold run_s_hdrline_start. step_go. Qed.
Lemma s_done_ok p i u :
  ht_state p = s_done -> turn p i ->
  step_ok (ht_buf_idx p) i (run_s_done hooks p i (zth data i) u).
Proof.
  intros Hst Ht. destruct (Ht) as (Hp & ? & ? & ? & ? & ?). unfold run_s_done. step_go.
  by apply s_hdrline_start_ok.
Qed.
Lemma s_hdrline_hdr_key_ok p i u :
  ht_state p = s_hdrline_hdr_key -> turn p i ->
  step_ok (ht_buf_idx p) i (run_s_hdrline_hdr_key hooks p i (zth data i) u).
Proof. case_solve @run_s_hdrline_hdr_key. Qed.
Lemma s_hdrline_hdr_space_before_val_ok p i u :
  ht_state p = s_hdrline_hdr_space_before_val -> turn p i ->
  step_ok (ht_buf_idx p) i (run_s_hdrline_hdr_space_before_val hooks p i (zth data i) u).
Proof. case_solve @run_s_hdrline_hdr_space_before_val. Qed.
Lemma value_end_ok p i u :
  ht_state p = s_hdrline_hdr_val -> turn p i ->
  step_ok (ht_buf_idx p) i (run_value_end hooks p i (zth data i) u).
Proof.
  intros Hst (Hp & ? & ? & ? & ? & ?). unfold run_value_end.
  match goal with |- context [run_data_hook ?h ?o ?n ?p ?u] =>
    test_case (run_data_hook h o n p u) end.
  cbn zeta. destruct (ht_heval _) eqn:Hev; try solve [step_go].
  - destruct (eval_connection_flags _ Hp1) as (? & ? & ->). step_go.
  - match goal with |- context [str_to_uint64 ?s] => destruct (str_to_uint64 s) eqn:Hv end.
    + apply str_to_uint64_range in Hv. step_go.
    + apply stop_too_big_ok; step_side.
  - destruct (strcasecmp_eq _ _); step_go.
  - destruct (eval_content_type_multipart _ Hp1) as (? & ? & ->). step_go.
Qed.

Lemma s_hdrline_hdr_val_ok p i u :
  ht_state p = s_hdrline_hdr_val -> turn p i ->
  step_ok (ht_buf_idx p) i (run_s_hdrline_hdr_val hooks p i (zth data i) u).
Proof.
  intros Hst Ht. destruct (Ht) as (Hp & ? & ? & ? & ? & ?). unfold run_s_hdrline_hdr_val.
  destruct (_ || _); [by apply value_end_ok|step_go].
Qed.
Lemma s_hdrline_hdr_almost_done_ok p i u :
  ht_state p = s_hdrline_hdr_almost_done -> turn p i ->
  step_ok (ht_buf_idx p) i (run_s_hdrline_hdr_almost_done hooks p i (zth data i) u).
Proof. case_solve @run_s_hdrline_hdr_almost_done. Qed.
Lemma s_hdrline_hdr_done_ok p i u :
  ht_state p = s_hdrline_hdr_done -> turn p i ->
  step_ok (ht_buf_idx p) i (run_s_hdrline_hdr_done hooks p i (zth data i) u).
Proof. case_solve @run_s_hdrline_hdr_done. Qed.
Lemma s_hdrline_almost_done_ok p i u :
  ht_state p = s_hdrline_almost_done -> turn p i ->
  step_ok (ht_buf_idx p) i (run_s_hdrline_almost_done hooks p i (zth data i) u).
Proof.
  intros Hst (Hp & ? & ? & ? & ? & ?). pose proof (wf_content_len p Hp).
  unfold run_s_hdrline_almost_done. step_go;
    repeat match goal with Hb : _ = _ |- _ => progress (ht_read in Hb) end; zbool;
    unfold state_ok; ht_read; try lia; try congruence.
Qed.

Lemma proto_ok c next p i u :
  state_ok (set_state next p) -> turn p i ->
  step_ok (ht_buf_idx p) i (run_proto c next p i (zth data i) u).
Proof. case_solve @run_proto. Qed.

(** ** Bodies *)

Lemma unhex_val_range ch : -1 <= unhex_val ch <= 15.
Proof.
  unfold unhex_val, zth. destruct (_ <? 0); [lia|].
  assert (Hall : Forall (fun v => -1 <= v <= 15) unhex).
  { unfold unhex. repeat constructor; lia. }
  destruct (nth_in_or_default (Z.to_nat (u8 ch)) unhex 0) as [Hin| ->]; [|lia].
  rewrite List.Forall_forall in Hall. by apply Hall.
Qed.

Lemma s_chunk_size_start_ok p i u :
  ht_state p = s_chunk_size_start -> turn p i ->
  step_ok (ht_buf_idx p) i (run_s_chunk_size_start p i (zth data i) u).
Proof.
  pose proof (unhex_val_range (zth data i)). intros ? (Hp & ? & ? & ? & ? & ?).
  unfold run_s_chunk_size_start.
  destruct (Z.eqb_spec (unhex_val (zth data i)) (-1)); step_go.
Qed.

Lemma s_chunk_size_ok p i u :
  ht_state p = s_chunk_size -> turn p i ->
  step_ok (ht_buf_idx p) i (run_s_chunk_size p i (zth data i) u).
Proof. case_solve @run_s_chunk_size. Qed.

Lemma s_chunk_size_almost_done_ok p i u :
  ht_state p = s_chunk_size_almost_done -> turn p i ->
  step_ok (ht_buf_idx p) i (run_s_chunk_size_almost_done hooks p i (zth data i) u).
Proof.
  intros ? (Hp & ? & ? & ? & ? & ?). pose proof (wf_content_len p Hp).
  unfold run_s_chunk_size_almost_done. step_go.
  unfold state_ok. ht_read. zbool. lia.
Qed.

Lemma s_chunk_data_almost_done_ok p i u :
  ht_state p = s_chunk_data_almost_done -> turn p i ->
  step_ok (ht_buf_idx p) i (run_s_chunk_data_almost_done p i (zth data i) u).
Proof. case_solve @run_s_chunk_data_almost_done. Qed.

Lemma s_chunk_data_done_ok p i u :
  ht_state p = s_chunk_data_done -> turn p i ->
  step_ok (ht_buf_idx p) i (run_s_chunk_data_done hooks p i (zth data i) u).
Proof. case_solve @run_s_chunk_data_done. Qed.

(** A chunk: the piece that is there is handed on; the end of the chunk changes
    the state. *)
Lemma s_chunk_data_ok p i u :
  ht_state p = s_chunk_data -> turn p i ->
  step_ok (ht_buf_idx p) i (run_s_chunk_data hooks data p i (zth data i) u).
Proof.
  intros Hst (Hp & Hs & ? & ? & ? & ?). pose proof (wf_content_len p Hp).
  unfold state_ok in Hs. rewrite Hst in Hs.
  unfold run_s_chunk_data, len. cbn zeta.
  destruct (Z.ltb_spec 0 (Z.min (zlen data - i) (ht_content_len p))); [|lia].
  match goal with |- context [run_body_hook ?h ?b ?p ?u] =>
    test_case (run_body_hook h b p u) end.
  cbn beta zeta iota. ht_read.
  destruct (Z.eqb_spec (Z.min (zlen data - i) (ht_content_len p)) (ht_content_len p)); step_go.
  unfold state_ok. ht_read. rewrite Hst, u64_small by lia. lia.
Qed.

Lemma s_body_read_ok p i u :
  ht_state p = s_body_read -> turn p i ->
  step_ok (ht_buf_idx p) i (run_s_body_read hooks data p i (zth data i) u).
Proof.
  intros Hst (Hp & Hs & ? & ? & ? & ?). pose proof (wf_content_len p Hp).
  unfold state_ok in Hs. rewrite Hst in Hs.
  unfold run_s_body_read, len. cbn zeta.
  destruct (has_flag (ht_flags p) parser_flag_content_length) eqn:Hfl.
  - specialize (Hs eq_refl).
    destruct (Z.ltb_spec 0 (Z.min (zlen data - i) (ht_content_len p))); [|lia].
    step_go; ht_read; try lia.
    match goal with Hb : _ && _ = false |- _ => ht_read in Hb; rewrite Hfl in Hb end.
    unfold state_ok. ht_read. rewrite Hst. intros _. zbool.
    match goal with Hb : _ && _ = false |- _ => simpl in Hb end. zbool.
    pose proof (u64_range (ht_content_len p - Z.min (zlen data - i) (ht_content_len p))). lia.
  - destruct (Z.ltb_spec 0 (zlen data - i)); [|lia].
    step_go; ht_read; try lia.
    unfold state_ok. ht_read. rewrite Hst, Hfl. done.
Qed.

(** ** The switch and the head of the loop *)

Lemma run_switch_ok p i u :
  turn p i -> step_ok (ht_buf_idx p) i (run_switch hooks data p i (zth data i) u).
Proof.
  intros Ht. unfold run_switch.
  destruct (ht_state p) eqn:Hst;
    eauto using s_start_ok, s_method_ok, s_spaces_before_uri_ok, s_schema_ok,
      s_schema_slash_ok, s_schema_slash_slash_ok, s_host_ok, s_port_ok,
      s_after_slash_in_uri_ok, s_check_uri_ok, s_uri_ok, s_http_09_ok.
  all: eauto using s_first_major_digit_ok, s_major_digit_ok, s_first_minor_digit_ok,
      s_minor_digit_ok, s_status_ok, s_space_after_status_ok, s_status_text_ok,
      s_spaces_after_digit_ok, s_almost_done_ok, s_done_ok, s_hdrline_start_ok,
      s_hdrline_hdr_key_ok, s_hdrline_hdr_space_before_val_ok, s_hdrline_hdr_val_ok.
  all: eauto using s_hdrline_hdr_almost_done_ok, s_hdrline_hdr_done_ok,
      s_hdrline_almost_done_ok, s_chunk_size_start_ok, s_chunk_size_ok,
      s_chunk_size_almost_done_ok, s_chunk_data_ok, s_chunk_data_almost_done_ok,
      s_chunk_data_done_ok, s_body_read_ok.
  1-4: by apply proto_ok.
  destruct Ht as (_ & Hs & _). unfold state_ok in Hs. by rewrite Hst in Hs.
Qed.

(** The test of the buffer index at the head of the loop never fires. *)
Lemma run_byte_ok p i u :
  Forall is_byte data -> ht_wf p -> ht_error p = htparse_error_none ->
  0 <= i < zlen data -> step_ok (ht_buf_idx p) i (run_byte hooks data p i u).
Proof.
  intros Hd [Hp Hs] He Hi. unfold run_byte. pose proof (wf_idx p Hp).
  destruct (Z.leb_spec PARSER_STACK_MAX (ht_buf_idx p)); [lia|].
  match goal with |- step_ok _ _ (run_switch _ _ ?q _ _ _) => apply (run_switch_ok q) end.
  refine (conj _ (conj Hs (conj He (conj Hi (conj (zth_is_byte data i Hd) (wf_idx p Hp)))))).
  auto 10 with ht.
Qed.
End Step.

(** * Whole calls *)

Section Call.
Context {U : Type} (hooks : htparse_hooks U) (data : list Z).

(** What a call returns, started with [k] bytes in the buffer and [n] to read. *)
Definition call_ok (k n : Z) (r : run_result U) : Prop :=
  match r with
  | Returned p' _ m =>
      ht_wf p' /\ 0 <= m <= zlen data /\
      (ht_error p' = htparse_error_none -> m < zlen data ->
       zth data (m - 1) = LF /\ (ht_state p' = s_done \/ ht_state p' = s_hdrline_hdr_done)) /\
      (ht_error p' = htparse_error_too_big ->
       ht_state p' = s_hdrline_hdr_val /\ ht_heval p' = eval_hdr_val_content_length)
  | Buffer_overrun => PARSER_STACK_MAX <= k + n
  | Out_of_fuel => False
  end.

Lemma run_loop_ok fuel p i u :
  Forall is_byte data -> ht_wf p -> ht_error p = htparse_error_none ->
  0 <= i <= zlen data -> zlen data - i <= Z.of_nat fuel ->
  call_ok (ht_buf_idx p) (zlen data - i) (run_loop hooks data fuel p i u).
Proof.
  intros Hd. revert p i u. induction fuel as [|fuel IH]; intros p i u Hw He Hi Hf; simpl;
    unfold len; destruct (Z.leb_spec (zlen data) i); try lia.
  1-2: refine (conj Hw (conj Hi (conj _ _))); [lia|congruence].
  pose proof (run_byte_ok hooks data p i u Hd Hw He ltac:(lia)) as Hb.
  destruct (run_byte hooks data p i u) as [p' i' u'|p' n u'|]; simpl in Hb.
  - destruct Hb as (Hw' & He' & Hi' & Hk).
    specialize (IH p' (i' + 1) u' Hw' He' ltac:(lia) ltac:(lia)).
    destruct (run_loop _ _ _ _ _ _); simpl in *; [exact IH|lia|done].
  - destruct Hb as (Hw' & Hn & Hnone & Hbig).
    refine (conj Hw' (conj _ (conj _ Hbig))); [lia|auto].
  - simpl. lia.
Qed.

Lemma htparser_run_ok p u :
  Forall is_byte data -> ht_wf p ->
  call_ok (ht_buf_idx p) (zlen data) (htparser_run hooks data p u).
Proof.
  intros Hd [Hp Hs]. unfold htparser_run.
  replace (zlen data) with (zlen data - 0) by lia.
  apply (run_loop_ok _ (set_bytes_read 0 (set_error htparse_error_none p)) 0 u Hd).
  - split; [auto with ht|exact Hs].
  - done.
  - pose proof (zlen_nonneg data). lia.
  - unfold zlen. lia.
Qed.
End Call.

Lemma init_wf t : ht_wf (htparser_init t).
Proof.
  split; [|exact I]. constructor; cbn -[repeat Z.to_nat Z.pow]; try (unfold PARSER_STACK_MAX; lia).
  - unfold zlen. rewrite repeat_length. unfold PARSER_STACK_MAX. lia.
  - apply Forall_forall. intros b Hb. apply list_elem_of_In, repeat_spec in Hb. subst. unfold is_byte. lia.
Qed.

(** The calls by which a program changes a parser object, as in htparse.h. *)
Inductive ht_call {U : Type} :=
  | Call_init (t : htp_type)
  | Call_set_major (v : Z)
  | Call_set_minor (v : Z)
  | Call_run (hooks : htparse_hooks U) (data : list Z) (u : U).
Arguments ht_call U : clear implicits.

Definition call_bytes {U} (k : ht_call U) : Prop :=
  match k with Call_run _ data _ => Forall is_byte data | _ => True end.

(** What a call leaves: an object, or the parser's memory with a byte written
    behind the end of the buffer. *)
Definition call_object {U} (k : ht_call U) (p : htparser) : option htparser :=
  match k with
  | Call_init t => Some (htparser_init t)
  | Call_set_major v => Some (htparser_set_major v p)
  | Call_set_minor v => Some (htparser_set_minor v p)
  | Call_run hooks data u =>
      match htparser_run hooks data p u with
      | Returned p' _ _ => Some p'
      | Buffer_overrun | Out_of_fuel => None
      end
  end.

(** A program's calls, one after the other, with the objects they leave; it ends at
    the call that overran the buffer, with the object which that call was given. *)
Inductive program_end {U : Type} :=
  | All_done (p : htparser)
  | Overran (k : ht_call U) (p : htparser).
Arguments program_end U : clear implicits.

Fixpoint call_objects {U} (ks : list (ht_call U)) (p : htparser) : list htparser * program_end U :=
  match ks with
  | [] => ([p], All_done p)
  | k :: ks =>
      match call_object k p with
      | Some p' => let '(l, e) := call_objects ks p' in (p :: l, e)
      | None => ([p], Overran k p)
      end
  end.

Lemma call_object_wf {U} (k : ht_call U) p :
  call_bytes k -> ht_wf p ->
  match call_object k p with
  | Some p' => ht_wf p'
  | None => exists hooks data u, k = Call_run hooks data u /\ htparser_run hooks data p u = Buffer_overrun /\
      PARSER_STACK_MAX <= ht_buf_idx p + zlen data
  end.
Proof.
  intros Hb Hw. destruct k as [t|v|v|hooks data u]; simpl.
  - apply init_wf.
  - destruct Hw. split; [by apply fields_set_major|done].
  - destruct Hw. split; [by apply fields_set_minor|done].
  - pose proof (htparser_run_ok hooks data p u Hb Hw) as H.
    destruct (htparser_run hooks data p u) eqn:Hr; simpl in H; [apply H|by exists hooks, data, u|done].
Qed.

(** C27. Whatever a program does with a parser object from htparser_init on (any
    sequence of calls, any hooks, any data, any versions set), every object it has
    before the first call that writes behind the buffer keeps its invariant: the buffer
    index is below PARSER_STACK_MAX, every counter fits its type, every saved pointer
    points into the buffer, a state that reads a body has something to read, and the
    state s_hdrline_done is never entered.  Only htparser_run writes behind the buffer,
    and only when the index and the length of the data given to it make
    PARSER_STACK_MAX or more. *)
Theorem ht_reachable_wf {U : Type} (t : htp_type) (ks : list (ht_call U)) :
  Forall call_bytes ks ->
  let '(l, e) := call_objects ks (htparser_init t) in
  Forall ht_wf l /\
  match e with
  | All_done p => ht_wf p /\ length l = S (length ks)
  | Overran k p => exists hooks data u, k = Call_run hooks data u /\ htparser_run hooks data p u = Buffer_overrun /\
      PARSER_STACK_MAX <= ht_buf_idx p + zlen data
  end.
Proof.
  intros Hb. pose proof (init_wf t) as Hw. revert Hw. generalize (htparser_init t).
  induction Hb as [|k ks Hk _ IH]; intros p Hw; simpl; [auto|].
  pose proof (call_object_wf k p Hk Hw) as Hc. destruct (call_object k p) as [p'|]; [|auto].
  specialize (IH p' Hc). destruct (call_objects ks p') as [l e]. destruct IH as [Hl He].
  split; [by constructor|]. destruct e; [|done]. destruct He. simpl. auto.
Qed.

Definition no_hooks : htparse_hooks unit :=
  mk_hooks None None None None None None None None None None None None None None None None
    None None.

(** A request in two calls, and a new object. *)
Definition sample_calls : list (ht_call unit) :=
  [Call_run no_hooks (str "GET ") tt; Call_run no_hooks (str "/ HTTP/1.0" ++ [CR; LF; CR; LF]) tt;
   Call_init htp_type_response; Call_set_major 1].

Lemma ht_reachable_wf_witness :
  let '(l, e) := call_objects sample_calls (htparser_init htp_type_request) in
  Forall ht_wf l /\ map ht_state l = [s_start; s_spaces_before_uri; s_start; s_start; s_start] /\
  match e with All_done p => ht_wf p /\ length l = 5%nat | Overran _ _ => False end.
Proof.
  assert (Hb : Forall call_bytes sample_calls) by (repeat constructor; done).
  pose proof (ht_reachable_wf htp_type_request sample_calls Hb) as H.
  assert (Hs : map ht_state (call_objects sample_calls (htparser_init htp_type_request)).1 =
    [s_start; s_spaces_before_uri; s_start; s_start; s_start]) by (vm_compute; reflexivity).
  assert (He : match (call_objects sample_calls (htparser_init htp_type_request)).2 with
    All_done _ => True | Overran _ _ => False end) by (vm_compute; exact I).
  destruct (call_objects _ _) as [l [p|k p]]; [|done]. destruct H as [Hl Hp]. auto.
Defined.

(** C17. Htparser_run ends on every input, whatever the hooks do.  The count it
    returns is between 0 and len.  It is less than len only when an error is
    set, or at an LF where a header line should start, which ends the call with
    no error.  The error too_big is only ever set for a Content-Length value:
    the test of the buffer index at the head of the loop never stops an element
    that is too long. *)
Theorem htparser_run_safe {U : Type} (hooks : htparse_hooks U) (data : list Z) p u :
  ht_wf p -> Forall is_byte data ->
  match htparser_run hooks data p u with
  | Returned p' _ n =>
      0 <= n <= zlen data /\
      (ht_error p' = htparse_error_none -> n < zlen data ->
       zth data (n - 1) = LF /\ (ht_state p' = s_done \/ ht_state p' = s_hdrline_hdr_done)) /\
      (ht_error p' = htparse_error_too_big ->
       ht_state p' = s_hdrline_hdr_val /\ ht_heval p' = eval_hdr_val_content_length)
  | Buffer_overrun => PARSER_STACK_MAX <= ht_buf_idx p + zlen data
  | Out_of_fuel => False
  end.
Proof.
  intros Hw Hd. pose proof (htparser_run_ok hooks data p u Hd Hw) as H.
  destruct (htparser_run _ _ _ _); [apply H|exact H..].
Qed.

Lemma htparser_run_safe_witness :
  exists p u n,
    htparser_run no_hooks (str "GET /" ++ [LF; LF; LF] ++ str "x") (htparser_init htp_type_request) tt
      = Returned p u n /\ n = 8 /\ 0 <= n <= 9.
Proof.
  pose proof (htparser_run_safe no_hooks (str "GET /" ++ [LF; LF; LF] ++ str "x")
    (htparser_init htp_type_request) tt (init_wf _) ltac:(repeat constructor; done)) as H.
  destruct (htparser_run _ _ _ _) as [p u n| |] eqn:Hr; [|by vm_compute in Hr..].
  exists p, u, n. split; [done|]. split; [|apply H].
  apply (f_equal (fun r => match r with Returned _ _ k => k | _ => 0 end)) in Hr.
  vm_compute in Hr. by symmetry.
Defined.
