(* ===== verification/HtText.v ===== *)
(** htparse.c, the text of the buffer: the word comparisons to_uint32 against a
    literal, the methods and schemes they recognise, and str_to_uint64.

    [holds m o t] says that the buffer [m] has the text [t] at offset [o],
    followed by a NUL; the theorems compare each routine of the code with a
    definition on [t]. *)
From S2P Require Import Prelude HtParse.

(** * Words *)

Lemma schar_small b : 0 <= b < 128 -> schar b = b.
Proof. intros. unfold schar. destruct (Z.ltb_spec b 128); lia. Qed.

Lemma pack4_sum a b c d :
  is_byte a -> is_byte b -> is_byte c -> is_byte d ->
  pack4 a b c d = a + 256 * b + 65536 * c + 16777216 * d.
Proof.
  unfold is_byte, pack4. intros.
  assert (Hdis : forall x y n, 0 <= n -> 0 <= y < 2 ^ n -> 0 <= x ->
            Z.lor (Z.shiftl x n) y = x * 2 ^ n + y).
  { intros x y n Hn Hy Hx. rewrite <- Z.shiftl_mul_pow2 by lia. symmetry.
    assert (Hand : Z.land (Z.shiftl x n) y = 0).
    { apply Z.bits_inj'. intros k Hk. rewrite Z.land_spec, Z.bits_0, Z.shiftl_spec by lia.
      destruct (Z.ltb_spec k n); [by rewrite Z.testbit_neg_r by lia|].
      rewrite <- (Z.mod_small y (2 ^ n)), Z.mod_pow2_bits_high by lia. apply andb_false_r. }
    rewrite <- Z.lxor_lor by done. by apply Z.add_nocarry_lxor. }
  rewrite <- !Z.lor_assoc.
  rewrite (Hdis b a 8) by lia. rewrite (Hdis c _ 16) by lia. rewrite (Hdis d _ 24) by lia.
  lia.
Qed.

(** A byte with the high bit is negative as a char: it sets bit 31 of the word. *)
Lemma schar_high b n : 128 <= b < 256 -> 7 <= n -> Z.testbit (schar b) n = true.
Proof.
  intros Hb Hn. unfold schar. destruct (Z.ltb_spec b 128); [lia|].
  replace (b - 256) with (Z.lnot (255 - b)) by (unfold Z.lnot; lia).
  rewrite Z.lnot_spec by lia.
  rewrite <- (Z.mod_small (255 - b) (2 ^ n)), Z.mod_pow2_bits_high; [done|lia|].
  pose proof (Z.pow_le_mono_r 2 7 n). lia.
Qed.

Lemma to_uint32_high m o :
  let b k := zth m (o + k) in
  (forall k, 0 <= k <= 3 -> is_byte (zth m (o + k))) ->
  128 <= zth m o \/ 128 <= b 1 \/ 128 <= b 2 \/ 128 <= b 3 ->
  Z.testbit (to_uint32 m o) 31 = true.
Proof.
  intros b Hb Hhigh. unfold to_uint32, u32, is_byte in *.
  pose proof (Hb 0 ltac:(lia)) as H0. rewrite Z.add_0_r in H0.
  pose proof (Hb 1 ltac:(lia)). pose proof (Hb 2 ltac:(lia)). pose proof (Hb 3 ltac:(lia)).
  rewrite Z.mod_pow2_bits_low, !Z.lor_spec, !Z.shiftl_spec by lia. simpl (31 - _).
  unfold b in Hhigh.
  destruct Hhigh as [Hh|[Hh|[Hh|Hh]]];
    match type of Hh with 128 <= ?z => rewrite (schar_high z) by lia end;
    rewrite ?orb_true_r; done.
Qed.

Definition is_ascii (c : Z) : bool := (0 <=? c) && (c <? 128).

(** to_uint32(m + o) == ((c3 << 24) | (c2 << 16) | (c1 << 8) | c0) compares the
    four bytes, for ASCII literals. *)
Lemma to_uint32_eq m o c0 c1 c2 c3 :
  (forall k, 0 <= k <= 3 -> is_byte (zth m (o + k))) ->
  is_ascii c0 && is_ascii c1 && is_ascii c2 && is_ascii c3 = true ->
  (to_uint32 m o =? pack4 c0 c1 c2 c3) =
  (zth m o =? c0) && (zth m (o + 1) =? c1) && (zth m (o + 2) =? c2) && (zth m (o + 3) =? c3).
Proof.
  unfold is_ascii. intros Hb Hc. zbool.
  pose proof (Hb 0 ltac:(lia)) as H0'. rewrite Z.add_0_r in H0'.
  pose proof (Hb 1 ltac:(lia)). pose proof (Hb 2 ltac:(lia)). pose proof (Hb 3 ltac:(lia)).
  unfold is_byte in *.
  destruct (decide (128 <= zth m o \/ 128 <= zth m (o + 1) \/ 128 <= zth m (o + 2) \/
                    128 <= zth m (o + 3))) as [Hh|Hl].
  - pose proof (to_uint32_high m o Hb Hh) as Hbit.
    destruct (Z.eqb_spec (to_uint32 m o) (pack4 c0 c1 c2 c3)) as [E|_].
    + rewrite E, pack4_sum in Hbit by (unfold is_byte; lia).
      rewrite <- (Z.mod_small (c0 + _ + _ + _) (2 ^ 31)), Z.mod_pow2_bits_high in Hbit by lia.
      done.
    + symmetry. apply not_true_is_false. intros E. zbool. lia.
  - assert (Hw : to_uint32 m o =
      pack4 (zth m o) (zth m (o + 1)) (zth m (o + 2)) (zth m (o + 3))).
    { unfold to_uint32. rewrite !schar_small by lia.
      fold (pack4 (zth m o) (zth m (o + 1)) (zth m (o + 2)) (zth m (o + 3))).
      rewrite pack4_sum by (unfold is_byte; lia). apply u32_small. lia. }
    rewrite Hw, !pack4_sum by (unfold is_byte; lia).
    apply eq_true_iff_eq. rewrite !andb_true_iff, !Z.eqb_eq. lia.
Qed.

(** (to_uint32(m + o) & 0xffff) == ((c1 << 8) | c0) *)
Lemma to_uint32_low16_eq m o c0 c1 :
  (forall k, 0 <= k <= 3 -> is_byte (zth m (o + k))) ->
  is_ascii c0 && is_ascii c1 = true ->
  (Z.land (to_uint32 m o) 65535 =? Z.lor (Z.shiftl c1 8) c0) =
  (zth m o =? c0) && (zth m (o + 1) =? c1).
Proof.
  unfold is_ascii. intros Hb Hc. zbool.
  pose proof (Hb 0 ltac:(lia)) as H0'. rewrite Z.add_0_r in H0'.
  pose proof (Hb 1 ltac:(lia)). unfold is_byte in *.
  set (b0 := zth m o) in *. set (b1 := zth m (o + 1)) in *.
  assert (Hlow : forall k, 0 <= k < 16 ->
    Z.testbit (Z.land (to_uint32 m o) 65535) k =
    Z.testbit (schar b1) (k - 8) || Z.testbit (schar b0) k).
  { intros k Hk. change 65535 with (Z.ones 16).
    rewrite Z.land_spec, Z.ones_spec_low, andb_true_r by lia.
    unfold to_uint32, u32. rewrite Z.mod_pow2_bits_low, !Z.lor_spec, !Z.shiftl_spec by lia.
    rewrite (Z.testbit_neg_r _ (k - 24)), (Z.testbit_neg_r _ (k - 16)) by lia. done. }
  assert (Hsum : forall x y, 0 <= x < 256 -> 0 <= y < 256 ->
            Z.lor (Z.shiftl x 8) y = x * 256 + y).
  { intros x y Hx Hy. pose proof (pack4_sum y x 0 0) as Hp. unfold pack4 in Hp.
    rewrite !Z.shiftl_0_l, Z.lor_0_l in Hp.
    rewrite Hp by (unfold is_byte; lia). lia. }
  destruct (decide (128 <= b0 \/ 128 <= b1)) as [Hh|Hl].
  - destruct (Z.eqb_spec (Z.land (to_uint32 m o) 65535) (Z.lor (Z.shiftl c1 8) c0)) as [E|_].
    + specialize (Hlow 15 ltac:(lia)). rewrite E, Hsum in Hlow by lia.
      rewrite <- (Z.mod_small (c1 * 256 + c0) (2 ^ 15)), Z.mod_pow2_bits_high in Hlow by lia.
      simpl (15 - 8) in Hlow.
      destruct Hh; [rewrite (schar_high b0) in Hlow by lia|rewrite (schar_high b1) in Hlow by lia];
        rewrite ?orb_true_r in Hlow; done.
    + symmetry. apply not_true_is_false. intros E. zbool. lia.
  - assert (Hw : Z.land (to_uint32 m o) 65535 = Z.lor (Z.shiftl b1 8) b0).
    { apply Z.bits_inj'. intros k Hk. destruct (Z.ltb_spec k 16).
      - rewrite Hlow, Z.lor_spec, Z.shiftl_spec, !schar_small by lia. done.
      - change 65535 with (Z.ones 16).
        rewrite Z.land_spec, Z.ones_spec_high, andb_false_r, Hsum by lia.
        rewrite <- (Z.mod_small (b1 * 256 + b0) (2 ^ 16)), Z.mod_pow2_bits_high by lia. done. }
    rewrite Hw, !Hsum by lia. apply eq_true_iff_eq. rewrite andb_true_iff, !Z.eqb_eq. lia.
Qed.

(** * The macros on literals *)

Section Cmp.
Context (m : list Z) (o : Z) (Hm : Forall is_byte m).

Let byte_at k : 0 <= k <= 3 -> is_byte (zth m (o + k)).
Proof. intros _. by apply zth_is_byte. Qed.

Lemma str4cmp_lit a b c d :
  is_ascii a && is_ascii b && is_ascii c && is_ascii d = true ->
  str4cmp m o [a; b; c; d] =
  (zth m o =? a) && (zth m (o + 1) =? b) && (zth m (o + 2) =? c) && (zth m (o + 3) =? d).
Proof. exact (to_uint32_eq m o a b c d byte_at). Qed.
End Cmp.

Lemma str8cmp_lit m o (Hm : Forall is_byte m) a b c d e f g h :
  is_ascii a && is_ascii b && is_ascii c && is_ascii d = true ->
  is_ascii e && is_ascii f && is_ascii g && is_ascii h = true ->
  str8cmp m o [a; b; c; d; e; f; g; h] =
  (zth m o =? a) && (zth m (o + 1) =? b) && (zth m (o + 2) =? c) && (zth m (o + 3) =? d) &&
  ((zth m (o + 4) =? e) && (zth m (o + 5) =? f) && (zth m (o + 6) =? g) &&
   (zth m (o + 7) =? h)).
Proof.
  intros H1 H2. unfold str8cmp.
  change (str4cmp m o [a; b; c; d; e; f; g; h]) with (str4cmp m o [a; b; c; d]).
  rewrite (str4cmp_lit m o Hm a b c d H1). f_equal.
  change (str4cmp m (o + 4) [e; f; g; h] =
    (zth m (o + 4) =? e) && (zth m (o + 5) =? f) && (zth m (o + 6) =? g) && (zth m (o + 7) =? h)).
  rewrite (str4cmp_lit m (o + 4) Hm e f g h H2), <- !Z.add_assoc. done.
Qed.

Lemma str6cmp_lit m o (Hm : Forall is_byte m) a b c d e f :
  is_ascii a && is_ascii b && is_ascii c && is_ascii d = true ->
  is_ascii e && is_ascii f = true ->
  str6cmp m o [a; b; c; d; e; f] =
  (zth m o =? a) && (zth m (o + 1) =? b) && (zth m (o + 2) =? c) && (zth m (o + 3) =? d) &&
  ((zth m (o + 4) =? e) && (zth m (o + 5) =? f)).
Proof.
  intros H1 H2. unfold str6cmp.
  change (str4cmp m o [a; b; c; d; e; f]) with (str4cmp m o [a; b; c; d]).
  rewrite (str4cmp_lit m o Hm a b c d H1). f_equal.
  change (zth [a; b; c; d; e; f] 5) with f. change (zth [a; b; c; d; e; f] 4) with e.
  rewrite to_uint32_low16_eq; [|intros; by apply zth_is_byte|done].
  by rewrite <- !Z.add_assoc.
Qed.

(** * Methods and schemes *)

(** The method tokens of the protocol. *)
Definition method_table : list (list Z * htp_method) :=
  [(str "GET", htp_method_GET); (str "PUT", htp_method_PUT); (str "POST", htp_method_POST);
   (str "COPY", htp_method_COPY); (str "MOVE", htp_method_MOVE); (str "LOCK", htp_method_LOCK);
   (str "HEAD", htp_method_HEAD); (str "MKCOL", htp_method_MKCOL);
   (str "TRACE", htp_method_TRACE); (str "DELETE", htp_method_DELETE);
   (str "UNLOCK", htp_method_UNLOCK); (str "CONNECT", htp_method_CONNECT);
   (str "OPTIONS", htp_method_OPTIONS); (str "PROPFIND", htp_method_PROPFIND);
   (str "PROPPATCH", htp_method_PROPPATCH)].

Definition scheme_table : list (list Z * htp_scheme) :=
  [(str "http", htp_scheme_http); (str "https", htp_scheme_https)].

Fixpoint bytes_eqb (s t : list Z) : bool :=
  match s, t with
  | [], [] => true
  | a :: s', b :: t' => (a =? b) && bytes_eqb s' t'
  | _, _ => false
  end.

Lemma bytes_eqb_eq s t : bytes_eqb s t = true <-> s = t.
Proof.
  revert t. induction s as [|a s IH]; intros [|b t]; simpl; try done.
  rewrite andb_true_iff, Z.eqb_eq, IH. split; [intros [-> ->]|intros [= -> ->]]; done.
Qed.

Fixpoint named {A} (table : list (list Z * A)) (t : list Z) : option A :=
  match table with
  | [] => None
  | (s, x) :: table' => if bytes_eqb t s then Some x else named table' t
  end.

(** Evaluate the positions of an explicit buffer and the table of an explicit text. *)
Ltac text_eval :=
  cbn [app];
  repeat match goal with
  | |- context [zth ?l ?i] =>
      let w := eval lazy in (zth l i) in change (zth l i) with w
  end;
  cbn [named method_table scheme_table bytes_eqb];
  rewrite ?andb_false_r, ?andb_true_r, <- ?andb_assoc;
  try reflexivity.

Ltac lit_tests :=
  repeat match goal with
  | |- context [Z.pos ?x =? Z.pos ?y] =>
      let v := eval vm_compute in (Z.pos x =? Z.pos y) in
      change (Z.pos x =? Z.pos y) with v
  end; cbn [andb]; rewrite ?andb_false_r, ?andb_true_r.

Section Methods.
Context (rest : list Z).

(** One lemma per length of the token, as the code switches on it. *)
Lemma find_method_3 a b c :
  Forall is_byte ([a; b; c] ++ 0 :: rest) ->
  find_method ([a; b; c] ++ 0 :: rest) 3 = named method_table [a; b; c].
Proof.
  intros Hm. unfold find_method; lit_tests.
  cbn [app] in *. rewrite !str4cmp_lit by done. text_eval.
Qed.

Lemma find_method_4 a b c d :
  Forall is_byte ([a; b; c; d] ++ 0 :: rest) ->
  find_method ([a; b; c; d] ++ 0 :: rest) 4 = named method_table [a; b; c; d].
Proof.
  intros Hm. unfold find_method; lit_tests.
  rewrite !str4cmp_lit by done. text_eval.
  destruct (Z.eqb_spec b 79) as [->|]; lit_tests; reflexivity.
Qed.

Lemma find_method_5 a b c d e :
  Forall is_byte ([a; b; c; d; e] ++ 0 :: rest) ->
  find_method ([a; b; c; d; e] ++ 0 :: rest) 5 = named method_table [a; b; c; d; e].
Proof.
  intros Hm. unfold find_method; lit_tests. unfold str5cmp.
  rewrite (str4cmp_lit _ 0 Hm 77 75 67 79 eq_refl : str4cmp _ 0 (str "MKCOL") = _).
  rewrite (str4cmp_lit _ 0 Hm 84 82 65 67 eq_refl : str4cmp _ 0 (str "TRACE") = _).
  text_eval.
Qed.

Lemma find_method_6 a b c d e f :
  Forall is_byte ([a; b; c; d; e; f] ++ 0 :: rest) ->
  find_method ([a; b; c; d; e; f] ++ 0 :: rest) 6 = named method_table [a; b; c; d; e; f].
Proof.
  intros Hm. unfold find_method; lit_tests.
  rewrite !str6cmp_lit by done. text_eval.
Qed.

Lemma find_method_7 a b c d e f g :
  Forall is_byte ([a; b; c; d; e; f; g] ++ 0 :: rest) ->
  find_method ([a; b; c; d; e; f; g] ++ 0 :: rest) 7 = named method_table [a; b; c; d; e; f; g].
Proof.
  intros Hm. unfold find_method; lit_tests.
  cbn [app] in *. rewrite !str8cmp_lit by done. text_eval.
Qed.

Lemma find_method_8 a b c d e f g h :
  Forall is_byte ([a; b; c; d; e; f; g; h] ++ 0 :: rest) ->
  find_method ([a; b; c; d; e; f; g; h] ++ 0 :: rest) 8 =
  named method_table [a; b; c; d; e; f; g; h].
Proof.
  intros Hm. unfold find_method; lit_tests.
  rewrite !str8cmp_lit by done. text_eval.
Qed.

Lemma find_method_9 a b c d e f g h i :
  Forall is_byte ([a; b; c; d; e; f; g; h; i] ++ 0 :: rest) ->
  find_method ([a; b; c; d; e; f; g; h; i] ++ 0 :: rest) 9 =
  named method_table [a; b; c; d; e; f; g; h; i].
Proof.
  intros Hm. unfold find_method; lit_tests. unfold str9cmp.
  rewrite (str8cmp_lit _ 0 Hm 80 82 79 80 80 65 84 67 eq_refl eq_refl
             : str8cmp _ 0 (str "PROPPATCH") = _).
  text_eval.
Qed.
End Methods.

Lemma named_longer t : 9 < zlen t -> named method_table t = None.
Proof.
  intros Ht. destruct t as [|a [|b [|c [|d [|e [|f [|g [|h [|i [|j t]]]]]]]]]];
    try (unfold zlen in Ht; simpl in Ht; lia).
  cbn [named method_table bytes_eqb]. by rewrite !andb_false_r.
Qed.

(** C28. The switch of s_method on the length of the token, with its word
    comparisons, is the table of methods: for a token in the buffer, ended by
    its NUL, it finds the method of exactly that name, and nothing for any
    other token (p->method then keeps its old value). *)
Theorem find_method_named (t rest : list Z) :
  Forall is_byte (t ++ 0 :: rest) ->
  find_method (t ++ 0 :: rest) (zlen t) = named method_table t.
Proof.
  intros Hm. destruct (Z.ltb_spec 9 (zlen t)).
  - rewrite named_longer by lia. unfold find_method.
    by rewrite !(proj2 (Z.eqb_neq (zlen t) _)) by lia.
  - destruct t as [|a [|b [|c [|d [|e [|f [|g [|h [|i [|j t]]]]]]]]]].
    11: { unfold zlen in *. simpl in *. lia. }
    1: reflexivity.
    1-2: cbn [named method_table bytes_eqb]; rewrite !andb_false_r; reflexivity.
    + by apply find_method_3.
    + by apply find_method_4.
    + by apply find_method_5.
    + by apply find_method_6.
    + by apply find_method_7.
    + by apply find_method_8.
    + by apply find_method_9.
Qed.

Lemma find_method_named_witness :
  find_method (str "PROPPATCH" ++ 0 :: str "X") 9 = Some htp_method_PROPPATCH /\
  find_method (str "GETS" ++ 0 :: []) 4 = None.
Proof.
  split.
  - apply (find_method_named (str "PROPPATCH") (str "X")). repeat constructor; done.
  - apply (find_method_named (str "GETS") []). repeat constructor; done.
Defined.

(** The scheme of an absolute URI is http or https exactly when it is that
    word, and unknown otherwise.  In particular ftp and nfs are never found:
    the code compares their fourth byte, the NUL that ends the text, with a
    space. *)
Theorem find_scheme_named (t rest : list Z) :
  Forall is_byte (t ++ 0 :: rest) ->
  find_scheme (t ++ 0 :: rest) 0 (zlen t) = default htp_scheme_unknown (named scheme_table t).
Proof.
  intros Hm. unfold find_scheme.
  destruct t as [|a [|b [|c [|d [|e [|f t]]]]]].
  1-3: cbn [named scheme_table bytes_eqb]; rewrite ?andb_false_r; reflexivity.
  - change (zlen [a; b; c]) with 3. lit_tests. rewrite !str4cmp_lit by done. text_eval.
  - change (zlen [a; b; c; d]) with 4. lit_tests. rewrite !str4cmp_lit by done. text_eval.
    by destruct (_ && _).
  - change (zlen [a; b; c; d; e]) with 5. lit_tests. unfold str5cmp.
    rewrite (str4cmp_lit _ 0 Hm 104 116 116 112 eq_refl : str4cmp _ 0 (str "https") = _).
    text_eval. by destruct (_ && _).
  - assert (6 <= zlen (a :: b :: c :: d :: e :: f :: t)) by (unfold zlen; simpl length; lia).
    rewrite !(proj2 (Z.eqb_neq (zlen _) _)) by lia.
    cbn [named scheme_table bytes_eqb]. by rewrite !andb_false_r.
Qed.

Lemma find_scheme_named_witness :
  find_scheme (str "https" ++ 0 :: []) 0 5 = htp_scheme_https /\
  find_scheme (str "ftp" ++ 0 :: []) 0 3 = htp_scheme_unknown.
Proof.
  split.
  - apply (find_scheme_named (str "https") []). repeat constructor; done.
  - apply (find_scheme_named (str "ftp") []). repeat constructor; done.
Defined.

(** * Numbers *)

Lemma is_digit_range c : is_digit c = true -> 48 <= c <= 57.
Proof. apply dec_digit_range. Qed.

Lemma is_digit_test c :
  is_byte c -> ((schar c <? 48) || (57 <? schar c)) = negb (is_digit c).
Proof.
  unfold is_byte, is_digit, schar. intros Hc.
  destruct (Z.ltb_spec c 128), (Z.leb_spec 48 c), (Z.leb_spec c 57); simpl;
    apply eq_true_iff_eq; rewrite orb_true_iff, !Z.ltb_lt; split; intros; try lia; try done.
Qed.

(** Without a wrap-around the loop computes the number. *)
Lemma str_to_uint64_loop_exact s v :
  Forall is_byte s -> forallb is_digit s = true -> 0 <= v -> decimal v s < 2 ^ 64 ->
  str_to_uint64_loop v s = Some (decimal v s).
Proof.
  revert v. induction s as [|c s IH]; intros v Hb Hs Hv Hd; [done|].
  apply Forall_cons in Hb as [Hc Hb]. simpl in Hs. zbool.
  pose proof (is_digit_range c ltac:(done)) as Hr.
  pose proof (decimal_mono s (v * 10 + (c - 48)) ltac:(done) ltac:(lia)) as Hm.
  change (decimal v (c :: s)) with (decimal (v * 10 + (c - 48)) s) in *.
  simpl. rewrite is_digit_test by done. rewrite H. simpl.
  rewrite (u64_small (v * 10)), schar_small, u64_small by lia.
  destruct (Z.eqb_spec v 0); simpl.
  - destruct (Z.ltb_spec (2 ^ 64 - 1) (v * 10 + (c - 48))); [lia|]. apply IH; auto; lia.
  - destruct (Z.leb_spec (v * 10 + (c - 48)) v); [lia|].
    destruct (Z.ltb_spec (2 ^ 64 - 1) (v * 10 + (c - 48))); [lia|]. apply IH; auto; lia.
Qed.

Lemma str_to_uint64_loop_app s t v :
  str_to_uint64_loop v (s ++ t) =
  match str_to_uint64_loop v s with Some w => str_to_uint64_loop w t | None => None end.
Proof.
  revert v. induction s as [|c s IH]; intros v; simpl; [done|].
  repeat (case_match; try done).
Qed.

Lemma str_to_uint64_loop_not_digits s v :
  Forall is_byte s -> forallb is_digit s = false -> str_to_uint64_loop v s = None.
Proof.
  revert v. induction s as [|c s IH]; intros v Hb Hs; [done|].
  apply Forall_cons in Hb as [Hc Hb]. simpl in *. rewrite is_digit_test by done.
  destruct (is_digit c); simpl in *; [|done]. destruct (_ || _); auto.
Qed.

(** What str_to_uint64 computes, in terms of the number. *)
Definition parse_uint64 (s : list Z) : option Z :=
  if negb (forallb is_digit s) || (20 <? zlen s) then None
  else
    let v := u64 (decimal 0 s) in
    let before := decimal 0 (removelast s) in
    if (zlen s =? 20) && negb (before =? 0) && (v <=? before) then None else Some v.

(** Str_to_uint64 rejects a text with a byte that is not a digit or of more
    than 20 bytes, and gives the number of every other text that fits 64 bits.
    A larger number of 20 digits is not always rejected: it is taken modulo
    2^64, and refused only when that is not above the number without its last
    digit. *)
Theorem str_to_uint64_parses (s : list Z) :
  Forall is_byte s -> str_to_uint64 s = parse_uint64 s.
Proof.
  intros Hb. unfold str_to_uint64, parse_uint64.
  destruct (Z.ltb_spec 20 (zlen s)) as [Hl|Hl]; [by rewrite orb_true_r|].
  destruct (forallb is_digit s) eqn:Hs; simpl; [|by apply str_to_uint64_loop_not_digits].
  pose proof (decimal_bound s Hs) as Hd.
  destruct (Z.eqb_spec (zlen s) 20) as [H20|H20]; simpl.
  - destruct s as [|c t _] using rev_ind; [done|].
    clear Hd. rewrite removelast_last, decimal_snoc.
    apply Forall_app in Hb as [Hbt Hbc]. rewrite forallb_app in Hs. simpl in Hs. zbool.
    rewrite zlen_app in H20. change (zlen [c]) with 1 in H20.
    pose proof (decimal_bound t ltac:(done)) as Ht.
    replace (zlen t) with 19 in Ht by lia.
    rewrite str_to_uint64_loop_app, (str_to_uint64_loop_exact t 0) by (done || lia).
    inversion Hbc as [|? ? Hc _]; subst. pose proof (is_digit_range c ltac:(done)).
    simpl. rewrite is_digit_test, H0 by done. simpl.
    rewrite schar_small by lia. unfold u64. rewrite Zplus_mod_idemp_l.
    pose proof (u64_range (decimal 0 t * 10 + (c - 48))) as Hu. unfold u64 in Hu.
    match goal with |- context [2 ^ 64 - 1 <? ?x] =>
      rewrite (proj2 (Z.ltb_ge (2 ^ 64 - 1) x)) by lia end.
    by rewrite orb_false_r.
  - assert (decimal 0 s < 2 ^ 64).
    { pose proof (Z.pow_le_mono_r 10 (zlen s) 19). lia. }
    rewrite str_to_uint64_loop_exact by (done || lia). by rewrite u64_small by lia.
Qed.

Lemma str_to_uint64_parses_witness :
  str_to_uint64 (str "18446744073709551615") = Some (2 ^ 64 - 1) /\
  str_to_uint64 (str "30000000000000000000") = Some (30000000000000000000 - 2 ^ 64) /\
  str_to_uint64 (str "1 ") = None.
Proof.
  split; [|split].
  - apply (str_to_uint64_parses (str "18446744073709551615")). repeat constructor; done.
  - apply (str_to_uint64_parses (str "30000000000000000000")). repeat constructor; done.
  - apply (str_to_uint64_parses (str "1 ")). repeat constructor; done.
Defined.
