(* ===== verification/HtStream.v ===== *)
(** htparse.c, feeding a parser in pieces.

    htparser_run may be called once per piece of the input.  The pieces show in
    three places only: the two byte counters (bytes_read starts again with every
    call, and a piece of a body counts as one byte), and the calls of the body
    hook.  [FragmentHooks] is what the hooks must promise for the rest: they do
    not read the counters, and the body hook makes the same of two pieces as of
    their concatenation.  Against that interface, a call on d1 ++ d2 does what a
    call on d1 followed by a call on d2 does. *)
From S2P Require Import Prelude HtParse HtSafety.

(** * The counters *)

(** [p] with the byte counters set. *)
Definition counters (a b : Z) (p : htparser) : htparser :=
  set_bytes_read a (set_total_bytes_read b p).

(** Parser objects that differ in the byte counters only. *)
Definition same (p q : htparser) : Prop := counters 0 0 p = counters 0 0 q.

#[export] Instance same_equivalence : Equivalence same.
Proof. split; unfold same; repeat intro; congruence. Qed.

Lemma same_counters a b p : same p (counters a b p).
Proof. reflexivity. Qed.

Lemma same_inv p q : same p q -> q = counters (ht_bytes_read q) (ht_total_bytes_read q) p.
Proof. unfold same, counters. destruct p, q. cbn. intros [=]. by subst. Qed.

Lemma counters_counters a b a' b' p : counters a b (counters a' b' p) = counters a b p.
Proof. reflexivity. Qed.

(** What does not read the counters respects [same]. *)
#[export] Instance set_state_proper s : Proper (same ==> same) (set_state s).
Proof. intros p q H. apply same_inv in H. rewrite H. reflexivity. Qed.
#[export] Instance ht_state_proper : Proper (same ==> eq) ht_state.
Proof. intros p q H. apply same_inv in H. rewrite H. reflexivity. Qed.
#[export] Instance ht_error_proper : Proper (same ==> eq) ht_error.
Proof. intros p q H. apply same_inv in H. rewrite H. reflexivity. Qed.
#[export] Instance keep_alive_proper : Proper (same ==> eq) htparser_should_keep_alive.
Proof. intros p q H. apply same_inv in H. rewrite H. reflexivity. Qed.

(** * What the hooks promise *)

Definition blind {U} (h : option (@htparse_hook U)) : Prop :=
  match h with
  | Some f => forall a b p u, f (counters a b p) u = f p u
  | None => True
  end.

Definition data_blind {U} (h : option (@htparse_data_hook U)) : Prop :=
  match h with
  | Some f => forall a b p o n u, f (counters a b p) o n u = f p o n u
  | None => True
  end.

(** The body hook only folds the bytes into the user data. *)
Definition body_folds {U} (h : option (@htparse_body_hook U)) : Prop :=
  match h with
  | Some f => exists g : list Z -> U -> U,
      (forall p bs u, f p bs u = mk_hook_result 0 None None (g bs u)) /\
      (forall b1 b2 u, g (b1 ++ b2) u = g b2 (g b1 u))
  | None => True
  end.

Class FragmentHooks {U} (hooks : htparse_hooks U) : Prop := {
  fh_msg_begin : blind (on_msg_begin hooks);
  fh_method : data_blind (h_method hooks);
  fh_scheme : data_blind (h_scheme hooks);
  fh_host : data_blind (h_host hooks);
  fh_port : data_blind (h_port hooks);
  fh_path : data_blind (h_path hooks);
  fh_args : data_blind (h_args hooks);
  fh_uri : data_blind (h_uri hooks);
  fh_hdrs_begin : blind (on_hdrs_begin hooks);
  fh_hdr_key : data_blind (h_hdr_key hooks);
  fh_hdr_val : data_blind (h_hdr_val hooks);
  fh_hostname : data_blind (h_hostname hooks);
  fh_hdrs_complete : blind (on_hdrs_complete hooks);
  fh_new_chunk : blind (on_new_chunk hooks);
  fh_chunk_complete : blind (on_chunk_complete hooks);
  fh_chunks_complete : blind (on_chunks_complete hooks);
  fh_msg_complete : blind (on_msg_complete hooks);
  fh_body : body_folds (h_body hooks)
}.

(** * One turn, elsewhere *)

Section Turn.
Context {U : Type} (hooks : htparse_hooks U) `{FH : FragmentHooks U hooks}.

(** A step with the counters set and the indices moved by [k]. *)
Definition moved (a b k : Z) (st : step U) : step U :=
  match st with
  | Continue p i u => Continue (counters a b p) (i + k) u
  | Stop p n u => Stop (counters a b p) (n + k) u
  | Overrun => Overrun
  end.

Lemma run_hook_counters (h : option htparse_hook) a b p (u : U) :
  blind h ->
  run_hook h (counters a b p) u =
  let '(r, q, v) := run_hook h p u in (r, counters a b q, v).
Proof.
  destruct h as [f|]; simpl; [|done]. intros Hf. rewrite Hf.
  unfold after_hook. by destruct (hr_major (f p u)), (hr_minor (f p u)).
Qed.

Lemma run_data_hook_counters (h : option htparse_data_hook) o n a b p (u : U) :
  data_blind h ->
  run_data_hook h o n (counters a b p) u =
  let '(r, q, v) := run_data_hook h o n p u in (r, counters a b q, v).
Proof.
  destruct h as [f|]; simpl; [|done]. intros Hf. rewrite Hf.
  unfold after_hook. by destruct (hr_major (f p o n u)), (hr_minor (f p o n u)).
Qed.

Lemma stop_moved a b k e p i (u : U) : stop e (counters a b p) (i + k) u = moved a b k (stop e p i u).
Proof. unfold stop, moved. f_equal. lia. Qed.

Lemma check_user_moved a b k res p i (u : U) :
  check_user res (counters a b p) (i + k) u = moved a b k (check_user res p i u).
Proof. unfold check_user. case_match; [done|apply stop_moved]. Qed.

Lemma put_moved a b k ch p (f g : htparser -> step U) :
  (forall q, f (counters a b q) = moved a b k (g q)) ->
  put ch (counters a b p) f = moved a b k (put ch p g).
Proof.
  intros Hfg. unfold put, append.
  change (ht_buf_idx (counters a b p)) with (ht_buf_idx p).
  destruct (_ <? _); [|done].
  match goal with |- _ = moved _ _ _ (g ?q) => exact (Hfg q) end.
Qed.

(** Drive the two sides of a case together, test by test. *)
Ltac hook_moved lem t :=
  rewrite lem by apply FH; destruct t as [[? ?] ?].

Ltac sides_step :=
  match goal with
  | |- Continue _ _ _ = _ => reflexivity
  | |- goto _ _ _ _ = _ => reflexivity
  | |- Stop _ _ _ = _ => cbn [moved]; f_equal; lia
  | |- put_goto _ _ _ _ _ = _ => unfold put_goto
  | |- put_stay _ _ _ _ = _ => unfold put_stay
  | |- msg_complete _ _ _ _ = _ => unfold msg_complete
  | |- uri_done _ _ _ _ _ _ _ = _ => unfold uri_done
  | |- stop _ _ _ _ = moved ?a ?b ?k (stop ?e ?q ?i ?u) => exact (stop_moved a b k e q i u)
  | |- check_user _ _ _ _ = moved ?a ?b ?k (check_user ?r ?q ?i ?u) =>
      exact (check_user_moved a b k r q i u)
  | |- put ?ch _ ?f = moved ?a ?b ?k (put ?ch ?q ?g) =>
      apply (put_moved a b k ch q f g); intros ?; cbn beta
  | |- ?l = moved ?a ?b ?k (match ?x with _ => _ end) =>
      let t' := first_test l in
      let t := first_test x in
      match t with
      | run_hook ?h ?q ?u =>
          change t' with (run_hook h (counters a b q) u);
          hook_moved (run_hook_counters h a b q u) t
      | run_data_hook ?h ?o ?n ?q ?u =>
          change t' with (run_data_hook h o n (counters a b q) u);
          hook_moved (run_data_hook_counters h o n a b q u) t
      | _ => change t' with t; destruct t
      end
  end.

Ltac sides def := intros; unfold def; cbn beta zeta; repeat sides_step.

Lemma s_start_moved a b k p i ch (u : U) :
  run_s_start hooks (counters a b p) (i + k) ch u = moved a b k (run_s_start hooks p i ch u).
Proof. sides @run_s_start. Qed.
Lemma s_method_moved a b k p i ch (u : U) :
  run_s_method hooks (counters a b p) (i + k) ch u = moved a b k (run_s_method hooks p i ch u).
Proof.
  unfold run_s_method. change (ht_buf (counters a b p)) with (ht_buf p).
  change (ht_buf_idx (counters a b p)) with (ht_buf_idx p).
  destruct (find_method (ht_buf p) (ht_buf_idx p)); cbn beta zeta; repeat sides_step.
Qed.
Lemma s_spaces_before_uri_moved a b k p i ch (u : U) :
  run_s_spaces_before_uri (counters a b p) (i + k) ch u = moved a b k (run_s_spaces_before_uri p i ch u).
Proof. sides @run_s_spaces_before_uri. Qed.
Lemma s_schema_moved a b k p i ch (u : U) :
  run_s_schema hooks (counters a b p) (i + k) ch u = moved a b k (run_s_schema hooks p i ch u).
Proof. sides @run_s_schema. Qed.
Lemma s_schema_slash_moved a b k p i ch (u : U) :
  run_s_schema_slash (counters a b p) (i + k) ch u = moved a b k (run_s_schema_slash p i ch u).
Proof. sides @run_s_schema_slash. Qed.
Lemma s_schema_slash_slash_moved a b k p i ch (u : U) :
  run_s_schema_slash_slash (counters a b p) (i + k) ch u = moved a b k (run_s_schema_slash_slash p i ch u).
Proof. sides @run_s_schema_slash_slash. Qed.
Lemma s_host_moved a b k p i ch (u : U) :
  run_s_host hooks (counters a b p) (i + k) ch u = moved a b k (run_s_host hooks p i ch u).
Proof. sides @run_s_host. Qed.
Lemma s_port_moved a b k p i ch (u : U) :
  run_s_port hooks (counters a b p) (i + k) ch u = moved a b k (run_s_port hooks p i ch u).
Proof. sides @run_s_port. Qed.
Lemma s_after_slash_in_uri_moved a b k p i ch (u : U) :
  run_s_after_slash_in_uri hooks (counters a b p) (i + k) ch u = moved a b k (run_s_after_slash_in_uri hooks p i ch u).
Proof. sides @run_s_after_slash_in_uri. Qed.
Lemma s_check_uri_moved a b k p i ch (u : U) :
  run_s_check_uri hooks (counters a b p) (i + k) ch u = moved a b k (run_s_check_uri hooks p i ch u).
Proof. sides @run_s_check_uri. Qed.
Lemma s_uri_moved a b k p i ch (u : U) :
  run_s_uri hooks (counters a b p) (i + k) ch u = moved a b k (run_s_uri hooks p i ch u).
Proof. sides @run_s_uri. Qed.
Lemma s_http_09_moved a b k p i ch (u : U) :
  run_s_http_09 (counters a b p) (i + k) ch u = moved a b k (run_s_http_09 p i ch u).
Proof. sides @run_s_http_09. Qed.
Lemma s_first_major_digit_moved a b k p i ch (u : U) :
  run_s_first_major_digit (counters a b p) (i + k) ch u = moved a b k (run_s_first_major_digit p i ch u).
Proof. sides @run_s_first_major_digit. Qed.
Lemma s_major_digit_moved a b k p i ch (u : U) :
  run_s_major_digit (counters a b p) (i + k) ch u = moved a b k (run_s_major_digit p i ch u).
Proof. sides @run_s_major_digit. Qed.
Lemma s_first_minor_digit_moved a b k p i ch (u : U) :
  run_s_first_minor_digit (counters a b p) (i + k) ch u = moved a b k (run_s_first_minor_digit p i ch u).
Proof. sides @run_s_first_minor_digit. Qed.
Lemma s_minor_digit_moved a b k p i ch (u : U) :
  run_s_minor_digit (counters a b p) (i + k) ch u = moved a b k (run_s_minor_digit p i ch u).
Proof. sides @run_s_minor_digit. Qed.
Lemma s_status_moved a b k p i ch (u : U) :
  run_s_status (counters a b p) (i + k) ch u = moved a b k (run_s_status p i ch u).
Proof. sides @run_s_status. Qed.
Lemma s_space_after_status_moved a b k p i ch (u : U) :
  run_s_space_after_status (counters a b p) (i + k) ch u = moved a b k (run_s_space_after_status p i ch u).
Proof. sides @run_s_space_after_status. Qed.
Lemma s_status_text_moved a b k p i ch (u : U) :
  run_s_status_text (counters a b p) (i + k) ch u = moved a b k (run_s_status_text p i ch u).
Proof. sides @run_s_status_text. Qed.
Lemma s_spaces_after_digit_moved a b k p i ch (u : U) :
  run_s_spaces_after_digit (counters a b p) (i + k) ch u = moved a b k (run_s_spaces_after_digit p i ch u).
Proof. sides @run_s_spaces_after_digit. Qed.
Lemma s_almost_done_moved a b k p i ch (u : U) :
  run_s_almost_done hooks (counters a b p) (i + k) ch u = moved a b k (run_s_almost_done hooks p i ch u).
Proof. sides @run_s_almost_done. Qed.
Lemma s_hdrline_start_moved a b k p i ch (u : U) :
  run_s_hdrline_start (counters a b p) (i + k) ch u = moved a b k (run_s_hdrline_start p i ch u).
Proof. sides @run_s_hdrline_start. Qed.
Lemma s_done_moved a b k p i ch (u : U) :
  run_s_done hooks (counters a b p) (i + k) ch u = moved a b k (run_s_done hooks p i ch u).
Proof. sides @run_s_done. apply s_hdrline_start_moved. Qed.
Lemma s_hdrline_hdr_key_moved a b k p i ch (u : U) :
  run_s_hdrline_hdr_key hooks (counters a b p) (i + k) ch u = moved a b k (run_s_hdrline_hdr_key hooks p i ch u).
Proof. sides @run_s_hdrline_hdr_key. Qed.
Lemma s_hdrline_hdr_space_before_val_moved a b k p i ch (u : U) :
  run_s_hdrline_hdr_space_before_val hooks (counters a b p) (i + k) ch u = moved a b k (run_s_hdrline_hdr_space_before_val hooks p i ch u).
Proof. sides @run_s_hdrline_hdr_space_before_val. Qed.
Lemma value_end_moved a b k p i ch (u : U) :
  run_value_end hooks (counters a b p) (i + k) ch u =
  moved a b k (run_value_end hooks p i ch u).
Proof.
  sides @run_value_end; unfold eval_connection, eval_content_type; cbn zeta;
    match goal with |- context [ht_buf (counters a b ?q)] =>
      change (ht_buf (counters a b q)) with (ht_buf q) end;
    repeat match goal with |- context [if ?t then _ else _] => destruct t end; sides_step.
Qed.
Lemma s_hdrline_hdr_val_moved a b k p i ch (u : U) :
  run_s_hdrline_hdr_val hooks (counters a b p) (i + k) ch u = moved a b k (run_s_hdrline_hdr_val hooks p i ch u).
Proof. sides @run_s_hdrline_hdr_val. apply value_end_moved. Qed.
Lemma s_hdrline_hdr_almost_done_moved a b k p i ch (u : U) :
  run_s_hdrline_hdr_almost_done hooks (counters a b p) (i + k) ch u = moved a b k (run_s_hdrline_hdr_almost_done hooks p i ch u).
Proof. sides @run_s_hdrline_hdr_almost_done. Qed.
Lemma s_hdrline_hdr_done_moved a b k p i ch (u : U) :
  run_s_hdrline_hdr_done hooks (counters a b p) (i + k) ch u = moved a b k (run_s_hdrline_hdr_done hooks p i ch u).
Proof. sides @run_s_hdrline_hdr_done. Qed.
Lemma s_hdrline_almost_done_moved a b k p i ch (u : U) :
  run_s_hdrline_almost_done hooks (counters a b p) (i + k) ch u = moved a b k (run_s_hdrline_almost_done hooks p i ch u).
Proof. sides @run_s_hdrline_almost_done. Qed.
Lemma s_chunk_size_start_moved a b k p i ch (u : U) :
  run_s_chunk_size_start (counters a b p) (i + k) ch u = moved a b k (run_s_chunk_size_start p i ch u).
Proof. sides @run_s_chunk_size_start. Qed.
Lemma s_chunk_size_moved a b k p i ch (u : U) :
  run_s_chunk_size (counters a b p) (i + k) ch u = moved a b k (run_s_chunk_size p i ch u).
Proof. sides @run_s_chunk_size. Qed.
Lemma s_chunk_size_almost_done_moved a b k p i ch (u : U) :
  run_s_chunk_size_almost_done hooks (counters a b p) (i + k) ch u = moved a b k (run_s_chunk_size_almost_done hooks p i ch u).
Proof. sides @run_s_chunk_size_almost_done. Qed.
Lemma s_chunk_data_almost_done_moved a b k p i ch (u : U) :
  run_s_chunk_data_almost_done (counters a b p) (i + k) ch u = moved a b k (run_s_chunk_data_almost_done p i ch u).
Proof. sides @run_s_chunk_data_almost_done. Qed.
Lemma s_chunk_data_done_moved a b k p i ch (u : U) :
  run_s_chunk_data_done hooks (counters a b p) (i + k) ch u = moved a b k (run_s_chunk_data_done hooks p i ch u).
Proof. sides @run_s_chunk_data_done. Qed.

Lemma proto_moved a b k c next p i ch (u : U) :
  run_proto c next (counters a b p) (i + k) ch u = moved a b k (run_proto c next p i ch u).
Proof. sides @run_proto. Qed.

(** The states that look at more than one byte. *)
Definition reads_body (p : htparser) : bool :=
  match ht_state p with s_chunk_data | s_body_read => true | _ => false end.

(** Elsewhere a turn looks at its byte only. *)
Lemma switch_moved d d' a b k p i ch u :
  reads_body p = false -> state_ok p ->
  run_switch hooks d' (counters a b p) (i + k) ch u =
  moved a b k (run_switch hooks d p i ch u).
Proof.
  intros Hb Hs. unfold run_switch, reads_body, state_ok in *.
  change (ht_state (counters a b p)) with (ht_state p).
  destruct (ht_state p); try discriminate; try done;
    first [apply proto_moved
      | apply s_start_moved | apply s_method_moved | apply s_spaces_before_uri_moved
      | apply s_schema_moved | apply s_schema_slash_moved | apply s_schema_slash_slash_moved
      | apply s_host_moved | apply s_port_moved | apply s_after_slash_in_uri_moved
      | apply s_check_uri_moved | apply s_uri_moved | apply s_http_09_moved
      | apply s_first_major_digit_moved | apply s_major_digit_moved
      | apply s_first_minor_digit_moved | apply s_minor_digit_moved | apply s_status_moved
      | apply s_space_after_status_moved | apply s_status_text_moved
      | apply s_spaces_after_digit_moved | apply s_almost_done_moved
      | apply s_hdrline_start_moved | apply s_done_moved | apply s_hdrline_hdr_key_moved
      | apply s_hdrline_hdr_space_before_val_moved | apply s_hdrline_hdr_val_moved
      | apply s_hdrline_hdr_almost_done_moved | apply s_hdrline_hdr_done_moved
      | apply s_hdrline_almost_done_moved | apply s_chunk_size_start_moved
      | apply s_chunk_size_moved | apply s_chunk_size_almost_done_moved
      | apply s_chunk_data_almost_done_moved | apply s_chunk_data_done_moved].
Qed.

(** * Bodies *)

(** The bytes of a body are folded by one function. *)
Lemma body_hook_folds :
  exists g : list Z -> U -> U,
    (forall bs p u, run_body_hook hooks bs p u = (0, p, g bs u)) /\
    (forall b1 b2 u, g (b1 ++ b2) u = g b2 (g b1 u)).
Proof.
  pose proof fh_body as Hb. unfold run_body_hook, body_folds in *.
  destruct (h_body hooks) as [f|].
  - destruct Hb as (g & Hg & Happ). exists g. split; [|done].
    intros. rewrite Hg. reflexivity.
  - by exists (fun _ u => u).
Qed.

(** A body whose end is known from content_len. *)
Definition limited (p : htparser) : bool :=
  match ht_state p with
  | s_chunk_data => true
  | _ => has_flag (ht_flags p) parser_flag_content_length
  end.

(** How much of [n] bytes is taken. *)
Definition bite (n : Z) (p : htparser) : Z :=
  if limited p then Z.min n (ht_content_len p) else n.

(** [t] bytes are gone. *)
Definition eaten (t : Z) (p : htparser) : htparser :=
  set_content_len (u64 (ht_content_len p - t)) p.

Definition body_end (p : htparser) (i : Z) (u : U) : step U :=
  match ht_state p with
  | s_chunk_data => Continue (set_state s_chunk_data_almost_done p) i u
  | _ => msg_complete hooks p i u
  end.

Section Body.
Context (g : list Z -> U -> U).
Hypothesis Hg : forall bs p u, run_body_hook hooks bs p u = (0, p, g bs u).

Definition body_turn (d : list Z) (p : htparser) (i : Z) (u : U) : step U :=
  let t := bite (zlen d - i) p in
  let u := g (slice d i (i + t)) u in
  if limited p && (t =? ht_content_len p)
  then body_end (eaten t p) (i + t - 1) u
  else Continue (eaten t p) (i + t - 1) u.

Lemma limited_content p :
  reads_body p = true -> state_ok p -> limited p = true -> 0 < ht_content_len p.
Proof. unfold reads_body, state_ok, limited. by destruct (ht_state p). Qed.

Lemma chunk_data_turn d p i ch u :
  ht_fields p -> state_ok p -> ht_state p = s_chunk_data -> i < zlen d ->
  run_s_chunk_data hooks d p i ch u = body_turn d p i u.
Proof.
  intros Hp Hs Hst Hi. pose proof (wf_content_len p Hp).
  unfold state_ok in Hs. rewrite Hst in Hs.
  unfold run_s_chunk_data, body_turn, bite, limited, body_end, eaten, len. rewrite Hst.
  cbn zeta. rewrite (proj2 (Z.ltb_lt 0 _)) by lia. rewrite Hg. cbn beta iota.
  destruct (_ =? _); cbn [andb]; unfold check_user; cbn [Z.eqb];
    [change (ht_state (set_content_len _ p)) with (ht_state p); rewrite Hst|];
    by rewrite Z.add_sub_assoc.
Qed.

Lemma body_read_turn d p i ch u :
  ht_fields p -> state_ok p -> ht_state p = s_body_read -> i < zlen d ->
  run_s_body_read hooks d p i ch u = body_turn d p i u.
Proof.
  intros Hp Hs Hst Hi. pose proof (wf_content_len p Hp).
  unfold state_ok in Hs. rewrite Hst in Hs.
  unfold run_s_body_read, body_turn, bite, limited, body_end, eaten, len. rewrite Hst.
  cbn zeta.
  destruct (has_flag (ht_flags p) parser_flag_content_length) eqn:Hf.
  - specialize (Hs eq_refl). rewrite (proj2 (Z.ltb_lt 0 _)) by lia. rewrite Hg. cbn beta iota.
    change (ht_flags (set_content_len _ p)) with (ht_flags p). rewrite Hf. cbn [andb].
    change (ht_content_len (set_content_len ?v p)) with v.
    rewrite u64_small, Z.add_sub_assoc by lia.
    destruct (Z.eqb_spec (ht_content_len p - Z.min (zlen d - i) (ht_content_len p)) 0),
      (Z.eqb_spec (Z.min (zlen d - i) (ht_content_len p)) (ht_content_len p)); try lia; [|done].
    change (ht_state (set_content_len _ p)) with (ht_state p). by rewrite Hst.
  - rewrite (proj2 (Z.ltb_lt 0 _)) by lia. rewrite Hg. cbn beta iota.
    change (ht_flags (set_content_len _ p)) with (ht_flags p). rewrite Hf. cbn [andb].
    by rewrite Z.add_sub_assoc.
Qed.

Lemma switch_body d p i ch u :
  ht_fields p -> state_ok p -> reads_body p = true -> i < zlen d ->
  run_switch hooks d p i ch u = body_turn d p i u.
Proof.
  intros Hp Hs Hb Hi. unfold run_switch, reads_body in *.
  destruct (ht_state p) eqn:Hst; try done; [by apply body_read_turn|by apply chunk_data_turn].
Qed.
End Body.
End Turn.

(** * A call as a sequence of turns *)

Section Exec.
Context {U : Type} (hooks : htparse_hooks U).

(** The run of the loop, as the sequence of its turns. *)
Inductive exec (d : list Z) : htparser -> Z -> U -> run_result U -> Prop :=
  | exec_end p i u : zlen d <= i -> exec d p i u (Returned p u i)
  | exec_turn p i u p' i' u' r :
      i < zlen d -> run_byte hooks d p i u = Continue p' i' u' ->
      exec d p' (i' + 1) u' r -> exec d p i u r
  | exec_stop p i u p' n u' :
      i < zlen d -> run_byte hooks d p i u = Stop p' n u' -> exec d p i u (Returned p' u' n)
  | exec_overrun p i u :
      i < zlen d -> run_byte hooks d p i u = Overrun -> exec d p i u Buffer_overrun.

Lemma exec_fun d p i u r1 r2 : exec d p i u r1 -> exec d p i u r2 -> r1 = r2.
Proof.
  induction 1; inversion 1; subst; try lia; try congruence.
  match goal with H1 : run_byte _ _ _ _ _ = Continue _ _ _,
    H2 : run_byte _ _ _ _ _ = Continue _ _ _ |- _ => rewrite H1 in H2; simplify_eq end.
  auto.
Qed.

Lemma run_loop_exec d fuel p i u :
  run_loop hooks d fuel p i u <> Out_of_fuel ->
  exec d p i u (run_loop hooks d fuel p i u).
Proof.
  revert p i u. induction fuel as [|fuel IH]; intros p i u; simpl; unfold len;
    destruct (Z.leb_spec (zlen d) i); intros Hr; try (by apply exec_end); try done.
  destruct (run_byte hooks d p i u) eqn:Hb.
  - eapply exec_turn; eauto.
  - eapply exec_stop; eauto.
  - by apply exec_overrun.
Qed.

(** The parser as a call starts on it. *)
Definition started (p : htparser) : htparser :=
  set_bytes_read 0 (set_error htparse_error_none p).

Lemma started_wf p : ht_wf p -> ht_wf (started p).
Proof. intros [Hp Hs]. split; [unfold started; auto with ht|exact Hs]. Qed.

Lemma started_counters p :
  ht_error p = htparse_error_none -> started p = counters 0 (ht_total_bytes_read p) p.
Proof. destruct p. cbn. by intros ->. Qed.

Lemma htparser_run_exec d p u :
  Forall is_byte d -> ht_wf p -> exec d (started p) 0 u (htparser_run hooks d p u).
Proof.
  intros Hd Hw. pose proof (htparser_run_ok hooks d p u Hd Hw) as Hr.
  apply run_loop_exec. intros E. unfold htparser_run in Hr. rewrite E in Hr. exact Hr.
Qed.

Lemma exec_htparser_run d p u r :
  Forall is_byte d -> ht_wf p -> exec d (started p) 0 u r -> htparser_run hooks d p u = r.
Proof. intros Hd Hw He. eapply exec_fun; [by apply htparser_run_exec|done]. Qed.

Lemma exec_exists d p i u :
  Forall is_byte d -> ht_wf p -> ht_error p = htparse_error_none -> 0 <= i <= zlen d ->
  exists r, exec d p i u r.
Proof.
  intros Hd Hw He Hi.
  pose proof (run_loop_ok hooks d (length d) p i u Hd Hw He Hi ltac:(unfold zlen; lia)) as Hr.
  eexists. apply (run_loop_exec d (length d)). intros E. by rewrite E in Hr.
Qed.

(** The parser with the counters of a turn. *)
Definition tick (p : htparser) : htparser :=
  counters (u64 (ht_bytes_read p + 1)) (u64 (ht_total_bytes_read p + 1)) p.

Lemma run_byte_switch d p i u :
  ht_fields p -> run_byte hooks d p i u = run_switch hooks d (tick p) i (zth d i) u.
Proof.
  intros Hp. unfold run_byte. pose proof (wf_idx p Hp).
  by destruct (Z.leb_spec PARSER_STACK_MAX (ht_buf_idx p)); [lia|].
Qed.

Lemma tick_fields p : ht_fields p -> ht_fields (tick p).
Proof. intros. unfold tick, counters. auto with ht. Qed.
End Exec.

(** * Two pieces *)

Section Pieces.
Context {U : Type} (hooks : htparse_hooks U) `{FH : FragmentHooks U hooks}.
Context (d1 d2 : list Z).
Hypothesis Hd1 : Forall is_byte d1.
Hypothesis Hd2 : Forall is_byte d2.

Lemma msg_complete_moved a b k p i (u : U) :
  msg_complete hooks (counters a b p) (i + k) u = moved a b k (msg_complete hooks p i u).
Proof.
  unfold msg_complete. rewrite run_hook_counters by apply FH.
  destruct (run_hook _ _ _) as [[r q] v]. apply (check_user_moved a b k r (set_state s_start q)).
Qed.

Lemma body_end_moved a b k p i (u : U) :
  body_end hooks (counters a b p) (i + k) u = moved a b k (body_end hooks p i u).
Proof.
  unfold body_end. change (ht_state (counters a b p)) with (ht_state p).
  destruct (ht_state p); try apply msg_complete_moved. reflexivity.
Qed.

(** A turn of the second piece, in the whole data. *)
Lemma run_byte_suffix p j a b u :
  ht_wf p -> 0 <= j < zlen d2 ->
  exists a' b',
    run_byte hooks (d1 ++ d2) (counters a b p) (j + zlen d1) u =
    moved a' b' (zlen d1) (run_byte hooks d2 p j u).
Proof.
  intros [Hp Hs] Hj.
  exists (u64 (a + 1)), (u64 (b + 1)). unfold run_byte.
  change (ht_buf_idx (counters a b p)) with (ht_buf_idx p).
  pose proof (wf_idx p Hp). destruct (Z.leb_spec PARSER_STACK_MAX (ht_buf_idx p)); [lia|].
  fold (tick p). change (set_bytes_read _ (set_total_bytes_read _ (counters a b p)))
    with (counters (u64 (a + 1)) (u64 (b + 1)) (tick p)).
  rewrite zth_app_r by lia.
  destruct (reads_body (tick p)) eqn:Hb.
  - destruct (body_hook_folds hooks) as (g & Hg & _).
    pose proof (zlen_nonneg d1).
    assert (Hsw : run_switch hooks (d1 ++ d2) (counters (u64 (a + 1)) (u64 (b + 1)) (tick p))
      (j + zlen d1) (zth d2 j) u =
      body_turn hooks g (d1 ++ d2) (counters (u64 (a + 1)) (u64 (b + 1)) (tick p)) (j + zlen d1) u).
    { apply switch_body; try done; [unfold counters; auto with ht|rewrite zlen_app; lia].
      auto using tick_fields with ht. }
    rewrite Hsw, (switch_body hooks g Hg d2 (tick p)) by
      (done || lia || by apply tick_fields).
    unfold body_turn. rewrite zlen_app.
    replace (zlen d1 + zlen d2 - (j + zlen d1)) with (zlen d2 - j) by lia.
    change (bite ?n (counters _ _ ?q)) with (bite n q).
    change (limited (counters _ _ ?q)) with (limited q).
    change (ht_content_len (counters _ _ ?q)) with (ht_content_len q).
    set (t := bite (zlen d2 - j) (tick p)).
    replace (j + zlen d1 + t) with (j + t + zlen d1) by lia.
    rewrite slice_app_r by lia.
    replace (j + t + zlen d1 - 1) with (j + t - 1 + zlen d1) by lia.
    change (eaten t (counters ?x ?y ?q)) with (counters x y (eaten t q)).
    destruct (_ && _); [apply body_end_moved|reflexivity].
  - by apply switch_moved.
Qed.

(** Results that differ in the counters, with the count moved by [k]. *)
Definition results_sim (k : Z) (r r' : run_result U) : Prop :=
  match r, r' with
  | Returned p u n, Returned p' u' n' => same p p' /\ u' = u /\ n' = n + k
  | Buffer_overrun, Buffer_overrun => True
  | _, _ => False
  end.

(** The second piece, in the whole data. *)
Lemma exec_suffix p j u r :
  exec hooks d2 p j u r -> ht_wf p -> ht_error p = htparse_error_none -> 0 <= j <= zlen d2 ->
  forall a b, exists r',
    exec hooks (d1 ++ d2) (counters a b p) (j + zlen d1) u r' /\ results_sim (zlen d1) r r'.
Proof.
  induction 1 as [p j u Hj|p j u p' j' u' r Hj Hb _ IH|p j u p' n u' Hj Hb|p j u Hj Hb];
    intros Hw He Hr a b.
  - eexists. split; [apply exec_end; rewrite zlen_app; lia|].
    simpl. split; [apply same_counters|done].
  - destruct (run_byte_suffix p j a b u Hw ltac:(lia)) as (a' & b' & Hm).
    pose proof (run_byte_ok hooks d2 p j u Hd2 Hw He ltac:(lia)) as Hok.
    rewrite Hb in Hm, Hok. destruct Hok as (Hw' & He' & Hj' & _).
    destruct (IH Hw' He' ltac:(lia) a' b') as (r' & Hex & Hsim).
    exists r'. split; [|done]. eapply exec_turn; [rewrite zlen_app; lia|exact Hm|].
    by replace (j' + zlen d1 + 1) with (j' + 1 + zlen d1) by lia.
  - destruct (run_byte_suffix p j a b u Hw ltac:(lia)) as (a' & b' & Hm).
    rewrite Hb in Hm. eexists. split; [eapply exec_stop; [rewrite zlen_app; lia|exact Hm]|].
    simpl. split; [apply same_counters|done].
  - destruct (run_byte_suffix p j a b u Hw ltac:(lia)) as (a' & b' & Hm).
    rewrite Hb in Hm. eexists. split; [eapply exec_overrun; [rewrite zlen_app; lia|exact Hm]|done].
Qed.

(** A piece of a body that ends within [d1] is the same piece in the whole data. *)
Lemma body_turn_fits g p i u :
  0 <= i < zlen d1 -> limited p && (ht_content_len p <=? zlen d1 - i) = true ->
  0 <= ht_content_len p ->
  body_turn hooks g (d1 ++ d2) p i u = body_turn hooks g d1 p i u.
Proof.
  intros Hi Hl Hc. apply andb_true_iff in Hl as [Hlim Hle]. apply Z.leb_le in Hle.
  pose proof (zlen_nonneg d2).
  unfold body_turn, bite. rewrite Hlim, zlen_app, !Z.min_r by lia.
  rewrite slice_app_l by lia. done.
Qed.

(** A piece that does not: it takes the rest of [d1], and the whole turn is that
    turn followed by one on [d2]. *)
Lemma body_turn_cut g p i u :
  (forall b1 b2 v, g (b1 ++ b2) v = g b2 (g b1 v)) ->
  0 <= i < zlen d1 -> d2 <> [] -> 0 <= ht_content_len p < 2 ^ 64 ->
  limited p && (ht_content_len p <=? zlen d1 - i) = false ->
  exists q v,
    q = eaten (zlen d1 - i) p /\
    body_turn hooks g d1 p i u = Continue q (zlen d1 - 1) v /\
    forall a b,
      body_turn hooks g (d1 ++ d2) p i u =
      moved (ht_bytes_read p) (ht_total_bytes_read p) (zlen d1)
        (body_turn hooks g d2 (counters a b q) 0 v).
Proof.
  intros Happ Hi Hne Hc Hl.
  assert (0 < zlen d2) by (destruct d2; [done|unfold zlen; simpl length; lia]).
  exists (eaten (zlen d1 - i) p), (g (slice d1 i (zlen d1)) u). split; [done|].
  assert (Hb1 : bite (zlen d1 - i) p = zlen d1 - i).
  { unfold bite. destruct (limited p); simpl in Hl; [zbool; lia|done]. }
  split.
  - unfold body_turn. rewrite Hb1. replace (i + (zlen d1 - i)) with (zlen d1) by lia.
    destruct (limited p); simpl in *; [|done].
    rewrite (proj2 (Z.eqb_neq _ _)); [done|zbool; lia].
  - intros a b. unfold body_turn.
    change (bite ?n (counters a b ?q)) with (bite n q).
    change (limited (counters a b (eaten ?t ?q))) with (limited q).
    change (ht_content_len (counters a b (eaten ?t ?q))) with (u64 (ht_content_len q - t)).
    assert (Hb : bite (zlen (d1 ++ d2) - i) p =
                 zlen d1 - i + bite (zlen d2 - 0) (eaten (zlen d1 - i) p)).
    { unfold bite. change (limited (eaten ?t ?q)) with (limited q).
      change (ht_content_len (eaten ?t ?q)) with (u64 (ht_content_len q - t)).
      rewrite zlen_app. destruct (limited p); simpl in Hl; [|lia].
      zbool. rewrite u64_small by lia. lia. }
    rewrite Hb. set (t := bite (zlen d2 - 0) (eaten (zlen d1 - i) p)).
    assert (0 <= t).
    { unfold t, bite. destruct (limited _); [|lia].
      change (ht_content_len (eaten ?t ?q)) with (u64 (ht_content_len q - t)).
      pose proof (u64_range (ht_content_len p - (zlen d1 - i))). lia. }
    replace (i + (zlen d1 - i + t)) with (t + zlen d1) by lia.
    assert (Hu : g (slice (d1 ++ d2) i (t + zlen d1)) u =
                 g (slice d2 0 (0 + t)) (g (slice d1 i (zlen d1)) u)).
    { rewrite <- Happ. f_equal. rewrite <- (slice_join _ i (zlen d1)) by lia.
      rewrite slice_app_l by lia. f_equal. apply (slice_app_r d1 d2 0 t). lia. }
    rewrite Hu.
    assert (Heat : eaten (zlen d1 - i + t) p = eaten t (eaten (zlen d1 - i) p)).
    { unfold eaten. change (ht_content_len (set_content_len ?v p)) with v.
      change (set_content_len ?v (set_content_len ?w p)) with (set_content_len v p).
      f_equal. unfold u64. rewrite Zminus_mod_idemp_l. f_equal. lia. }
    rewrite Heat.
    assert (Htest : limited p && (zlen d1 - i + t =? ht_content_len p) =
                    limited p && (t =? u64 (ht_content_len p - (zlen d1 - i)))).
    { destruct (limited p) eqn:Hlim; [|done]. simpl in *. zbool.
      rewrite u64_small by lia. apply eq_true_iff_eq. rewrite !Z.eqb_eq. lia. }
    rewrite Htest.
    change (eaten t (counters a b ?q)) with (counters a b (eaten t q)).
    replace (t + zlen d1 - 1) with (0 + t - 1 + zlen d1) by lia.
    set (q := eaten t (eaten (zlen d1 - i) p)).
    assert (Hq : q = counters (ht_bytes_read p) (ht_total_bytes_read p) (counters a b q))
      by (unfold q; destruct p; reflexivity).
    clear Hl. destruct (limited p && (t =? _)).
    + rewrite Hq at 1. apply body_end_moved.
    + cbn [moved]. by rewrite <- Hq.
Qed.

(** A turn of the whole data that is the first turn on [d2] goes on as [d2] does. *)
Lemma exec_first_turn p i u q v r2 a b :
  i < zlen (d1 ++ d2) -> 0 < zlen d2 -> ht_wf q -> ht_error q = htparse_error_none ->
  run_byte hooks (d1 ++ d2) p i u = moved a b (zlen d1) (run_byte hooks d2 q 0 v) ->
  exec hooks d2 q 0 v r2 ->
  exists r, exec hooks (d1 ++ d2) p i u r /\ results_sim (zlen d1) r2 r.
Proof.
  intros Hi H0 Hw He Hm Hex.
  pose proof (run_byte_ok hooks d2 q 0 v Hd2 Hw He ltac:(lia)) as Hok.
  inversion Hex as [? ? ? Hend|? ? ? p' i' u' ? _ Hb Hrest|? ? ? p' n u' _ Hb|? ? ? _ Hb]; subst;
    [lia|rewrite Hb in Hm, Hok..].
  - destruct Hok as (Hw' & He' & Hi' & _).
    destruct (exec_suffix _ _ _ _ Hrest Hw' He' ltac:(lia) a b) as (r & Hr & Hsim).
    exists r. split; [|done]. eapply exec_turn; [done|exact Hm|].
    by replace (i' + zlen d1 + 1) with (i' + 1 + zlen d1) by lia.
  - eexists. split; [by eapply exec_stop|]. simpl. split; [apply same_counters|done].
  - eexists. split; [by eapply exec_overrun|done].
Qed.

(** What the call on [d1] says of the call on [d1 ++ d2]. *)
Definition pieces (r1 r : run_result U) : Prop :=
  match r1 with
  | Returned p1 u1 n1 =>
      (r = r1 /\
       (ht_error p1 = htparse_error_none ->
        zth d1 (n1 - 1) = LF /\ (ht_state p1 = s_done \/ ht_state p1 = s_hdrline_hdr_done))) \/
      (n1 = zlen d1 /\ ht_error p1 = htparse_error_none /\ ht_wf p1 /\
       exists r2, exec hooks d2 (started p1) 0 u1 r2 /\ results_sim (zlen d1) r2 r)
  | Buffer_overrun => r = Buffer_overrun
  | Out_of_fuel => False
  end.

(** The end of [d1] is the start of [d2]. *)
Lemma exec_boundary p u :
  ht_wf p -> ht_error p = htparse_error_none ->
  exists r, exec hooks (d1 ++ d2) p (zlen d1) u r /\ pieces (Returned p u (zlen d1)) r.
Proof.
  intros Hw He.
  destruct (exec_exists hooks d2 (started p) 0 u Hd2 (started_wf p Hw) eq_refl) as [r2 Hr2].
  { pose proof (zlen_nonneg d2). lia. }
  destruct (exec_suffix _ _ _ _ Hr2 (started_wf p Hw) eq_refl ltac:(pose proof (zlen_nonneg d2); lia)
    (ht_bytes_read p) (ht_total_bytes_read p)) as (r & Hr & Hsim).
  exists r. split.
  - rewrite started_counters in Hr by done. destruct p. exact Hr.
  - right. eauto 10.
Qed.

(** A turn in the middle of a body that [d1] does not end. *)
Lemma exec_cut p i u r1 :
  ht_wf p -> ht_error p = htparse_error_none -> 0 <= i <= zlen d1 -> i < zlen d1 -> d2 <> [] ->
  reads_body p && negb (limited p && (ht_content_len p <=? zlen d1 - i)) = true ->
  exec hooks d1 p i u r1 ->
  exists r, exec hooks (d1 ++ d2) p i u r /\ pieces r1 r.
Proof.
  intros Hw He Hi0 Hi1 Hne Hcut Hex. assert (Hi : 0 <= i < zlen d1) by lia.
  apply andb_true_iff in Hcut as [Hrb Hcut]. apply negb_true_iff in Hcut.
  destruct (body_hook_folds hooks) as (g & Hg & Happ).
  pose proof (run_byte_ok hooks d1 p i u Hd1 Hw He Hi) as Hok. destruct Hw as [Hp Hs].
  assert (0 < zlen d2) by (destruct d2; [done|unfold zlen; simpl length; lia]).
  assert (Hlen : i < zlen (d1 ++ d2)) by (rewrite zlen_app; lia).
  pose proof (tick_fields p Hp) as Ht.
  destruct (body_turn_cut g (tick p) i u Happ Hi Hne (wf_content_len p Hp) Hcut)
    as (q & v & Hq & Hturn & Hfull).
  assert (Hb : run_byte hooks d1 p i u = Continue q (zlen d1 - 1) v).
  { by rewrite run_byte_switch, (switch_body hooks g Hg), Hturn by (done || lia). }
  rewrite Hb in Hok. destruct Hok as (Hw' & He' & _).
  assert (r1 = Returned q v (zlen d1)) as ->.
  { eapply exec_fun; [exact Hex|]. eapply exec_turn; [done|exact Hb|].
    replace (zlen d1 - 1 + 1) with (zlen d1) by lia. apply exec_end. lia. }
  subst q.
  destruct (exec_exists hooks d2 (started (eaten (zlen d1 - i) (tick p))) 0 v Hd2
    (started_wf _ Hw') eq_refl ltac:(lia)) as [r2 Hr2].
  destruct (exec_first_turn p i u _ v r2 (ht_bytes_read (tick p)) (ht_total_bytes_read (tick p))
    Hlen ltac:(lia) (started_wf _ Hw') eq_refl) as (r & Hr & Hsim); [|done|].
  - rewrite run_byte_switch, (switch_body hooks g Hg) by (done || lia).
    rewrite (run_byte_switch hooks d2) by apply (started_wf _ Hw').
    assert (Htk : exists a b, tick (started (eaten (zlen d1 - i) (tick p))) =
                  counters a b (eaten (zlen d1 - i) (tick p))).
    { rewrite (started_counters _ He'). do 2 eexists. reflexivity. }
    destruct Htk as (a & b & Htk).
    pose proof (tick_fields _ (proj1 (started_wf _ Hw'))) as Hf. rewrite Htk in *.
    rewrite (Hfull a b).
    f_equal. symmetry. apply (switch_body hooks g Hg); [done|apply Hw'|done|lia].
  - exists r. split; [done|]. right. eauto 10.
Qed.

Lemma switch_any_data d d' p i ch (u : U) :
  reads_body p = false -> run_switch hooks d p i ch u = run_switch hooks d' p i ch u.
Proof. unfold reads_body, run_switch. by destruct (ht_state p). Qed.

Lemma run_byte_prefix p i u :
  ht_wf p -> 0 <= i < zlen d1 ->
  reads_body p && negb (limited p && (ht_content_len p <=? zlen d1 - i)) = false ->
  run_byte hooks (d1 ++ d2) p i u = run_byte hooks d1 p i u.
Proof.
  intros [Hp Hs] Hi Hcut. pose proof (tick_fields p Hp). pose proof (zlen_nonneg d2).
  rewrite !run_byte_switch, zth_app_l by (done || lia).
  destruct (reads_body p) eqn:Hrb; simpl in Hcut.
  - apply negb_false_iff in Hcut. destruct (body_hook_folds hooks) as (g & Hg & _).
    rewrite !(switch_body hooks g Hg) by (done || rewrite ?zlen_app; lia).
    apply body_turn_fits; [done|done|apply (wf_content_len p Hp)].
  - by apply switch_any_data.
Qed.

Lemma exec_prefix p i u r1 :
  exec hooks d1 p i u r1 -> ht_wf p -> ht_error p = htparse_error_none ->
  0 <= i <= zlen d1 -> d2 <> [] ->
  exists r, exec hooks (d1 ++ d2) p i u r /\ pieces r1 r.
Proof.
  intros Hex. pose proof Hex as Hex0. revert Hex0.
  induction Hex as [p i u Hi|p i u p' i' u' r Hi Hb Hex IH|p i u p' n u' Hi Hb|p i u Hi Hb];
    intros Hex0 Hw He Hr Hne.
  1: { replace i with (zlen d1) by lia. by apply exec_boundary. }
  all: pose proof (run_byte_ok hooks d1 p i u Hd1 Hw He ltac:(lia)) as Hok; rewrite Hb in Hok.
  all: assert (Hlen : i < zlen (d1 ++ d2))
         by (rewrite zlen_app; pose proof (zlen_nonneg d2); lia).
  all: destruct (reads_body p && negb (limited p && (ht_content_len p <=? zlen d1 - i)))
         eqn:Hcut; [by eapply exec_cut; eauto|].
  all: pose proof (run_byte_prefix p i u Hw ltac:(lia) Hcut) as Hsame; rewrite Hb in Hsame.
  - destruct Hok as (Hw' & He' & Hi' & _).
    destruct (IH Hex Hw' He' ltac:(lia) Hne) as (r' & Hr' & Hp).
    exists r'. split; [by eapply exec_turn|done].
  - eexists. split; [by eapply exec_stop|]. left. split; [done|]. by apply Hok.
  - eexists. split; [by eapply exec_overrun|done].
Qed.
End Pieces.

(** * A recorder *)

(** What a hook was given: the text of the buffer it can read, and the length it
    was told. *)
Inductive seen :=
  | Seen (hook : list Z)
  | Seen_text (hook : list Z) (len : Z) (text : list Z)
  | Seen_body (b : Z).

Definition mark (name : list Z) : option htparse_hook :=
  Some (fun _ u => mk_hook_result 0 None None (u ++ [Seen name])).

Definition text_hook (name : list Z) : option htparse_data_hook :=
  Some (fun p o n u =>
    let from := offset_or_0 o in
    mk_hook_result 0 None None
      (u ++ [Seen_text name n (slice (ht_buf p) from (from + Z.min n PARSER_STACK_MAX))])).

Definition recording : htparse_hooks (list seen) :=
  mk_hooks (mark (str "msg_begin")) (text_hook (str "method")) (text_hook (str "scheme"))
    (text_hook (str "host")) (text_hook (str "port")) (text_hook (str "path"))
    (text_hook (str "args")) (text_hook (str "uri")) (mark (str "hdrs_begin"))
    (text_hook (str "hdr_key")) (text_hook (str "hdr_val")) (text_hook (str "hostname"))
    (mark (str "hdrs_complete")) (mark (str "new_chunk")) (mark (str "chunk_complete"))
    (mark (str "chunks_complete"))
    (Some (fun _ bs u => mk_hook_result 0 None None (u ++ map Seen_body bs)))
    (mark (str "msg_complete")).

#[export] Instance recording_fragments : FragmentHooks recording.
Proof.
  split; try done. exists (fun bs u => u ++ map Seen_body bs). split; [done|].
  intros. by rewrite map_app, app_assoc.
Qed.

(** C18. A call on d1 ++ d2 does what a call on d1 followed by one on d2 does,
    for hooks with the interface [FragmentHooks], wherever the data is cut (in
    the middle of a token, of a number, of a body or of a chunk): the parser
    object is the same up to the byte counters, the hooks have seen the same,
    and the counts add up.  When the first call stops early, the whole call
    stops there; it may also stop at the end of d1 with no error, on an LF in
    place of a header line. *)
Theorem htparser_run_pieces {U} (hooks : htparse_hooks U) d1 d2 p u :
  FragmentHooks hooks -> ht_wf p -> Forall is_byte d1 -> Forall is_byte d2 ->
  match htparser_run hooks d1 p u with
  | Returned p1 u1 n1 =>
      (ht_error p1 <> htparse_error_none \/ n1 < zlen d1 ->
       htparser_run hooks (d1 ++ d2) p u = Returned p1 u1 n1) /\
      (ht_error p1 = htparse_error_none -> n1 = zlen d1 ->
       results_sim n1 (htparser_run hooks d2 p1 u1) (htparser_run hooks (d1 ++ d2) p u) \/
       htparser_run hooks (d1 ++ d2) p u = Returned p1 u1 n1 /\
       zth d1 (n1 - 1) = LF /\ (ht_state p1 = s_done \/ ht_state p1 = s_hdrline_hdr_done))
  | Buffer_overrun => htparser_run hooks (d1 ++ d2) p u = Buffer_overrun
  | Out_of_fuel => False
  end.
Proof.
  intros FH Hw Hd1 Hd2. pose proof (htparser_run_ok hooks d1 p u Hd1 Hw) as Hok.
  pose proof (htparser_run_exec hooks d1 p u Hd1 Hw) as Hex.
  assert (Hd : Forall is_byte (d1 ++ d2)) by (by apply Forall_app_2).
  destruct (decide (d2 = [])) as [->|Hne].
  - rewrite app_nil_r. destruct (htparser_run hooks d1 p u) as [p1 u1 n1| |]; [|done..].
    split; [done|]. intros He Hn. left. simpl. split; [|split; [done|lia]].
    change (same (started p1) p1). rewrite (started_counters p1 He). reflexivity.
  - destruct (exec_prefix hooks d1 d2 Hd1 Hd2 _ 0 u _ Hex (started_wf p Hw) eq_refl
      ltac:(pose proof (zlen_nonneg d1); lia) Hne) as (r & Hr & Hp).
    rewrite (exec_htparser_run hooks (d1 ++ d2) p u r Hd Hw Hr).
    destruct (htparser_run hooks d1 p u) as [p1 u1 n1| |]; [|done..].
    destruct Hp as [[-> Hstop]|(-> & He & Hw1 & r2 & Hr2 & Hsim)].
    + split; [done|]. intros He _. right. auto.
    + split; [intros [?|?]; [done|lia]|]. intros _ _. left.
      by rewrite (exec_htparser_run hooks d2 p1 u1 r2 Hd2 Hw1 Hr2).
Qed.

Lemma htparser_run_pieces_witness :
  let d1 := str "POST / HTTP/1.1" ++ [CR; LF] ++ str "Content-Length: 4" ++ [CR; LF; CR; LF] ++ str "ab" in
  match htparser_run recording d1 (htparser_init htp_type_request) [] with
  | Returned p1 u1 n1 =>
      ht_error p1 = htparse_error_none /\ n1 = zlen d1 /\
      results_sim n1 (htparser_run recording (str "cd") p1 u1)
        (htparser_run recording (d1 ++ str "cd") (htparser_init htp_type_request) [])
  | _ => False
  end.
Proof.
  intros d1.
  pose proof (htparser_run_pieces recording d1 (str "cd") (htparser_init htp_type_request) []
    recording_fragments (init_wf _) ltac:(repeat constructor; done)
    ltac:(repeat constructor; done)) as H.
  assert (Hn : match htparser_run recording d1 (htparser_init htp_type_request) [] with
    | Returned p1 _ n1 => ht_error p1 = htparse_error_none /\ n1 = zlen d1 /\ ht_state p1 = s_body_read
    | _ => False end) by (vm_compute; repeat split).
  destruct (htparser_run recording d1 _ _) as [p1 u1 n1| |]; [|done..].
  destruct Hn as (He & Hn & Hst). destruct H as [_ H]. split; [done|]. split; [done|].
  destruct (H He Hn) as [Hs|(_ & _ & [Hs|Hs])]; congruence || exact Hs.
Defined.
