(* ===== verification/HtCases.v ===== *)
(** htparse.c on particular elements: how long an element may be, what a
    Connection value does, the tables of strings, and what is left in the
    parser from one message to the next. *)
From S2P Require Import Prelude HtParse HtSafety HtText HtStream.

(** * The text of the buffer *)

(** The text stored so far. *)
Definition stored (p : htparser) : list Z := slice (ht_buf p) 0 (ht_buf_idx p).

Lemma slice_take m k : slice m 0 k = take (Z.to_nat k) m.
Proof. unfold slice. by rewrite Z.sub_0_r, drop_0. Qed.

Lemma append_stored ch p p' :
  ht_fields p -> append ch p = Some p' -> stored p' = stored p ++ [ch].
Proof.
  intros Hp Ha. pose proof (wf_idx p Hp). pose proof (wf_len p Hp) as Hl. unfold append in Ha.
  destruct (Z.ltb_spec (ht_buf_idx p + 1) PARSER_STACK_MAX); [|done]. injection Ha as <-.
  unfold stored. rewrite !slice_take. cbn [ht_buf ht_buf_idx set_buf set_buf_idx].
  rewrite take_insert_ge by lia.
  replace (Z.to_nat (ht_buf_idx p + 1)) with (S (Z.to_nat (ht_buf_idx p))) by lia.
  rewrite (take_S_r _ _ ch).
  - by rewrite take_insert_ge by lia.
  - apply list_lookup_insert_eq. unfold zlen in Hl. lia.
Qed.

(** * The longest method *)

Section Method.
Context {U : Type} (hooks : htparse_hooks U).

Lemma run_byte_method d p i u :
  ht_fields p -> ht_state p = s_method -> is_upper_or_underscore (zth d i) = true ->
  run_byte hooks d p i u = put_stay (zth d i) (tick p) i u.
Proof.
  intros Hp Hst Hc. rewrite run_byte_switch by done. unfold run_switch.
  change (ht_state (tick p)) with (ht_state p). rewrite Hst. unfold run_s_method.
  rewrite Hc. destruct (Z.eqb_spec (zth d i) 32) as [E|]; [|done]. by rewrite E in Hc.
Qed.

(** From the middle of a method: all of it is stored, or the buffer is overrun. *)
Lemma exec_method rest before p u :
  ht_wf p -> ht_state p = s_method -> stored p = before -> ht_buf_idx p = zlen before ->
  Forall is_byte rest -> forallb is_upper_or_underscore rest = true ->
  exists r, exec hooks (before ++ rest) p (zlen before) u r /\
    if zlen (before ++ rest) <? PARSER_STACK_MAX
    then exists p', r = Returned p' u (zlen (before ++ rest)) /\ ht_state p' = s_method /\
                    ht_error p' = ht_error p /\ stored p' = before ++ rest
    else r = Buffer_overrun.
Proof.
  revert before p. induction rest as [|c rest IH]; intros before p [Hp Hs] Hst Ht Hidx Hb Hc.
  - rewrite app_nil_r in *. exists (Returned p u (zlen before)). split; [by apply exec_end|].
    pose proof (wf_idx p Hp). rewrite (proj2 (Z.ltb_lt _ _)) by lia. by exists p.
  - apply Forall_cons in Hb as [Hbc Hb]. simpl in Hc. apply andb_true_iff in Hc as [Hc1 Hc2].
    pose proof (zlen_nonneg rest).
    assert (Hch : zth (before ++ c :: rest) (zlen before) = c).
    { rewrite <- (Z.add_0_l (zlen before)), zth_app_r by lia. done. }
    assert (Hlt : zlen before < zlen (before ++ c :: rest)) by (rewrite zlen_app, zlen_cons; lia).
    pose proof (run_byte_method (before ++ c :: rest) p (zlen before) u Hp Hst) as Hrun.
    rewrite Hch in Hrun. specialize (Hrun Hc1). unfold put_stay, put in Hrun.
    pose proof (append_cases c (tick p) (tick_fields p Hp) Hbc) as Ha.
    destruct (append c (tick p)) as [p'|] eqn:Happ.
    + destruct Ha as (Hp' & Hidx' & Hset). apply append_stored in Happ; [|by apply tick_fields].
      change (stored (tick p)) with (stored p) in Happ.
      change (ht_buf_idx (tick p)) with (ht_buf_idx p) in Hidx'.
      assert (Hst' : ht_state p' = s_method) by (rewrite Hset; exact Hst).
      assert (He' : ht_error p' = ht_error p) by (rewrite Hset; reflexivity).
      destruct (IH (before ++ [c]) p') as (r & Hr & Hres).
      * split; [done|]. unfold state_ok. by rewrite Hst'.
      * done.
      * by rewrite Happ, Ht.
      * rewrite zlen_app. change (zlen [c]) with 1. lia.
      * done.
      * done.
      * rewrite <- app_assoc in *. cbn [app] in *. rewrite He' in Hres.
        exists r. split; [|done]. eapply exec_turn; [done|exact Hrun|].
        by rewrite zlen_app in Hr.
    + change (ht_buf_idx (tick p)) with (ht_buf_idx p) in Ha.
      exists Buffer_overrun. split; [by apply exec_overrun|].
      rewrite (proj2 (Z.ltb_ge _ _)); [done|]. rewrite zlen_app, zlen_cons. lia.
Qed.
End Method.

(** A method of up to 8191 bytes is stored in the buffer; one of 8192 or
    more makes the code write its NUL one byte past the end of the buffer,
    before the test for too_big can stop it. *)
Theorem method_length_limit {U} (hooks : htparse_hooks U) (t : list Z) u :
  on_msg_begin hooks = None -> t <> [] ->
  Forall is_byte t -> forallb is_upper_or_underscore t = true ->
  if zlen t <? PARSER_STACK_MAX
  then exists p, htparser_run hooks t (htparser_init htp_type_request) u = Returned p u (zlen t) /\
                 ht_error p = htparse_error_none /\ stored p = t
  else htparser_run hooks t (htparser_init htp_type_request) u = Buffer_overrun.
Proof.
  intros Hk Hne Hb Hc. destruct t as [|c rest]; [done|].
  set (p0 := started (htparser_init htp_type_request)).
  assert (Hw0 : ht_wf p0) by apply started_wf, init_wf.
  pose proof Hb as Hball. apply Forall_cons in Hb as [Hbc Hb].
  simpl in Hc. apply andb_true_iff in Hc as [Hc1 Hc2].
  set (q := set_flags 0 (tick p0)).
  assert (Hq : ht_fields q) by (apply fields_set_flags; [apply tick_fields, Hw0|lia]).
  assert (Hrun : run_byte hooks (c :: rest) p0 0 u =
                 put c q (fun p => Continue (set_state s_method p) 0 u)).
  { rewrite run_byte_switch by apply Hw0. change (zth (c :: rest) 0) with c.
    unfold run_switch. change (ht_state (tick p0)) with s_start. cbn beta iota.
    unfold run_s_start. fold q. rewrite Hc1, Hk. cbn [run_hook negb].
    destruct (_ || _) eqn:Hn; [|unfold put, append; by destruct (_ <? _)].
    unfold is_upper_or_underscore in Hc1. unfold CR, LF in Hn.
    apply orb_true_iff in Hn as [Hn|Hn]; apply Z.eqb_eq in Hn; by subst c. }
  pose proof (append_cases c q Hq Hbc) as Ha.
  destruct (append c q) as [p1|] eqn:Happ; [|by vm_compute in Ha].
  destruct Ha as (Hp1 & Hidx & Hset). pose proof (append_stored _ _ _ Hq Happ) as Hst1.
  destruct (exec_method hooks rest [c] (set_state s_method p1) u) as (r & Hr & Hres).
  - split; [by apply fields_set_state|exact I].
  - done.
  - exact Hst1.
  - exact Hidx.
  - done.
  - done.
  - assert (Hall : htparser_run hooks (c :: rest) (htparser_init htp_type_request) u = r).
    { apply (exec_htparser_run hooks); [done|apply init_wf|].
      refine (exec_turn _ _ _ 0 _ _ 0 _ _ _ _ Hr);
        [unfold zlen; simpl length; lia|].
      fold p0. cbn [app]. rewrite Hrun. unfold put. by rewrite Happ. }
    rewrite Hall. cbn [app] in Hres. destruct (_ <? _); [|done].
    destruct Hres as (p' & -> & _ & He & Hs'). exists p'. split; [done|]. split; [|done].
    rewrite He. change (ht_error (set_state s_method p1)) with (ht_error p1). by rewrite Hset.
Qed.

(** No hook is called in a method but on_msg_begin. *)
Lemma method_length_limit_witness :
  exists p, htparser_run no_hooks (str "GE_T") (htparser_init htp_type_request) tt
      = Returned p tt 4 /\ ht_error p = htparse_error_none /\ stored p = str "GE_T".
Proof.
  apply (method_length_limit no_hooks (str "GE_T") tt); [done|done| |reflexivity].
  repeat constructor; done.
Defined.

(** * Connection values *)

Lemma cstring_app t rest : forallb (fun c => negb (c =? 0)) t = true -> cstring (t ++ 0 :: rest) = t.
Proof.
  induction t as [|c t IH]; simpl; [done|]. intros H. apply andb_true_iff in H as [Hc H].
  apply negb_true_iff in Hc. rewrite Hc, IH; done.
Qed.

(** What the code makes of the value of a Connection header. *)
Definition connection_flag (t : list Z) : Z :=
  if bytes_eqb (map tolower t) (str "keep-alive") then parser_flag_connection_keep_alive
  else if bytes_eqb (map tolower t) (str "close") && (zth t 0 =? chr "c")
  then parser_flag_connection_close
  else 0.

Lemma strcasecmp_text t rest l :
  forallb (fun c => negb (c =? 0)) t = true ->
  strcasecmp_eq (t ++ 0 :: rest) l = bytes_eqb (map tolower t) l.
Proof.
  intros Ht. unfold strcasecmp_eq. rewrite cstring_app by done.
  apply eq_true_iff_eq. by rewrite bool_decide_eq_true, bytes_eqb_eq.
Qed.

Lemma tolower_cases b c : 97 <= c <= 122 -> tolower b = c -> b = c \/ b = c - 32.
Proof. unfold tolower. intros Hc. case_match; intros; [right; lia|by left]. Qed.

(** The flag a Connection value sets: keep-alive in any letter case, close
    in any letter case of its last four letters but only with a small c, and
    nothing for any other value. *)
Theorem connection_value (p : htparser) (t rest : list Z) :
  ht_buf p = t ++ 0 :: rest -> forallb (fun c => negb (c =? 0)) t = true ->
  eval_connection p = add_flag (connection_flag t) p.
Proof.
  intros Hbuf Ht. unfold eval_connection. rewrite Hbuf, !strcasecmp_text by done.
  assert (H0 : add_flag 0 p = p) by (unfold add_flag; rewrite Z.lor_0_r; by destruct p).
  unfold connection_flag. destruct t as [|c t]; [symmetry; exact H0|].
  change (zth ((c :: t) ++ 0 :: rest) 0) with c. change (zth (c :: t) 0) with c.
  cbn [map bytes_eqb].
  destruct (Z.eqb_spec (tolower c) 107) as [E1|E1].
  - assert (Hc : (c =? 75) || (c =? 107) = true).
    { destruct (tolower_cases c 107 ltac:(lia) E1) as [->| ->]; done. }
    rewrite Hc. rewrite E1. cbn [andb Z.eqb Pos.eqb]. by destruct (bytes_eqb _ _).
  - assert (Hc : (c =? 75) || (c =? 107) = false).
    { apply not_true_is_false. intros H. apply orb_true_iff in H as [H|H];
        apply Z.eqb_eq in H; subst c; by apply E1. }
    rewrite Hc. cbn [andb]. destruct (Z.eqb_spec c 99) as [->|].
    + change (tolower 99) with 99. cbn [andb Z.eqb Pos.eqb]. rewrite andb_true_r.
      by destruct (bytes_eqb _ _).
    + by rewrite andb_false_r, H0.
Qed.

Lemma connection_value_witness :
  let p := set_buf (str "Close" ++ [0]) (htparser_init htp_type_request) in
  eval_connection p = add_flag 0 p.
Proof.
  apply (connection_value _ (str "Close") []); reflexivity.
Defined.

(** * The tables of strings *)

(** Htparser_get_methodstr gives back the token of the method that s_method
    found, for every method but two: for PROPPATCH the string is misspelt, and
    for CONNECT the code reads past the end of its table. *)
Theorem methodstr_of_token (t : list Z) (m : htp_method) (p : htparser) :
  named method_table t = Some m -> ht_method p = m ->
  htparser_get_methodstr p =
    match m with
    | htp_method_PROPPATCH => Str (str "PROPATCH")
    | htp_method_CONNECT => Out_of_array
    | _ => Str t
    end.
Proof.
  intros Ht Hm. unfold htparser_get_methodstr. rewrite Hm. clear Hm.
  unfold method_table in Ht. cbn [named] in Ht.
  repeat match type of Ht with
  | (if bytes_eqb t ?s then _ else _) = _ =>
      destruct (bytes_eqb t s) eqn:E; [apply bytes_eqb_eq in E; injection Ht as <-; by subst t|clear E]
  end.
  done.
Qed.

Lemma methodstr_of_token_witness :
  htparser_get_methodstr (set_method htp_method_UNLOCK (htparser_init htp_type_request))
    = Str (str "UNLOCK") /\
  htparser_get_methodstr (set_method htp_method_CONNECT (htparser_init htp_type_request))
    = Out_of_array.
Proof.
  split.
  - by apply (methodstr_of_token (str "UNLOCK") htp_method_UNLOCK).
  - by apply (methodstr_of_token (str "CONNECT") htp_method_CONNECT).
Defined.

(** Htparser_get_strerror reads inside its table for every error but
    htparse_error_generic, for which it reads past the end; the error for a bad
    status is reported as unknown. *)
Theorem strerror_of_error (p : htparser) :
  htparser_get_strerror p =
    match ht_error p with
    | htparse_error_none => Str (str "htparse_error_none")
    | htparse_error_too_big => Str (str "htparse_error_too_big")
    | htparse_error_inval_method => Str (str "htparse_error_invalid_method")
    | htparse_error_inval_reqline => Str (str "htparse_error_invalid_requestline")
    | htparse_error_inval_schema => Str (str "htparse_error_invalid_schema")
    | htparse_error_inval_proto => Str (str "htparse_error_invalid_protocol")
    | htparse_error_inval_ver => Str (str "htparse_error_invalid_version")
    | htparse_error_inval_hdr => Str (str "htparse_error_invalid_header")
    | htparse_error_inval_chunk_sz => Str (str "htparse_error_invalid_chunk_size")
    | htparse_error_inval_chunk => Str (str "htparse_error_invalid_chunk")
    | htparse_error_inval_state => Str (str "htparse_error_invalid_state")
    | htparse_error_user => Str (str "htparse_error_user")
    | htparse_error_status => Str (str "htparse_error_unknown")
    | htparse_error_generic => Out_of_array
    end.
Proof. unfold htparser_get_strerror, htparser_get_error. by destruct (ht_error p). Qed.

(** * From one message to the next *)

(** The calls of hook [name] in a record: the length and the text of each. *)
Definition calls_of (name : list Z) (l : list seen) : list (Z * list Z) :=
  omap (fun s => match s with
                 | Seen_text n k t => if bytes_eqb n name then Some (k, t) else None
                 | _ => None
                 end) l.

Definition hook_calls (name data : list Z) : list (Z * list Z) :=
  match htparser_run recording data (htparser_init htp_type_request) [] with
  | Returned _ l _ => calls_of name l
  | _ => []
  end.

Definition crlf : list Z := [CR; LF].

Definition two_requests : list Z :=
  str "GET /abcdefgh?x HTTP/1.1" ++ crlf ++ crlf ++ str "GET /b.c HTTP/1.1" ++ crlf ++ crlf.

Definition method_after (data : list Z) : option htp_method :=
  match htparser_run recording data (htparser_init htp_type_request) [] with
  | Returned p _ _ => Some (ht_method p)
  | _ => None
  end.

(** What a request leaves in the parser changes the meaning of the next one
    on the same connection.  p->args_offset is never reset: after a request with
    a query, a request without one has its args hook called with a length that
    has wrapped around below zero, and its path hook is not called.  The port
    hook is given the whole text of the URI, the path hook of an absolute URI
    the length of the whole URI from the start of the path, and an unknown
    method is taken for the method before it. *)
Theorem left_over_state :
  map fst (hook_calls (str "args") two_requests) = [2; 2 ^ 64 - 5] /\
  hook_calls (str "path") two_requests = [(9, str "/abcdefgh")] /\
  hook_calls (str "port") (str "GET http://h:80/ HTTP/1.1" ++ crlf) = [(11, str "http://h:80")] /\
  map fst (hook_calls (str "path") (str "GET http://h:80/ HTTP/1.1" ++ crlf)) = [12] /\
  method_after (str "PUT / HTTP/1.1" ++ crlf ++ crlf ++ str "FOO ") = Some htp_method_PUT.
Proof. vm_compute. repeat split; reflexivity. Qed.
