(* ===== verification/HtChunked.v ===== *)
(** htparse.c on chunked bodies: a body written in chunks is given to the hooks
    chunk by chunk, whatever the sizes of the chunks. *)
From S2P Require Import Prelude HtParse HtSafety HtText HtStream.

(** * Bodies in chunks *)

Definition hex_digit (c : Z) : option Z :=
  if (48 <=? c) && (c <=? 57) then Some (c - 48)
  else if (65 <=? c) && (c <=? 70) then Some (c - 55)
  else if (97 <=? c) && (c <=? 102) then Some (c - 87)
  else None.

(** The number a text of hexadecimal digits writes, after the number [v]. *)
Fixpoint hex_number (v : Z) (s : list Z) : option Z :=
  match s with
  | [] => Some v
  | c :: s' => match hex_digit c with Some x => hex_number (v * 16 + x) s' | None => None end
  end.

(** A chunk: its size as written, and its data. *)
Definition chunk : Type := list Z * list Z.

Definition chunk_ok (c : chunk) : Prop :=
  fst c <> [] /\ hex_number 0 (fst c) = Some (zlen (snd c)) /\ 0 < zlen (snd c) < 2 ^ 64 /\
  Forall is_byte (snd c).

Definition chunk_text (c : chunk) : list Z := fst c ++ [CR; LF] ++ snd c ++ [CR; LF].

(** The body: the chunks, and a chunk of size 0 written [zs]. *)
Definition chunked_text (cs : list chunk) (zs : list Z) : list Z :=
  concat (map chunk_text cs) ++ zs ++ [CR; LF; CR; LF].

(** What the hooks see. *)
Definition chunk_events (c : chunk) : list seen :=
  [Seen (str "new_chunk")] ++ map Seen_body (snd c) ++ [Seen (str "chunk_complete")].
Definition chunked_events (cs : list chunk) : list seen :=
  concat (map chunk_events cs) ++ [Seen (str "chunks_complete"); Seen (str "msg_complete")].

(** * Digits *)

Lemma unhex_digit c x : hex_digit c = Some x -> unhex_val c = x /\ 0 <= x <= 15 /\ c <> CR /\ is_byte c.
Proof.
  assert (H : forallb (fun c => match hex_digit c with
    | Some x => (unhex_val c =? x) && (0 <=? x) && (x <=? 15) && negb (c =? CR)
    | None => true end) (seqZ 0 128) = true) by reflexivity.
  intros Hx. assert (Hc : 0 <= c < 128).
  { unfold hex_digit in Hx. repeat case_match; try done;
      repeat match goal with E : (_ && _) = true |- _ => apply andb_true_iff in E as [? ?] end;
      rewrite !Z.leb_le in *; lia. }
  rewrite forallb_forall in H. specialize (H c). rewrite Hx in H.
  rewrite !andb_true_iff, Z.eqb_eq, !Z.leb_le, negb_true_iff, Z.eqb_neq in H.
  destruct H as [[[? ?] ?] ?]; [|unfold is_byte; repeat split; done || lia].
  apply list_elem_of_In, elem_of_seqZ. lia.
Qed.

Lemma hex_number_mono s v n : hex_number v s = Some n -> 0 <= v -> v <= n.
Proof.
  revert v. induction s as [|c s IH]; simpl; intros v H Hv; [injection H; lia|].
  destruct (hex_digit c) as [x|] eqn:E; [|done]. apply unhex_digit in E.
  apply IH in H; lia.
Qed.

Lemma hex_number_bytes s v n : hex_number v s = Some n -> Forall is_byte s.
Proof.
  revert v. induction s as [|c s IH]; simpl; intros v H; [done|].
  destruct (hex_digit c) as [x|] eqn:E; [|done]. apply unhex_digit in E.
  constructor; [tauto|eauto].
Qed.

(** * Runs *)

(** A parser in state [s] with [n] bytes to go. *)
Record at_ (s : parser_state) (n : Z) (p : htparser) : Prop := mk_at {
  at_wf : ht_fields p;
  at_state : ht_state p = s;
  at_len : ht_content_len p = n;
  at_error : ht_error p = htparse_error_none
}.

(** The loop, with [before] done and [text] to go, ends in [Q]. *)
Definition runs (before text : list Z) (p : htparser) (u : list seen)
    (Q : run_result (list seen) -> Prop) : Prop :=
  exists r, exec recording (before ++ text) p (zlen before) u r /\ Q r.

Lemma zth_next (before : list Z) c text : zth (before ++ c :: text) (zlen before) = c.
Proof. rewrite <- (Z.add_0_l (zlen before)), zth_app_r by lia. done. Qed.

(** One turn on one byte. *)
Lemma turns_byte before c text p u p' u' Q :
  ht_fields p ->
  run_switch recording (before ++ c :: text) (tick p) (zlen before) c u = Continue p' (zlen before) u' ->
  runs (before ++ [c]) text p' u' Q -> runs before (c :: text) p u Q.
Proof.
  intros Hp Hr (r & He & HQ). exists r. split; [|done]. rewrite <- app_assoc in He.
  rewrite zlen_app in He. eapply exec_turn; [|rewrite run_byte_switch, zth_next by done; exact Hr|done].
  rewrite zlen_app, zlen_cons. pose proof (zlen_nonneg text). lia.
Qed.

(** A step keeps what is known of the parser. *)
Lemma at_set s n p s' n' :
  at_ s n p -> 0 <= n' < 2 ^ 64 -> at_ s' n' (set_state s' (set_content_len n' (tick p))).
Proof.
  intros [] Hn. constructor; try done. apply fields_set_state, fields_set_content_len; [|done].
  by apply tick_fields.
Qed.

Lemma at_goto s n p s' : at_ s n p -> at_ s' n (set_state s' (tick p)).
Proof. intros []. constructor; try done. apply fields_set_state. by apply tick_fields. Qed.

(** ** The size of a chunk *)

Lemma runs_digits s before text p u v n Q :
  at_ s_chunk_size v p -> 0 <= v -> hex_number v s = Some n -> n < 2 ^ 64 ->
  (forall p', at_ s_chunk_size n p' -> runs (before ++ s) text p' u Q) ->
  runs before (s ++ text) p u Q.
Proof.
  revert before p v. induction s as [|c s IH]; intros before p v Hp Hv Hn Hlt HQ; simpl in Hn.
  - injection Hn as ->. rewrite app_nil_r in HQ. by apply HQ.
  - destruct (hex_digit c) as [x|] eqn:Hx; [|done]. apply unhex_digit in Hx as (Hx & Hr & Hcr & _).
    pose proof (hex_number_mono _ _ _ Hn ltac:(lia)).
    eapply turns_byte; [apply Hp| |].
    + unfold run_switch. change (ht_state (tick p)) with (ht_state p). rewrite (at_state _ _ _ Hp).
      unfold run_s_chunk_size. rewrite (proj2 (Z.eqb_neq c CR)) by done. rewrite Hx.
      rewrite (proj2 (Z.eqb_neq x (-1))) by lia. reflexivity.
    + change (ht_content_len (tick p)) with (ht_content_len p). rewrite (at_len _ _ _ Hp).
      rewrite !u64_small by (rewrite ?u64_small; lia).
      apply (IH (before ++ [c]) _ (v * 16 + x)); [|lia|done|done|by rewrite <- app_assoc].
      constructor; try apply Hp; [|done]. apply fields_set_content_len; [|lia].
      apply tick_fields, Hp.
Qed.

Lemma runs_size s before text p u m n Q :
  at_ s_chunk_size_start m p -> s <> [] -> hex_number 0 s = Some n -> n < 2 ^ 64 ->
  (forall p', at_ s_chunk_size_almost_done n p' -> runs (before ++ s ++ [CR]) text p' u Q) ->
  runs before (s ++ CR :: text) p u Q.
Proof.
  intros Hp Hne Hn Hlt HQ. destruct s as [|c s]; [done|]. simpl in Hn.
  destruct (hex_digit c) as [x|] eqn:Hx; [|done]. apply unhex_digit in Hx as (Hx & Hr & _).
  eapply turns_byte; [apply Hp| |].
  - unfold run_switch. change (ht_state (tick p)) with (ht_state p). rewrite (at_state _ _ _ Hp).
    unfold run_s_chunk_size_start. rewrite Hx, (proj2 (Z.eqb_neq x (-1))) by lia. reflexivity.
  - apply (runs_digits s _ _ _ _ x n); [by apply (at_set s_chunk_size_start m); [|lia]|lia|done|done|].
    intros p1 Hp1. eapply turns_byte; [apply Hp1| |].
    + unfold run_switch. change (ht_state (tick p1)) with (ht_state p1).
      rewrite (at_state _ _ _ Hp1). reflexivity.
    + rewrite <- !app_assoc. apply HQ. by eapply at_goto.
Qed.

(** ** Its data *)

(** A chunk is read in one turn. *)
Lemma runs_data data before text p u Q :
  at_ s_chunk_data (zlen data) p -> 0 < zlen data ->
  (forall p', at_ s_chunk_data_almost_done 0 p' ->
     runs (before ++ data) text p' (u ++ map Seen_body data) Q) ->
  runs before (data ++ text) p u Q.
Proof.
  intros Hp Hd HQ. pose proof (at_wf _ _ _ Hp) as Hf. pose proof (at_len _ _ _ Hp) as Hl.
  pose proof (zlen_nonneg before). pose proof (zlen_nonneg text).
  assert (Hb : run_byte recording (before ++ data ++ text) p (zlen before) u =
    Continue (set_state s_chunk_data_almost_done (eaten (zlen data) (tick p)))
      (zlen before + zlen data - 1) (u ++ map Seen_body data)).
  { rewrite run_byte_switch by done. unfold run_switch.
    change (ht_state (tick p)) with (ht_state p). rewrite (at_state _ _ _ Hp).
    rewrite (chunk_data_turn recording (fun bs u => u ++ map Seen_body bs)); [| |by apply tick_fields| | |].
    - unfold body_turn, bite, limited, body_end.
      change (ht_state (eaten _ (tick p))) with (ht_state p).
      change (ht_state (tick p)) with (ht_state p).
      change (ht_content_len (tick p)) with (ht_content_len p). rewrite (at_state _ _ _ Hp), Hl.
      rewrite !zlen_app, Z.min_r by lia. rewrite Z.eqb_refl. cbn [andb].
      by rewrite slice_mid.
    - done.
    - unfold state_ok. change (ht_state (tick p)) with (ht_state p).
      rewrite (at_state _ _ _ Hp). change (ht_content_len (tick p)) with (ht_content_len p). lia.
    - apply Hp.
    - rewrite !zlen_app. lia. }
  destruct (HQ (set_state s_chunk_data_almost_done (eaten (zlen data) (tick p)))) as (r & He & Hr).
  { unfold eaten. change (ht_content_len (tick p)) with (ht_content_len p).
    rewrite Hl, Z.sub_diag. change (u64 0) with 0. eapply at_set; [done|lia]. }
  exists r. split; [|done]. eapply exec_turn; [rewrite !zlen_app; lia|exact Hb|].
  rewrite <- app_assoc, zlen_app in He. by rewrite Z.sub_add.
Qed.

(** ** Whole chunks *)

(** The LF that ends a size: data follows, or the trailer. *)
Lemma runs_new_chunk before text p u n Q :
  at_ s_chunk_size_almost_done n p -> 0 < n ->
  (forall p', at_ s_chunk_data n p' ->
     runs (before ++ [LF]) text p' (u ++ [Seen (str "new_chunk")]) Q) ->
  runs before (LF :: text) p u Q.
Proof.
  intros Hp Hn HQ. eapply turns_byte; [apply Hp| |].
  - unfold run_switch. change (ht_state (tick p)) with (ht_state p). rewrite (at_state _ _ _ Hp).
    unfold run_s_chunk_size_almost_done. change (ht_content_len (tick p)) with (ht_content_len p).
    rewrite (at_len _ _ _ Hp), (proj2 (Z.eqb_neq n 0)) by lia. reflexivity.
  - apply HQ. by eapply at_goto.
Qed.

Lemma runs_chunk_end before text p u Q :
  at_ s_chunk_data_almost_done 0 p ->
  (forall p', at_ s_chunk_size_start 0 p' ->
     runs (before ++ [CR; LF]) text p' (u ++ [Seen (str "chunk_complete")]) Q) ->
  runs before (CR :: LF :: text) p u Q.
Proof.
  intros Hp HQ. eapply turns_byte; [apply Hp| |].
  { unfold run_switch. change (ht_state (tick p)) with (ht_state p). rewrite (at_state _ _ _ Hp).
    reflexivity. }
  pose proof (at_goto _ _ _ s_chunk_data_done Hp) as Hp1. eapply turns_byte; [apply Hp1| |].
  { unfold run_switch. reflexivity. }
  rewrite <- app_assoc. apply HQ. by eapply at_goto.
Qed.

Lemma runs_chunk c before text p u m Q :
  at_ s_chunk_size_start m p -> chunk_ok c ->
  (forall p', at_ s_chunk_size_start 0 p' ->
     runs (before ++ chunk_text c) text p' (u ++ chunk_events c) Q) ->
  runs before (chunk_text c ++ text) p u Q.
Proof.
  destruct c as [s data]. intros Hp (Hne & Hn & Hd & _) HQ. cbn [fst snd] in *.
  unfold chunk_text, chunk_events in *. cbn [fst snd] in *. rewrite <- !app_assoc. cbn [app].
  apply (runs_size s _ _ _ _ m (zlen data)); [done|done|done|lia|]. intros p1 H1.
  apply (runs_new_chunk _ _ _ _ (zlen data)); [done|lia|]. intros p2 H2.
  apply runs_data; [done|lia|]. intros p3 H3. apply runs_chunk_end; [done|]. intros p4 H4.
  rewrite <- !app_assoc in *. by apply HQ.
Qed.

Lemma runs_chunks cs before text p u m Q :
  at_ s_chunk_size_start m p -> Forall chunk_ok cs ->
  (forall p' m', at_ s_chunk_size_start m' p' ->
     runs (before ++ concat (map chunk_text cs)) text p' (u ++ concat (map chunk_events cs)) Q) ->
  runs before (concat (map chunk_text cs) ++ text) p u Q.
Proof.
  intros Hp Hcs. revert before p u m Hp. induction Hcs as [|c cs Hc Hcs IH]; intros before p u m Hp HQ;
    cbn [map concat] in *.
  - rewrite !app_nil_r in HQ. by eapply HQ.
  - rewrite <- app_assoc. apply (runs_chunk c _ _ _ _ m); [done|done|]. intros p1 H1.
    eapply IH; [exact H1|]. intros p2 m2 H2. rewrite <- !app_assoc. by eapply HQ.
Qed.

(** The last chunk and the empty trailer. *)
Lemma runs_last zs before p u m :
  at_ s_chunk_size_start m p -> zs <> [] -> hex_number 0 zs = Some 0 ->
  runs before (zs ++ [CR; LF; CR; LF]) p u (fun r =>
    exists p', r = Returned p' (u ++ [Seen (str "chunks_complete"); Seen (str "msg_complete")])
                 (zlen (before ++ zs ++ [CR; LF; CR; LF])) /\
      ht_state p' = s_start /\ ht_error p' = htparse_error_none).
Proof.
  intros Hp Hne Hz. apply (runs_size zs _ _ _ _ m 0); [done..|]. intros p1 H1.
  eapply turns_byte; [apply H1| |].
  { unfold run_switch. change (ht_state (tick p1)) with (ht_state p1). rewrite (at_state _ _ _ H1).
    unfold run_s_chunk_size_almost_done. change (ht_content_len (tick p1)) with (ht_content_len p1).
    rewrite (at_len _ _ _ H1). reflexivity. }
  match goal with |- runs _ _ ?q _ _ => set (p2 := q) end.
  assert (Hf2 : ht_fields p2).
  { unfold p2. apply fields_set_state, fields_add_flag; [apply tick_fields, H1|done]. }
  eapply turns_byte; [exact Hf2|reflexivity|].
  match goal with |- runs _ _ ?q _ _ => set (p3 := q) end.
  assert (Hf3 : ht_fields p3).
  { unfold p3. apply fields_set_state, fields_set_buf_idx_0, tick_fields, Hf2. }
  assert (Ht : has_flag (ht_flags (tick p3)) parser_flag_trailing = true).
  { change (ht_flags (tick p3)) with (Z.lor (ht_flags p1) 8).
    rewrite has_flag_lor. apply orb_true_r. }
  eapply turns_byte; [exact Hf3| |].
  { unfold run_switch. change (ht_state (tick p3)) with s_hdrline_hdr_almost_done.
    unfold run_s_hdrline_hdr_almost_done. rewrite Ht. reflexivity. }
  match goal with |- runs _ _ ?q _ _ => set (p4 := q) end.
  eexists. split; [apply exec_end; by rewrite app_nil_r|].
  exists p4. split; [|split; [reflexivity|]].
  - change (Returned p4 ((u ++ [Seen (str "chunks_complete")]) ++ [Seen (str "msg_complete")])
      (zlen ((((before ++ zs ++ [CR]) ++ [LF]) ++ [CR]) ++ [LF])) =
      Returned p4 (u ++ [Seen (str "chunks_complete"); Seen (str "msg_complete")])
        (zlen (before ++ zs ++ [CR; LF; CR; LF]))).
    by rewrite <- !app_assoc.
  - exact (at_error _ _ _ H1).
Qed.

Lemma chunk_bytes c : chunk_ok c -> Forall is_byte (chunk_text c).
Proof.
  intros (_ & Hn & _ & Hd). unfold chunk_text. apply hex_number_bytes in Hn.
  assert (Forall is_byte [CR; LF]) by (by repeat constructor). eauto using Forall_app_2.
Qed.

(** C29. Chunked bodies.  A parser that expects a chunk reads any sequence of
    chunks, each with its size in hexadecimal (in either case, with any leading
    zeros), and a last chunk of size 0, to the end.  The hooks see for each chunk
    its beginning, exactly its data and its end, then the end of the chunks and
    of the message, and the parser is ready for the next message. *)
Theorem chunked_body (cs : list chunk) (zs : list Z) (p : htparser) (u : list seen) :
  ht_wf p -> ht_state p = s_chunk_size_start -> Forall chunk_ok cs ->
  zs <> [] -> hex_number 0 zs = Some 0 ->
  exists p', htparser_run recording (chunked_text cs zs) p u =
      Returned p' (u ++ chunked_events cs) (zlen (chunked_text cs zs)) /\
    ht_state p' = s_start /\ ht_error p' = htparse_error_none.
Proof.
  intros Hw Hst Hcs Hne Hz.
  assert (Hb : Forall is_byte (chunked_text cs zs)).
  { apply Forall_app_2.
    - apply Forall_concat, Forall_fmap. eapply Forall_impl; [exact Hcs|]. apply chunk_bytes.
    - apply Forall_app_2; [by eapply hex_number_bytes|by repeat constructor]. }
  assert (Hr : runs [] (chunked_text cs zs) (started p) u (fun r =>
    exists p', r = Returned p' (u ++ chunked_events cs) (zlen (chunked_text cs zs)) /\
      ht_state p' = s_start /\ ht_error p' = htparse_error_none)).
  { apply (runs_chunks cs _ _ _ _ (ht_content_len p)); [|done|].
    { constructor; try done. by apply started_wf. }
    intros p1 m1 H1. destruct (runs_last zs ([] ++ concat (map chunk_text cs)) p1
      (u ++ concat (map chunk_events cs)) m1 H1 Hne Hz) as (r & He & p' & -> & Hs).
    eexists. split; [exact He|]. exists p'. split; [|done]. unfold chunked_events.
    by rewrite <- app_assoc. }
  destruct Hr as (r & He & p' & -> & Hs). exists p'. split; [|done].
  by apply exec_htparser_run.
Qed.

(** A parser after the headers of a chunked request. *)
Definition chunked_request : list Z :=
  str "POST / HTTP/1.1" ++ [CR; LF] ++ str "Transfer-Encoding: chunked" ++ [CR; LF; CR; LF].

Lemma chunked_body_witness :
  exists p u, htparser_run recording chunked_request (htparser_init htp_type_request) [] =
      Returned p u (zlen chunked_request) /\
  exists p', htparser_run recording
      (str "5" ++ [CR; LF] ++ str "hello" ++ [CR; LF] ++ str "00a" ++ [CR; LF] ++ str "0123456789" ++
       [CR; LF] ++ str "0" ++ [CR; LF; CR; LF]) p u =
      Returned p' (u ++ [Seen (str "new_chunk")] ++ map Seen_body (str "hello") ++
        [Seen (str "chunk_complete"); Seen (str "new_chunk")] ++ map Seen_body (str "0123456789") ++
        [Seen (str "chunk_complete"); Seen (str "chunks_complete"); Seen (str "msg_complete")]) 32 /\
    ht_state p' = s_start /\ ht_error p' = htparse_error_none.
Proof.
  pose proof (htparser_run_ok recording chunked_request (htparser_init htp_type_request) []
    ltac:(repeat constructor; done) (init_wf _)) as Hok.
  assert (Hn : match htparser_run recording chunked_request (htparser_init htp_type_request) [] with
    | Returned p _ n => n = zlen chunked_request /\ ht_state p = s_chunk_size_start
    | _ => False end) by (vm_compute; repeat split).
  destruct (htparser_run recording chunked_request _ _) as [p u n| |]; [|done..].
  destruct Hn as [-> Hst]. exists p, u. split; [done|].
  apply (chunked_body [(str "5", str "hello"); (str "00a", str "0123456789")] (str "0") p u);
    [apply Hok|done| |done|reflexivity].
  repeat constructor; done.
Defined.
