(* ===== verification/SpdyUri.v ===== *)
(** client/spdycli.c, the address of the server: struct URI, parse_uri, strcopy
    and request_init.

    A C string is the list of its bytes without the NUL; a pointer into the text
    of the URI is an offset. *)
From S2P Require Import Prelude.

(** * Data *)

(** A pointer of struct URI: NULL, into the text, or the literal "/". *)
Inductive uri_ptr :=
  | Null
  | At (off : Z)
  | Slash.

Record URI := mk_URI {
  uri_host : uri_ptr;
  uri_hostlen : Z;
  uri_port : Z; (* uint16_t *)
  uri_path : uri_ptr;
  uri_pathlen : Z;
  uri_hostport : uri_ptr;
  uri_hostportlen : Z
}.

(** memset(res, 0, sizeof(struct URI)) *)
Definition URI_zero : URI := mk_URI Null 0 0 Null 0 Null 0.

Record Request := mk_Request {
  req_host : list Z;
  req_port : Z;
  req_path : list Z;
  req_hostport : list Z;
  req_stream_id : Z; (* int32_t *)
  req_inflater : bool (* not NULL *)
}.

(** * parse_uri *)

(** for(i = offset; i < len; ++i) { if(stop(uri[i])) break; }: the index the loop
    ends with. *)
Fixpoint index_of (stop : Z -> bool) (l : list Z) (i : Z) : Z :=
  match l with
  | [] => i
  | c :: l' => if stop c then i else index_of stop l' (i + 1)
  end.

Definition scan (stop : Z -> bool) (uri : list Z) (offset : Z) : Z :=
  index_of stop (drop (Z.to_nat offset) uri) offset.

(** strchr(delims, c) != NULL; the NUL of the literal counts. *)
Definition strchr_found (delims : list Z) (c : Z) : bool :=
  existsb (Z.eqb c) (delims ++ [0]).

Definition host_delims : list Z := str ":/?#".
Definition port_delims : list Z := str "/?#".

(** The loop over the port: the index it ends with and the number. *)
Fixpoint port_loop (l : list Z) (i port : Z) : option (Z * Z) :=
  match l with
  | [] => Some (i, port)
  | c :: l' =>
      if strchr_found port_delims c then Some (i, port)
      else if (chr "0" <=? c) && (c <=? chr "9") then
        let port := port * 10 + (c - chr "0") in
        if 65535 <? port then None else port_loop l' (i + 1) port
      else None
  end.

(** hostlen and the offset after the host; an IPv6 literal without its bracket
    leaves hostlen at 0. *)
Definition parse_uri_host (uri : list Z) : uri_ptr * Z * Z :=
  if zth uri 8 =? chr "[" then
    let i := scan (Z.eqb (chr "]")) uri 9 in
    if i <? zlen uri then (At 9, i - 9, i + 1) else (At 9, 0, 9)
  else
    let i := scan (strchr_found host_delims) uri 8 in
    (At 8, i - 8, i).

(** The offset after the port and its number; [None] is return -1. *)
Definition parse_uri_port (uri : list Z) (offset : Z) : option (Z * Z) :=
  if (offset <? zlen uri) && (zth uri offset =? chr ":") then
    match port_loop (drop (Z.to_nat (offset + 1)) uri) (offset + 1) 0 with
    | Some (i, port) => if port =? 0 then None else Some (i, port)
    | None => None
    end
  else Some (offset, 443).

Definition ptr_off (p : uri_ptr) : Z := match p with At o => o | _ => 0 end.

(** The return value and the structure. *)
Definition parse_uri (uri : list Z) : Z * URI :=
  if (zlen uri <? 9) || negb (bool_decide (take 8 uri = str "https://")) then (-1, URI_zero)
  else
    let '(host, hostlen, offset) := parse_uri_host uri in
    let res := mk_URI host hostlen 0 Null 0 (At 8) 0 in
    if hostlen =? 0 then (-1, res)
    else
      match parse_uri_port uri offset with
      | None => (-1, mk_URI host hostlen 443 Null 0 (At 8) 0)
      | Some (offset, port) =>
          let hostportlen := offset - ptr_off host in
          let i := scan (Z.eqb (chr "#")) uri offset in
          let '(path, pathlen) :=
            if i - offset =? 0 then (Slash, 1) else (At offset, i - offset) in
          (0, mk_URI host hostlen port path pathlen (At 8) hostportlen)
      end.

(** * request_init *)

(** strcopy(s, len); [None] for a NULL pointer. *)
Definition strcopy (uri : list Z) (p : uri_ptr) (len : Z) : option (list Z) :=
  match p with
  | Null => if len =? 0 then Some [] else None
  | At o => Some (slice uri o (o + len))
  | Slash => Some (slice (str "/") 0 len)
  end.

Definition request_init (uri : list Z) (u : URI) : option Request :=
  match strcopy uri (uri_host u) (uri_hostlen u), strcopy uri (uri_path u) (uri_pathlen u),
        strcopy uri (uri_hostport u) (uri_hostportlen u) with
  | Some host, Some path, Some hostport =>
      Some (mk_Request host (uri_port u) path hostport (-1) false)
  | _, _, _ => None
  end.

(** * Loops *)

Lemma index_of_range stop l i : i <= index_of stop l i <= i + zlen l.
Proof.
  revert i. induction l as [|c l IH]; intros i; simpl; [change (zlen []) with 0; lia|].
  rewrite zlen_cons. pose proof (zlen_nonneg l). destruct (stop c); [lia|].
  specialize (IH (i + 1)). lia.
Qed.

Lemma scan_range stop uri offset :
  0 <= offset <= zlen uri -> offset <= scan stop uri offset <= zlen uri.
Proof.
  intros H. pose proof (index_of_range stop (drop (Z.to_nat offset) uri) offset) as Hr.
  unfold scan, zlen in *. rewrite length_drop in Hr. lia.
Qed.

Lemma index_of_app stop a c rest i :
  forallb (fun b => negb (stop b)) a = true -> stop c = true ->
  index_of stop (a ++ c :: rest) i = i + zlen a.
Proof.
  revert i. induction a as [|b a IH]; intros i Ha Hc; simpl.
  - rewrite Hc. change (zlen []) with 0. lia.
  - simpl in Ha. apply andb_true_iff in Ha as [Hb Ha]. apply negb_true_iff in Hb.
    rewrite Hb, IH, zlen_cons by done. lia.
Qed.

Lemma index_of_all stop a i :
  forallb (fun b => negb (stop b)) a = true -> index_of stop a i = i + zlen a.
Proof.
  revert i. induction a as [|b a IH]; intros i Ha; simpl.
  - change (zlen []) with 0. lia.
  - simpl in Ha. apply andb_true_iff in Ha as [Hb Ha]. apply negb_true_iff in Hb.
    rewrite Hb, IH, zlen_cons by done. lia.
Qed.

Lemma drop_zlen (a b : list Z) : drop (Z.to_nat (zlen a)) (a ++ b) = b.
Proof. unfold zlen. rewrite Nat2Z.id. apply drop_app_length. Qed.

(** * What parse_uri accepts *)

Lemma port_loop_range l i port j v :
  port_loop l i port = Some (j, v) -> 0 <= port <= 65535 ->
  i <= j <= i + zlen l /\ 0 <= v <= 65535.
Proof.
  revert i port. induction l as [|c l IH]; intros i port; simpl.
  - intros [= <- <-] Hp. change (zlen []) with 0. lia.
  - rewrite zlen_cons. pose proof (zlen_nonneg l).
    destruct (strchr_found _ c); [intros [= <- <-]; lia|].
    destruct (_ && _) eqn:Hd; [|done]. zbool.
    destruct (Z.ltb_spec 65535 (port * 10 + (c - 48))); [done|].
    intros E Hp. apply IH in E; lia.
Qed.

Lemma parse_uri_host_range uri h n o :
  parse_uri_host uri = (h, n, o) -> 9 <= zlen uri -> n <> 0 ->
  exists k, h = At k /\ 8 <= k <= 9 /\ 0 < n /\ k + n <= o <= zlen uri.
Proof.
  unfold parse_uri_host. intros E Hl Hn. destruct (_ =? 91).
  - pose proof (scan_range (Z.eqb 93) uri 9 ltac:(lia)).
    destruct (Z.ltb_spec (scan (Z.eqb 93) uri 9) (zlen uri)); injection E as <- <- <-; [|lia].
    exists 9. repeat split; lia.
  - pose proof (scan_range (strchr_found host_delims) uri 8 ltac:(lia)).
    injection E as <- <- <-. exists 8. repeat split; lia.
Qed.

Lemma parse_uri_port_range uri o j v :
  parse_uri_port uri o = Some (j, v) -> 0 <= o <= zlen uri ->
  o <= j <= zlen uri /\ 1 <= v <= 65535.
Proof.
  unfold parse_uri_port. intros E Ho. destruct (_ && _) eqn:Ht.
  - destruct (port_loop _ _ _) as [[i p]|] eqn:Hp; [|done].
    destruct (Z.eqb_spec p 0); [done|]. injection E as <- <-. zbool.
    apply port_loop_range in Hp; [|lia]. unfold zlen in *. rewrite length_drop in Hp. lia.
  - injection E as <- <-. lia.
Qed.

(** A piece of the text: inside it, or the literal. *)
Definition piece_ok (uri : list Z) (p : uri_ptr) (n : Z) : Prop :=
  match p with
  | At o => 8 <= o /\ 0 < n /\ o + n <= zlen uri
  | Slash => n = 1
  | Null => False
  end.

(** When parse_uri returns 0, the three strings it points to are not empty
    and lie inside the text of the URI (or the path is the literal "/"), so
    request_init copies them, and the port is a valid port number. *)
Theorem parse_uri_in_bounds (uri : list Z) (r : URI) :
  parse_uri uri = (0, r) ->
  piece_ok uri (uri_host r) (uri_hostlen r) /\
  piece_ok uri (uri_path r) (uri_pathlen r) /\
  piece_ok uri (uri_hostport r) (uri_hostportlen r) /\
  1 <= uri_port r <= 65535 /\
  exists req, request_init uri r = Some req /\ req_port req = uri_port r /\
    zlen (req_host req) = uri_hostlen r /\ zlen (req_path req) = uri_pathlen r.
Proof.
  unfold parse_uri. destruct (_ || _) eqn:Hg; [done|]. apply orb_false_iff in Hg as [Hl _].
  apply Z.ltb_ge in Hl. destruct (parse_uri_host uri) as [[h n] o] eqn:Hh.
  destruct (Z.eqb_spec n 0) as [|Hn]; [done|].
  destruct (parse_uri_host_range _ _ _ _ Hh Hl Hn) as (k & -> & Hk & Hpos & Ho).
  destruct (parse_uri_port uri o) as [[j v]|] eqn:Hp; [|done].
  apply parse_uri_port_range in Hp as [Hj Hv]; [|lia].
  pose proof (scan_range (Z.eqb 35) uri j ltac:(lia)) as Hs.
  set (i := scan (Z.eqb 35) uri j) in *. cbn [ptr_off].
  destruct (Z.eqb_spec (i - j) 0); intros [= <-]; cbn; (repeat split; try lia);
    eexists; (split; [reflexivity|]); cbn; split_and!; first [done|rewrite slice_length; lia].
Qed.

Lemma parse_uri_in_bounds_witness :
  exists r, parse_uri (str "https://[::1]:8443/a?b#c") = (0, r) /\ 1 <= uri_port r <= 65535.
Proof.
  eexists. split; [reflexivity|].
  exact (proj1 (proj2 (proj2 (proj2
    (parse_uri_in_bounds (str "https://[::1]:8443/a?b#c") _ eq_refl))))).
Defined.

(** * Addresses and their text *)

Record address := mk_address {
  a_v6 : bool; (* an IPv6 literal in brackets *)
  a_host : list Z;
  a_port : option (list Z);
  a_path : list Z; (* with the query *)
  a_fragment : option (list Z)
}.

Definition host_text (a : address) : list Z :=
  if a_v6 a then [chr "["] ++ a_host a ++ [chr "]"] else a_host a.
Definition port_text (a : address) : list Z :=
  match a_port a with Some ds => [chr ":"] ++ ds | None => [] end.
Definition fragment_text (a : address) : list Z :=
  match a_fragment a with Some f => [chr "#"] ++ f | None => [] end.

Definition render (a : address) : list Z :=
  str "https://" ++ host_text a ++ port_text a ++ a_path a ++ fragment_text a.

Definition not_delim (delims : list Z) (c : Z) : bool := negb (strchr_found delims c).

Definition path_ok (p : list Z) : bool :=
  match p with
  | [] => true
  | c :: _ => ((c =? chr "/") || (c =? chr "?")) && forallb (fun b => negb (chr "#" =? b)) p
  end.

Definition address_ok (a : address) : bool :=
  negb (bool_decide (a_host a = [])) &&
  (if a_v6 a then forallb (fun b => negb (chr "]" =? b)) (a_host a)
   else forallb (not_delim host_delims) (a_host a) && negb (zth (a_host a) 0 =? chr "[")) &&
  match a_port a with
  | Some ds => forallb dec_digit ds && (1 <=? decimal 0 ds) && (decimal 0 ds <=? 65535)
  | None => true
  end && path_ok (a_path a).

Definition port_number (a : address) : Z :=
  match a_port a with Some ds => decimal 0 ds | None => 443 end.

(** What follows the port: nothing, or a delimiter. *)
Lemma tail_delims a c l :
  path_ok (a_path a) = true -> a_path a ++ fragment_text a = c :: l ->
  strchr_found port_delims c = true /\ strchr_found host_delims c = true /\ (c =? 58) = false.
Proof.
  unfold path_ok, fragment_text. destruct (a_path a) as [|b p]; intros Hp E.
  - destruct (a_fragment a); [|done]. by injection E as <- <-.
  - injection E as <- _. apply andb_true_iff in Hp as [Hb _]. apply orb_true_iff in Hb.
    destruct Hb as [Hb|Hb]; apply Z.eqb_eq in Hb; by subst b.
Qed.

Lemma port_loop_digits ds rest i v :
  forallb dec_digit ds = true -> 0 <= v -> decimal v ds <= 65535 ->
  match rest with [] => True | c :: _ => strchr_found port_delims c = true end ->
  port_loop (ds ++ rest) i v = Some (i + zlen ds, decimal v ds).
Proof.
  revert i v. induction ds as [|c ds IH]; intros i v Hd Hv Hle Hrest; simpl.
  - change (zlen []) with 0. change (decimal v []) with v. rewrite Z.add_0_r.
    destruct rest as [|c rest]; simpl; [done|]. by rewrite Hrest.
  - simpl in Hd. apply andb_true_iff in Hd as [Hc Hd].
    pose proof (dec_digit_range c Hc) as Hr.
    pose proof (decimal_mono ds (v * 10 + (c - 48)) Hd ltac:(lia)) as Hm.
    change (decimal v (c :: ds)) with (decimal (v * 10 + (c - 48)) ds) in *.
    assert (Hs : strchr_found port_delims c = false).
    { unfold strchr_found, port_delims. simpl. rewrite !(proj2 (Z.eqb_neq c _)) by lia. done. }
    rewrite Hs. change ((48 <=? c) && (c <=? 57)) with (dec_digit c). rewrite Hc.
    rewrite (proj2 (Z.ltb_ge 65535 _)) by lia. rewrite IH, zlen_cons by (done || lia).
    do 2 f_equal. lia.
Qed.

Lemma parse_uri_port_render front a :
  address_ok a = true ->
  parse_uri_port (front ++ port_text a ++ a_path a ++ fragment_text a) (zlen front) =
  Some (zlen front + zlen (port_text a), port_number a).
Proof.
  unfold address_ok. intros Hok.
  apply andb_true_iff in Hok as [Hok Hpath]. apply andb_true_iff in Hok as [_ Hport].
  set (tl := a_path a ++ fragment_text a).
  assert (Htl : match tl with [] => True | c :: _ =>
    strchr_found port_delims c = true /\ (c =? 58) = false end).
  { destruct tl as [|c l] eqn:E; [done|]. destruct (tail_delims a c l Hpath E) as (? & _ & ?). done. }
  unfold parse_uri_port, port_text, port_number. destruct (a_port a) as [ds|].
  - apply andb_true_iff in Hport as [Hport Hle]. apply andb_true_iff in Hport as [Hd Hge].
    apply Z.leb_le in Hle, Hge.
    assert (Hz : zth (front ++ ([58] ++ ds) ++ tl) (zlen front) = 58).
    { rewrite <- (Z.add_0_l (zlen front)), zth_app_r by lia. done. }
    rewrite Hz. rewrite (proj2 (Z.ltb_lt _ _)).
    2: { rewrite !zlen_app. change (zlen [58]) with 1.
         pose proof (zlen_nonneg ds). pose proof (zlen_nonneg tl). lia. }
    cbn [andb Z.eqb Pos.eqb].
    replace (drop (Z.to_nat (zlen front + 1)) (front ++ ([58] ++ ds) ++ tl)) with (ds ++ tl).
    2: { change (front ++ ([58] ++ ds) ++ tl) with (front ++ [58] ++ (ds ++ tl)).
         change (zlen front + 1) with (zlen front + zlen [58]).
         by rewrite app_assoc, <- zlen_app, drop_zlen. }
    rewrite port_loop_digits; [|done|lia|lia|by destruct tl as [|c l]; [|apply Htl]].
    rewrite (proj2 (Z.eqb_neq _ _)) by lia. rewrite zlen_app. change (zlen [58]) with 1.
    do 2 f_equal. lia.
  - cbn [app]. change (zlen []) with 0. rewrite Z.add_0_r.
    destruct tl as [|c l].
    + rewrite app_nil_r, Z.ltb_irrefl. done.
    + assert (Hz : zth (front ++ c :: l) (zlen front) = c).
      { rewrite <- (Z.add_0_l (zlen front)), zth_app_r by lia. done. }
      rewrite Hz. destruct Htl as [_ ->]. by rewrite andb_false_r.
Qed.

Lemma scan_fragment front a :
  path_ok (a_path a) = true ->
  scan (Z.eqb 35) (front ++ a_path a ++ fragment_text a) (zlen front) =
  zlen front + zlen (a_path a).
Proof.
  intros Hp. unfold scan. rewrite drop_zlen.
  assert (Hn : forallb (fun b => negb (35 =? b)) (a_path a) = true).
  { unfold path_ok in Hp. destruct (a_path a); [done|]. by apply andb_true_iff in Hp as [_ Hp]. }
  unfold fragment_text. destruct (a_fragment a) as [f|].
  - by apply index_of_app.
  - rewrite app_nil_r. by apply index_of_all.
Qed.

Lemma parse_uri_host_render a :
  address_ok a = true ->
  parse_uri_host (render a) =
  (At (if a_v6 a then 9 else 8), zlen (a_host a), 8 + zlen (host_text a)).
Proof.
  unfold address_ok. intros Hok.
  apply andb_true_iff in Hok as [Hok Hpath]. apply andb_true_iff in Hok as [Hok Hport].
  apply andb_true_iff in Hok as [Hne Hhost]. apply negb_true_iff, bool_decide_eq_false in Hne.
  unfold parse_uri_host, render, host_text. destruct (a_v6 a).
  - set (rest := port_text a ++ a_path a ++ fragment_text a).
    change (zth (str "https://" ++ ([91] ++ a_host a ++ [93]) ++ rest) 8) with 91.
    cbn [Z.eqb Pos.eqb]. unfold scan.
    change (str "https://" ++ ([91] ++ a_host a ++ [93]) ++ rest)
      with (str "https://[" ++ ((a_host a ++ [93]) ++ rest)).
    change (drop (Z.to_nat 9) (str "https://[" ++ ((a_host a ++ [93]) ++ rest)))
      with ((a_host a ++ [93]) ++ rest).
    rewrite <- app_assoc. cbn [app].
    rewrite index_of_app by done. rewrite (proj2 (Z.ltb_lt _ _)).
    + rewrite Z.add_simpl_l. f_equal. rewrite zlen_cons, zlen_app.
      change (zlen [93]) with 1. lia.
    + rewrite !zlen_cons, zlen_app, zlen_cons. pose proof (zlen_nonneg rest). lia.
  - apply andb_true_iff in Hhost as [Hhost Hfirst]. apply negb_true_iff in Hfirst.
    set (rest := port_text a ++ a_path a ++ fragment_text a).
    assert (Hz : zth (str "https://" ++ a_host a ++ rest) 8 = zth (a_host a) 0).
    { destruct (a_host a); [done|reflexivity]. }
    rewrite Hz, Hfirst. unfold scan.
    change (drop (Z.to_nat 8) (str "https://" ++ a_host a ++ rest)) with (a_host a ++ rest).
    assert (Hi : index_of (strchr_found host_delims) (a_host a ++ rest) 8 = 8 + zlen (a_host a)).
    { destruct rest as [|c l] eqn:Hr; [rewrite app_nil_r; by apply index_of_all|].
      apply index_of_app; [done|]. unfold rest, port_text in Hr. destruct (a_port a).
      - by injection Hr as <- _.
      - cbn [app] in Hr. by apply (tail_delims a c l). }
    by rewrite Hi, Z.add_simpl_l.
Qed.

(** The request a client makes of an address. *)
Definition address_request (a : address) : Request :=
  mk_Request (a_host a) (port_number a) (if bool_decide (a_path a = []) then str "/" else a_path a)
    (if a_v6 a then removelast (host_text a ++ port_text a) else host_text a ++ port_text a)
    (-1) false.

Lemma slice_mid_short x m rest :
  slice (x ++ m ++ rest) (zlen x) (zlen x + zlen m - 1) = removelast m.
Proof.
  rewrite removelast_firstn_len. unfold slice, zlen.
  rewrite Nat2Z.id, drop_app_length.
  replace (Z.to_nat (Z.of_nat (length x) + Z.of_nat (length m) - 1 - Z.of_nat (length x)))
    with (pred (length m)) by lia.
  apply take_app_le. lia.
Qed.

(** ** The structure of an address *)

Section Render.
Context (a : address).
Hypothesis Hok : address_ok a = true.

Let host_off : Z := if a_v6 a then 9 else 8.
Let hp : Z := zlen (host_text a) + zlen (port_text a).

Definition address_uri : URI :=
  mk_URI (At host_off) (zlen (a_host a)) (port_number a)
    (if bool_decide (a_path a = []) then Slash else At (8 + hp))
    (if bool_decide (a_path a = []) then 1 else zlen (a_path a))
    (At 8) (8 + hp - host_off).

Lemma address_ok_path : path_ok (a_path a) = true.
Proof. unfold address_ok in Hok. by apply andb_true_iff in Hok as [_ Hp]. Qed.

Lemma address_ok_host : 0 < zlen (a_host a).
Proof.
  unfold address_ok in Hok. apply andb_true_iff in Hok as [H _]. apply andb_true_iff in H as [H _].
  apply andb_true_iff in H as [H _]. apply negb_true_iff, bool_decide_eq_false in H.
  destruct (a_host a); [done|]. rewrite zlen_cons. pose proof (zlen_nonneg l). lia.
Qed.

Lemma render_long : 9 <= zlen (render a).
Proof.
  pose proof address_ok_host. unfold render, host_text. rewrite !zlen_app.
  change (zlen (str "https://")) with 8. pose proof (zlen_nonneg (port_text a)).
  pose proof (zlen_nonneg (a_path a)). pose proof (zlen_nonneg (fragment_text a)).
  destruct (a_v6 a); [rewrite !zlen_app; pose proof (zlen_nonneg [91]); pose proof (zlen_nonneg [93])|];
    lia.
Qed.

Lemma front_length : zlen (str "https://" ++ host_text a ++ port_text a) = 8 + hp.
Proof. unfold hp. rewrite !zlen_app. done. Qed.

Lemma render_port :
  parse_uri_port (render a) (8 + zlen (host_text a)) = Some (8 + hp, port_number a).
Proof.
  replace (render a) with ((str "https://" ++ host_text a) ++ port_text a ++ a_path a ++ fragment_text a)
    by (unfold render; by rewrite <- app_assoc).
  change (8 + zlen (host_text a)) with (zlen (str "https://") + zlen (host_text a)).
  rewrite <- zlen_app, (parse_uri_port_render _ a Hok), zlen_app. unfold hp.
  change (zlen (str "https://")) with 8. do 2 f_equal. lia.
Qed.

Lemma render_scan : scan (Z.eqb 35) (render a) (8 + hp) = 8 + hp + zlen (a_path a).
Proof.
  replace (render a) with ((str "https://" ++ host_text a ++ port_text a) ++ a_path a ++ fragment_text a)
    by (unfold render; by rewrite <- !app_assoc).
  rewrite <- front_length. apply scan_fragment, address_ok_path.
Qed.

Lemma parse_uri_address : parse_uri (render a) = (0, address_uri).
Proof.
  pose proof address_ok_host. unfold parse_uri, address_uri.
  rewrite (proj2 (Z.ltb_ge (zlen (render a)) 9)) by apply render_long.
  rewrite bool_decide_eq_true_2 by reflexivity. cbn [orb negb].
  rewrite (parse_uri_host_render a Hok). fold host_off.
  rewrite (proj2 (Z.eqb_neq (zlen (a_host a)) 0)) by lia.
  rewrite render_port, render_scan, Z.add_simpl_l. cbn [ptr_off].
  destruct (a_path a) as [|c l]; [done|].
  rewrite (proj2 (Z.eqb_neq (zlen (c :: l)) 0)) by (rewrite zlen_cons; pose proof (zlen_nonneg l); lia).
  by rewrite !bool_decide_eq_false_2.
Qed.

(** ** The strings that are copied *)

Lemma render_host : slice (render a) host_off (host_off + zlen (a_host a)) = a_host a.
Proof.
  unfold render, host_text, host_off. destruct (a_v6 a); [|apply (slice_mid (str "https://"))].
  change (str "https://" ++ ([91] ++ a_host a ++ [93]) ++ port_text a ++ a_path a ++ fragment_text a)
    with (str "https://[" ++ (a_host a ++ [93]) ++ port_text a ++ a_path a ++ fragment_text a).
  rewrite <- (app_assoc (a_host a)). apply (slice_mid (str "https://[")).
Qed.

Lemma render_hostport :
  slice (render a) 8 (8 + (8 + hp - host_off)) =
  if a_v6 a then removelast (host_text a ++ port_text a) else host_text a ++ port_text a.
Proof.
  assert (Hr : render a = str "https://" ++ (host_text a ++ port_text a) ++ a_path a ++ fragment_text a)
    by (unfold render; by rewrite <- app_assoc).
  assert (Hl : zlen (host_text a ++ port_text a) = hp) by apply zlen_app.
  rewrite Hr. unfold host_off. destruct (a_v6 a).
  - rewrite <- (slice_mid_short (str "https://") _ (a_path a ++ fragment_text a)), Hl.
    change (zlen (str "https://")) with 8. f_equal. lia.
  - rewrite <- (slice_mid (str "https://") (host_text a ++ port_text a)
      (a_path a ++ fragment_text a)) at 2.
    rewrite Hl. change (zlen (str "https://")) with 8. f_equal. lia.
Qed.

Lemma render_path : slice (render a) (8 + hp) (8 + hp + zlen (a_path a)) = a_path a.
Proof.
  assert (Hr : render a = (str "https://" ++ host_text a ++ port_text a) ++ a_path a ++ fragment_text a)
    by (unfold render; by rewrite <- !app_assoc).
  rewrite Hr, <- front_length. apply slice_mid.
Qed.

Lemma request_init_address : request_init (render a) address_uri = Some (address_request a).
Proof.
  unfold request_init, address_uri, address_request.
  cbn [uri_host uri_hostlen uri_path uri_pathlen uri_hostport uri_hostportlen uri_port strcopy].
  rewrite render_host, render_hostport.
  destruct (bool_decide (a_path a = [])) eqn:Hp; cbn [strcopy]; [done|]. by rewrite render_path.
Qed.
End Render.

(** Round trip of addresses.  The text of an https URI is taken apart into
    its host, port (443 when there is none), path with query ("/" when empty,
    the fragment dropped), and host:port string, and request_init makes a
    request of exactly these.  For an IPv6 literal the host:port string comes
    out one byte short: its length is counted from after the bracket. *)
Theorem parse_uri_render (a : address) :
  address_ok a = true ->
  exists r, parse_uri (render a) = (0, r) /\
    request_init (render a) r = Some (address_request a).
Proof.
  intros Hok. exists (address_uri a).
  by rewrite parse_uri_address, request_init_address.
Qed.

Lemma parse_uri_render_witness :
  let a := mk_address true (str "::1") (Some (str "8443")) (str "/x") None in
  exists r, parse_uri (str "https://[::1]:8443/x") = (0, r) /\
    request_init (str "https://[::1]:8443/x") r =
      Some (mk_Request (str "::1") 8443 (str "/x") (str "[::1]:844") (-1) false).
Proof.
  exact (parse_uri_render (mk_address true (str "::1") (Some (str "8443")) (str "/x") None) eq_refl).
Defined.
