(* ===== verification/SpdyClient.v ===== *)
(** client/spdycli.c, the client of one thread: its state (struct ThreadUri and
    struct Connection), the requests it submits, its callbacks, and a session as
    the sequence of callbacks the library makes.

    The libraries are parameters.  Of spdylay the model has the calls the client
    makes, as a log, and what the library answers, as arguments of the callbacks
    (which streams carry a request, the results of SSL_read and SSL_write) and of
    the event loop (what the session wants, what poll returns, which callbacks a
    library call makes); the version string is [SPDYLAY_VERSION].  A write outside an array, a NULL
    pointer that is followed, and a signed overflow are errors of the small
    monad the callbacks are written in. *)
From S2P Require Import Prelude Libc SpdyUri.

(** * Outcomes *)

Inductive crash :=
  | Overflow (* a write outside an array *)
  | Overread (* a read outside a string *)
  | Null_pointer
  | Int_overflow
  | Uninitialised (* a read of a variable without a value *)
  | Aborted (* abort() *)
  | Exit_process (* exit(0) *)
  | Exit_thread. (* pthread_exit *)

(** The calls out of the client that matter to the server, sleep, and the events that
    ctl_poll sets for the next poll. *)
Inductive lib_call :=
  | Set_events (pollin pollout : bool)
  | Submit_request (nv : list (list Z)) (data : option (list Z))
  | Submit_ping
  | Close_stream (id : Z)
  | Sleep (seconds : Z).

Inductive io_want := IO_NONE | WANT_READ | WANT_WRITE.

#[export] Instance io_want_eq_dec : EqDecision io_want.
Proof. solve_decision. Defined.

(** struct ThreadUri, with the strings of its arrays; of the connection, what SSL
    waits for. *)
Record ThreadUri := mk_thread {
  t_retries : Z;
  t_pingFrames : Z;
  t_want_io : io_want; (* connection->want_io *)
  t_req : Request;
  t_assoc_stream_id : Z;
  t_uri : URI;
  t_url : list Z; (* char[256] *)
  t_clientId : list Z; (* char[256] *)
  t_pushId : list Z; (* char[256] *)
  t_pushData : list Z (* char[1024] *)
}.

Definition set_retries v t :=
  mk_thread v (t_pingFrames t) (t_want_io t) (t_req t) (t_assoc_stream_id t)
    (t_uri t) (t_url t) (t_clientId t) (t_pushId t) (t_pushData t).
Definition set_pingFrames v t :=
  mk_thread (t_retries t) v (t_want_io t) (t_req t) (t_assoc_stream_id t)
    (t_uri t) (t_url t) (t_clientId t) (t_pushId t) (t_pushData t).
Definition set_want_io v t :=
  mk_thread (t_retries t) (t_pingFrames t) v (t_req t) (t_assoc_stream_id t)
    (t_uri t) (t_url t) (t_clientId t) (t_pushId t) (t_pushData t).
Definition set_req v t :=
  mk_thread (t_retries t) (t_pingFrames t) (t_want_io t) v (t_assoc_stream_id t)
    (t_uri t) (t_url t) (t_clientId t) (t_pushId t) (t_pushData t).
Definition set_assoc_stream_id v t :=
  mk_thread (t_retries t) (t_pingFrames t) (t_want_io t) (t_req t) v
    (t_uri t) (t_url t) (t_clientId t) (t_pushId t) (t_pushData t).
Definition set_clientId v t :=
  mk_thread (t_retries t) (t_pingFrames t) (t_want_io t) (t_req t) (t_assoc_stream_id t)
    (t_uri t) (t_url t) v (t_pushId t) (t_pushData t).
Definition set_pushId v t :=
  mk_thread (t_retries t) (t_pingFrames t) (t_want_io t) (t_req t) (t_assoc_stream_id t)
    (t_uri t) (t_url t) (t_clientId t) v (t_pushData t).
Definition set_pushData v t :=
  mk_thread (t_retries t) (t_pingFrames t) (t_want_io t) (t_req t) (t_assoc_stream_id t)
    (t_uri t) (t_url t) (t_clientId t) (t_pushId t) v.

(** The global flags. *)
Record flags := mk_flags {
  localhost : bool;
  unitmode : bool;
  registermode : bool;
  listenmode : bool;
  fullmode : bool;
  refreshmode : bool;
  backoff : Z;
  sequentialId : bool;
  unauthorizedlisten : bool;
  verbose : bool
}.

Definition default_flags : flags :=
  mk_flags false false false false false false (-1) false false false.

(** * The monad of the callbacks *)

Record world := mk_world {
  w_thread : ThreadUri;
  w_calls : list lib_call
}.

Inductive result (A : Type) :=
  | Ok (a : A) (w : world)
  | Crash (c : crash).
Arguments Ok {A}.
Arguments Crash {A}.

Definition M (A : Type) : Type := world -> result A.

Definition ret {A} (a : A) : M A := fun w => Ok a w.
Definition fail {A} (c : crash) : M A := fun _ => Crash c.
Definition bind {A B} (m : M A) (f : A -> M B) : M B :=
  fun w => match m w with Ok a w' => f a w' | Crash c => Crash c end.

Declare Scope client_scope.
Notation "'let*' x := m 'in' k" := (bind m (fun x => k))
  (at level 10, x name, m at level 100, k at level 200) : client_scope.
Notation "'do*' m 'in' k" := (bind m (fun _ => k))
  (at level 10, m at level 100, k at level 200) : client_scope.
Open Scope client_scope.

Definition get_thread : M ThreadUri := fun w => Ok (w_thread w) w.
Definition modify (f : ThreadUri -> ThreadUri) : M unit :=
  fun w => Ok tt (mk_world (f (w_thread w)) (w_calls w)).
Definition call (c : lib_call) : M unit :=
  fun w => Ok tt (mk_world (w_thread w) (w_calls w ++ [c])).

Definition of_option {A} (c : crash) (o : option A) : M A :=
  match o with Some a => ret a | None => fail c end.

(** n + 1 for an int. *)
Definition int_succ (n : Z) : M Z := if n <? 2 ^ 31 - 1 then ret (n + 1) else fail Int_overflow.

(** * Strings *)

(** The concatenation of [parts] in an array of [size] chars. *)
Definition strcat_in (size : Z) (parts : list (list Z)) : M (list Z) :=
  let s := concat parts in
  if zlen s <? size then ret s else fail Overflow.

(** The array nv[size]: the strings, then NULL. *)
Definition nv_in (size : Z) (items : list (list Z)) : M (list (list Z)) :=
  if Z.of_nat (length items) <? size then ret items else fail Overflow.

Fixpoint is_prefix (p s : list Z) : bool :=
  match p, s with
  | [], _ => true
  | a :: p', b :: s' => (a =? b) && is_prefix p' s'
  | _ :: _, [] => false
  end.

(** strstr(s, needle): the index of the first occurrence. *)
Fixpoint strstr (s needle : list Z) : option Z :=
  if is_prefix needle s then Some 0
  else match s with
       | [] => None
       | _ :: s' => match strstr s' needle with Some k => Some (k + 1) | None => None end
       end.

Definition contains (s needle : list Z) : bool :=
  match strstr s needle with Some _ => true | None => false end.

(** * Input and output *)

(** Results of SSL_get_error that the callbacks distinguish. *)
Inductive ssl_error := SSL_ERROR_WANT_READ | SSL_ERROR_WANT_WRITE | Other_ssl_error.

(** What the callbacks return: a count, or an error of the library. *)
Inductive io_result := Count (n : Z) | SPDYLAY_ERR_WOULDBLOCK | SPDYLAY_ERR_CALLBACK_FAILURE
  | SPDYLAY_ERR_EOF.

(** A transfer that failed with SSL_get_error [err]. *)
Definition io_failed (err : ssl_error) : M io_result :=
  match err with
  | SSL_ERROR_WANT_READ => do* modify (set_want_io WANT_READ) in ret SPDYLAY_ERR_WOULDBLOCK
  | SSL_ERROR_WANT_WRITE => do* modify (set_want_io WANT_WRITE) in ret SPDYLAY_ERR_WOULDBLOCK
  | Other_ssl_error => ret SPDYLAY_ERR_CALLBACK_FAILURE
  end.

(** [rv]: the result of SSL_write. *)
Definition send_callback (rv : Z) (err : ssl_error) : M io_result :=
  do* modify (set_want_io IO_NONE) in
  if rv <? 0 then io_failed err else ret (Count rv).

(** [rv]: the result of SSL_read. *)
Definition recv_callback (rv : Z) (err : ssl_error) : M io_result :=
  do* modify (set_want_io IO_NONE) in
  if rv <? 0 then io_failed err
  else if rv =? 0 then ret SPDYLAY_ERR_EOF
  else ret (Count rv).

(** The events asked of the next poll; [want_read] and [want_write] are what the
    session wants. *)
Definition ctl_poll (want_read want_write : bool) : M unit :=
  let* t := get_thread in
  call (Set_events (want_read || bool_decide (t_want_io t = WANT_READ))
             (want_write || bool_decide (t_want_io t = WANT_WRITE))).

Section Client.
Context (SPDYLAY_VERSION : list Z).
Context (cfg : flags).

(** * Requests *)

(** rv = spdylay_submit_request(...); if(rv != 0) diec(...): diec prints and
    returns, so the result changes nothing. *)
Definition spdylay_submit (nv : list (list Z)) (data : option (list Z)) : M unit :=
  call (Submit_request nv data).

(** The headers every request starts with. *)
Definition nv_common (method path hostport accept : list Z) : list (list Z) :=
  [str ":method"; method; str ":path"; path; str ":version"; str "HTTP/1.1";
   str ":scheme"; str "https"; str ":host"; hostport; str "accept"; accept;
   str "user-agent"; str "spdylay/" ++ SPDYLAY_VERSION].

Definition submit_request (req : Request) : M unit :=
  let* nv := nv_in 15 (nv_common (str "GET") (req_path req) (req_hostport req) (str "*/*")) in
  spdylay_submit nv None.

Definition submit_request_registrate (req : Request) : M unit :=
  let* nv := nv_in 15
    (nv_common (str "POST") (req_path req) (req_hostport req) (str "application/json")) in
  spdylay_submit nv None.

Definition json_string (name value : list Z) : list Z :=
  [DQUOTE] ++ name ++ [DQUOTE; chr ":"; DQUOTE] ++ value ++ [DQUOTE].

Definition register_meta : list Z :=
  str "{   " ++ json_string (str "buildVersion") (str "1.4.1") ++ str ",   " ++
  json_string (str "fingerprint") (str "...") ++ str ",   " ++
  json_string (str "model") (str "M9300") ++ str ",   " ++
  json_string (str "network") (str "sprint") ++ str ",   " ++
  json_string (str "osVersion") (str "Android_2.1") ++ str ",   " ++
  [DQUOTE] ++ str "releaseVersion" ++ [DQUOTE] ++ str ":3 }".

Definition submit_request_registrateV2 (req : Request) : M unit :=
  let datalen := zlen register_meta + 1 in
  let* nv := nv_in 19
    (nv_common (str "POST") (req_path req) (req_hostport req) (str "application/json") ++
     [str "authorization"; str "Basic ZGVmYXVsdDpzZWNyZXQ=";
      str "content-type"; str "application/json";
      str "Content-Length"; int_text datalen]) in
  spdylay_submit nv (Some register_meta).

Definition listen_clid (clientId : list Z) : M (list Z) :=
  let* clid := strcat_in 256 [str "Basic  "; clientId] in
  ret (if unauthorizedlisten cfg then str "wrong-client-id" else clid).

Definition submit_request_listen (req : Request) (clientId pushId : list Z) : M unit :=
  let* path := strcat_in 256 [str "/client/v1/"; pushId] in
  let* clid := listen_clid clientId in
  let* nv := nv_in 17
    (nv_common (str "GET") path (req_hostport req) (str "text/plain") ++
     [str "authorization"; clid]) in
  spdylay_submit nv None.

Definition submit_request_listenV2 (req : Request) (clientId pushId : list Z) : M unit :=
  let* path := strcat_in 256 [str "/client/v2/"; pushId; str "?min_ping_interval_sec=30"] in
  let* clid := listen_clid clientId in
  let* nv := nv_in 17
    (nv_common (str "GET") path (req_hostport req) (str "application/json") ++
     [str "authorization"; clid]) in
  spdylay_submit nv None.

(** The branch with a body is disabled (pushId && 0). *)
Definition submit_request_refresh (req : Request) (clientId : list Z) : M unit :=
  let* path := strcat_in 256 [str "/client/v1/refresh"] in
  let* clid := strcat_in 256 [str "Basic "; clientId] in
  let* nv := nv_in 21
    (nv_common (str "POST") path (req_hostport req) (str "application/json") ++
     [str "authorization"; clid; str "content-type"; str "application/json";
      str "Content-Length"; str "0"]) in
  spdylay_submit nv None.

(** strncpy(dst[size], s, len) for the string [s]: len bytes are written, padded
    with NULs; without room for a NUL the copy is not a string. *)
Definition strncpy_in (size : Z) (s : list Z) (len : Z) : M (list Z) :=
  if size <? len then fail Overflow
  else if zlen (take (Z.to_nat len) s) =? size then fail Overread
  else ret (take (Z.to_nat len) s).

(** [data] is the string at the pushed data, of which [len] bytes are pushed. *)
Definition submit_request_pushack (req : Request) (data : list Z) (len : Z) : M unit :=
  let* pushed := strncpy_in 1024 data len in
  do* modify (set_pushData pushed) in
  if contains pushed (str "diehard") then fail Exit_thread
  else
    let* t := get_thread in
    let* clid := strcat_in 256 [str "Basic  "; t_clientId t] in
    let* nv := nv_in 19
      (nv_common (str "POST") (str "/client/v2/ack") (req_hostport req) (str "application/json") ++
       [str "authorization"; clid; str "content-type"; str "application/json"]) in
    spdylay_submit nv (Some (take (Z.to_nat len) data)).

(** * The identifiers in a response *)

(** getClientId and getPushId, for the key [name]: the text of the JSON string
    after the key.  The code does not test the results of
    strstr. *)
Definition get_id (name data : list Z) : M (list Z) :=
  let key := name ++ [DQUOTE; chr ":"] in
  let* k := of_option Null_pointer (strstr data key) in
  let from := k + zlen key + 1 in
  if zlen data <? from then fail Overread
  else
    let value := drop (Z.to_nat from) data in
    let* n := of_option Null_pointer (strstr value [DQUOTE]) in
    if n + 1 <=? 256 then ret (take (Z.to_nat n) value) else fail Overflow.

Definition getClientId (data : list Z) : M (list Z) := get_id (str "client_id") data.
Definition getPushId (data : list Z) : M (list Z) := get_id (str "push_id") data.

Definition listenAfterObtainPuid : M unit :=
  let* t := get_thread in
  submit_request_listenV2 (t_req t) (t_clientId t) (t_pushId t).

Definition take_ids (data : list Z) : M unit :=
  let* cl := getClientId data in
  do* modify (set_clientId cl) in
  let* pu := getPushId data in
  do* modify (set_pushId pu) in
  listenAfterObtainPuid.

Definition is_empty (s : list Z) : bool := zlen s =? 0.

Definition updateClientPushId (data : list Z) : M unit :=
  if unitmode cfg then fail Exit_process
  else
    let* t := get_thread in
    if fullmode cfg then
      if is_empty (t_clientId t) then take_ids data else ret tt
    else if refreshmode cfg then
      if is_empty (t_pushId t) then take_ids data else ret tt
    else ret tt.

(** * Data providers: the text put into the library's buffer of [len] bytes *)

Definition strcpy_in (len : Z) (s : list Z) : M (list Z) :=
  if zlen s <? len then ret s else fail Overflow.

(** The acknowledgement of a push: the push up to the key data, and the
    stream. *)
Definition data_source_read_callback (stream_id len : Z) (pdata : list Z) : M (list Z) :=
  let* k := of_option Null_pointer
    (strstr pdata ([DQUOTE] ++ str "data" ++ [DQUOTE; chr ":"])) in
  let offset := k + 7 in
  if 1024 <? offset + 1 then fail Overflow
  else
    let ack := take (Z.to_nat offset) pdata ++
      [DQUOTE] ++ str "[ " ++ int_text stream_id ++ str " ]" ++ [DQUOTE; chr "}"] in
    if 1024 <? zlen ack + 1 then fail Overflow else strcpy_in len ack.

Definition register_data_source_read_callback (len : Z) (pdata : list Z) : M (list Z) :=
  strcpy_in len pdata.

Definition refresh_data_source_read_callback (len : Z) : M (list Z) :=
  let* t := get_thread in
  let* ack := strcat_in 1024 [[chr "{"] ++ [DQUOTE] ++ str "push_id" ++ [DQUOTE; chr ":"; DQUOTE];
                              t_pushId t; [DQUOTE; chr "}"]] in
  strcpy_in len ack.

(** * Callbacks *)

(** The frames the client looks at. *)
Inductive frame_type := SYN_STREAM | SYN_REPLY | HEADERS | Other_frame.

(** for(i = 0; nv[i]; i += 2): is the first content-encoding gzip? *)
Fixpoint wants_gzip (nv : list (list Z)) : M bool :=
  match nv with
  | [] => ret false
  | [n] => if bool_decide (n = str "content-encoding") then fail Null_pointer else fail Overread
  | n :: v :: nv' =>
      if bool_decide (n = str "content-encoding") then ret (bool_decide (v = str "gzip"))
      else wants_gzip nv'
  end.

Definition set_inflater (v : bool) (r : Request) : Request :=
  mk_Request (req_host r) (req_port r) (req_path r) (req_hostport r) (req_stream_id r) v.
Definition set_stream_id (v : Z) (r : Request) : Request :=
  mk_Request (req_host r) (req_port r) (req_path r) (req_hostport r) v (req_inflater r).

(** [inflate_new]: whether spdylay_gzip_inflate_new stores an inflater. *)
Definition check_gzip (inflate_new : bool) (nv : list (list Z)) : M unit :=
  let* gzip := wants_gzip nv in
  let* t := get_thread in
  if gzip && negb (req_inflater (t_req t))
  then modify (fun t => set_req (set_inflater inflate_new (t_req t)) t)
  else ret tt.

(** [user_data id]: spdylay_session_get_stream_user_data(session, id) is not NULL,
    that is, it is the request of the thread. *)
Definition before_ctrl_send_callback (user_data : Z -> bool) (ty : frame_type) (id : Z) : M unit :=
  match ty with
  | SYN_STREAM =>
      let* t := get_thread in
      if user_data id && (req_stream_id (t_req t) =? -1)
      then modify (fun t => set_req (set_stream_id id (t_req t)) t)
      else ret tt
  | _ => ret tt
  end.

Definition on_ctrl_recv_callback (user_data : Z -> bool) (inflate_new : bool)
    (ty : frame_type) (id assoc : Z) (nv : list (list Z)) : M unit :=
  match ty with
  | Other_frame => ret tt
  | _ =>
      do* match ty with SYN_STREAM => modify (set_assoc_stream_id assoc) | _ => ret tt end in
      let* t := get_thread in
      if user_data id || user_data (t_assoc_stream_id t) then check_gzip inflate_new nv
      else ret tt
  end.

Definition on_data_send_callback (id : Z) : M unit :=
  if 3 <=? id then call (Close_stream id) else ret tt.

(** [data] is the string at the received bytes, [len] their number.  The branch
    of the inflater is disabled (req->inflater && 0). *)
Definition on_data_chunk_recv_callback (user_data : Z -> bool) (id : Z) (data : list Z)
    (len : Z) : M unit :=
  let* t := get_thread in
  if user_data id then updateClientPushId data
  else if 0 <? len then
    if user_data (t_assoc_stream_id t) then submit_request_pushack (t_req t) data len
    else ret tt
  else ret tt.

Definition submitPingOrRefresh : M unit :=
  do* call Submit_ping in
  let* t := get_thread in
  let* n := int_succ (t_pingFrames t) in
  modify (set_pingFrames n).

(** * A session *)

(** What the library makes the client do while it receives or sends. *)
Inductive event :=
  | Ssl_read (rv : Z) (err : ssl_error)
  | Ssl_write (rv : Z) (err : ssl_error)
  | Before_ctrl_send (user_data : Z -> bool) (ty : frame_type) (id : Z)
  | Ctrl_recv (user_data : Z -> bool) (inflate_new : bool) (ty : frame_type) (id assoc : Z)
      (nv : list (list Z))
  | Data_chunk_recv (user_data : Z -> bool) (id : Z) (data : list Z) (len : Z)
  | Data_send (id : Z).

(** The callbacks of setup_spdylay_callbacks, without the two that only print. *)
Definition handle (e : event) : M unit :=
  match e with
  | Ssl_read rv err => do* recv_callback rv err in ret tt
  | Ssl_write rv err => do* send_callback rv err in ret tt
  | Before_ctrl_send ud ty id => before_ctrl_send_callback ud ty id
  | Ctrl_recv ud inf ty id assoc nv => on_ctrl_recv_callback ud inf ty id assoc nv
  | Data_chunk_recv ud id data len => on_data_chunk_recv_callback ud id data len
  | Data_send id => on_data_send_callback id
  end.

Fixpoint handle_all (es : list event) : M unit :=
  match es with
  | [] => ret tt
  | e :: es' => do* handle e in handle_all es'
  end.

(** One call of spdylay_session_recv or spdylay_session_send: the callbacks it
    makes and its result. *)
Record lib_io := mk_io { io_events : list event; io_rv : Z }.

Definition exec_io (recv send : lib_io) : M Z :=
  do* handle_all (io_events recv) in
  if negb (io_rv recv =? 0) then ret (io_rv recv)
  else do* handle_all (io_events send) in ret (io_rv send).

(** A turn of the event loop: what poll returned, what the library does if there
    is input or output, and what the session wants afterwards. *)
Record turn := mk_turn {
  nfds : Z;
  revents_io : bool; (* revents & (POLLIN | POLLOUT) *)
  turn_recv : lib_io;
  turn_send : lib_io;
  turn_want_read : bool;
  turn_want_write : bool
}.

Fixpoint event_loop (want_read want_write : bool) (turns : list turn) : M unit :=
  if want_read || want_write then
    match turns with
    | [] => ret tt (* the last poll has not returned *)
    | u :: turns' =>
        let* rv := (if revents_io u then exec_io (turn_recv u) (turn_send u) else ret 0) in
        if negb (rv =? 0) then ret tt (* session died *)
        else
          do* (if nfds u =? 0 then submitPingOrRefresh else ret tt) in
          do* ctl_poll (turn_want_read u) (turn_want_write u) in
          event_loop (turn_want_read u) (turn_want_write u) turns'
    end
  else ret tt.

(** The request a session starts with. *)
Definition first_request : M unit :=
  let* t := get_thread in
  if negb (is_empty (t_clientId t)) && negb (is_empty (t_pushId t)) then
    submit_request_listenV2 (t_req t) (t_clientId t) (t_pushId t)
  else if negb (is_empty (t_clientId t)) then submit_request_refresh (t_req t) (t_clientId t)
  else if contains (req_path (t_req t)) (str "register") then
    do* modify (set_clientId []) in submit_request_registrateV2 (t_req t)
  else if contains (req_path (t_req t)) (str "puid") then
    submit_request_listenV2 (t_req t) (t_clientId t) (t_pushId t)
  else submit_request (t_req t).

(** [handshake] is the result of ssl_handshake, [want_read] and [want_write] what
    the session wants after the first request. *)
Record session := mk_session {
  handshake : Z;
  want_read : bool;
  want_write : bool;
  turns : list turn
}.

Definition initSpdySession (s : session) : M unit :=
  let* t := get_thread in
  let* req := of_option Null_pointer (request_init (t_url t) (t_uri t)) in
  do* modify (set_req req) in
  if handshake s <? 0 then ret tt
  else
    do* modify (set_want_io IO_NONE) in
    do* first_request in
    do* ctl_poll (want_read s) (want_write s) in
    event_loop (want_read s) (want_write s) (turns s).

(** * Retries *)

(** The seconds to sleep, 0 for none.  [r] is the result of rand(). *)
Definition retryBackoff (RAND_MAX r retries max : Z) : M unit :=
  let* sleeptm :=
    (if backoff cfg =? 0 then
       if 2 ^ 31 - 1 <? (retries + 1) * retries then fail Int_overflow
       else ret (Z.quot ((retries + 1) * retries) 2)
     else if backoff cfg =? 1 then ret (Z.quot r (Z.quot RAND_MAX max + 1))
     else if backoff cfg =? 2 then ret 0
     else ret (backoff cfg)) in
  if sleeptm =? 0 then ret tt else let* s := int_succ sleeptm in call (Sleep s).

(** The loop of createSpdyClient over the sessions that happen, each with the
    random number drawn after it. *)
Fixpoint createSpdyClient (RAND_MAX : Z) (sessions : list (session * Z)) : M unit :=
  match sessions with
  | [] => ret tt
  | (s, r) :: sessions' =>
      do* initSpdySession s in
      let* t := get_thread in
      let* n := int_succ (t_retries t) in
      do* modify (set_retries n) in
      if 0 <=? backoff cfg then
        do* retryBackoff RAND_MAX r n 10 in
        createSpdyClient RAND_MAX sessions'
      else ret tt
  end.
End Client.
