(* ===== verification/SpdyProps.v ===== *)
(** client/spdycli.c, theorems about the client of one thread: which requests fit
    their arrays and what they say, the identifiers taken from a response, the
    acknowledgement of a push, and what a session can do once the client is
    identified. *)
From S2P Require Import Prelude Libc SpdyUri SpdyClient.

(** * Computing in the monad *)

Lemma bind_ret {A B} (a : A) (f : A -> M B) w : bind (ret a) f w = f a w.
Proof. reflexivity. Qed.
Lemma bind_fail {A B} c (f : A -> M B) w : bind (fail c) f w = Crash c.
Proof. reflexivity. Qed.
Lemma bind_get {B} (f : ThreadUri -> M B) w : bind get_thread f w = f (w_thread w) w.
Proof. reflexivity. Qed.
Lemma bind_modify {B} g (f : unit -> M B) w :
  bind (modify g) f w = f tt (mk_world (g (w_thread w)) (w_calls w)).
Proof. reflexivity. Qed.
Lemma bind_assoc {A B C} (m : M A) (f : A -> M B) (g : B -> M C) w :
  bind (bind m f) g w = bind m (fun a => bind (f a) g) w.
Proof. unfold bind. by destruct (m w). Qed.

(** A successful [bind] is two successful steps. *)
Lemma bind_ok {A B} (m : M A) (f : A -> M B) w b w' :
  bind m f w = Ok b w' -> exists a w1, m w = Ok a w1 /\ f a w1 = Ok b w'.
Proof. unfold bind. destruct (m w) as [a w1|c]; [|done]. eauto. Qed.

Lemma int_succ_ok n w m w' : int_succ n w = Ok m w' -> m = n + 1 /\ w' = w.
Proof. unfold int_succ. destruct (_ <? _); [|done]. by intros [= <- <-]. Qed.

Create Rewrite HintDb client.
#[export] Hint Rewrite @bind_ret @bind_fail @bind_get @bind_modify @bind_assoc : client.

(** * Requests and their arrays *)

Section Requests.
Context (V : list Z) (cfg : flags).

Definition listen_path (pushId : list Z) : list Z :=
  str "/client/v2/" ++ pushId ++ str "?min_ping_interval_sec=30".

Definition clid_of (clientId : list Z) : list Z :=
  if unauthorizedlisten cfg then str "wrong-client-id" else str "Basic  " ++ clientId.

(** The request of submit_request_listenV2. *)
Definition listen_call (req : Request) (clientId pushId : list Z) : lib_call :=
  Submit_request
    (nv_common V (str "GET") (listen_path pushId) (req_hostport req) (str "application/json") ++
     [str "authorization"; clid_of clientId]) None.

Definition refresh_call (req : Request) (clientId : list Z) : lib_call :=
  Submit_request
    (nv_common V (str "POST") (str "/client/v1/refresh") (req_hostport req) (str "application/json") ++
     [str "authorization"; str "Basic " ++ clientId; str "content-type"; str "application/json";
      str "Content-Length"; str "0"]) None.

Definition ack_call (req : Request) (clientId data : list Z) : lib_call :=
  Submit_request
    (nv_common V (str "POST") (str "/client/v2/ack") (req_hostport req) (str "application/json") ++
     [str "authorization"; str "Basic  " ++ clientId; str "content-type"; str "application/json"])
    (Some data).

Definition logged (c : lib_call) (w : world) : world := mk_world (w_thread w) (w_calls w ++ [c]).

Lemma zlen_nil : zlen [] = 0.
Proof. reflexivity. Qed.

Lemma strcat_in_spec size parts w :
  strcat_in size parts w =
  if zlen (concat parts) <? size then Ok (concat parts) w else Crash Overflow.
Proof. unfold strcat_in. by destruct (_ <? _). Qed.

Lemma requests_fit_listen (req : Request) (clientId pushId : list Z) (w : world) :
  submit_request_listenV2 V cfg req clientId pushId w =
  if (zlen pushId <=? 219) && (zlen clientId <=? 248)
  then Ok tt (logged (listen_call req clientId pushId) w) else Crash Overflow.
Proof.
  unfold submit_request_listenV2, listen_clid. unfold bind at 1. rewrite strcat_in_spec.
  cbn [concat]. rewrite !zlen_app, !app_nil_r.
  change (zlen (str "/client/v2/")) with 11. change (zlen (str "?min_ping_interval_sec=30")) with 25.
  destruct (Z.leb_spec (zlen pushId) 219), (Z.ltb_spec (11 + (zlen pushId + (25 + zlen []))) 256);
    rewrite zlen_nil in *; try lia; cbn [andb]; [|done].
  rewrite bind_assoc. unfold bind at 1. rewrite strcat_in_spec. cbn [concat].
  rewrite !zlen_app, !app_nil_r. change (zlen (str "Basic  ")) with 7. rewrite zlen_nil.
  destruct (Z.leb_spec (zlen clientId) 248), (Z.ltb_spec (7 + (zlen clientId + 0)) 256); try lia;
    done.
Qed.

Lemma requests_fit_refresh (req : Request) (clientId : list Z) (w : world) :
  submit_request_refresh V req clientId w =
  if zlen clientId <=? 249 then Ok tt (logged (refresh_call req clientId) w) else Crash Overflow.
Proof.
  unfold submit_request_refresh. unfold bind at 1. rewrite strcat_in_spec. cbn [concat].
  change (zlen _ <? 256) with true at 1. cbn beta iota.
  unfold bind at 1. rewrite strcat_in_spec. cbn [concat].
  rewrite !zlen_app, !app_nil_r. change (zlen (str "Basic ")) with 6. rewrite zlen_nil.
  destruct (Z.leb_spec (zlen clientId) 249), (Z.ltb_spec (6 + (zlen clientId + 0)) 256); try lia;
    done.
Qed.

(** C36. Which requests fit.  The header arrays of the requests are large enough,
    except that of submit_request_registrateV2, whose last header and NULL are
    written past the end of nv[19] whatever the request.  The path and the
    authorization of a listen request fit their arrays exactly when the push id
    has at most 219 bytes and the client id at most 248, and then the request
    submitted is the one for these ids. *)
Theorem requests_fit (req : Request) (clientId pushId : list Z) (w : world) :
  submit_request V req w =
    Ok tt (logged (Submit_request
      (nv_common V (str "GET") (req_path req) (req_hostport req) (str "*/*")) None) w) /\
  submit_request_registrateV2 V req w = Crash Overflow /\
  submit_request_listenV2 V cfg req clientId pushId w =
    (if (zlen pushId <=? 219) && (zlen clientId <=? 248)
     then Ok tt (logged (listen_call req clientId pushId) w) else Crash Overflow) /\
  submit_request_refresh V req clientId w =
    (if zlen clientId <=? 249 then Ok tt (logged (refresh_call req clientId) w)
     else Crash Overflow).
Proof. split_and!; [done|done|apply requests_fit_listen|apply requests_fit_refresh]. Qed.
End Requests.

(** * Identifiers *)

Definition no_quote (s : list Z) : bool := forallb (fun c => negb (c =? DQUOTE)) s.

(** A key with its quote and colon can only start where the text has its name
    before a quote and a colon. *)
Lemma is_prefix_key name x c rest tl :
  no_quote name = true -> no_quote x = true ->
  is_prefix (name ++ DQUOTE :: chr ":" :: tl) (x ++ DQUOTE :: c :: rest) = true ->
  name = x /\ c = 58.
Proof.
  unfold no_quote. revert x. induction name as [|a name IH]; intros [|b x] Hn Hx;
    cbn [app is_prefix forallb] in *.
  - rewrite !andb_true_iff, !Z.eqb_eq. intros (_ & <- & _). done.
  - apply andb_true_iff in Hx as [Hb _]. apply negb_true_iff, Z.eqb_neq in Hb.
    rewrite andb_true_iff, Z.eqb_eq. intros [H _]. by subst.
  - apply andb_true_iff in Hn as [Ha _]. apply negb_true_iff, Z.eqb_neq in Ha.
    rewrite andb_true_iff, Z.eqb_eq. intros [H _]. by subst.
  - apply andb_true_iff in Hn as [_ Hn], Hx as [_ Hx].
    rewrite andb_true_iff, Z.eqb_eq. intros [-> H]. by destruct (IH x Hn Hx H) as [-> ->].
Qed.

Lemma strstr_here needle s : is_prefix needle s = true -> strstr s needle = Some 0.
Proof. destruct s; simpl; by intros ->. Qed.

Lemma is_prefix_app needle s : is_prefix needle (needle ++ s) = true.
Proof. induction needle; simpl; [done|]. by rewrite Z.eqb_refl. Qed.

Lemma strstr_skip needle a s k :
  (forall x y, a = x ++ y -> y <> [] -> is_prefix needle (y ++ s) = false) ->
  strstr s needle = Some k -> strstr (a ++ s) needle = Some (zlen a + k).
Proof.
  induction a as [|c a IH]; intros Hno Hs; [done|].
  simpl. pose proof (Hno [] (c :: a) eq_refl ltac:(done)) as H. simpl in H. rewrite H.
  rewrite IH; [rewrite zlen_cons; f_equal; lia| |done].
  intros x y -> Hy. by apply (Hno (c :: x) y).
Qed.

Lemma strstr_skip_first n0 needle a s k :
  forallb (fun c => negb (n0 =? c)) a = true ->
  strstr s (n0 :: needle) = Some k -> strstr (a ++ s) (n0 :: needle) = Some (zlen a + k).
Proof.
  intros Ha Hs. apply strstr_skip; [|done]. intros x y -> Hy. destruct y as [|c y]; [done|].
  rewrite forallb_app in Ha. apply andb_true_iff in Ha as [_ Ha]. cbn [forallb] in Ha.
  apply andb_true_iff in Ha as [Hc _]. apply negb_true_iff in Hc. cbn [is_prefix app]. by rewrite Hc.
Qed.

(** The text of a string without quotes is skipped by the search for a key. *)
Lemma strstr_skip_text name x c rest k :
  no_quote name = true -> no_quote x = true -> c <> 58 ->
  strstr (c :: rest) (name ++ [DQUOTE; chr ":"]) = Some k ->
  strstr (x ++ DQUOTE :: c :: rest) (name ++ [DQUOTE; chr ":"]) = Some (zlen x + 1 + k).
Proof.
  intros Hn Hx Hc Hs.
  replace (zlen x + 1 + k) with (zlen (x ++ [DQUOTE]) + k) by (rewrite zlen_app; done).
  replace (x ++ DQUOTE :: c :: rest) with ((x ++ [DQUOTE]) ++ c :: rest) by (by rewrite <- app_assoc).
  apply strstr_skip; [|done]. intros y z Hyz Hz.
  apply not_true_is_false. intros E.
  destruct z as [|z' d _] using rev_ind; [done|].
  rewrite app_assoc in Hyz. apply app_inj_tail in Hyz as [-> <-].
  rewrite <- app_assoc in E. apply is_prefix_key in E; [|done|].
  - destruct E as [_ E]. congruence.
  - unfold no_quote in *. rewrite forallb_app in Hx. by apply andb_true_iff in Hx as [_ Hx].
Qed.

(** The value at a quote, up to the next one. *)
Lemma strstr_quote x rest :
  no_quote x = true -> strstr (x ++ DQUOTE :: rest) [DQUOTE] = Some (zlen x).
Proof.
  intros Hx. rewrite <- (Z.add_0_r (zlen x)). apply strstr_skip; [|done].
  intros y z -> Hz. destruct z as [|c z]; [done|]. unfold no_quote in Hx.
  rewrite forallb_app in Hx. apply andb_true_iff in Hx as [_ Hx]. simpl in Hx.
  apply andb_true_iff in Hx as [Hc _]. apply negb_true_iff in Hc. cbn [is_prefix app].
  rewrite Z.eqb_sym. by rewrite Hc.
Qed.

(** The identifier after a key. *)
Lemma get_id_value name before value rest w :
  strstr (before ++ json_string name value ++ rest) (name ++ [DQUOTE; chr ":"]) =
    Some (zlen before + 1) ->
  no_quote value = true ->
  get_id name (before ++ json_string name value ++ rest) w =
  if zlen value <=? 255 then Ok value w else Crash Overflow.
Proof.
  intros Hs Hv. unfold get_id. rewrite Hs. cbn [of_option]. rewrite bind_ret.
  set (front := before ++ [DQUOTE] ++ name ++ [DQUOTE; chr ":"; DQUOTE]).
  assert (Hd : before ++ json_string name value ++ rest = front ++ value ++ DQUOTE :: rest).
  { unfold front, json_string. rewrite <- !app_assoc. done. }
  assert (Hf : zlen before + 1 + zlen (name ++ [DQUOTE; chr ":"]) + 1 = zlen front).
  { unfold front. rewrite !zlen_app. change (zlen [DQUOTE]) with 1.
    change (zlen [DQUOTE; chr ":"]) with 2. change (zlen [DQUOTE; chr ":"; DQUOTE]) with 3. lia. }
  rewrite Hf, Hd. rewrite zlen_app.
  pose proof (zlen_nonneg (value ++ DQUOTE :: rest)).
  rewrite (proj2 (Z.ltb_ge _ _)) by lia.
  rewrite drop_zlen, strstr_quote by done. cbn [of_option]. rewrite bind_ret.
  destruct (Z.leb_spec (zlen value + 1) 256), (Z.leb_spec (zlen value) 255); try lia; [|done].
  unfold zlen. by rewrite Nat2Z.id, take_app_length.
Qed.

(** The response to a registration. *)
Definition registration (clientId pushId : list Z) : list Z :=
  str "{" ++ json_string (str "client_id") clientId ++ str "," ++
  json_string (str "push_id") pushId ++ str "}".

Lemma get_client_id cl pu w :
  no_quote cl = true -> no_quote pu = true -> zlen cl <= 255 ->
  getClientId (registration cl pu) w = Ok cl w.
Proof.
  intros Hc _ Hl. unfold getClientId, registration.
  rewrite get_id_value; [|by vm_compute|done]. by rewrite (proj2 (Z.leb_le _ _)).
Qed.

Lemma find_push_id cl pu :
  no_quote cl = true ->
  strstr (registration cl pu) (str "push_id" ++ [DQUOTE; chr ":"]) = Some (zlen cl + 17).
Proof.
  intros Hc.
  assert (Hr : registration cl pu = (str "{" ++ [DQUOTE] ++ str "client_id" ++ [DQUOTE; chr ":"; DQUOTE]) ++
    cl ++ DQUOTE :: chr "," :: [DQUOTE] ++ (str "push_id" ++ [DQUOTE; chr ":"]) ++
    [DQUOTE] ++ pu ++ [DQUOTE; chr "}"]).
  { unfold registration, json_string. rewrite <- !app_assoc. done. }
  rewrite Hr. replace (zlen cl + 17) with (14 + (zlen cl + 1 + 2)) by lia.
  apply (strstr_skip_first (chr "p") (str "ush_id" ++ [DQUOTE; chr ":"])
           (str "{" ++ [DQUOTE] ++ str "client_id" ++ [DQUOTE; chr ":"; DQUOTE])); [done|].
  apply (strstr_skip_text (str "push_id")); [done|done|done|].
  apply (strstr_skip_first (chr "p") (str "ush_id" ++ [DQUOTE; chr ":"]) [chr ","; DQUOTE] _ 0); [done|].
  apply strstr_here, (is_prefix_app (str "push_id" ++ [DQUOTE; chr ":"])).
Qed.

Lemma get_push_id cl pu w :
  no_quote cl = true -> no_quote pu = true -> zlen pu <= 255 ->
  getPushId (registration cl pu) w = Ok pu w.
Proof.
  intros Hc Hp Hl. unfold getPushId.
  set (front := str "{" ++ json_string (str "client_id") cl ++ str ",").
  assert (Hr : registration cl pu = front ++ json_string (str "push_id") pu ++ str "}").
  { unfold registration, front. rewrite <- !app_assoc. done. }
  assert (Hf : zlen front = zlen cl + 16).
  { unfold front, json_string. rewrite !zlen_app. unfold zlen. simpl length. lia. }
  pose proof (find_push_id cl pu Hc) as Hs. rewrite Hr in *.
  rewrite get_id_value; [by rewrite (proj2 (Z.leb_le _ _))| |done].
  rewrite Hs, Hf. f_equal. lia.
Qed.

(** The identifiers of a response.  From a registration response with a
    client id and a push id (strings of at most 255 bytes without quotes)
    getClientId and getPushId extract exactly these, whatever the two strings
    are, also when one looks like the key of the other. *)
Theorem registration_ids (cl pu : list Z) (w : world) :
  no_quote cl = true -> no_quote pu = true -> zlen cl <= 255 -> zlen pu <= 255 ->
  getClientId (registration cl pu) w = Ok cl w /\ getPushId (registration cl pu) w = Ok pu w.
Proof. intros. split; [by apply get_client_id|by apply get_push_id]. Qed.

Lemma registration_ids_witness :
  let w := mk_world (mk_thread 0 0 IO_NONE (mk_Request [] 443 [] [] (-1) false) 0 URI_zero [] [] [] []) [] in
  getClientId (registration (str "push_id") (str "puid-3-1")) w = Ok (str "push_id") w /\
  getPushId (registration (str "push_id") (str "puid-3-1")) w = Ok (str "puid-3-1") w.
Proof.
  apply (registration_ids (str "push_id") (str "puid-3-1")); done.
Defined.

(** * The response to a registration *)

Section Handlers.
Context (V : list Z) (cfg : flags).

(** C37. The full flow, outside unit mode.  As long as the client has no id, a
    registration response on the stream of the client's own request (with ids of at most
    255 bytes, without quotes) makes it store the two ids and submit one listen request
    for them when the push id has at most 219 bytes and the client id at most 248; with
    longer ones an array overflows.  Once the client has an id, data on that stream,
    whatever it is, changes nothing and submits nothing. *)
Theorem registration_handled (ud : Z -> bool) (id len : Z) (t : ThreadUri) calls :
  fullmode cfg = true -> unitmode cfg = false -> ud id = true ->
  (t_clientId t = [] -> forall cl pu : list Z,
    no_quote cl = true -> no_quote pu = true -> zlen cl <= 255 -> zlen pu <= 255 ->
    on_data_chunk_recv_callback V cfg ud id (registration cl pu) len (mk_world t calls) =
    if (zlen pu <=? 219) && (zlen cl <=? 248)
    then Ok tt (mk_world (set_pushId pu (set_clientId cl t))
                  (calls ++ [listen_call V cfg (t_req t) cl pu]))
    else Crash Overflow) /\
  (t_clientId t <> [] -> forall data : list Z,
    on_data_chunk_recv_callback V cfg ud id data len (mk_world t calls) = Ok tt (mk_world t calls)).
Proof.
  intros Hf Hu Hid. split.
  - intros Ht cl pu Hcl Hpu Hlc Hlp. unfold on_data_chunk_recv_callback. rewrite bind_get, Hid.
    unfold updateClientPushId. rewrite Hu, bind_get, Hf. cbn [w_thread]. rewrite Ht.
    change (is_empty []) with true. cbn match.
    unfold take_ids. unfold bind at 1. rewrite get_client_id by done. rewrite bind_modify.
    unfold bind at 1. rewrite get_push_id by done. rewrite bind_modify. cbn [w_thread w_calls].
    unfold listenAfterObtainPuid. rewrite bind_get. apply requests_fit_listen.
  - intros Ht data. unfold on_data_chunk_recv_callback. rewrite bind_get, Hid.
    unfold updateClientPushId. rewrite Hu, bind_get, Hf. cbn [w_thread].
    destruct (t_clientId t) as [|c l]; [done|]. unfold is_empty. rewrite zlen_cons. pose proof (zlen_nonneg l).
    by rewrite (proj2 (Z.eqb_neq _ _)) by lia.
Qed.

(** * Once the client is identified *)

Definition identified (t : ThreadUri) : Prop := t_clientId t <> [] /\ t_pushId t <> [].

(** What stays as it is: the ids, the address, the stream once it is known, the
    inflater once there is one. *)
Record kept (t t' : ThreadUri) : Prop := mk_kept {
  kept_clientId : t_clientId t' = t_clientId t;
  kept_pushId : t_pushId t' = t_pushId t;
  kept_uri : t_uri t' = t_uri t;
  kept_url : t_url t' = t_url t;
  kept_retries : t_retries t' = t_retries t;
  kept_host : req_host (t_req t') = req_host (t_req t);
  kept_port : req_port (t_req t') = req_port (t_req t);
  kept_path : req_path (t_req t') = req_path (t_req t);
  kept_hostport : req_hostport (t_req t') = req_hostport (t_req t);
  kept_stream : req_stream_id (t_req t) <> -1 -> req_stream_id (t_req t') = req_stream_id (t_req t);
  kept_inflater : req_inflater (t_req t) = true -> req_inflater (t_req t') = true
}.

Lemma kept_refl t : kept t t.
Proof. by constructor. Qed.

Lemma kept_trans t1 t2 t3 : kept t1 t2 -> kept t2 t3 -> kept t1 t3.
Proof.
  intros [] []. constructor; try congruence; auto.
  intros H. rewrite kept_stream1; auto. by rewrite kept_stream0.
Qed.

(** What an identified client may still do. *)
Definition allowed (t : ThreadUri) (c : lib_call) : Prop :=
  match c with
  | Set_events _ _ | Submit_ping => True
  | Close_stream id => 3 <= id
  | Submit_request _ _ => exists data, c = ack_call V (t_req t) (t_clientId t) data
  | Sleep _ => False
  end.

Definition quiet (w w' : world) : Prop :=
  kept (w_thread w) (w_thread w') /\
  exists new, w_calls w' = w_calls w ++ new /\ Forall (allowed (w_thread w)) new.

Lemma quiet_refl w : quiet w w.
Proof. split; [apply kept_refl|]. exists []. by rewrite app_nil_r. Qed.

Lemma quiet_kept w t : kept (w_thread w) t -> quiet w (mk_world t (w_calls w)).
Proof. intros H. split; [done|]. exists []. by rewrite app_nil_r. Qed.

Lemma quiet_call w c : allowed (w_thread w) c -> quiet w (logged c w).
Proof. intros H. split; [apply kept_refl|]. exists [c]. split; [done|by constructor]. Qed.

Lemma allowed_kept t t' c : kept t t' -> allowed t' c -> allowed t c.
Proof.
  intros Hk. destruct c; simpl; try done. intros [d ->]. exists d.
  unfold ack_call. by rewrite (kept_hostport _ _ Hk), (kept_clientId _ _ Hk).
Qed.

Lemma quiet_trans w1 w2 w3 : quiet w1 w2 -> quiet w2 w3 -> quiet w1 w3.
Proof.
  intros [Hk1 (n1 & Hc1 & Ha1)] [Hk2 (n2 & Hc2 & Ha2)].
  split; [by eapply kept_trans|]. exists (n1 ++ n2). split; [by rewrite Hc2, Hc1, app_assoc|].
  apply Forall_app. split; [done|]. eapply Forall_impl; [exact Ha2|].
  intros c Hc. by eapply allowed_kept.
Qed.

(** ** Each handler *)

Lemma update_quiet data w w' :
  identified (w_thread w) -> updateClientPushId V cfg data w = Ok tt w' -> quiet w w'.
Proof.
  intros [Hc Hp]. unfold updateClientPushId. destruct (unitmode cfg); [done|]. rewrite bind_get.
  assert (He : forall s : list Z, s <> [] -> is_empty s = false).
  { intros [|c s] Hs; [done|]. unfold is_empty. rewrite zlen_cons. pose proof (zlen_nonneg s).
    apply Z.eqb_neq. lia. }
  rewrite !He by done. destruct (fullmode cfg), (refreshmode cfg); intros [= <-]; apply quiet_refl.
Qed.

Lemma wants_gzip_pure nv w b w' : wants_gzip nv w = Ok b w' -> w' = w.
Proof.
  remember (length nv) as k eqn:Hk. assert (Hle : (length nv <= k)%nat) by lia. clear Hk.
  revert nv Hle. induction k as [|k IH]; intros [|n [|v nv]] Hle; simpl in *; try lia.
  1,2: by intros [= _ <-].
  - by case_match.
  - case_match; [by intros [= _ <-]|apply IH; lia].
Qed.

Lemma check_gzip_quiet inf nv w w' : check_gzip inf nv w = Ok tt w' -> quiet w w'.
Proof.
  unfold check_gzip. intros H. apply bind_ok in H as (g & w1 & Hg & H).
  apply wants_gzip_pure in Hg as ->. rewrite bind_get in H.
  destruct (g && _) eqn:Hi; injection H as <-; [|apply quiet_refl].
  apply quiet_kept. constructor; try done. cbn. apply andb_true_iff in Hi as [_ Hi].
  apply negb_true_iff in Hi. congruence.
Qed.

Lemma ctrl_recv_quiet ud inf ty id assoc nv w w' :
  on_ctrl_recv_callback ud inf ty id assoc nv w = Ok tt w' -> quiet w w'.
Proof.
  unfold on_ctrl_recv_callback. intros H.
  assert (Hq : forall v, quiet w (mk_world (set_assoc_stream_id v (w_thread w)) (w_calls w))).
  { intros v. apply quiet_kept. by constructor. }
  destruct ty; [rewrite bind_modify, bind_get in H|rewrite bind_ret, bind_get in H..|
    by injection H as <-; apply quiet_refl];
    (destruct (_ || _) in H; [apply check_gzip_quiet in H|injection H as <-]);
    eauto using quiet_refl, quiet_trans.
Qed.

Lemma before_send_quiet ud ty id w w' :
  before_ctrl_send_callback ud ty id w = Ok tt w' -> quiet w w'.
Proof.
  unfold before_ctrl_send_callback. destruct ty; try (intros [= <-]; apply quiet_refl).
  rewrite bind_get. destruct (_ && _) eqn:Hc; intros [= <-]; [|apply quiet_refl].
  apply quiet_kept. apply andb_true_iff in Hc as [_ Hc]. apply Z.eqb_eq in Hc.
  by constructor.
Qed.

Lemma pushack_quiet data len w w' :
  submit_request_pushack V (t_req (w_thread w)) data len w = Ok tt w' -> quiet w w'.
Proof.
  unfold submit_request_pushack. intros H. apply bind_ok in H as (p & w1 & Hp & H).
  assert (w1 = w) as ->.
  { unfold strncpy_in in Hp. repeat case_match; try done. by injection Hp. }
  rewrite bind_modify in H. destruct (contains _ _); [done|]. rewrite bind_get in H.
  apply bind_ok in H as (clid & w2 & Hcl & H). rewrite strcat_in_spec in Hcl.
  destruct (_ <? _); [|done]. injection Hcl as <- <-. injection H as <-.
  eapply quiet_trans.
  - apply (quiet_kept w (set_pushData p (w_thread w))). by constructor.
  - apply (quiet_call (mk_world (set_pushData p (w_thread w)) (w_calls w))).
    exists (take (Z.to_nat len) data). unfold ack_call. by rewrite app_nil_r.
Qed.

Lemma want_io_quiet v w : quiet w (mk_world (set_want_io v (w_thread w)) (w_calls w)).
Proof. apply quiet_kept. by constructor. Qed.

(** Either transfer callback only changes what SSL waits for. *)
Lemma transfer_quiet (rv : Z) err w (r : io_result) w' :
  send_callback rv err w = Ok r w' \/ recv_callback rv err w = Ok r w' -> quiet w w'.
Proof.
  unfold send_callback, recv_callback, io_failed. rewrite !bind_modify.
  destruct (rv <? 0), err, (rv =? 0); intros [[= _ <-]|[= _ <-]];
    try apply want_io_quiet; apply (quiet_trans _ _ _ (want_io_quiet IO_NONE w)), want_io_quiet.
Qed.

Lemma ping_quiet w w' : submitPingOrRefresh w = Ok tt w' -> quiet w w'.
Proof.
  intros H. apply bind_ok in H as ([] & w1 & [= <-] & H). rewrite bind_get in H.
  apply bind_ok in H as (n & w2 & Hn & [= <-]). apply int_succ_ok in Hn as [-> ->]. eapply quiet_trans; [by apply (quiet_call w Submit_ping)|].
  apply (quiet_kept (logged Submit_ping w) (set_pingFrames _ (w_thread w))). by constructor.
Qed.

Lemma handle_quiet e w w' :
  identified (w_thread w) -> handle V cfg e w = Ok tt w' -> quiet w w'.
Proof.
  intros Hi. destruct e as [rv err|rv err|ud ty id|ud inf ty id assoc nv|ud id data len|id]; simpl.
  - intros H. apply bind_ok in H as (r & w1 & H & [= <-]). eapply transfer_quiet; eauto.
  - intros H. apply bind_ok in H as (r & w1 & H & [= <-]). eapply transfer_quiet; eauto.
  - apply before_send_quiet.
  - apply ctrl_recv_quiet.
  - unfold on_data_chunk_recv_callback. rewrite bind_get. destruct (ud id).
    + by apply update_quiet.
    + repeat case_match; try (intros [= <-]; apply quiet_refl). apply pushack_quiet.
  - unfold on_data_send_callback. destruct (Z.leb_spec 3 id); intros [= <-]; [|apply quiet_refl].
    by apply (quiet_call w (Close_stream id)).
Qed.

Lemma identified_quiet w w' : identified (w_thread w) -> quiet w w' -> identified (w_thread w').
Proof. intros [] [[] _]. split; congruence. Qed.

Lemma handle_all_quiet es w w' :
  identified (w_thread w) -> handle_all V cfg es w = Ok tt w' -> quiet w w'.
Proof.
  revert w. induction es as [|e es IH]; intros w Hi H; simpl in H.
  - injection H as <-. apply quiet_refl.
  - apply bind_ok in H as ([] & w1 & He & H). apply handle_quiet in He; [|done].
    eapply quiet_trans; [exact He|]. apply IH; [|done]. by eapply identified_quiet.
Qed.

Lemma exec_io_quiet recv send w rv w' :
  identified (w_thread w) -> exec_io V cfg recv send w = Ok rv w' -> quiet w w'.
Proof.
  intros Hi H. apply bind_ok in H as ([] & w1 & H1 & H). apply handle_all_quiet in H1; [|done].
  destruct (negb _); [by injection H as _ <-|].
  apply bind_ok in H as ([] & w2 & H2 & [= _ <-]). eapply quiet_trans; [exact H1|].
  eapply handle_all_quiet; [|exact H2]. by eapply identified_quiet.
Qed.

Lemma ctl_poll_quiet r s w w' : ctl_poll r s w = Ok tt w' -> quiet w w'.
Proof. intros [= <-]. by apply (quiet_call w (Set_events _ _)). Qed.

(** C38. What a session does once the client has its two ids, whatever frames,
    data, transfers and timeouts come, in whatever order.  The ids, the address
    and the request stay; the stream id of the request, once known, is never
    changed, and an inflater is never replaced.  The client only acknowledges
    pushes (for its own client id, to its own server), sends pings, polls and
    closes streams numbered from 3 on: it never registers or listens again. *)
Theorem session_quiet (r s : bool) (us : list turn) (w w' : world) :
  identified (w_thread w) -> event_loop V cfg r s us w = Ok tt w' -> quiet w w'.
Proof.
  revert r s w. induction us as [|u us IH]; intros r s w Hi H; simpl in H;
    (destruct (r || s); [|injection H as <-; apply quiet_refl]).
  - injection H as <-. apply quiet_refl.
  - apply bind_ok in H as (rv & w1 & H1 & H).
    assert (Hq : quiet w w1).
    { destruct (revents_io u); [by eapply exec_io_quiet|]. injection H1 as _ <-. apply quiet_refl. }
    destruct (negb _); [by injection H as <-|].
    apply bind_ok in H as ([] & w2 & H2 & H). apply bind_ok in H as ([] & w3 & H3 & H).
    assert (Hq2 : quiet w w2).
    { eapply quiet_trans; [exact Hq|]. destruct (_ =? _); [by apply ping_quiet|].
      injection H2 as <-. apply quiet_refl. }
    apply ctl_poll_quiet in H3. pose proof (quiet_trans _ _ _ Hq2 H3) as Hq3.
    eapply quiet_trans; [exact Hq3|]. eapply IH; [|exact H]. by eapply identified_quiet.
Qed.
End Handlers.

(** A thread with ids, and a server that pushes. *)
Definition sample_thread : ThreadUri :=
  mk_thread 0 0 IO_NONE (mk_Request (str "h") 443 (str "/") (str "h:443") 1 false) 1 URI_zero
    (str "https://h") (str "clid-1") (str "puid-1") [].

Lemma registration_handled_witness :
  let cfg := mk_flags false false false false true false (-1) false false false in
  let t := set_pushId [] (set_clientId [] sample_thread) in
  let t' := set_pushId (str "p") (set_clientId (str "c") t) in
  let calls := [listen_call [] cfg (t_req t) (str "c") (str "p")] in
  on_data_chunk_recv_callback [] cfg (Z.eqb 1) 1 (registration (str "c") (str "p")) 9 (mk_world t []) =
    Ok tt (mk_world t' calls) /\
  on_data_chunk_recv_callback [] cfg (Z.eqb 1) 1 (registration (str "d") (str "q")) 9 (mk_world t' calls) =
    Ok tt (mk_world t' calls).
Proof.
  intros cfg t t' calls. split.
  - destruct (registration_handled [] cfg (Z.eqb 1) 1 9 t [] eq_refl eq_refl eq_refl) as [H _].
    rewrite H; [reflexivity|reflexivity..|done|done].
  - destruct (registration_handled [] cfg (Z.eqb 1) 1 9 t' calls eq_refl eq_refl eq_refl) as [_ H].
    apply H. discriminate.
Defined.

(** A push that arrives, then a quiet quarter of an hour. *)
Definition sample_turns : list turn :=
  [mk_turn 1 true
     (mk_io [Ssl_read 13 Other_ssl_error; Data_chunk_recv (Z.eqb 1) 2 (str "hello") 5] 0)
     (mk_io [Ssl_write (-1) SSL_ERROR_WANT_WRITE] 0) true true;
   mk_turn 0 false (mk_io [] 0) (mk_io [] 0) true false].

Lemma session_quiet_witness :
  exists w', event_loop [] default_flags true false sample_turns (mk_world sample_thread []) =
      Ok tt w' /\
    quiet [] (mk_world sample_thread []) w' /\ length (w_calls w') = 4%nat.
Proof.
  eexists. split; [reflexivity|]. split; [|reflexivity].
  apply (session_quiet [] default_flags true false sample_turns); [|reflexivity].
  split; discriminate.
Defined.

(** * Acknowledging a push *)

Definition data_key : list Z := [DQUOTE] ++ str "data" ++ [DQUOTE; chr ":"].

(** The end of an acknowledgement sent on stream [id]. *)
Definition ack_end (id : Z) : list Z :=
  [DQUOTE] ++ str "[ " ++ int_text id ++ str " ]" ++ [DQUOTE; chr "}"].

(** A push with the JSON key data, of fewer than 1024 bytes and without the
    word diehard, is acknowledged: the request to /client/v2/ack carries the
    push, and the library's buffer is filled with the push up to that key and
    the number of the stream in place of the data, when that fits. *)
Theorem push_acknowledged (V before rest : list Z) (t : ThreadUri) calls (id blk : Z) :
  let push := before ++ data_key ++ rest in
  let ack := before ++ data_key ++ ack_end id in
  strstr push data_key = Some (zlen before) ->
  zlen push < 1024 -> contains push (str "diehard") = false -> zlen (t_clientId t) <= 248 ->
  zlen ack < 1024 -> zlen ack < blk ->
  exists w',
    submit_request_pushack V (t_req t) push (zlen push) (mk_world t calls) = Ok tt w' /\
    w_calls w' = calls ++ [ack_call V (t_req t) (t_clientId t) push] /\
    t_pushData (w_thread w') = push /\
    data_source_read_callback id blk push w' = Ok ack w'.
Proof.
  intros push ack Hs Hp Hd Hc Ha Hb.
  assert (Htake : take (Z.to_nat (zlen push)) push = push).
  { unfold zlen. rewrite Nat2Z.id. apply firstn_all. }
  exists (logged (ack_call V (t_req t) (t_clientId t) push) (mk_world (set_pushData push t) calls)).
  split; [|split; [done|split; [done|]]].
  - unfold submit_request_pushack. unfold bind at 1. unfold strncpy_in. rewrite Htake.
    rewrite (proj2 (Z.ltb_ge 1024 _)) by lia. rewrite (proj2 (Z.eqb_neq _ 1024)) by lia.
    cbn [ret]. rewrite bind_modify, Hd, bind_get. unfold bind at 1. rewrite strcat_in_spec.
    cbn [concat w_thread t_clientId set_pushData]. rewrite app_nil_r, zlen_app.
    change (zlen (str "Basic  ")) with 7. rewrite (proj2 (Z.ltb_lt _ _)) by lia. done.
  - unfold data_source_read_callback. fold data_key. rewrite Hs. cbn [of_option]. rewrite bind_ret.
    assert (Hk : zlen before + 7 = zlen (before ++ data_key)) by (rewrite zlen_app; done).
    assert (Hle : zlen (before ++ data_key) <= zlen push).
    { unfold push. rewrite app_assoc, (zlen_app (before ++ data_key)).
      pose proof (zlen_nonneg rest). lia. }
    rewrite Hk, (proj2 (Z.ltb_ge 1024 _)) by lia.
    replace (take (Z.to_nat (zlen (before ++ data_key))) push) with (before ++ data_key).
    2: { unfold push. rewrite app_assoc. unfold zlen. by rewrite Nat2Z.id, take_app_length. }
    fold (ack_end id). rewrite <- app_assoc. fold ack.
    rewrite (proj2 (Z.ltb_ge 1024 _)) by lia. unfold strcpy_in.
    by rewrite (proj2 (Z.ltb_lt (zlen ack) blk)) by lia.
Qed.

Lemma push_acknowledged_witness :
  let key := data_key in
  exists w',
    submit_request_pushack [] (t_req sample_thread) (str "{" ++ key ++ str "1}") 10
      (mk_world sample_thread []) = Ok tt w' /\
    w_calls w' = [ack_call [] (t_req sample_thread) (str "clid-1") (str "{" ++ key ++ str "1}")] /\
    t_pushData (w_thread w') = str "{" ++ key ++ str "1}" /\
    data_source_read_callback 5 4096 (str "{" ++ key ++ str "1}") w' =
      Ok (str "{" ++ key ++ [DQUOTE] ++ str "[ 5 ]" ++ [DQUOTE; chr "}"]) w'.
Proof.
  exact (push_acknowledged [] (str "{") (str "1}") sample_thread [] 5 4096 eq_refl eq_refl eq_refl
    ltac:(by vm_compute) ltac:(done) ltac:(done)).
Defined.

