(* ===== verification/SpdyLoop.v ===== *)
(** client/spdycli.c, the event loop and the retries of one thread: what the loop
    polls for, the delay between two sessions, and the sequence of sessions.

    The handlers are framed once and for all: a relation on worlds that is a
    preorder and holds of the single effects of the handlers holds of all they
    do.  The interfaces [Framing] and [FramingIO] say which effects these are;
    the theorems instantiate them with the relation they are about. *)
From S2P Require Import Prelude Libc SpdyUri SpdyClient SpdyProps.

(** * Framing *)

Definition is_poll (c : lib_call) : bool := match c with Set_events _ _ => true | _ => false end.
Definition is_sleep (c : lib_call) : bool := match c with Sleep _ => true | _ => false end.

(** The world with the thread changed by [f]. *)
Definition with_thread (f : ThreadUri -> ThreadUri) (w : world) : world :=
  mk_world (f (w_thread w)) (w_calls w).

(** A relation the effects of the handlers of frames and data respect. *)
Class Framing (R : relation world) : Prop := {
  framing_preorder :: PreOrder R;
  framing_pingFrames v w : R w (with_thread (set_pingFrames v) w);
  framing_req f w : R w (with_thread (fun t => set_req (f (t_req t)) t) w);
  framing_assoc v w : R w (with_thread (set_assoc_stream_id v) w);
  framing_clientId v w : R w (with_thread (set_clientId v) w);
  framing_pushId v w : R w (with_thread (set_pushId v) w);
  framing_pushData v w : R w (with_thread (set_pushData v) w);
  framing_call c w : is_poll c = false -> is_sleep c = false -> R w (logged c w)
}.

(** The same for the handlers of transfers and the polling. *)
Class FramingIO (R : relation world) : Prop := {
  framing_io :: Framing R;
  framing_want_io v w : R w (with_thread (set_want_io v) w);
  framing_poll i o w : R w (logged (Set_events i o) w)
}.

(** Every successful run of [m] is in [R]. *)
Definition preserves (R : relation world) {A} (m : M A) : Prop :=
  forall w a w', m w = Ok a w' -> R w w'.

Create HintDb framing.

Section Frame.
Context (R : relation world) {HR : Framing R}.

Lemma preserves_ret {A} (a : A) : preserves R (ret a).
Proof. intros w b w' [= _ <-]. reflexivity. Qed.
Lemma preserves_fail {A} c : preserves R (@fail A c).
Proof. done. Qed.
Lemma preserves_get : preserves R get_thread.
Proof. intros w b w' [= _ <-]. reflexivity. Qed.
Lemma preserves_bind {A B} (m : M A) (f : A -> M B) :
  preserves R m -> (forall a, preserves R (f a)) -> preserves R (bind m f).
Proof.
  intros Hm Hf w b w' H. apply bind_ok in H as (a & w1 & H1 & H2).
  etrans; [by eapply Hm|by eapply Hf].
Qed.
Lemma preserves_if {A} (b : bool) (m m' : M A) :
  preserves R m -> preserves R m' -> preserves R (if b then m else m').
Proof. by destruct b. Qed.
Lemma preserves_modify f : (forall w, R w (with_thread f w)) -> preserves R (modify f).
Proof. intros H w [] w' [= <-]. apply H. Qed.
Lemma preserves_call c : is_poll c = false -> is_sleep c = false -> preserves R (call c).
Proof. intros Hp Hs w [] w' [= <-]. by apply framing_call. Qed.
Lemma preserves_of_option {A} c (o : option A) : preserves R (of_option c o).
Proof. destruct o; [apply preserves_ret|apply preserves_fail]. Qed.

Lemma preserves_set v f :
  preserves R (modify (set_pingFrames v)) /\
  preserves R (modify (fun t => set_req (f (t_req t)) t)) /\
  preserves R (modify (set_assoc_stream_id v)).
Proof. split_and!; apply preserves_modify; intros; apply HR. Qed.
Lemma preserves_set_text v :
  preserves R (modify (set_clientId v)) /\ preserves R (modify (set_pushId v)) /\
  preserves R (modify (set_pushData v)).
Proof. split_and!; apply preserves_modify; intros; apply HR. Qed.

#[local] Hint Extern 1 (preserves _ (modify _)) =>
  first [apply preserves_set | apply preserves_set_text] : framing.
#[local] Hint Resolve preserves_ret preserves_fail preserves_get preserves_bind preserves_if
  preserves_call preserves_of_option : framing.

Lemma preserves_strings size parts items s len :
  preserves R (strcat_in size parts) /\ preserves R (nv_in size items) /\
  preserves R (strncpy_in size s len).
Proof. unfold strcat_in, nv_in, strncpy_in. split_and!; auto with framing. Qed.
Lemma preserves_strcat size parts : preserves R (strcat_in size parts).
Proof. apply (preserves_strings size parts [] [] 0). Qed.
Lemma preserves_nv size items : preserves R (nv_in size items).
Proof. apply (preserves_strings size [] items [] 0). Qed.
Lemma preserves_strncpy size s len : preserves R (strncpy_in size s len).
Proof. apply (preserves_strings size [] [] s len). Qed.
Lemma preserves_int_succ n : preserves R (int_succ n).
Proof. unfold int_succ. auto with framing. Qed.
#[local] Hint Resolve preserves_strcat preserves_nv preserves_strncpy preserves_int_succ : framing.

Context (V : list Z) (cfg : flags).

(** ** The requests and handlers *)

Lemma preserves_submit nv data : preserves R (spdylay_submit nv data).
Proof. by apply preserves_call. Qed.
#[local] Hint Resolve preserves_submit : framing.

Lemma preserves_listenV2 req cl pu : preserves R (submit_request_listenV2 V cfg req cl pu).
Proof. unfold submit_request_listenV2, listen_clid. auto 10 with framing. Qed.
#[local] Hint Resolve preserves_listenV2 : framing.

Lemma preserves_get_id name data : preserves R (get_id name data).
Proof. unfold get_id. cbn zeta. auto 10 with framing. Qed.
#[local] Hint Resolve preserves_get_id : framing.

Lemma preserves_take_ids data : preserves R (take_ids V cfg data).
Proof. unfold take_ids, getClientId, getPushId, listenAfterObtainPuid. auto 20 with framing. Qed.
#[local] Hint Resolve preserves_take_ids : framing.

Lemma preserves_pushack req data len : preserves R (submit_request_pushack V req data len).
Proof. unfold submit_request_pushack. auto 20 with framing. Qed.
#[local] Hint Resolve preserves_pushack : framing.

Lemma preserves_data_chunk ud id data len :
  preserves R (on_data_chunk_recv_callback V cfg ud id data len).
Proof. unfold on_data_chunk_recv_callback, updateClientPushId. auto 20 with framing. Qed.

Lemma preserves_wants_gzip nv : preserves R (wants_gzip nv).
Proof. intros w b w' H. apply wants_gzip_pure in H as ->. reflexivity. Qed.
#[local] Hint Resolve preserves_wants_gzip : framing.

Lemma preserves_ctrl_recv ud inf ty id assoc nv :
  preserves R (on_ctrl_recv_callback ud inf ty id assoc nv).
Proof. unfold on_ctrl_recv_callback, check_gzip. destruct ty; auto 20 with framing. Qed.

Lemma preserves_before_send ud ty id : preserves R (before_ctrl_send_callback ud ty id).
Proof. unfold before_ctrl_send_callback. destruct ty; auto 20 with framing. Qed.

Lemma preserves_data_send id : preserves R (on_data_send_callback id).
Proof. unfold on_data_send_callback. auto with framing. Qed.

Lemma preserves_ping : preserves R submitPingOrRefresh.
Proof. unfold submitPingOrRefresh. auto 20 with framing. Qed.

Lemma preserves_first_request : preserves R (first_request V cfg).
Proof.
  unfold first_request, submit_request_refresh, submit_request_registrateV2, submit_request.
  cbn zeta. auto 30 with framing.
Qed.
End Frame.

#[export] Hint Resolve preserves_ret preserves_fail preserves_get preserves_bind preserves_if
  preserves_call preserves_of_option preserves_int_succ preserves_data_chunk
  preserves_ctrl_recv preserves_before_send preserves_data_send preserves_ping
  preserves_first_request : framing.

#[export] Hint Extern 1 (Framing _) => typeclasses eauto : framing.

(** ** A whole session *)

Section FrameIO.
Context (R : relation world) {HR : FramingIO R}.
Context (V : list Z) (cfg : flags).

Lemma preserves_want_io v : preserves R (modify (set_want_io v)).
Proof. intros w [] w' [= <-]. apply framing_want_io. Qed.
Lemma preserves_ctl_poll r s : preserves R (ctl_poll r s).
Proof. intros w [] w' [= <-]. apply framing_poll. Qed.
#[local] Hint Resolve preserves_want_io preserves_ctl_poll : framing.

Lemma preserves_io_failed err : preserves R (io_failed err).
Proof. destruct err; simpl; auto with framing. Qed.
#[local] Hint Resolve preserves_io_failed : framing.

Lemma preserves_handle e : preserves R (handle V cfg e).
Proof. destruct e; simpl; unfold recv_callback, send_callback; auto 20 with framing. Qed.
#[local] Hint Resolve preserves_handle : framing.

Lemma preserves_handle_all es : preserves R (handle_all V cfg es).
Proof. induction es; simpl; auto with framing. Qed.
#[local] Hint Resolve preserves_handle_all : framing.

Lemma preserves_exec_io recv send : preserves R (exec_io V cfg recv send).
Proof. unfold exec_io. auto 20 with framing. Qed.
#[local] Hint Resolve preserves_exec_io : framing.

Lemma preserves_event_loop r s us : preserves R (event_loop V cfg r s us).
Proof. revert r s. induction us; simpl; auto 20 with framing. Qed.
End FrameIO.

(** * What the loop polls for *)

(** What SSL waits for after an event: only a transfer changes it. *)
Definition wanted_after (v : io_want) (e : event) : io_want :=
  match e with
  | Ssl_read rv err | Ssl_write rv err =>
      if rv <? 0 then
        match err with
        | SSL_ERROR_WANT_READ => WANT_READ
        | SSL_ERROR_WANT_WRITE => WANT_WRITE
        | Other_ssl_error => IO_NONE
        end
      else IO_NONE
  | _ => v
  end.

(** The events of a turn, and whether the session survives it. *)
Definition turn_events (u : turn) : list event :=
  if revents_io u then
    io_events (turn_recv u) ++ (if io_rv (turn_recv u) =? 0 then io_events (turn_send u) else [])
  else [].
Definition turn_survives (u : turn) : bool :=
  negb (revents_io u) || ((io_rv (turn_recv u) =? 0) && (io_rv (turn_send u) =? 0)).

(** The polls of a loop: after each turn for what the session wants, and for what
    the last transfer waits for. *)
Fixpoint polls (v : io_want) (r s : bool) (us : list turn) : list lib_call :=
  match us with
  | u :: us' =>
      let v' := foldl wanted_after v (turn_events u) in
      if (r || s) && turn_survives u then
        Set_events (turn_want_read u || bool_decide (v' = WANT_READ))
             (turn_want_write u || bool_decide (v' = WANT_WRITE))
        :: polls v' (turn_want_read u) (turn_want_write u) us'
      else []
  | [] => []
  end.

(** Nothing polled, and SSL waits for the same. *)
Definition same_io (w w' : world) : Prop :=
  t_want_io (w_thread w') = t_want_io (w_thread w) /\
  List.filter is_poll (w_calls w') = List.filter is_poll (w_calls w).

#[export] Instance same_io_framing : Framing same_io.
Proof.
  constructor; try done; [constructor; [done|intros ??? [] []; split; congruence]|].
  intros c w Hp _. split; [done|]. cbn. rewrite List.filter_app. cbn. by rewrite Hp, app_nil_r.
Qed.

Lemma handle_want V cfg e w w' :
  handle V cfg e w = Ok tt w' ->
  t_want_io (w_thread w') = wanted_after (t_want_io (w_thread w)) e /\
  List.filter is_poll (w_calls w') = List.filter is_poll (w_calls w).
Proof.
  assert (Hf : forall (m : M unit), preserves same_io m -> m w = Ok tt w' -> same_io w w')
    by eauto.
  destruct e as [rv err|rv err| | | |]; simpl; try (apply Hf; auto with framing).
  - unfold recv_callback. rewrite bind_assoc, bind_modify.
    destruct (rv <? 0), err, (rv =? 0); by intros [= <-].
  - unfold send_callback. rewrite bind_assoc, bind_modify.
    destruct (rv <? 0), err; by intros [= <-].
Qed.

Lemma handle_all_want V cfg es w w' :
  handle_all V cfg es w = Ok tt w' ->
  t_want_io (w_thread w') = foldl wanted_after (t_want_io (w_thread w)) es /\
  List.filter is_poll (w_calls w') = List.filter is_poll (w_calls w).
Proof.
  revert w. induction es as [|e es IH]; intros w H; simpl in *; [by injection H as <-|].
  apply bind_ok in H as ([] & w1 & He & H). apply handle_want in He as [Hv Hc].
  apply IH in H as [Hv' Hc']. by rewrite Hv', Hv, Hc', Hc.
Qed.

(** The input and output of a turn, and whether the loop goes on. *)
Lemma turn_io_want V cfg u w rv w' :
  (if revents_io u then exec_io V cfg (turn_recv u) (turn_send u) else ret 0) w = Ok rv w' ->
  (rv =? 0) = turn_survives u /\
  t_want_io (w_thread w') = foldl wanted_after (t_want_io (w_thread w)) (turn_events u) /\
  List.filter is_poll (w_calls w') = List.filter is_poll (w_calls w).
Proof.
  unfold turn_survives, turn_events. destruct (revents_io u); [|by intros [= <- <-]].
  intros H. apply bind_ok in H as ([] & w1 & H1 & H). apply handle_all_want in H1 as [Hv Hc].
  destruct (io_rv (turn_recv u) =? 0) eqn:E; cbn [negb orb andb] in *.
  - apply bind_ok in H as ([] & w2 & H2 & [= <- <-]). apply handle_all_want in H2 as [Hv' Hc'].
    by rewrite foldl_app, Hv', Hv, Hc', Hc.
  - injection H as <- <-. by rewrite app_nil_r.
Qed.

(** C39. What the event loop polls for.  Whatever happens in a session, the loop sets
    the events of the next poll once after each turn that its session survives, as long
    as the session wants to read or write, to what the session then wants and, besides,
    what the last transfer of SSL was blocked on, a transfer that moved bytes or
    failed for good leaving no such wish. *)
Theorem loop_polls (V : list Z) (cfg : flags) (r s : bool) (us : list turn) (w w' : world) :
  event_loop V cfg r s us w = Ok tt w' ->
  List.filter is_poll (w_calls w') =
  List.filter is_poll (w_calls w) ++ polls (t_want_io (w_thread w)) r s us.
Proof.
  revert r s w. induction us as [|u us IH]; intros r s w H; simpl in H |- *.
  { destruct (r || s); injection H as <-; by rewrite app_nil_r. }
  destruct (r || s); [|injection H as <-; by rewrite app_nil_r].
  apply bind_ok in H as (rv & w1 & H1 & H). apply turn_io_want in H1 as (Hs & Hv & Hc).
  rewrite Hs in H. destruct (turn_survives u); cbn [negb andb] in *;
    [|injection H as <-; by rewrite app_nil_r].
  apply bind_ok in H as ([] & w2 & H2 & H).
  assert (Hp : same_io w1 w2).
  { destruct (nfds u =? 0); [by eapply (preserves_ping same_io)|by injection H2 as <-]. }
  destruct Hp as [Hv2 Hc2]. apply bind_ok in H as ([] & w3 & [= <-] & H).
  apply IH in H. rewrite H. cbn [w_thread w_calls]. rewrite List.filter_app. cbn.
  by rewrite <- app_assoc, Hc2, Hc, Hv2, Hv.
Qed.

Lemma loop_polls_witness :
  exists w', event_loop [] default_flags true false sample_turns (mk_world sample_thread []) =
      Ok tt w' /\
    List.filter is_poll (w_calls w') = [Set_events true true; Set_events true true].
Proof.
  eexists. split; [reflexivity|].
  exact (loop_polls [] default_flags true false sample_turns (mk_world sample_thread []) _ eq_refl).
Defined.

(** * Retries *)

(** The seconds slept before session [n + 1], for the random number [r]. *)
Definition delay (bo RAND_MAX r n : Z) : list Z :=
  if bo =? 0 then [n * (n + 1) / 2 + 1]
  else
    let s := if bo =? 1 then r / (RAND_MAX / 10 + 1) else if bo =? 2 then 0 else bo in
    if s =? 0 then [] else [s + 1].

Lemma triangle_pos n : 1 <= n -> 1 <= n * (n + 1) / 2.
Proof. intros. apply Z.div_le_lower_bound; nia. Qed.

(** The fixed delay, unless it is none or does not fit an int. *)
Lemma sleep_spec s w :
  (if s =? 0 then ret tt else let* n := int_succ s in call (Sleep n)) w =
  if s =? 0 then Ok tt w
  else if s <? 2 ^ 31 - 1 then Ok tt (logged (Sleep (s + 1)) w) else Crash Int_overflow.
Proof. destruct (s =? 0); [done|]. unfold int_succ, bind. by destruct (s <? _). Qed.

Lemma triangle_small n : (2 ^ 31 - 1 <? (n + 1) * n) = false -> 1 <= n ->
  Z.quot ((n + 1) * n) 2 = n * (n + 1) / 2 /\ (n * (n + 1) / 2 <? 2 ^ 31 - 1) = true.
Proof.
  intros H Hn. apply Z.ltb_ge in H. rewrite Z.quot_div_nonneg, (Z.mul_comm (n + 1)) by nia.
  split; [done|]. apply Z.ltb_lt. apply Z.div_lt_upper_bound; nia.
Qed.

Lemma random_small RM r max :
  0 <= r <= RM -> 1 <= max -> 0 <= Z.quot r (Z.quot RM max + 1) < max.
Proof.
  intros Hr Hm. rewrite (Z.quot_div_nonneg RM max) by lia.
  assert (0 <= RM / max) by (apply Z.div_pos; lia).
  rewrite Z.quot_div_nonneg by lia. split; [apply Z.div_pos; lia|].
  apply Z.div_lt_upper_bound; [lia|]. pose proof (Z.mul_succ_div_gt RM max). nia.
Qed.

(** The delay between two sessions.  The strategy 0 sleeps the triangular
    number of the retries and a second more, and overflows an int from the
    46341st retry on; 1 sleeps a random time of at most the given number of
    seconds, or not at all; 2 never sleeps; a larger value sleeps that long and a
    second more. *)
Theorem backoff_delay (cfg : flags) (RAND_MAX r n max : Z) (w : world) :
  0 <= r <= RAND_MAX -> 1 <= n -> 1 <= max <= 2 ^ 31 - 1 ->
  let run := retryBackoff cfg RAND_MAX r n max w in
  (backoff cfg = 0 -> run =
     if n <=? 46340 then Ok tt (logged (Sleep (n * (n + 1) / 2 + 1)) w) else Crash Int_overflow) /\
  (backoff cfg = 1 -> run = Ok tt w \/
     exists k, 2 <= k <= max /\ run = Ok tt (logged (Sleep k) w)) /\
  (backoff cfg = 2 -> run = Ok tt w) /\
  (2 < backoff cfg < 2 ^ 31 - 1 -> run = Ok tt (logged (Sleep (backoff cfg + 1)) w)).
Proof.
  intros Hr Hn Hm run. subst run. unfold retryBackoff. split_and!; intros Hb.
  - rewrite Hb. cbn [Z.eqb]. destruct (2 ^ 31 - 1 <? (n + 1) * n) eqn:E.
    + apply Z.ltb_lt in E. by rewrite (proj2 (Z.leb_gt n 46340)) by nia.
    + pose proof (triangle_small n E Hn) as [Hq Hs]. pose proof (triangle_pos n Hn).
      apply Z.ltb_ge in E. rewrite (proj2 (Z.leb_le n 46340)) by nia.
      rewrite bind_ret, sleep_spec, Hq, Hs. by rewrite (proj2 (Z.eqb_neq _ 0)) by lia.
  - rewrite Hb. change (1 =? 0) with false. change (1 =? 1) with true. cbn iota.
    pose proof (random_small RAND_MAX r max Hr) as Hk. set (k := Z.quot r _) in *.
    rewrite bind_ret, sleep_spec. destruct (Z.eqb_spec k 0); [by left|]. right. exists (k + 1).
    rewrite (proj2 (Z.ltb_lt k _)) by lia. split; [lia|done].
  - by rewrite Hb.
  - rewrite (proj2 (Z.eqb_neq (backoff cfg) 0)), (proj2 (Z.eqb_neq (backoff cfg) 1)),
      (proj2 (Z.eqb_neq (backoff cfg) 2)) by lia.
    rewrite bind_ret, sleep_spec, (proj2 (Z.eqb_neq (backoff cfg) 0)) by lia.
    by rewrite (proj2 (Z.ltb_lt (backoff cfg) _)) by lia.
Qed.

Lemma backoff_delay_witness :
  let cfg := mk_flags false false false false false false 0 false false false in
  retryBackoff cfg 100 7 4 10 (mk_world sample_thread []) =
  Ok tt (mk_world sample_thread [Sleep 11]).
Proof.
  exact (proj1 (backoff_delay (mk_flags false false false false false false 0 false false false)
    100 7 4 10 (mk_world sample_thread []) ltac:(lia) ltac:(lia) ltac:(lia)) eq_refl).
Defined.

(** No sleep, and the same number of retries. *)
Definition awake (w w' : world) : Prop :=
  t_retries (w_thread w') = t_retries (w_thread w) /\
  List.filter is_sleep (w_calls w') = List.filter is_sleep (w_calls w).

#[export] Instance awake_framing : FramingIO awake.
Proof.
  assert (Hc : forall c w, is_sleep c = false -> awake w (logged c w)).
  { intros c w Hs. split; [done|]. cbn. rewrite List.filter_app. cbn. by rewrite Hs, app_nil_r. }
  constructor; [|done|intros; by apply Hc].
  constructor; try done; [constructor; [done|intros ??? [] []; split; congruence]|].
  intros c w _ Hs. by apply Hc.
Qed.

Lemma session_awake V cfg s : preserves awake (initSpdySession V cfg s).
Proof.
  unfold initSpdySession. apply preserves_bind; [auto with framing..|]. intros t.
  apply preserves_bind; [auto with framing..|]. intros req.
  apply preserves_bind; [auto with framing| |].
  { apply (preserves_set awake 0 (fun _ => req)). }
  intros []. apply preserves_if; [auto with framing..|].
  repeat (apply preserves_bind; [| intros []]);
    auto using preserves_want_io, preserves_ctl_poll, preserves_event_loop with framing typeclass_instances.
Qed.

(** What retryBackoff does from the first retry on. *)
Lemma retry_delay cfg RM r n w w' :
  1 <= n -> 0 <= r <= RM -> retryBackoff cfg RM r n 10 w = Ok tt w' ->
  w' = mk_world (w_thread w) (w_calls w ++ map Sleep (delay (backoff cfg) RM r n)).
Proof.
  intros Hn Hr. unfold retryBackoff, delay.
  assert (H10 : 0 <= RM / 10) by (apply Z.div_pos; lia).
  rewrite (Z.quot_div_nonneg RM 10), (Z.quot_div_nonneg r (RM / 10 + 1)) by lia.
  assert (Hs : forall s, (if s =? 0 then ret tt else let* n := int_succ s in call (Sleep n)) w =
    Ok tt w' -> w' = mk_world (w_thread w)
      (w_calls w ++ map Sleep (if s =? 0 then [] else [s + 1]))).
  { intros s. rewrite sleep_spec. destruct (s =? 0); [intros [= <-]; rewrite app_nil_r; by destruct w|].
    by destruct (s <? _); [intros [= <-]|]. }
  destruct (backoff cfg =? 0).
  - destruct (_ <? _) eqn:E; [done|]. apply triangle_small in E as [Hq _]; [|done].
    rewrite bind_ret, Hq. intros H. apply Hs in H. pose proof (triangle_pos n Hn).
    by rewrite (proj2 (Z.eqb_neq _ 0)) in H by lia.
  - destruct (backoff cfg =? 1); [|destruct (backoff cfg =? 2)];
      intros H; rewrite bind_ret in H; by apply Hs in H.
Qed.

(** The delays between the sessions of a client that has retried [n] times. *)
Fixpoint delays (bo RM n : Z) (sessions : list (session * Z)) : list Z :=
  match sessions with
  | [] => []
  | (_, r) :: sessions' => delay bo RM r (n + 1) ++ delays bo RM (n + 1) sessions'
  end.

(** C40. The sessions of a client.  Without a retry strategy the client runs one
    session and ends.  With one, every session that ends, for whatever reason
    short of a crash, is followed by a new one: the retries count the sessions,
    and the client sleeps only between them, the delay of the strategy for the
    number of the retry. *)
Theorem client_retries (V : list Z) (cfg : flags) (RM : Z) (sessions : list (session * Z))
    (w w' : world) :
  0 <= t_retries (w_thread w) -> Forall (fun p => 0 <= snd p <= RM) sessions ->
  createSpdyClient V cfg RM sessions w = Ok tt w' ->
  let n := Z.of_nat (length sessions) in
  if 0 <=? backoff cfg then
    t_retries (w_thread w') = t_retries (w_thread w) + n /\
    List.filter is_sleep (w_calls w') = List.filter is_sleep (w_calls w) ++
      map Sleep (delays (backoff cfg) RM (t_retries (w_thread w)) sessions)
  else
    t_retries (w_thread w') = t_retries (w_thread w) + Z.min n 1 /\
    List.filter is_sleep (w_calls w') = List.filter is_sleep (w_calls w).
Proof.
  revert w. induction sessions as [|[s r] sessions IH]; intros w Hn Hf H n; subst n; simpl in H.
  { injection H as <-. cbn [delays map length]. rewrite app_nil_r.
    destruct (_ <=? _); (split; [lia|done]). }
  apply Forall_cons in Hf as [Hr Hf].
  apply bind_ok in H as ([] & w1 & H1 & H). apply session_awake in H1 as [Ht Hc].
  rewrite bind_get in H. apply bind_ok in H as (m & w2 & H2 & H).
  apply int_succ_ok in H2 as [-> ->]. rewrite bind_modify, Ht in H.
  destruct (0 <=? backoff cfg) eqn:Hb; [|injection H as <-; cbn [w_thread set_retries t_retries]].
  - apply bind_ok in H as ([] & w3 & H3 & H). apply retry_delay in H3 as ->; [|lia|done].
    apply IH in H; [|cbn; lia|done]. cbn [w_thread w_calls set_retries t_retries] in H.
    destruct H as [-> ->]. split; [simpl length; lia|]. rewrite List.filter_app, Hc. cbn [delays].
    rewrite map_app, app_assoc. f_equal. f_equal. unfold delay. by repeat case_match.
  - split; [simpl length; lia|done].
Qed.

Lemma client_retries_witness :
  let cfg := mk_flags false false false false false false 0 false false false in
  let dead := (mk_session (-1) true false [], 5) in
  exists w', createSpdyClient [] cfg 100 [dead; dead; dead] (mk_world sample_thread []) = Ok tt w' /\
    t_retries (w_thread w') = 3 /\ List.filter is_sleep (w_calls w') = [Sleep 2; Sleep 4; Sleep 7].
Proof.
  eexists. split; [reflexivity|].
  exact (client_retries [] (mk_flags false false false false false false 0 false false false) 100
    [(mk_session (-1) true false [], 5); (mk_session (-1) true false [], 5);
     (mk_session (-1) true false [], 5)] (mk_world sample_thread []) _
    ltac:(done) ltac:(repeat constructor; done) eq_refl).
Defined.
