(* ===== verification/SpdyMain.v ===== *)
(** client/spdycli.c, main: the command line, and the threads it starts.

    [opts] is the sequence of option characters getopt returns for the option
    string, each with its optarg; [clock i] is the time of gettimeofday (seconds
    and microseconds) when thread [i] is set up. *)
From S2P Require Import Prelude Libc SpdyUri SpdyClient SpdyProps.

(** * Options *)

Definition with_localhost v f :=
  mk_flags v (unitmode f) (registermode f) (listenmode f) (fullmode f)
    (refreshmode f) (backoff f) (sequentialId f) (unauthorizedlisten f) (verbose f).
Definition with_unitmode v f :=
  mk_flags (localhost f) v (registermode f) (listenmode f) (fullmode f)
    (refreshmode f) (backoff f) (sequentialId f) (unauthorizedlisten f) (verbose f).
Definition with_registermode v f :=
  mk_flags (localhost f) (unitmode f) v (listenmode f) (fullmode f)
    (refreshmode f) (backoff f) (sequentialId f) (unauthorizedlisten f) (verbose f).
Definition with_listenmode v f :=
  mk_flags (localhost f) (unitmode f) (registermode f) v (fullmode f)
    (refreshmode f) (backoff f) (sequentialId f) (unauthorizedlisten f) (verbose f).
Definition with_fullmode v f :=
  mk_flags (localhost f) (unitmode f) (registermode f) (listenmode f) v
    (refreshmode f) (backoff f) (sequentialId f) (unauthorizedlisten f) (verbose f).
Definition with_refreshmode v f :=
  mk_flags (localhost f) (unitmode f) (registermode f) (listenmode f) (fullmode f)
    v (backoff f) (sequentialId f) (unauthorizedlisten f) (verbose f).
Definition with_backoff v f :=
  mk_flags (localhost f) (unitmode f) (registermode f) (listenmode f) (fullmode f)
    (refreshmode f) v (sequentialId f) (unauthorizedlisten f) (verbose f).
Definition with_sequentialId v f :=
  mk_flags (localhost f) (unitmode f) (registermode f) (listenmode f) (fullmode f)
    (refreshmode f) (backoff f) v (unauthorizedlisten f) (verbose f).
Definition with_unauthorizedlisten v f :=
  mk_flags (localhost f) (unitmode f) (registermode f) (listenmode f) (fullmode f)
    (refreshmode f) (backoff f) (sequentialId f) v (verbose f).
Definition with_verbose v f :=
  mk_flags (localhost f) (unitmode f) (registermode f) (listenmode f) (fullmode f)
    (refreshmode f) (backoff f) (sequentialId f) (unauthorizedlisten f) v.

(** The variables the options set; [apiurl] has no initial value. *)
Record options := mk_options {
  globals : flags;
  numclients : Z;
  apiurl : option (list Z)
}.

Definition default_options : options := mk_options default_flags 1 None.

Definition set_globals (f : flags -> flags) (o : options) : options :=
  mk_options (f (globals o)) (numclients o) (apiurl o).
Definition set_apiurl (s : list Z) (o : options) : options :=
  mk_options (globals o) (numclients o) (Some s).
Definition set_numclients (n : Z) (o : options) : options :=
  mk_options (globals o) n (apiurl o).

(** atoi: white space, a sign, digits; what does not fit an int is undefined. *)
Definition atoi (s : list Z) : crash + Z :=
  let n := match skip_space s with
           | [] => 0
           | c :: s' =>
               if c =? chr "-" then - decimal 0 (digits_of s')
               else if c =? chr "+" then decimal 0 (digits_of s')
               else decimal 0 (digits_of (c :: s'))
           end in
  if (- 2 ^ 31 <=? n) && (n <? 2 ^ 31) then inr n else inl Int_overflow.

(** The switch of the getopt loop. *)
Definition main_option (o : options) (c : Z) (optarg : list Z) : crash + options :=
  if c =? chr "v" then inr (set_globals (with_verbose true) o)
  else if c =? chr "l" then inr (set_globals (with_localhost true) o)
  else if c =? chr "n" then
    match atoi optarg with inr n => inr (set_numclients n o) | inl e => inl e end
  else if c =? chr "r" then
    inr (set_apiurl (str "/client/v2/register") (set_globals (with_registermode true) o))
  else if c =? chr "p" then
    inr (set_apiurl (str "/client/v1/puid-0") (set_globals (with_listenmode true) o))
  else if c =? chr "m" then inr (set_apiurl (str "/profile") o)
  else if c =? chr "f" then
    inr (set_apiurl (str "/client/v2/register") (set_globals (with_fullmode true) o))
  else if c =? chr "s" then
    inr (set_apiurl (str "/client/v1/refresh") (set_globals (with_refreshmode true) o))
  else if c =? chr "u" then
    inr (set_globals (fun f => with_localhost true (with_unitmode true f)) o)
  else if c =? chr "a" then inr (set_globals (with_unauthorizedlisten true) o)
  else if c =? chr "b" then
    match atoi optarg with inr n => inr (set_globals (with_backoff n) o) | inl e => inl e end
  else if c =? chr "i" then inr (set_globals (with_sequentialId true) o)
  else inl Aborted.

Fixpoint main_options (o : options) (opts : list (Z * list Z)) : crash + options :=
  match opts with
  | [] => inr o
  | (c, arg) :: opts' =>
      match main_option o c arg with inr o' => main_options o' opts' | inl e => inl e end
  end.

(** * Threads *)

Definition ele_url : list Z := str "https://elephant-cte1:9443".
Definition local_url : list Z := str "https://localhost.colorcloud.com:9443".

Definition main_url (f : flags) (api : list Z) : list Z :=
  (if localhost f then local_url else ele_url) ++ api.

(** %d-%d-%ld-%ld *)
Definition listen_id (i pid sec usec : Z) : list Z :=
  int_text i ++ [chr "-"] ++ int_text pid ++ [chr "-"] ++ int_text sec ++ [chr "-"] ++ int_text usec.

(** The struct ThreadUri of thread [i].  The client id is used as the format of
    the push id: it has no percent sign. *)
Definition new_thread (f : flags) (url : list Z) (pid sec usec i : Z) : ThreadUri :=
  let id := listen_id i pid sec usec in
  let t := mk_thread 0 0 IO_NONE (mk_Request [] 0 [] [] 0 false) 0 (snd (parse_uri url)) url
             [] [] [] in
  let t := if listenmode f then set_pushId id (set_clientId id t) else t in
  if refreshmode f then set_clientId (str "refresh-test-client-1") t else t.

(** The threads started.  The url is printed before argc is tested. *)
Definition main (argc : Z) (opts : list (Z * list Z)) (pid : Z) (clock : Z -> Z * Z) :
    crash + list ThreadUri :=
  match main_options default_options opts with
  | inl e => inl e
  | inr o =>
      match apiurl o with
      | None => inl Uninitialised
      | Some api =>
          if argc <? 2 then inl Exit_process
          else if 256 <=? zlen (main_url (globals o) api) then inl Overflow
          else if numclients o <? 0 then inl Null_pointer
          else inr (map (fun i => new_thread (globals o) (main_url (globals o) api) pid
                                    (fst (clock i)) (snd (clock i)) i)
                        (seqZ 0 (numclients o)))
      end
  end.

(** * What the options leave *)

(** The endpoints, and the modes that go with two of them. *)
Record options_ok (o : options) : Prop := mk_options_ok {
  ok_clients : - 2 ^ 31 <= numclients o < 2 ^ 31;
  ok_apiurl : forall api, apiurl o = Some api ->
    api = str "/client/v2/register" \/ api = str "/profile" \/
    (api = str "/client/v1/puid-0" /\ listenmode (globals o) = true) \/
    (api = str "/client/v1/refresh" /\ refreshmode (globals o) = true)
}.

Lemma atoi_range s n : atoi s = inr n -> - 2 ^ 31 <= n < 2 ^ 31.
Proof.
  unfold atoi. cbn zeta. destruct (_ && _) eqn:H; [|done]. intros [= <-].
  apply andb_true_iff in H as [H1 H2]. apply Z.leb_le in H1. by apply Z.ltb_lt in H2.
Qed.

(** A change of the flags that clears no mode. *)
Lemma options_ok_globals g o :
  options_ok o ->
  (listenmode (globals o) = true -> listenmode (g (globals o)) = true) ->
  (refreshmode (globals o) = true -> refreshmode (g (globals o)) = true) ->
  options_ok (set_globals g o).
Proof.
  intros [Hn Ha] Hl Hr. constructor; [done|]. intros api H. cbn in *.
  destruct (Ha api H) as [?|[?|[[? ?]|[? ?]]]]; auto 10.
Qed.

Lemma main_option_ok o c arg o' :
  options_ok o -> main_option o c arg = inr o' -> options_ok o'.
Proof.
  intros Ho. pose proof Ho as [Hn Ha]. unfold main_option.
  repeat match goal with
  | |- context [if ?b then _ else _] => destruct b
  | |- context [atoi ?s] => destruct (atoi s) eqn:?
  end; intros [= <-]; try (by apply options_ok_globals);
    constructor; cbn in *; eauto using atoi_range;
    try (intros ? [= <-]; auto 10).
Qed.

Lemma main_options_ok opts o o' :
  options_ok o -> main_options o opts = inr o' -> options_ok o'.
Proof.
  revert o. induction opts as [|[c arg] opts IH]; intros o Ho H; simpl in H; [by injection H as <-|].
  destruct (main_option o c arg) as [|o1] eqn:H1; [done|]. eauto using main_option_ok.
Qed.

Lemma default_options_ok : options_ok default_options.
Proof. constructor; [cbn; lia|done]. Qed.

(** The parts of a successful run of main. *)
Lemma main_threads argc opts pid clock ts :
  main argc opts pid clock = inr ts ->
  exists o api, options_ok o /\ main_options default_options opts = inr o /\
    apiurl o = Some api /\ 0 <= numclients o /\
    ts = map (fun i => new_thread (globals o) (main_url (globals o) api) pid
                         (fst (clock i)) (snd (clock i)) i) (seqZ 0 (numclients o)).
Proof.
  unfold main. destruct (main_options _ _) as [|o] eqn:Ho; [done|].
  destruct (apiurl o) as [api|] eqn:Ha; [|done]. destruct (argc <? 2); [done|].
  destruct (256 <=? _); [done|]. destruct (Z.ltb_spec (numclients o) 0); [done|]. intros [= <-].
  exists o, api. eauto 10 using main_options_ok, default_options_ok.
Qed.

(** * Numbers in text *)

Lemma listen_id_length i pid sec usec : 3 <= zlen (listen_id i pid sec usec) <= 87.
Proof.
  unfold listen_id. rewrite !zlen_app. change (zlen [chr "-"]) with 1.
  pose proof (int_text_length i). pose proof (int_text_length pid).
  pose proof (int_text_length sec). pose proof (int_text_length usec).
  pose proof (zlen_nonneg (int_text i)). pose proof (zlen_nonneg (int_text pid)).
  pose proof (zlen_nonneg (int_text sec)). pose proof (zlen_nonneg (int_text usec)). lia.
Qed.

(** Digits up to the first dash. *)
Lemma dash_split a b r s :
  forallb dec_digit a = true -> forallb dec_digit b = true ->
  a ++ chr "-" :: r = b ++ chr "-" :: s -> a = b.
Proof.
  revert b. induction a as [|c a IH]; intros [|d b] Ha Hb H; simpl in *; [done|..].
  - injection H as <- _. done.
  - injection H as -> _. done.
  - injection H as -> H. apply andb_true_iff in Ha as [_ Ha], Hb as [_ Hb]. f_equal. eauto.
Qed.

Lemma listen_id_inj i j p p' s s' u u' :
  0 <= i < 10 ^ 20 -> 0 <= j < 10 ^ 20 -> listen_id i p s u = listen_id j p' s' u' -> i = j.
Proof.
  assert (Hn : forall n, 0 <= n -> int_text n = digits_text 20 n).
  { intros n Hn. unfold int_text. by rewrite (proj2 (Z.ltb_ge n 0)). }
  intros Hi Hj H. unfold listen_id in H. rewrite (Hn i), (Hn j) in H by lia.
  destruct (digits_text_decimal 20 i Hi) as [Ei Di], (digits_text_decimal 20 j Hj) as [Ej Dj].
  apply dash_split in H; [congruence|done..].
Qed.

(** * The first request *)

Section Startup.
Context (V : list Z).

(** The request of a thread for the endpoint [api]. *)
Definition main_request (f : flags) (api : list Z) : Request :=
  if localhost f
  then mk_Request (str "localhost.colorcloud.com") 9443 api (str "localhost.colorcloud.com:9443")
         (-1) false
  else mk_Request (str "elephant-cte1") 9443 api (str "elephant-cte1:9443") (-1) false.

Lemma main_request_init f api :
  api = str "/client/v2/register" \/ api = str "/profile" \/
  api = str "/client/v1/puid-0" \/ api = str "/client/v1/refresh" ->
  request_init (main_url f api) (snd (parse_uri (main_url f api))) = Some (main_request f api).
Proof.
  unfold main_url, main_request.
  intros [-> | [-> | [-> | ->]]]; destruct (localhost f); vm_compute; reflexivity.
Qed.

(** What a thread asks first: a listener listens, with its own ids (or, when the
    refresh mode is on as well, with the client id of that mode); otherwise a
    refreshing client refreshes, and the others follow the endpoint. *)
Definition expected_request (f : flags) (api : list Z) (t : ThreadUri) : option lib_call :=
  let rq := main_request f api in
  if listenmode f then Some (listen_call V f rq (t_clientId t) (t_pushId t))
  else if refreshmode f then Some (refresh_call V rq (str "refresh-test-client-1"))
  else if bool_decide (api = str "/profile") then
    Some (Submit_request (nv_common V (str "GET") api (req_hostport rq) (str "*/*")) None)
  else None.

Lemma nonempty_text s : 1 <= zlen s -> is_empty s = false.
Proof. intros H. unfold is_empty. apply Z.eqb_neq. lia. Qed.

(** The start of a session is its first request and a poll. *)
Lemma start_session f r s t rq :
  request_init (t_url t) (t_uri t) = Some rq -> t_want_io t = IO_NONE ->
  initSpdySession V f (mk_session 1 r s []) (mk_world t []) =
  bind (first_request V f) (fun _ => ctl_poll r s) (mk_world (set_req rq t) []).
Proof.
  intros H Hw. unfold initSpdySession. rewrite bind_get. cbn [w_thread]. rewrite H. cbn [of_option].
  rewrite bind_ret, bind_modify. cbn [handshake]. change (1 <? 0) with false. cbn iota.
  rewrite bind_modify. cbn [w_thread w_calls want_read want_write turns].
  replace (set_want_io IO_NONE (set_req rq t)) with (set_req rq t)
    by (destruct t; cbn in *; by subst).
  unfold bind. destruct (first_request _ _ _) as [[] w|c]; [|done]. cbn. by destruct (r || s).
Qed.

(** The poll after a request that left SSL waiting for nothing. *)
Lemma request_poll (m : M unit) c r s t :
  m (mk_world t []) = Ok tt (logged c (mk_world t [])) -> t_want_io t = IO_NONE ->
  bind m (fun _ => ctl_poll r s) (mk_world t []) = Ok tt (mk_world t [c; Set_events r s]).
Proof.
  intros Hm Hw. unfold bind, ctl_poll. rewrite Hm. cbn. rewrite Hw. cbn. by rewrite !orb_false_r.
Qed.

Lemma start_listen f r s t rq :
  request_init (t_url t) (t_uri t) = Some rq -> t_want_io t = IO_NONE ->
  1 <= zlen (t_clientId t) <= 248 -> 1 <= zlen (t_pushId t) <= 219 ->
  initSpdySession V f (mk_session 1 r s []) (mk_world t []) =
  Ok tt (mk_world (set_req rq t) [listen_call V f rq (t_clientId t) (t_pushId t); Set_events r s]).
Proof.
  intros H Hw Hc Hp. rewrite (start_session f r s t rq H Hw). apply request_poll; [|done].
  unfold first_request. rewrite bind_get. cbn [w_thread set_req t_clientId t_pushId t_req].
  rewrite !nonempty_text by lia. cbn [negb andb]. rewrite requests_fit_listen.
  by rewrite !(proj2 (Z.leb_le _ _)) by lia.
Qed.

Lemma start_refresh f r s t rq :
  request_init (t_url t) (t_uri t) = Some rq -> t_want_io t = IO_NONE ->
  1 <= zlen (t_clientId t) <= 249 -> t_pushId t = [] ->
  initSpdySession V f (mk_session 1 r s []) (mk_world t []) =
  Ok tt (mk_world (set_req rq t) [refresh_call V rq (t_clientId t); Set_events r s]).
Proof.
  intros H Hw Hc Hp. rewrite (start_session f r s t rq H Hw). apply request_poll; [|done].
  unfold first_request. rewrite bind_get. cbn [w_thread set_req t_clientId t_pushId t_req].
  rewrite Hp, nonempty_text by lia. cbn [negb andb is_empty]. change (is_empty []) with true.
  cbn [negb]. rewrite requests_fit_refresh. by rewrite (proj2 (Z.leb_le _ _)) by lia.
Qed.

(** The first request of every thread, for every command line that starts
    any: it goes to the chosen server and is the one the mode asks for.  A client
    that is to register (options r and f, without p and s) overflows the header
    array instead.  The poll that follows waits for what the session wants. *)
Theorem main_first_request argc opts pid clock ts t o api (r s : bool) :
  main argc opts pid clock = inr ts -> t ∈ ts ->
  main_options default_options opts = inr o -> apiurl o = Some api ->
  initSpdySession V (globals o) (mk_session 1 r s []) (mk_world t []) =
  match expected_request (globals o) api t with
  | Some c => Ok tt (mk_world (set_req (main_request (globals o) api) t) [c; Set_events r s])
  | None => Crash Overflow
  end.
Proof.
  intros H Ht Ho Ha. apply main_threads in H as (o' & api' & [_ Hok] & Ho' & Ha' & _ & ->).
  assert (o' = o) as -> by congruence. assert (api' = api) as -> by congruence.
  apply list_elem_of_fmap in Ht as (i & -> & _). destruct (clock i) as [sec usec]. cbn [fst snd].
  specialize (Hok api Ha). set (f := globals o) in *.
  pose proof (listen_id_length i pid sec usec) as Hl.
  assert (Hrq : request_init (main_url f api) (snd (parse_uri (main_url f api))) =
    Some (main_request f api)) by (apply main_request_init; tauto).
  unfold expected_request, new_thread. destruct (listenmode f), (refreshmode f).
  - apply start_listen; [done|done| |cbn; lia]. by vm_compute.
  - apply start_listen; [done|done|cbn; lia..].
  - apply start_refresh; [done|done| |done]. by vm_compute.
  - rewrite (start_session f r s _ (main_request f api)) by done.
    destruct Hok as [-> | [-> | [[_ ?]|[_ ?]]]]; [| |done..]; unfold main_request;
      destruct (localhost f), r, s; vm_compute; reflexivity.
Qed.
End Startup.

(** The thread of the command line -p. *)
Definition sample_listener : ThreadUri :=
  new_thread (with_listenmode true default_flags) (ele_url ++ str "/client/v1/puid-0") 42 1000 7 0.

Lemma main_first_request_witness :
  let f := with_listenmode true default_flags in
  let rq := main_request f (str "/client/v1/puid-0") in
  initSpdySession [] f (mk_session 1 true true []) (mk_world sample_listener []) =
  Ok tt (mk_world (set_req rq sample_listener)
    [listen_call [] f rq (str "0-42-1000-7") (str "0-42-1000-7"); Set_events true true]).
Proof.
  refine (eq_trans (main_first_request [] 2 [(chr "p", [])] 42 (fun _ => (1000, 7))
    [sample_listener] sample_listener
    (mk_options (with_listenmode true default_flags) 1 (Some (str "/client/v1/puid-0")))
    (str "/client/v1/puid-0") true true eq_refl _ eq_refl eq_refl) _);
    [constructor|reflexivity].
Defined.

(** * Identities *)

(** The listening threads of a process have pairwise different client ids,
    whatever the clock says, and each listens on the push id equal to its client
    id (unless the refresh mode replaces the client id). *)
Theorem listen_ids_unique argc opts pid clock ts o :
  main argc opts pid clock = inr ts -> main_options default_options opts = inr o ->
  listenmode (globals o) = true ->
  NoDup (map t_pushId ts) /\ Z.of_nat (length ts) = numclients o /\
  (refreshmode (globals o) = false -> map t_clientId ts = map t_pushId ts).
Proof.
  intros H Ho Hl. apply main_threads in H as (o' & api & [Hn _] & Ho' & _ & Hpos & ->).
  assert (o' = o) as -> by congruence. rewrite !map_map, length_map, length_seqZ.
  split; [|split; [lia|]].
  - assert (Hid : forall i, t_pushId (new_thread (globals o) (main_url (globals o) api) pid
      (fst (clock i)) (snd (clock i)) i) = listen_id i pid (fst (clock i)) (snd (clock i))).
    { intros i. unfold new_thread. rewrite Hl. by destruct (refreshmode _). }
    rewrite (map_ext _ _ Hid). apply NoDup_fmap_2_strong; [|apply NoDup_seqZ].
    intros i j Hi Hj. apply elem_of_seqZ in Hi, Hj. apply listen_id_inj; lia.
  - intros Hr. apply map_ext. intros i. unfold new_thread. by rewrite Hl, Hr.
Qed.

Lemma listen_ids_unique_witness :
  exists ts, main 4 [(chr "n", str "3"); (chr "p", [])] 42 (fun _ => (1000, 7)) = inr ts /\
    NoDup (map t_pushId ts) /\ map t_clientId ts = map t_pushId ts.
Proof.
  eexists. split; [reflexivity|].
  destruct (listen_ids_unique 4 [(chr "n", str "3"); (chr "p", [])] 42 (fun _ => (1000, 7)) _
    (mk_options (with_listenmode true default_flags) 3 (Some (str "/client/v1/puid-0")))
    eq_refl eq_refl eq_refl) as (H1 & _ & H2).
  exact (conj H1 (H2 eq_refl)).
Defined.
