(* ===== verification/Records.v ===== *)
(** Updates of the objects of the C++ programs: [r <| f := v |>] is the record
    [r] with [v] in its field [f].  A record joins by an instance of [Settable],
    its eta expansion, from which the update of every field is derived. *)
From S2P Require Import Prelude.

Class Settable (R : Type) := eta_of : R -> R.

Class Setter {R T : Type} (proj : R -> T) := set_field : (T -> T) -> R -> R.
#[global] Arguments set_field {R T} proj {Setter} f r.

(** The eta expansion of the record with the field [proj] abstracted. *)
Ltac solve_setter :=
  lazymatch goal with
  | |- @Setter ?R ?T ?proj =>
      let inst := constr:(_ : Settable R) in
      let e := eval red in inst in
      lazymatch eval pattern proj in e with
      | ?f _ => let u := eval cbv beta in (fun upd : T -> T => f (fun r => upd (proj r))) in exact u
      end
  end.

#[export] Hint Extern 1 (Setter _) => solve_setter : typeclass_instances.

Notation "r <| f := v |>" := (set_field f (fun _ => v) r)
  (at level 1, f at level 9, v at level 99, left associativity, format "r <| f  :=  v |>").
