(* ===== verification/CppUtil.v ===== *)
(** String helpers of the C++ programs: util.cc and util.h of src/.

    A [std::string] is the list of its bytes and may hold NUL bytes.  A
    [const char*] is an [option]: [None] is the null pointer and [Some m] points
    at the bytes [m], which a NUL byte follows; what the functions read is the
    bytes up to the first NUL, [c_str m].  An iterator range is the list of
    bytes between its two ends.  [char] is signed where the code was built, but
    every comparison below is with a range of ASCII letters or digits, which the
    bytes above 127 are outside of in both readings. *)
From S2P Require Import Prelude Libc.

Module Util.

(** * Character classes *)

Definition isAlpha (c : Z) : bool :=
  ((chr "A" <=? c) && (c <=? chr "Z")) || ((chr "a" <=? c) && (c <=? chr "z")).

Definition isDigit (c : Z) : bool := (chr "0" <=? c) && (c <=? chr "9").

Definition isHexDigit (c : Z) : bool :=
  isDigit c || ((chr "A" <=? c) && (c <=? chr "F")) || ((chr "a" <=? c) && (c <=? chr "f")).

Definition inRFC3986UnreservedChars (c : Z) : bool :=
  isAlpha c || isDigit c || existsb (Z.eqb c) (str "-._~").

Definition lowcase (c : Z) : Z :=
  if (chr "A" <=? c) && (c <=? chr "Z") then c + (chr "a" - chr "A") else c.

(** CaseCmp of util.h: the comparison the iterator version of istartsWith uses. *)
Definition CaseCmp (lhs rhs : Z) : bool :=
  let lhs := if (chr "A" <=? lhs) && (lhs <=? chr "Z") then lhs + (chr "a" - chr "A") else lhs in
  let rhs := if (chr "A" <=? rhs) && (rhs <=? chr "Z") then rhs + (chr "a" - chr "A") else rhs in
  lhs =? rhs.

(** * Percent encoding *)

(** snprintf of "%%%02X" for an unsigned char. *)
Definition percent_hex (c : Z) : list Z := [chr "%"; hex_upper (c / 16); hex_upper (c mod 16)].

Fixpoint percentEncode (target : list Z) : list Z :=
  match target with
  | [] => []
  | c :: rest =>
      (if inRFC3986UnreservedChars c then [c] else percent_hex c) ++ percentEncode rest
  end.

(** The value strtol gives a hexadecimal digit. *)
Definition hex_value (c : Z) : Z :=
  if isDigit c then c - chr "0" else lowcase c - chr "a" + 10.

(** The result of strtol on two hexadecimal digits, stored in a char. *)
Definition strtol16 (h l : Z) : Z := u8 (hex_value h * 16 + hex_value l).

Fixpoint percentDecode (s : list Z) : list Z :=
  match s with
  | [] => []
  | c :: rest =>
      if c =? chr "%" then
        match rest with
        | h :: l :: rest' =>
            if isHexDigit h && isHexDigit l then strtol16 h l :: percentDecode rest'
            else c :: percentDecode rest
        | _ => c :: percentDecode rest
        end
      else c :: percentDecode rest
  end.

(** * Comparison of C strings *)

(** The bytes a [const char*] denotes: up to the first NUL. *)
Fixpoint c_str (m : list Z) : list Z :=
  match m with
  | [] => []
  | c :: m' => if c =? 0 then [] else c :: c_str m'
  end.

(** *p; the byte after the last one is the terminating NUL. *)
Definition deref (p : list Z) : Z := hd 0 p.
#[global] Arguments deref : simpl never.

Fixpoint streq_advance (a b : list Z) : list Z * list Z :=
  match a, b with
  | ca :: a', cb :: b' =>
      if negb (ca =? 0) && negb (cb =? 0) && (lowcase ca =? lowcase cb)
      then streq_advance a' b' else (a, b)
  | _, _ => (a, b)
  end.

Definition istartsWith_c (a b : option (list Z)) : bool :=
  match a, b with
  | Some a, Some b => let '(_, b) := streq_advance a b in deref b =? 0
  | _, _ => false
  end.

(** strieq writes the loop of streq_advance out. *)
Definition strieq (a b : option (list Z)) : bool :=
  match a, b with
  | Some a, Some b =>
      let '(a, b) := streq_advance a b in (deref a =? 0) && (deref b =? 0)
  | _, _ => false
  end.

(** The outer loop of strifind; its inner loop is that of streq_advance. *)
Fixpoint strifind_loop (a b : list Z) : bool :=
  match a with
  | [] => false
  | c :: a' =>
      if c =? 0 then false else
      let '(_, bp) := streq_advance a b in
      if deref bp =? 0 then true else strifind_loop a' b
  end.

Definition strifind (a b : option (list Z)) : bool :=
  match a, b with
  | Some a, Some b => strifind_loop a b
  | _, _ => false
  end.

(** * Comparison of iterator ranges *)

(** std::equal of the range [b] with the one that starts where [a] does, which
    is at least as long. *)
Fixpoint std_equal (cmp : Z -> Z -> bool) (b a : list Z) : bool :=
  match b, a with
  | [], _ => true
  | cb :: b', ca :: a' => cmp cb ca && std_equal cmp b' a'
  | _ :: _, [] => false
  end.

Definition startsWith (a b : list Z) : bool :=
  if zlen a <? zlen b then false else std_equal Z.eqb b a.

Definition istartsWith (a b : list Z) : bool :=
  if zlen a <? zlen b then false else std_equal CaseCmp b a.

Definition endsWith (a b : list Z) : bool :=
  if zlen a <? zlen b then false
  else std_equal Z.eqb b (drop (length a - length b)%nat a).

(** * Splitting and joining *)

Definition DEFAULT_STRIP_CHARSET : list Z := [13; 10; 9; 32].

Definition in_charset (chars : list Z) (c : Z) : bool := existsb (Z.eqb c) chars.

(** The first loop of stripIter: from the left. *)
Fixpoint strip_left (chars s : list Z) : list Z :=
  match s with
  | [] => []
  | c :: s' => if in_charset chars c then strip_left chars s' else s
  end.

(** The second loop: from the right, on a reversed range, never past the first
    element. *)
Fixpoint strip_right (chars rs : list Z) : list Z :=
  match rs with
  | [] => []
  | [c] => [c]
  | c :: rs' => if in_charset chars c then strip_right chars rs' else rs
  end.

Definition stripIter (chars s : list Z) : list Z :=
  let s := strip_left chars s in
  match s with [] => [] | _ => rev (strip_right chars (rev s)) end.

(** std::find: the distance to the first [c], or to the end. *)
Fixpoint std_find (s : list Z) (c : Z) : nat :=
  match s with
  | [] => O
  | x :: s' => if x =? c then O else S (std_find s' c)
  end.

(** The loop of split, one unit of fuel per byte. *)
Fixpoint split_loop (fuel : nat) (delim : Z) (doStrip allowEmpty : bool) (i : list Z)
    : list (list Z) :=
  match fuel, i with
  | S fuel, _ :: _ =>
      let j := std_find i delim in
      let p := take j i in
      let p := if doStrip then stripIter DEFAULT_STRIP_CHARSET p else p in
      let rest := split_loop fuel delim doStrip allowEmpty (drop (S j) i) in
      if allowEmpty || negb (bool_decide (p = [])) then p :: rest else rest
  | _, _ => []
  end.

Definition split (s : list Z) (delim : Z) (doStrip allowEmpty : bool) : list (list Z) :=
  split_loop (length s) delim doStrip allowEmpty s ++
  (if allowEmpty && (bool_decide (s = []) || (List.last s 0 =? delim)) then [[]] else []).

Fixpoint strjoin (l : list (list Z)) (delim : list Z) : list Z :=
  match l with
  | [] => []
  | [x] => x
  | x :: l' => x ++ delim ++ strjoin l' delim
  end.

(** The loop of joinPath; [elements] is the vector, its last element first. *)
Fixpoint joinPath_loop (l elements : list (list Z)) : list (list Z) :=
  match l with
  | [] => rev elements
  | x :: l' =>
      if bool_decide (x = str "..") then joinPath_loop l' (tl elements)
      else if bool_decide (x = str ".") then joinPath_loop l' elements
      else joinPath_loop l' (x :: elements)
  end.

Definition joinPath (l : list (list Z)) : list Z := strjoin (joinPath_loop l []) (str "/").

(** * What a character class says about a byte *)

Lemma isHexDigit_hex_upper d : 0 <= d < 16 -> isHexDigit (hex_upper d) = true.
Proof.
  intros. unfold isHexDigit, isDigit, hex_upper. destruct (Z.ltb_spec d 10).
  - apply orb_true_iff. left. apply orb_true_iff. left.
    apply andb_true_iff. split; apply Z.leb_le; lia.
  - apply orb_true_iff. left. apply orb_true_iff. right.
    apply andb_true_iff. split; apply Z.leb_le; lia.
Qed.

Lemma hex_value_upper d : 0 <= d < 16 -> hex_value (hex_upper d) = d.
Proof.
  intros. assert (Hc : In d [0;1;2;3;4;5;6;7;8;9;10;11;12;13;14;15]) by (simpl; lia).
  simpl in Hc. decompose [or] Hc; subst; try reflexivity; done.
Qed.

Lemma hex_digits_roundtrip c : is_byte c -> strtol16 (hex_upper (c / 16)) (hex_upper (c mod 16)) = c.
Proof.
  intros [Hlo Hhi]. unfold strtol16.
  pose proof (Z.mod_pos_bound c 16 ltac:(lia)).
  pose proof (Z.div_mod c 16 ltac:(lia)).
  rewrite !hex_value_upper by lia. rewrite u8_small by lia. lia.
Qed.

Lemma unreserved_not_percent c : inRFC3986UnreservedChars c = true -> (c =? chr "%") = false.
Proof. intros H. apply Z.eqb_neq. intros ->. discriminate. Qed.

(** Percent decoding reads one encoded byte back. *)
Lemma percentDecode_hex c s :
  is_byte c -> percentDecode (percent_hex c ++ s) = c :: percentDecode s.
Proof.
  intros Hc. pose proof Hc as [Hlo Hhi].
  pose proof (Z.mod_pos_bound c 16 ltac:(lia)).
  assert (0 <= c / 16 < 16) by (split; [apply Z.div_pos|apply Z.div_lt_upper_bound]; lia).
  unfold percent_hex. simpl app. cbn [percentDecode]. rewrite Z.eqb_refl.
  rewrite !isHexDigit_hex_upper by lia. cbn [andb].
  by rewrite hex_digits_roundtrip.
Qed.

(** percentDecode inverts percentEncode on every byte string, NUL and percent
    bytes included. *)
Theorem percent_roundtrip (s : list Z) :
  Forall is_byte s -> percentDecode (percentEncode s) = s.
Proof.
  induction 1 as [|c s Hc _ IH]; [done|].
  simpl percentEncode. destruct (inRFC3986UnreservedChars c) eqn:Hu.
  - simpl app. cbn [percentDecode]. rewrite unreserved_not_percent by done. by rewrite IH.
  - rewrite percentDecode_hex by done. by rewrite IH.
Qed.

Lemma percent_roundtrip_witness :
  percentDecode (percentEncode (str "a b%~" ++ [0; 255])) = str "a b%~" ++ [0; 255].
Proof. apply percent_roundtrip. by repeat constructor. Defined.

(** An encoded string has unreserved characters and percent signs only. *)
Lemma percentEncode_chars s :
  Forall is_byte s ->
  Forall (fun c => inRFC3986UnreservedChars c = true \/ c = chr "%") (percentEncode s).
Proof.
  assert (Hhex : forall d, 0 <= d < 16 -> inRFC3986UnreservedChars (hex_upper d) = true).
  { intros d Hd. assert (Hc : In d [0;1;2;3;4;5;6;7;8;9;10;11;12;13;14;15]) by (simpl; lia).
    simpl in Hc. decompose [or] Hc; subst; try reflexivity; done. }
  induction 1 as [|c s [Hlo Hhi] _ IH]; [constructor|].
  simpl percentEncode. apply Forall_app. split; [|done].
  destruct (inRFC3986UnreservedChars c) eqn:Hu; [by apply Forall_singleton; left|].
  pose proof (Z.mod_pos_bound c 16 ltac:(lia)).
  assert (0 <= c / 16 < 16) by (split; [apply Z.div_pos|apply Z.div_lt_upper_bound]; lia).
  unfold percent_hex. rewrite !Forall_cons, Forall_nil. split_and!; eauto.
Qed.

(** * C strings *)

Lemma c_str_nonzero m : Forall (fun c => c <> 0) (c_str m).
Proof. induction m as [|c m IH]; simpl; [done|]. destruct (Z.eqb_spec c 0); auto. Qed.

(** A string without NUL is its own C string. *)
Lemma c_str_id m : Forall (fun c => c <> 0) m -> c_str m = m.
Proof.
  induction 1 as [|c m Hc _ IH]; simpl; [done|].
  destruct (Z.eqb_spec c 0); [done|]. by rewrite IH.
Qed.

Lemma deref_c_str m : (deref m =? 0) = bool_decide (c_str m = []).
Proof.
  destruct m as [|c m]; [done|]. simpl. unfold deref. simpl.
  destruct (Z.eqb_spec c 0); [done|]. by rewrite bool_decide_eq_false_2.
Qed.

Lemma lowcase_zero c : lowcase c = 0 -> c = 0.
Proof.
  unfold lowcase. destruct (_ && _) eqn:E; [|done]. zbool. lia.
Qed.

(** What streq_advance leaves: the rests after the longest common prefix,
    case aside. *)
Lemma streq_advance_c_str a b :
  exists p q, c_str a = p ++ c_str (streq_advance a b).1 /\
    c_str b = q ++ c_str (streq_advance a b).2 /\ map lowcase p = map lowcase q.
Proof.
  revert b. induction a as [|ca a IH]; intros [|cb b];
    try by (exists [], []; destruct (c_str _)).
  cbn [streq_advance]. destruct (negb _ && negb _ && _) eqn:E.
  - zbool. destruct (IH b) as (p & q & Hp & Hq & Hpq). exists (ca :: p), (cb :: q).
    simpl. destruct (Z.eqb_spec ca 0), (Z.eqb_spec cb 0); try done.
    rewrite Hp at 1. rewrite Hq at 1. simpl. rewrite Hpq. split_and!; congruence.
  - by exists [], [].
Qed.

(** Where it stops, the strings differ or one of them is at its end. *)
Lemma streq_advance_stop a b x y u v :
  c_str (streq_advance a b).1 = x :: u -> c_str (streq_advance a b).2 = y :: v ->
  lowcase x <> lowcase y.
Proof.
  revert b. induction a as [|ca a IH]; intros [|cb b]; try done.
  cbn [streq_advance]. destruct (negb _ && negb _ && _) eqn:E; [apply IH|].
  simpl. destruct (Z.eqb_spec ca 0), (Z.eqb_spec cb 0); try done.
  intros [= <- <-] [= <- <-]. simpl in E. by zbool.
Qed.

Lemma streq_advance_prefix a b :
  c_str (streq_advance a b).2 = [] <->
  map lowcase (c_str b) `prefix_of` map lowcase (c_str a).
Proof.
  destruct (streq_advance_c_str a b) as (p & q & Ha & Hb & Hpq).
  pose proof (streq_advance_stop a b) as Hstop.
  rewrite Ha, Hb, !map_app, Hpq. clear Ha Hb. split; intros H.
  - rewrite H, app_nil_r. by eexists.
  - apply prefix_app_inv in H.
    destruct (c_str (streq_advance a b).2) as [|y v] eqn:E2; [done|].
    destruct (c_str (streq_advance a b).1) as [|x u] eqn:E1.
    + by apply prefix_nil_inv in H.
    + specialize (Hstop _ _ _ _ eq_refl eq_refl).
      destruct H as [k Hk]. simpl in Hk. congruence.
Qed.

(** istartsWith on C strings tests a prefix, case aside. *)
Theorem istartsWith_c_spec a b :
  istartsWith_c (Some a) (Some b) = true <->
  map lowcase (c_str b) `prefix_of` map lowcase (c_str a).
Proof.
  rewrite <- streq_advance_prefix. unfold istartsWith_c.
  destruct (streq_advance a b) as [a' b']. simpl.
  rewrite deref_c_str. apply bool_decide_eq_true.
Qed.

(** strieq compares the C strings, case aside. *)
Theorem strieq_spec a b :
  strieq (Some a) (Some b) = true <-> map lowcase (c_str a) = map lowcase (c_str b).
Proof.
  unfold strieq. destruct (streq_advance_c_str a b) as (p & q & Ha & Hb & Hpq).
  pose proof (streq_advance_stop a b) as Hstop.
  destruct (streq_advance a b) as [a' b']. simpl in *.
  rewrite andb_true_iff, !deref_c_str, !bool_decide_eq_true.
  rewrite Ha, Hb, !map_app, Hpq. split.
  - by intros [-> ->].
  - intros H. apply app_inv_head in H.
    destruct (c_str a') as [|x u], (c_str b') as [|y v]; try done.
    exfalso. apply (Hstop x y u v); [done..|]. simpl in H. congruence.
Qed.

(** Strings that are equal case aside compare alike. *)
Lemma strieq_congr a a' b :
  strieq (Some a) (Some a') = true -> strieq (Some a) (Some b) = strieq (Some a') (Some b).
Proof.
  rewrite strieq_spec. intros H.
  destruct (strieq (Some a) (Some b)) eqn:E1, (strieq (Some a') (Some b)) eqn:E2; try done.
  - apply strieq_spec in E1. rewrite <- E2. symmetry. apply strieq_spec. congruence.
  - apply strieq_spec in E2. rewrite <- E1. apply strieq_spec. congruence.
Qed.

(** strifind looks for an infix, case aside; in an empty string it finds
    nothing, not even the empty string. *)
Theorem strifind_spec a b :
  strifind (Some a) (Some b) = true <->
  c_str a <> [] /\
  exists p q, map lowcase (c_str a) = p ++ map lowcase (c_str b) ++ q.
Proof.
  unfold strifind. induction a as [|c a IH]; cbn [strifind_loop c_str];
    [split; [done|by intros []]|].
  destruct (Z.eqb_spec c 0); [split; [done|by intros []]|].
  pose proof (streq_advance_prefix (c :: a) b) as Hadv.
  destruct (streq_advance (c :: a) b) as [a' b']. simpl fst in *. simpl snd in *.
  rewrite deref_c_str. case_bool_decide as Hb.
  - split; [intros _|done]. split; [done|].
    destruct (proj1 Hadv Hb) as [q Hq]. exists [], q. revert Hq. simpl.
    by destruct (Z.eqb_spec c 0).
  - rewrite IH. split.
    + intros [_ (p & q & Hpq)]. split; [done|]. exists (lowcase c :: p), q. simpl. by rewrite Hpq.
    + intros [_ ([|x p] & q & Hpq)].
      * exfalso. apply Hb, Hadv. exists q. revert Hpq. simpl. by destruct (Z.eqb_spec c 0).
      * injection Hpq as _ Hpq. split; [|by eauto].
        intros Ha. rewrite Ha in Hpq. symmetry in Hpq. simpl in Hpq.
        apply app_eq_nil in Hpq as [-> [Hnil _]%app_eq_nil].
        apply Hb, Hadv. rewrite Hnil. apply prefix_nil.
Qed.

(** * Splitting *)

Lemma std_find_le s c : (std_find s c <= length s)%nat.
Proof. induction s as [|x s IH]; simpl; [done|]. destruct (x =? c); lia. Qed.

Lemma std_find_app (x r : list Z) (c : Z) : c ∉ x -> std_find (x ++ c :: r) c = length x.
Proof.
  induction x as [|y x IH]; simpl; intros Hc; [by rewrite Z.eqb_refl|].
  apply not_elem_of_cons in Hc as [Hy Hc]. destruct (Z.eqb_spec y c); [done|]. auto.
Qed.

Lemma std_find_none (x : list Z) (c : Z) : c ∉ x -> std_find x c = length x.
Proof.
  induction x as [|y x IH]; simpl; intros Hc; [done|].
  apply not_elem_of_cons in Hc as [Hy Hc]. destruct (Z.eqb_spec y c); [done|]. auto.
Qed.

(** The bytes before the first [c] do not hold it. *)
Lemma std_find_free (s : list Z) (c : Z) : c ∉ take (std_find s c) s.
Proof.
  induction s as [|x s IH]; simpl; [apply not_elem_of_nil|].
  destruct (Z.eqb_spec x c); simpl; [apply not_elem_of_nil|].
  by apply not_elem_of_cons.
Qed.

(** A string has no [c], or is cut at its first one. *)
Lemma std_find_cases (s : list Z) (c : Z) : c ∉ s \/ exists x r, s = x ++ c :: r /\ c ∉ x.
Proof.
  induction s as [|y s IH]; [left; apply not_elem_of_nil|].
  destruct (decide (y = c)) as [->|Hy].
  - right. exists [], s. split; [done|apply not_elem_of_nil].
  - destruct IH as [Hc|(x & r & -> & Hc)].
    + left. by apply not_elem_of_cons.
    + right. exists (y :: x), r. split; [done|by apply not_elem_of_cons].
Qed.

(** More fuel than bytes does not change the pieces. *)
Lemma split_loop_fuel n m d ds ae i :
  (length i <= n)%nat -> (length i <= m)%nat ->
  split_loop n d ds ae i = split_loop m d ds ae i.
Proof.
  revert m i. induction n as [|n IH]; intros [|m] [|c i] Hn Hm; try (simpl in *; lia); try done.
  cbn [split_loop]. rewrite (IH m); [done|..]; rewrite length_drop; simpl in *; lia.
Qed.

Lemma split_free (x : list Z) (d : Z) : d ∉ x -> split x d false true = [x].
Proof.
  intros Hd. unfold split. destruct x as [|c x]; [done|].
  change (length (c :: x)) with (S (length x)). cbn [split_loop].
  rewrite std_find_none, drop_ge, firstn_all by (done || simpl; lia).
  replace (split_loop (length x) d false true []) with (@nil (list Z)) by (by destruct x).
  rewrite bool_decide_eq_false_2 by done. cbn [orb andb app].
  destruct (Z.eqb_spec (List.last (c :: x) 0) d) as [Hl|]; [|done].
  exfalso. apply Hd. rewrite <- Hl. destruct (exists_last (l := c :: x)) as (l & a & ->); [done|].
  rewrite last_last. set_solver.
Qed.

(** The loop cuts the first piece off. *)
Lemma split_loop_cut (x r : list Z) (d : Z) :
  d ∉ x ->
  split_loop (length (x ++ d :: r)) d false true (x ++ d :: r) =
  x :: split_loop (length r) d false true r.
Proof.
  intros Hd.
  assert (Hlen : length (x ++ d :: r) = S (length x + length r))
    by (rewrite length_app; simpl; lia).
  rewrite Hlen. destruct (x ++ d :: r) as [|c s] eqn:E; [by destruct x|].
  cbn [split_loop]. rewrite <- E, std_find_app by done.
  rewrite take_app_length. cbn [orb]. f_equal.
  replace (drop (S (length x)) (x ++ d :: r)) with r
    by (rewrite drop_app_ge by lia; replace (S (length x) - length x)%nat with 1%nat by lia; done).
  apply split_loop_fuel; lia.
Qed.

Lemma split_cut (x r : list Z) (d : Z) :
  d ∉ x -> split (x ++ d :: r) d false true = x :: split r d false true.
Proof.
  intros Hd. unfold split. rewrite bool_decide_eq_false_2 by (by destruct x). cbn [orb].
  rewrite split_loop_cut by done. cbn [app andb]. f_equal. f_equal.
  destruct (decide (r = [])) as [->|Hr].
  - by rewrite last_last, Z.eqb_refl.
  - rewrite bool_decide_eq_false_2 by done. destruct (exists_last Hr) as (l & a & ->).
    by rewrite app_comm_cons, app_assoc, !last_last.
Qed.

Lemma split_nonempty s d : split s d false true <> [].
Proof.
  destruct (std_find_cases s d) as [Hd|(x & r & -> & Hd)];
    [by rewrite split_free|by rewrite split_cut].
Qed.

(** Splitting at a character and joining with it again gives the string. *)
Theorem strjoin_split s d : strjoin (split s d false true) [d] = s.
Proof.
  remember (length s) as n eqn:Hn. revert s Hn.
  induction n as [n IH] using lt_wf_ind. intros s ->.
  destruct (std_find_cases s d) as [Hd|(x & r & -> & Hd)]; [by rewrite split_free|].
  rewrite split_cut by done. specialize (IH (length r)). cbn [strjoin].
  pose proof (split_nonempty r d). destruct (split r d false true) as [|y l] eqn:E; [done|].
  rewrite <- E, IH; [done|rewrite length_app; simpl; lia|done].
Qed.

(** Joining pieces that do not hold the character and splitting gives them
    back. *)
Theorem split_strjoin (l : list (list Z)) (d : Z) :
  l <> [] -> Forall (fun x => d ∉ x) l -> split (strjoin l [d]) d false true = l.
Proof.
  intros Hl. induction 1 as [|x l Hx Hf IH]; [done|]. destruct l as [|y l]; [by apply split_free|].
  change (strjoin (x :: y :: l) [d]) with (x ++ d :: strjoin (y :: l) [d]).
  rewrite split_cut by done. by rewrite IH.
Qed.

(** No piece of a split holds the delimiter, and without allowEmpty none is
    empty. *)
Lemma split_loop_pieces n d i :
  Forall (fun x => (d ∉ x) /\ x <> []) (split_loop n d false false i).
Proof.
  revert i. induction n as [|n IH]; intros [|c i]; try by constructor.
  cbn [split_loop]. case_bool_decide as Hp; cbn [orb negb]; [apply IH|].
  constructor; [|apply IH]. split; [apply std_find_free|done].
Qed.

Lemma split_pieces s d : Forall (fun x => (d ∉ x) /\ x <> []) (split s d false false).
Proof. unfold split. rewrite app_nil_r. apply split_loop_pieces. Qed.

(** * Paths *)

Definition dot_free (l : list (list Z)) : Prop :=
  Forall (fun x => x <> str ".." /\ x <> str ".") l.

(** joinPath leaves no "." and no ".." in the path. *)
Lemma joinPath_loop_dot_free l acc : dot_free acc -> dot_free (joinPath_loop l acc).
Proof.
  revert acc. induction l as [|x l IH]; intros acc Hacc; cbn [joinPath_loop].
  - by apply Forall_rev.
  - case_bool_decide; [apply IH; destruct Hacc; [constructor|done]|].
    case_bool_decide; apply IH; [done|by constructor].
Qed.

(** Its elements are among those it was given. *)
Lemma joinPath_loop_elements P l acc :
  Forall P l -> Forall P acc -> Forall P (joinPath_loop l acc).
Proof.
  intros Hl. revert acc. induction Hl as [|x l Hx _ IH]; intros acc Hacc; cbn [joinPath_loop].
  - by apply Forall_rev.
  - case_bool_decide; [apply IH; destruct Hacc; [constructor|done]|].
    case_bool_decide; apply IH; auto.
Qed.

(** A path without dots is kept. *)
Lemma joinPath_loop_id l acc : dot_free l -> joinPath_loop l acc = rev acc ++ l.
Proof.
  intros Hl. revert acc. induction Hl as [|x l [H1 H2] _ IH]; intros acc; cbn [joinPath_loop].
  - by rewrite app_nil_r.
  - rewrite !bool_decide_eq_false_2 by done. rewrite IH. simpl. by rewrite <- app_assoc.
Qed.

End Util.
