(* ===== verification/CppDate.v ===== *)
(** Dates of HTTP: http_date and parse_http_date of util.cc, with the functions of
    the C library that they call: gmtime, timegm, strftime and strptime for the one
    format that is used, in the C locale. *)
From stdpp Require Import list.
From S2P Require Import Prelude Libc CppUtil.

Module Date.
Import Util.

(** * The calendar *)

(** struct tm; tm_year is the year itself and tm_mon counts from 0. *)
Record tm := mk_tm { tm_year : Z; tm_mon : Z; tm_mday : Z; tm_hour : Z; tm_min : Z; tm_sec : Z; tm_wday : Z }.

Definition leap (y : Z) : bool := (y mod 4 =? 0) && (negb (y mod 100 =? 0) || (y mod 400 =? 0)).

Definition month_lengths (y : Z) : list Z :=
  [31; if leap y then 29 else 28; 31; 30; 31; 30; 31; 31; 30; 31; 30; 31].

(** Days from the first of January 1970 to that of the year [y]: 477 of the years
    before 1970 are leap years. *)
Definition year_start (y : Z) : Z := 365 * (y - 1970) + (y - 1) / 4 - (y - 1) / 100 + (y - 1) / 400 - 477.

(** The year of a day: an estimate by the mean length of a year, and one step. *)
Definition year_of (day : Z) : Z :=
  let e := 1970 + day * 400 / 146097 in
  if day <? year_start e then e - 1 else if year_start (e + 1) <=? day then e + 1 else e.

(** The month and the day of the month, from the day of the year. *)
Fixpoint month_of (ls : list Z) (m d : Z) : Z * Z :=
  match ls with
  | l :: ls => if d <? l then (m, d + 1) else month_of ls (m + 1) (d - l)
  | [] => (m, d + 1)
  end.

Definition gmtime (t : Z) : tm :=
  let day := t / 86400 in
  let s := t mod 86400 in
  let y := year_of day in
  let '(m, d) := month_of (month_lengths y) 0 (day - year_start y) in
  mk_tm y m d (s / 3600) (s / 60 mod 60) (s mod 60) ((day + 4) mod 7).

Definition month_start (y m : Z) : Z := foldr Z.add 0 (take (Z.to_nat m) (month_lengths y)).

Definition timegm (x : tm) : Z :=
  (year_start (tm_year x) + month_start (tm_year x) (tm_mon x) + tm_mday x - 1) * 86400 +
  tm_hour x * 3600 + tm_min x * 60 + tm_sec x.

(** * Texts *)

Definition day_names : list (list Z) :=
  [str "Sunday"; str "Monday"; str "Tuesday"; str "Wednesday"; str "Thursday"; str "Friday"; str "Saturday"].
Definition month_names : list (list Z) :=
  [str "January"; str "February"; str "March"; str "April"; str "May"; str "June"; str "July"; str "August";
   str "September"; str "October"; str "November"; str "December"].

Definition short (name : list Z) : list Z := take 3 name.
Definition name_at (names : list (list Z)) (i : Z) : list Z := short (nth (Z.to_nat i) names []).
Definition two (v : Z) : list Z := [48 + v / 10; 48 + v mod 10].

(** strftime with "%a, %d %b %Y %H:%M:%S GMT" *)
Definition format_tm (x : tm) : list Z :=
  name_at day_names (tm_wday x) ++ str ", " ++ two (tm_mday x) ++ str " " ++
  name_at month_names (tm_mon x) ++ str " " ++ int_text (tm_year x) ++ str " " ++
  two (tm_hour x) ++ str ":" ++ two (tm_min x) ++ str ":" ++ two (tm_sec x) ++ str " GMT".

(** char buf[32]: a longer text is not written, and strftime returns 0. *)
Definition http_date (t : Z) : list Z :=
  let text := format_tm (gmtime t) in
  if zlen text <? 32 then text else [].

(** ** strptime *)

Definition skip_blanks (s : list Z) : list Z := strip_left [32] s.

(** Up to [n] digits of a number that is at most [hi]. *)
Fixpoint take_digits (n : nat) (hi acc : Z) (s : list Z) : Z * list Z :=
  match n, s with
  | S n, c :: s' =>
      if dec_digit c && (acc * 10 <=? hi) then take_digits n hi (acc * 10 + (c - 48)) s' else (acc, s)
  | _, _ => (acc, s)
  end.

Definition get_number (lo hi : Z) (n : nat) (s : list Z) : option (Z * list Z) :=
  match skip_blanks s with
  | c :: s' =>
      if dec_digit c then
        let '(v, s) := take_digits n hi 0 (c :: s') in
        if (lo <=? v) && (v <=? hi) then Some (v, s) else None
      else None
  | [] => None
  end.

(** The first name that the text starts with, in full or in three letters. *)
Fixpoint get_name (names : list (list Z)) (i : Z) (s : list Z) : option (Z * list Z) :=
  match names with
  | [] => None
  | name :: names =>
      if istartsWith s name then Some (i, drop (length name) s)
      else if istartsWith s (short name) then Some (i, drop 3 s)
      else get_name names (i + 1) s
  end.

(** The characters of the format that stand for themselves; a blank stands for any
    white space. *)
Definition get_text (lit s : list Z) : option (list Z) := if startsWith s lit then Some (drop (length lit) s) else None.

Definition parse_tm (s : list Z) : option tm :=
  '(wday, s) ← get_name day_names 0 s;
  s ← get_text (str ",") s;
  '(mday, s) ← get_number 1 31 2 (skip_space s);
  '(mon, s) ← get_name month_names 0 (skip_space s);
  '(year, s) ← get_number 0 9999 4 (skip_space s);
  '(hour, s) ← get_number 0 23 2 (skip_space s);
  s ← get_text (str ":") s;
  '(min, s) ← get_number 0 59 2 s;
  s ← get_text (str ":") s;
  '(sec, s) ← get_number 0 61 2 s;
  _ ← get_text (str "GMT") (skip_space s);
  Some (mk_tm year mon mday hour min sec wday).

Definition parse_http_date (s : list Z) : Z :=
  match parse_tm (c_str s) with Some x => timegm x | None => 0 end.

(** * The calendar is consistent *)

(** Quotients and remainders by constants are linear. *)
#[local] Ltac Zify.zify_post_hook ::= Z.to_euclidean_division_equations.

Lemma year_of_spec d : year_start (year_of d) <= d < year_start (year_of d + 1).
Proof.
  unfold year_of. set (e := 1970 + d * 400 / 146097). cbv zeta.
  assert (H : year_start (e - 1) <= d < year_start (e + 2)).
  { assert (He : 146097 * (e - 1970) <= d * 400 < 146097 * (e - 1969)) by (unfold e; lia).
    clearbody e. unfold year_start. lia. }
  destruct (Z.ltb_spec d (year_start e)); [by replace (e - 1 + 1) with e by lia; lia|].
  destruct (Z.leb_spec (year_start (e + 1)) d); [by replace (e + 1 + 1) with (e + 2) by lia; lia|lia].
Qed.

Lemma year_length y : year_start (y + 1) - year_start y = foldr Z.add 0 (month_lengths y).
Proof.
  unfold year_start, month_lengths, leap. cbn [foldr].
  destruct (Z.eqb_spec (y mod 4) 0), (Z.eqb_spec (y mod 100) 0), (Z.eqb_spec (y mod 400) 0); cbn [andb orb negb]; lia.
Qed.

Lemma month_of_spec ls m d :
  0 <= d < foldr Z.add 0 ls -> Forall (fun l => l <= 31) ls ->
  let '(m', d') := month_of ls m d in
  m <= m' < m + Z.of_nat (length ls) /\ 1 <= d' <= 31 /\
  foldr Z.add 0 (take (Z.to_nat (m' - m)) ls) + d' - 1 = d.
Proof.
  intros Hd Hls. revert m d Hd. induction Hls as [|l ls Hl _ IH]; intros m d Hd; cbn [foldr month_of] in *; [lia|].
  destruct (Z.ltb_spec d l) as [Hlt|Hge].
  - cbn [length]. split; [lia|]. split; [lia|]. rewrite Z.sub_diag.
    change (take (Z.to_nat 0) (l :: ls)) with (@nil Z). cbn [foldr]. lia.
  - specialize (IH (m + 1) (d - l)). destruct (month_of ls (m + 1) (d - l)) as [m' d'].
    destruct IH as (H1 & H2 & H3); [lia|]. cbn [length]. split; [lia|]. split; [lia|].
    replace (Z.to_nat (m' - m)) with (S (Z.to_nat (m' - (m + 1)))) by lia. cbn [take foldr]. lia.
Qed.

(** What gmtime gives, and that timegm is its inverse. *)
Record tm_ok (x : tm) : Prop := {
  to_mon : 0 <= tm_mon x < 12;
  to_mday : 1 <= tm_mday x <= 31;
  to_hour : 0 <= tm_hour x < 24;
  to_min : 0 <= tm_min x < 60;
  to_sec : 0 <= tm_sec x < 60;
  to_wday : 0 <= tm_wday x < 7
}.

Lemma gmtime_spec t : tm_ok (gmtime t) /\ timegm (gmtime t) = t.
Proof.
  unfold gmtime. set (day := t / 86400). set (y := year_of day). pose proof (year_of_spec day) as Hy. fold y in Hy.
  pose proof (year_length y) as Hl. pose proof (month_of_spec (month_lengths y) 0 (day - year_start y)) as Hm.
  destruct (month_of (month_lengths y) 0 (day - year_start y)) as [m d].
  destruct Hm as (Hm & Hd & E); [lia| |].
  { unfold month_lengths. repeat constructor; try lia. destruct (leap y); lia. }
  rewrite Z.sub_0_r in E. change (Z.of_nat (length (month_lengths y))) with 12 in Hm.
  split; [split; cbn [tm_mon tm_mday tm_hour tm_min tm_sec tm_wday]; lia|].
  unfold timegm, month_start. cbn [tm_year tm_mon tm_mday tm_hour tm_min tm_sec].
  clear Hl Hy Hm. assert (Ed : year_start y + foldr Z.add 0 (take (Z.to_nat m) (month_lengths y)) + d - 1 = day) by lia.
  rewrite Ed. unfold day. lia.
Qed.

Lemma year_start_mono y y' : y <= y' -> year_start y <= year_start y'.
Proof. unfold year_start. lia. Qed.

(** The years of four digits. *)
Lemma gmtime_year t : -30610224000 <= t <= 253402300799 -> 1000 <= tm_year (gmtime t) <= 9999.
Proof.
  intros Ht. unfold gmtime. destruct (month_of _ _ _) as [m d]. cbn [tm_year]. set (day := t / 86400).
  assert (Hd : year_start 1000 <= day < year_start 10000).
  { change (year_start 1000) with (-354285). change (year_start 10000) with 2932897. unfold day. lia. }
  pose proof (year_of_spec day) as Hy. set (y := year_of day) in *. split.
  - destruct (Z.le_gt_cases 1000 y) as [|Hlt]; [done|]. pose proof (year_start_mono (y + 1) 1000). lia.
  - destruct (Z.le_gt_cases y 9999) as [|Hlt]; [done|]. pose proof (year_start_mono 10000 y). lia.
Qed.

(** * Reading back *)

Lemma get_two lo hi v s :
  0 <= lo <= v -> v <= hi -> hi < 100 -> get_number lo hi 2 (two v ++ s) = Some (v, s).
Proof.
  intros Hlo Hhi H100. unfold get_number, two. cbn [app].
  assert (Hc : forall d, 0 <= d <= 9 -> dec_digit (48 + d) = true) by (intros d Hd; unfold dec_digit; zbool; lia).
  assert (Hskip : skip_blanks (48 + v / 10 :: 48 + v mod 10 :: s) = 48 + v / 10 :: 48 + v mod 10 :: s).
  { unfold skip_blanks. cbn [strip_left in_charset existsb]. destruct (Z.eqb_spec (48 + v / 10) 32); [lia|done]. }
  rewrite Hskip, Hc by lia. cbn [take_digits]. rewrite !Hc by lia.
  destruct (Z.leb_spec (0 * 10) hi); [|lia]. cbn [andb].
  destruct (Z.leb_spec ((0 * 10 + (48 + v / 10 - 48)) * 10) hi); [|lia]. cbn [andb].
  replace ((0 * 10 + (48 + v / 10 - 48)) * 10 + (48 + v mod 10 - 48)) with v by lia.
  destruct (Z.leb_spec lo v); [|lia]. destruct (Z.leb_spec v hi); [done|lia].
Qed.

Definition four (y : Z) : list Z := [48 + y / 1000; 48 + y / 100 mod 10; 48 + y / 10 mod 10; 48 + y mod 10].

Lemma int_text_four y : 1000 <= y <= 9999 -> int_text y = four y.
Proof.
  intros Hy. unfold int_text. destruct (Z.ltb_spec y 0); [lia|]. cbn [digits_text].
  destruct (Z.ltb_spec y 10); [lia|]. destruct (Z.ltb_spec (y / 10) 10); [lia|].
  destruct (Z.ltb_spec (y / 10 / 10) 10); [lia|]. destruct (Z.ltb_spec (y / 10 / 10 / 10) 10); [|lia].
  cbn [app]. unfold four. replace (y / 10 / 10 / 10 mod 10) with (y / 1000) by lia.
  by replace (y / 10 / 10) with (y / 100) by lia.
Qed.

Lemma get_four y s : 1000 <= y <= 9999 -> get_number 0 9999 4 (four y ++ s) = Some (y, s).
Proof.
  intros Hy. unfold get_number, four. cbn [app].
  assert (Hc : forall d, 0 <= d <= 9 -> dec_digit (48 + d) = true) by (intros d Hd; unfold dec_digit; zbool; lia).
  set (a := y / 1000). set (b := y / 100 mod 10). set (c := y / 10 mod 10). set (d := y mod 10).
  assert (Hd : y = a * 1000 + b * 100 + c * 10 + d /\ 1 <= a <= 9 /\ 0 <= b <= 9 /\ 0 <= c <= 9 /\ 0 <= d <= 9) by lia.
  clearbody a b c d. destruct Hd as (-> & Ha & Hb & Hcc & Hdd). unfold skip_blanks. cbn [strip_left in_charset existsb].
  destruct (Z.eqb_spec (48 + a) 32); [lia|]. cbn [orb]. rewrite Hc by lia. cbn [take_digits]. rewrite !Hc by lia.
  repeat (match goal with |- context [?x <=? 9999] => destruct (Z.leb_spec x 9999); [|lia] end; cbn [andb]).
  match goal with |- context [0 <=? ?v] => replace v with (a * 1000 + b * 100 + c * 10 + d) by lia end.
  destruct (Z.leb_spec 0 (a * 1000 + b * 100 + c * 10 + d)); [done|lia].
Qed.

Lemma skip_space_two v s : 0 <= v < 100 -> skip_space (two v ++ s) = two v ++ s.
Proof.
  intros Hv. unfold two. cbn [app skip_space]. unfold is_space.
  destruct (Z.eqb_spec (48 + v / 10) 32); [lia|]. destruct (Z.leb_spec (48 + v / 10) 13); [lia|].
  by rewrite andb_false_r.
Qed.

Lemma skip_space_four y s : 1000 <= y <= 9999 -> skip_space (four y ++ s) = four y ++ s.
Proof.
  intros Hv. unfold four. cbn [app skip_space]. unfold is_space.
  destruct (Z.eqb_spec (48 + y / 1000) 32); [lia|]. destruct (Z.leb_spec (48 + y / 1000) 13); [lia|].
  by rewrite andb_false_r.
Qed.

Lemma istartsWith_equal a b : istartsWith a b = std_equal CaseCmp b a.
Proof.
  unfold istartsWith. destruct (Z.ltb_spec (zlen a) (zlen b)) as [H|H]; [|done]. symmetry.
  revert a H. induction b as [|x b IH]; intros a H; [unfold zlen in H; cbn in H; lia|].
  destruct a as [|y a]; cbn [std_equal]; [done|]. rewrite IH; [by rewrite andb_false_r|].
  unfold zlen in *. cbn [length] in H. lia.
Qed.

Lemma get_name_equal names i s :
  get_name names i s =
  (fix go names i := match names with
   | [] => None
   | name :: names => if std_equal CaseCmp name s then Some (i, drop (length name) s)
                      else if std_equal CaseCmp (short name) s then Some (i, drop 3 s) else go names (i + 1)
   end) names i.
Proof.
  revert i. induction names as [|n ns IH]; intros i; cbn [get_name]; [done|]. by rewrite !istartsWith_equal, IH.
Qed.

Lemma get_day_name i s : 0 <= i < 7 -> get_name day_names 0 (name_at day_names i ++ chr "," :: s) = Some (i, chr "," :: s).
Proof.
  intros Hi. rewrite get_name_equal.
  assert (i = 0 \/ i = 1 \/ i = 2 \/ i = 3 \/ i = 4 \/ i = 5 \/ i = 6) as [->|[->|[->|[->|[->|[->| ->]]]]]] by lia; done.
Qed.

Lemma get_month_name i s :
  0 <= i < 12 -> get_name month_names 0 (name_at month_names i ++ 32 :: s) = Some (i, 32 :: s).
Proof.
  intros Hi. rewrite get_name_equal.
  assert (i = 0 \/ i = 1 \/ i = 2 \/ i = 3 \/ i = 4 \/ i = 5 \/ i = 6 \/ i = 7 \/ i = 8 \/ i = 9 \/ i = 10 \/ i = 11)
    as [->|[->|[->|[->|[->|[->|[->|[->|[->|[->|[->| ->]]]]]]]]]]] by lia; done.
Qed.

Lemma skip_space_month i s :
  0 <= i < 12 -> skip_space (name_at month_names i ++ s) = name_at month_names i ++ s.
Proof.
  intros Hi.
  assert (i = 0 \/ i = 1 \/ i = 2 \/ i = 3 \/ i = 4 \/ i = 5 \/ i = 6 \/ i = 7 \/ i = 8 \/ i = 9 \/ i = 10 \/ i = 11)
    as [->|[->|[->|[->|[->|[->|[->|[->|[->|[->|[->| ->]]]]]]]]]]] by lia; done.
Qed.

Lemma startsWith_cons c s l : startsWith (c :: s) (c :: l) = startsWith s l.
Proof.
  unfold startsWith. rewrite !zlen_cons. cbn [std_equal]. rewrite Z.eqb_refl. cbn [andb].
  destruct (Z.ltb_spec (1 + zlen s) (1 + zlen l)), (Z.ltb_spec (zlen s) (zlen l)); try lia; done.
Qed.

Lemma get_text_app lit s : get_text lit (lit ++ s) = Some s.
Proof.
  unfold get_text. assert (H : startsWith (lit ++ s) lit = true).
  { induction lit as [|c lit IH]; cbn [app]; [|by rewrite startsWith_cons].
    unfold startsWith. destruct (Z.ltb_spec (zlen s) (zlen [])) as [H|]; [|done].
    pose proof (zlen_nonneg s). change (zlen []) with 0 in H. lia. }
  by rewrite H, drop_app_length.
Qed.

Lemma get_text_one c s : get_text [c] (c :: s) = Some s.
Proof. apply (get_text_app [c]). Qed.

Lemma parse_format x : tm_ok x -> 1000 <= tm_year x <= 9999 -> parse_tm (format_tm x) = Some x.
Proof.
  intros [] Hy. unfold parse_tm, format_tm. rewrite int_text_four by done.
  cbn [app]. rewrite get_day_name by done. cbn [mbind option_bind].
  rewrite get_text_one. cbn [mbind option_bind].
  assert (Hsp : forall l, skip_space (32 :: l) = skip_space l) by done.
  rewrite Hsp, skip_space_two, get_two by lia. cbn [mbind option_bind].
  rewrite Hsp, skip_space_month, get_month_name by lia. cbn [mbind option_bind].
  rewrite Hsp, skip_space_four, get_four by lia. cbn [mbind option_bind].
  rewrite Hsp, skip_space_two, get_two by lia. cbn [mbind option_bind].
  rewrite get_text_one. cbn [mbind option_bind].
  rewrite get_two by lia. cbn [mbind option_bind]. rewrite get_text_one. cbn [mbind option_bind].
  rewrite get_two by lia. cbn [mbind option_bind].
  by destruct x.
Qed.

Lemma name_at_length names i : Forall (fun n => (3 <= length n)%nat) names -> 0 <= i < Z.of_nat (length names) ->
  zlen (name_at names i) = 3.
Proof.
  intros Hn Hi. unfold name_at, short, zlen. rewrite length_take.
  pose proof (nth_In names [] (n := Z.to_nat i) ltac:(lia)) as Hin.
  apply list_elem_of_In in Hin. rewrite Forall_forall in Hn. specialize (Hn _ Hin). lia.
Qed.

Lemma format_length x : tm_ok x -> 1000 <= tm_year x <= 9999 -> zlen (format_tm x) = 29.
Proof.
  intros [] Hy. unfold format_tm. rewrite int_text_four by done. rewrite !zlen_app.
  rewrite (name_at_length day_names) by (repeat constructor; cbn; lia).
  rewrite (name_at_length month_names) by (repeat constructor; cbn; lia). done.
Qed.

Lemma format_nonzero x : tm_ok x -> 1000 <= tm_year x <= 9999 -> Forall (fun c => c <> 0) (format_tm x).
Proof.
  intros [] Hy. unfold format_tm. rewrite int_text_four by done.
  assert (Htwo : forall v, 0 <= v -> Forall (fun c => c <> 0) (two v)) by (intros v Hv; repeat constructor; lia).
  assert (Hname : forall names i, Forall (Forall (fun c => c <> 0)) names -> Forall (fun c => c <> 0) (name_at names i)).
  { intros names i Hn. apply Forall_take. destruct (nth_in_or_default (Z.to_nat i) names []) as [Hin| ->]; [|done].
    apply list_elem_of_In in Hin. rewrite Forall_forall in Hn. by apply Hn. }
  repeat (apply Forall_app; split); try (apply Htwo; lia); try (apply Hname; by repeat constructor);
    repeat constructor; lia.
Qed.

Lemma http_date_nonzero t : -30610224000 <= t <= 253402300799 -> Forall (fun c => c <> 0) (http_date t).
Proof.
  intros Ht. destruct (gmtime_spec t) as [Hok _]. unfold http_date. cbv zeta.
  destruct (_ <? _); [|done]. apply format_nonzero; [done|by apply gmtime_year].
Qed.

Lemma http_date_text t : -30610224000 <= t <= 253402300799 -> http_date t = format_tm (gmtime t) /\ zlen (http_date t) = 29.
Proof.
  intros Ht. destruct (gmtime_spec t) as [Hok _].
  pose proof (format_length _ Hok (gmtime_year t Ht)) as Hl. unfold http_date. cbv zeta. rewrite Hl. by split.
Qed.

Lemma parse_http_date_text t : -30610224000 <= t <= 253402300799 -> parse_http_date (http_date t) = t.
Proof.
  intros Ht. destruct (gmtime_spec t) as [Hok Et]. pose proof (gmtime_year t Ht) as Hy.
  rewrite (proj1 (http_date_text t Ht)). unfold parse_http_date. rewrite c_str_id by (by apply format_nonzero).
  by rewrite parse_format.
Qed.

(** C16. A date of the years 1000 to 9999 is written in 29 characters and read back: what
    the server sends as last-modified, a client can send as if-modified-since. *)
Theorem http_date_parsed (t : Z) :
  -30610224000 <= t <= 253402300799 -> zlen (http_date t) = 29 /\ parse_http_date (http_date t) = t.
Proof. intros Ht. split; [by apply http_date_text|by apply parse_http_date_text]. Qed.

Lemma http_date_parsed_witness : parse_http_date (http_date 784111777) = 784111777.
Proof. apply http_date_parsed. lia. Defined.

Example dates :
  http_date 0 = str "Thu, 01 Jan 1970 00:00:00 GMT" /\
  http_date 951782400 = str "Tue, 29 Feb 2000 00:00:00 GMT" /\
  http_date 4107542399 = str "Sun, 28 Feb 2100 23:59:59 GMT" /\
  http_date (-1) = str "Wed, 31 Dec 1969 23:59:59 GMT" /\
  parse_http_date (str "sunday,6 nov 1994  08:49:37 GMT") = 784111777 /\
  parse_http_date (str "Sun Nov  6 08:49:37 1994") = 0.
Proof. vm_compute. done. Qed.

End Date.
