(* ===== verification/ShrpxConfig.v ===== *)
(** Configuration of the reverse proxy: shrpx_config.cc, the severity levels of
    shrpx_log.cc, and the part of main of shrpx.cc that makes the configuration.

    The global Config object and the severity threshold are the state
    [globals].  A function that returns int returns the number with the new
    state.  getpwnam, getaddrinfo, inet_pton, the configuration file and what
    getopt_long finds on the command line are arguments. *)
From S2P Require Import Prelude Libc CppUtil Records.

Module Config.
Import Util.

(** * The Config object *)

Record timeval := mk_time { tv_sec : Z; tv_usec : Z }.
Definition no_time : timeval := mk_time 0 0.

Record Config := mk_config {
  verbose : bool;
  daemon : bool;
  host : option (list Z);
  port : Z;
  private_key_file : option (list Z);
  cert_file : option (list Z);
  verify_client : bool;
  server_name : option (list Z);
  downstream_host : option (list Z);
  downstream_port : Z;
  downstream_hostport : option (list Z);
  downstream_addr : list Z;
  downstream_addrlen : Z;
  spdy_upstream_read_timeout : timeval;
  upstream_read_timeout : timeval;
  upstream_write_timeout : timeval;
  downstream_read_timeout : timeval;
  downstream_write_timeout : timeval;
  downstream_idle_read_timeout : timeval;
  num_worker : Z;
  spdy_max_concurrent_streams : Z;
  spdy_proxy : bool;
  add_x_forwarded_for : bool;
  accesslog : bool;
  spdy_upstream_window_bits : Z;
  pid_file : option (list Z);
  uid : Z;
  gid : Z;
  conf_path : option (list Z);
  syslog : bool;
  syslog_facility : Z;
  use_syslog : bool;
  backlog : Z;
  ciphers : option (list Z)
}.

#[export] Instance eta_Config : Settable Config := fun c =>
  mk_config
    (verbose c) (daemon c) (host c) (port c) (private_key_file c) (cert_file c)
    (verify_client c) (server_name c) (downstream_host c) (downstream_port c)
    (downstream_hostport c) (downstream_addr c) (downstream_addrlen c)
    (spdy_upstream_read_timeout c) (upstream_read_timeout c) (upstream_write_timeout c)
    (downstream_read_timeout c) (downstream_write_timeout c) (downstream_idle_read_timeout c)
    (num_worker c) (spdy_max_concurrent_streams c) (spdy_proxy c) (add_x_forwarded_for c)
    (accesslog c) (spdy_upstream_window_bits c) (pid_file c) (uid c) (gid c) (conf_path c)
    (syslog c) (syslog_facility c) (use_syslog c) (backlog c) (ciphers c).

(** The constructor; the timeouts are not in its list of members and keep what
    the memory of the object holds. *)
Definition Config_new (memory : timeval) : Config :=
  mk_config
    false false None 0 None None false None None 0 None [] 0 memory memory memory memory
    memory memory 0 0 false false false 0 None 0 0 None false 0 false 0 None.

(** * Option names *)

Definition SHRPX_OPT_PRIVATE_KEY_FILE : list Z := str "private-key-file".
Definition SHRPX_OPT_CERTIFICATE_FILE : list Z := str "certificate-file".
Definition SHRPX_OPT_BACKEND : list Z := str "backend".
Definition SHRPX_OPT_FRONTEND : list Z := str "frontend".
Definition SHRPX_OPT_WORKERS : list Z := str "workers".
Definition SHRPX_OPT_SPDY_MAX_CONCURRENT_STREAMS : list Z := str "spdy-max-concurrent-streams".
Definition SHRPX_OPT_LOG_LEVEL : list Z := str "log-level".
Definition SHRPX_OPT_DAEMON : list Z := str "daemon".
Definition SHRPX_OPT_SPDY_PROXY : list Z := str "spdy-proxy".
Definition SHRPX_OPT_ADD_X_FORWARDED_FOR : list Z := str "add-x-forwarded-for".
Definition SHRPX_OPT_FRONTEND_SPDY_READ_TIMEOUT : list Z := str "frontend-spdy-read-timeout".
Definition SHRPX_OPT_FRONTEND_READ_TIMEOUT : list Z := str "frontend-read-timeout".
Definition SHRPX_OPT_FRONTEND_WRITE_TIMEOUT : list Z := str "frontend-write-timeout".
Definition SHRPX_OPT_BACKEND_READ_TIMEOUT : list Z := str "backend-read-timeout".
Definition SHRPX_OPT_BACKEND_WRITE_TIMEOUT : list Z := str "backend-write-timeout".
Definition SHRPX_OPT_ACCESSLOG : list Z := str "accesslog".
Definition SHRPX_OPT_BACKEND_KEEP_ALIVE_TIMEOUT : list Z := str "backend-keep-alive-timeout".
Definition SHRPX_OPT_FRONTEND_SPDY_WINDOW_BITS : list Z := str "frontend-spdy-window-bits".
Definition SHRPX_OPT_PID_FILE : list Z := str "pid-file".
Definition SHRPX_OPT_USER : list Z := str "user".
Definition SHRPX_OPT_SYSLOG : list Z := str "syslog".
Definition SHRPX_OPT_SYSLOG_FACILITY : list Z := str "syslog-facility".
Definition SHRPX_OPT_BACKLOG : list Z := str "backlog".
Definition SHRPX_OPT_CIPHERS : list Z := str "ciphers".

(** NI_MAXHOST of the C library. *)
Definition NI_MAXHOST : Z := 1025.

(** * Facilities of syslog *)

Definition LOG_AUTH : Z := 32.
Definition LOG_AUTHPRIV : Z := 80.
Definition LOG_CRON : Z := 72.
Definition LOG_DAEMON : Z := 24.
Definition LOG_FTP : Z := 88.
Definition LOG_KERN : Z := 0.
Definition LOG_LOCAL0 : Z := 128.
Definition LOG_LOCAL1 : Z := 136.
Definition LOG_LOCAL2 : Z := 144.
Definition LOG_LOCAL3 : Z := 152.
Definition LOG_LOCAL4 : Z := 160.
Definition LOG_LOCAL5 : Z := 168.
Definition LOG_LOCAL6 : Z := 176.
Definition LOG_LOCAL7 : Z := 184.
Definition LOG_LPR : Z := 48.
Definition LOG_MAIL : Z := 16.
Definition LOG_NEWS : Z := 56.
Definition LOG_SYSLOG : Z := 40.
Definition LOG_USER : Z := 8.
Definition LOG_UUCP : Z := 64.

Definition str_syslog_facility (facility : Z) : list Z :=
  if facility =? LOG_AUTH then str "auth"
  else if facility =? LOG_AUTHPRIV then str "authpriv"
  else if facility =? LOG_CRON then str "cron"
  else if facility =? LOG_DAEMON then str "daemon"
  else if facility =? LOG_FTP then str "ftp"
  else if facility =? LOG_KERN then str "kern"
  else if facility =? LOG_LOCAL0 then str "local0"
  else if facility =? LOG_LOCAL1 then str "local1"
  else if facility =? LOG_LOCAL2 then str "local2"
  else if facility =? LOG_LOCAL3 then str "local3"
  else if facility =? LOG_LOCAL4 then str "local4"
  else if facility =? LOG_LOCAL5 then str "local5"
  else if facility =? LOG_LOCAL6 then str "local6"
  else if facility =? LOG_LOCAL7 then str "local7"
  else if facility =? LOG_LPR then str "lpr"
  else if facility =? LOG_MAIL then str "mail"
  else if facility =? LOG_SYSLOG then str "syslog"
  else if facility =? LOG_USER then str "user"
  else if facility =? LOG_UUCP then str "uucp"
  else str "(unknown)".

Definition int_syslog_facility (strfacility : list Z) : Z :=
  let named name := strieq (Some strfacility) (Some name) in
  if named (str "auth") then LOG_AUTH
  else if named (str "authpriv") then LOG_AUTHPRIV
  else if named (str "cron") then LOG_CRON
  else if named (str "daemon") then LOG_DAEMON
  else if named (str "ftp") then LOG_FTP
  else if named (str "kern") then LOG_KERN
  else if named (str "local0") then LOG_LOCAL0
  else if named (str "local1") then LOG_LOCAL1
  else if named (str "local2") then LOG_LOCAL2
  else if named (str "local3") then LOG_LOCAL3
  else if named (str "local4") then LOG_LOCAL4
  else if named (str "local5") then LOG_LOCAL5
  else if named (str "local6") then LOG_LOCAL6
  else if named (str "local7") then LOG_LOCAL7
  else if named (str "lpr") then LOG_LPR
  else if named (str "mail") then LOG_MAIL
  else if named (str "news") then LOG_NEWS
  else if named (str "syslog") then LOG_SYSLOG
  else if named (str "user") then LOG_USER
  else if named (str "uucp") then LOG_UUCP
  else -1.

(** * The state *)

(** The Config object and Log::severity_thres_. *)
Record globals := mk_globals { config : Config; severity_thres_ : Z }.
#[export] Instance eta_globals : Settable globals := fun g =>
  mk_globals (config g) (severity_thres_ g).

Definition mod_config (f : Config -> Config) (g : globals) : globals :=
  g <| config := f (config g) |>.

(** Severity levels: INFO, WARNING, ERROR, FATAL are 0 to 3. *)
Definition WARNING : Z := 1.
Definition SEVERITY_STR : list (list Z) := [str "INFO"; str "WARN"; str "ERROR"; str "FATAL"].

Definition set_severity_level (severity : Z) (g : globals) : globals :=
  g <| severity_thres_ := severity |>.

Fixpoint severity_loop (names : list (list Z)) (i : Z) (name : list Z) : option Z :=
  match names with
  | [] => None
  | n :: names => if bool_decide (n = name) then Some i else severity_loop names (i + 1) name
  end.

Definition set_severity_level_by_name (name : list Z) (g : globals) : Z * globals :=
  match severity_loop SEVERITY_STR 0 name with
  | Some i => (0, set_severity_level i g)
  | None => (-1, g)
  end.

(** * Reading one option *)

(** The C conversion of a long to int and to size_t. *)
Definition to_int (n : Z) : Z := (n + 2 ^ 31) mod 2 ^ 32 - 2 ^ 31.

(** set_config_str: the string is copied and the old one freed. *)
Definition set_config_str (dest : option (list Z)) (val : list Z) : option (list Z) :=
  Some (c_str val).

(** A host and a port separated by a comma; [None] is the return of -1. *)
Definition split_host_port (hostlen : Z) (hostport : list Z) : option (list Z * Z) :=
  let p := std_find hostport (chr ",") in
  if Z.of_nat p =? zlen hostport then None
  else
    let len := Z.of_nat p in
    if hostlen <? len + 1 then None
    else
      let host := take p hostport in
      let '(d, erange) := strtoul (drop (S p) hostport) in
      if negb erange && (1 <=? d) && (d <=? 65535) then Some (host, d) else None.

Section Options.
(** getpwnam: the uid and the gid of a user. *)
Context (getpwnam : list Z -> option (Z * Z)).

(** parse_config; [opt] and [optarg] point at C strings. *)
Definition parse_config (opt optarg : list Z) (g : globals) : Z * globals :=
  let opt_is name := strieq (Some opt) (Some name) in
  let arg := c_str optarg in
  let yes := strieq (Some optarg) (Some (str "yes")) in
  let seconds := mk_time (strtol arg).1 0 in
  let set f := (0, mod_config f g) in
  if opt_is SHRPX_OPT_BACKEND then
    match split_host_port NI_MAXHOST arg with
    | None => (-1, g)
    | Some (h, p) =>
        set (fun c => c <| downstream_host := set_config_str (downstream_host c) h |>
                        <| downstream_port := p |>)
    end
  else if opt_is SHRPX_OPT_FRONTEND then
    match split_host_port NI_MAXHOST arg with
    | None => (-1, g)
    | Some (h, p) => set (fun c => c <| host := set_config_str (host c) h |> <| port := p |>)
    end
  else if opt_is SHRPX_OPT_WORKERS then set (fun c => c <| num_worker := u64 (strtol arg).1 |>)
  else if opt_is SHRPX_OPT_SPDY_MAX_CONCURRENT_STREAMS then
    set (fun c => c <| spdy_max_concurrent_streams := u64 (strtol arg).1 |>)
  else if opt_is SHRPX_OPT_LOG_LEVEL then
    let '(rv, g') := set_severity_level_by_name arg g in
    if rv =? -1 then (-1, g') else (0, g')
  else if opt_is SHRPX_OPT_DAEMON then set (fun c => c <| daemon := yes |>)
  else if opt_is SHRPX_OPT_SPDY_PROXY then set (fun c => c <| spdy_proxy := yes |>)
  else if opt_is SHRPX_OPT_ADD_X_FORWARDED_FOR then
    set (fun c => c <| add_x_forwarded_for := yes |>)
  else if opt_is SHRPX_OPT_FRONTEND_SPDY_READ_TIMEOUT then
    set (fun c => c <| spdy_upstream_read_timeout := seconds |>)
  else if opt_is SHRPX_OPT_FRONTEND_READ_TIMEOUT then
    set (fun c => c <| upstream_read_timeout := seconds |>)
  else if opt_is SHRPX_OPT_FRONTEND_WRITE_TIMEOUT then
    set (fun c => c <| upstream_write_timeout := seconds |>)
  else if opt_is SHRPX_OPT_BACKEND_READ_TIMEOUT then
    set (fun c => c <| downstream_read_timeout := seconds |>)
  else if opt_is SHRPX_OPT_BACKEND_WRITE_TIMEOUT then
    set (fun c => c <| downstream_write_timeout := seconds |>)
  else if opt_is SHRPX_OPT_ACCESSLOG then set (fun c => c <| accesslog := yes |>)
  else if opt_is SHRPX_OPT_BACKEND_KEEP_ALIVE_TIMEOUT then
    set (fun c => c <| downstream_idle_read_timeout := seconds |>)
  else if opt_is SHRPX_OPT_FRONTEND_SPDY_WINDOW_BITS then
    let '(n, erange) := strtoul arg in
    if negb erange && (n <? 31) then set (fun c => c <| spdy_upstream_window_bits := n |>)
    else (-1, g)
  else if opt_is SHRPX_OPT_PID_FILE then set (fun c => c <| pid_file := set_config_str (pid_file c) optarg |>)
  else if opt_is SHRPX_OPT_USER then
    match getpwnam arg with
    | None => (-1, g)
    | Some (u, gr) => set (fun c => c <| uid := u |> <| gid := gr |>)
    end
  else if opt_is SHRPX_OPT_PRIVATE_KEY_FILE then
    set (fun c => c <| private_key_file := set_config_str (private_key_file c) optarg |>)
  else if opt_is SHRPX_OPT_CERTIFICATE_FILE then set (fun c => c <| cert_file := set_config_str (cert_file c) optarg |>)
  else if opt_is SHRPX_OPT_SYSLOG then set (fun c => c <| syslog := yes |>)
  else if opt_is SHRPX_OPT_SYSLOG_FACILITY then
    let facility := int_syslog_facility optarg in
    if facility =? -1 then (-1, g) else set (fun c => c <| syslog_facility := facility |>)
  else if opt_is SHRPX_OPT_BACKLOG then set (fun c => c <| backlog := to_int (strtol arg).1 |>)
  else if opt_is SHRPX_OPT_CIPHERS then set (fun c => c <| ciphers := set_config_str (ciphers c) optarg |>)
  else if opt_is (str "conf") then (0, g)
  else (-1, g).

(** * The configuration file *)

(** One turn of the loop of load_config on a line. *)
Definition load_line (line : list Z) (g : globals) : Z * globals :=
  if bool_decide (line = []) || (hd 0 line =? chr "#") then (0, g)
  else
    let i := std_find line (chr "=") in
    if (i =? length line)%nat then (-1, g)
    else parse_config (take i line) (drop (S i) line) g.

Fixpoint load_lines (lines : list (list Z)) (g : globals) : Z * globals :=
  match lines with
  | [] => (0, g)
  | line :: lines =>
      let '(rv, g) := load_line line g in
      if rv =? -1 then (-1, g) else load_lines lines g
  end.

(** std::getline until the end of the file. *)
Definition getlines (content : list Z) : list (list Z) :=
  split_loop (length content) LF false true content.

(** load_config; [None] is a file that cannot be opened. *)
Definition load_config (content : option (list Z)) (g : globals) : Z * globals :=
  match content with
  | None => (-1, g)
  | Some content => load_lines (getlines content) g
  end.

(** * The configuration of main *)

(** SPDYLAY_VERSION and SPDYLAY_INITIAL_MAX_CONCURRENT_STREAMS of the library,
    the file system, inet_pton for IPv6, and getaddrinfo with getnameinfo: the
    bytes of the first address, or a failure. *)
Context (SPDYLAY_VERSION : list Z) (SPDYLAY_INITIAL_MAX_CONCURRENT_STREAMS : Z).
Context (conf_exists : list Z -> bool) (read_file : list Z -> option (list Z)).
Context (is_ipv6_numeric_addr : list Z -> bool).
Context (resolve : list Z -> list Z -> option (list Z)).

Definition fill_default_config (c : Config) : Config :=
  c <| daemon := false |>
    <| server_name := Some (str "shrpx spdylay/" ++ SPDYLAY_VERSION) |>
    <| host := set_config_str (host c) (str "0.0.0.0") |>
    <| port := 3000 |>
    <| private_key_file := None |>
    <| cert_file := None |>
    <| spdy_upstream_read_timeout := mk_time 180 0 |>
    <| upstream_read_timeout := mk_time 180 0 |>
    <| upstream_write_timeout := mk_time 60 0 |>
    <| downstream_read_timeout := mk_time 900 0 |>
    <| downstream_write_timeout := mk_time 60 0 |>
    <| downstream_idle_read_timeout := mk_time 60 (tv_usec (downstream_idle_read_timeout c)) |>
    <| spdy_upstream_window_bits := 16 |>
    <| downstream_host := set_config_str (downstream_host c) (str "127.0.0.1") |>
    <| downstream_port := 80 |>
    <| num_worker := 1 |>
    <| spdy_max_concurrent_streams := SPDYLAY_INITIAL_MAX_CONCURRENT_STREAMS |>
    <| spdy_proxy := false |>
    <| add_x_forwarded_for := false |>
    <| accesslog := false |>
    <| conf_path := set_config_str (conf_path c) (str "/etc/shrpx/shrpx.conf") |>
    <| syslog := false |>
    <| syslog_facility := LOG_DAEMON |>
    <| use_syslog := false |>
    <| backlog := 256 |>
    <| ciphers := None |>.

(** What a call of getopt_long gives: the character, the flag of a long option
    and its argument. *)
Record found_option := mk_found { f_c : Z; f_flag : Z; f_optarg : list Z }.

(** How main ends before the event loop: exit with a status, or the assertion
    of DIE. *)
Inductive ending := Exit (status : Z) | Die.

(** The switch on a found option: the options it adds to cmdcfgs, and the state. *)
Definition main_option (o : found_option) (g : globals)
    : ending + (list (list Z * list Z) * globals) :=
  let push opt arg := inr ([(opt, arg)], g) in
  let c := f_c o in let optarg := f_optarg o in let flag := f_flag o in
  if c =? chr "D" then push SHRPX_OPT_DAEMON (str "yes")
  else if c =? chr "h" then inl (Exit 0)
  else if c =? chr "L" then push SHRPX_OPT_LOG_LEVEL optarg
  else if c =? chr "b" then push SHRPX_OPT_BACKEND optarg
  else if c =? chr "f" then push SHRPX_OPT_FRONTEND optarg
  else if c =? chr "n" then push SHRPX_OPT_WORKERS optarg
  else if c =? chr "c" then push SHRPX_OPT_SPDY_MAX_CONCURRENT_STREAMS optarg
  else if c =? chr "s" then push SHRPX_OPT_SPDY_PROXY (str "yes")
  else if c =? chr "?" then inl (Exit 1)
  else if c =? 0 then
    if flag =? 1 then push SHRPX_OPT_ADD_X_FORWARDED_FOR (str "yes")
    else if flag =? 2 then push SHRPX_OPT_FRONTEND_SPDY_READ_TIMEOUT optarg
    else if flag =? 3 then push SHRPX_OPT_FRONTEND_READ_TIMEOUT optarg
    else if flag =? 4 then push SHRPX_OPT_FRONTEND_WRITE_TIMEOUT optarg
    else if flag =? 5 then push SHRPX_OPT_BACKEND_READ_TIMEOUT optarg
    else if flag =? 6 then push SHRPX_OPT_BACKEND_WRITE_TIMEOUT optarg
    else if flag =? 7 then push SHRPX_OPT_ACCESSLOG (str "yes")
    else if flag =? 8 then push SHRPX_OPT_BACKEND_KEEP_ALIVE_TIMEOUT optarg
    else if flag =? 9 then push SHRPX_OPT_FRONTEND_SPDY_WINDOW_BITS optarg
    else if flag =? 10 then push SHRPX_OPT_PID_FILE optarg
    else if flag =? 11 then push SHRPX_OPT_USER optarg
    else if flag =? 12 then
      inr ([], mod_config (fun c => c <| conf_path := set_config_str (conf_path c) optarg |>) g)
    else if flag =? 13 then push SHRPX_OPT_SYSLOG (str "yes")
    else if flag =? 14 then push SHRPX_OPT_SYSLOG_FACILITY optarg
    else if flag =? 15 then push SHRPX_OPT_BACKLOG optarg
    else if flag =? 16 then push SHRPX_OPT_CIPHERS optarg
    else inr ([], g)
  else inr ([], g).

Fixpoint main_options (os : list found_option) (g : globals)
    : ending + (list (list Z * list Z) * globals) :=
  match os with
  | [] => inr ([], g)
  | o :: os =>
      match main_option o g with
      | inl e => inl e
      | inr (cfgs, g) =>
          match main_options os g with
          | inl e => inl e
          | inr (cfgs', g) => inr (cfgs ++ cfgs', g)
          end
      end
  end.

(** The loop over cmdcfgs. *)
Fixpoint apply_options (cfgs : list (list Z * list Z)) (g : globals) : ending + globals :=
  match cfgs with
  | [] => inr g
  | (opt, arg) :: cfgs =>
      let '(rv, g) := parse_config opt arg g in
      if rv =? -1 then inl (Exit 1) else apply_options cfgs g
  end.

(** snprintf into the buffer hostport of NI_MAXHOST + 16 bytes. *)
Definition hostport_text (c : Config) : list Z :=
  let h := default [] (downstream_host c) in
  let ipv6 := is_ipv6_numeric_addr h in
  let text := (if ipv6 then str "[" else []) ++ h ++ (if ipv6 then str "]" else []) in
  if downstream_port c =? 80 then text else text ++ str ":" ++ int_text (downstream_port c).

Definition downstream_hostport_of (c : Config) : list Z :=
  take (Z.to_nat (NI_MAXHOST + 16 - 1)) (hostport_text c).

Definition cache_downstream_host_address (c : Config) : ending + Config :=
  match resolve (default [] (downstream_host c)) (int_text (downstream_port c)) with
  | None => inl Die
  | Some addr => inr (c <| downstream_addr := addr |> <| downstream_addrlen := zlen addr |>)
  end.

(** The state before the command line is read. *)
Definition main_initial (memory : timeval) : globals :=
  mod_config fill_default_config (set_severity_level WARNING (mk_globals (Config_new memory) 0)).

(** The configuration file, if there is one. *)
Definition main_load (g : globals) : ending + globals :=
  let path := default [] (conf_path (config g)) in
  if conf_exists path then
    let '(rv, g) := load_config (read_file path) g in
    if rv =? -1 then inl (Exit 1) else inr g
  else inr g.

(** Two arguments after the options are the key and the certificate. *)
Definition main_keys (rest : list (list Z)) (cmdcfgs : list (list Z * list Z)) : list (list Z * list Z) :=
  match rest with
  | key :: cert :: _ =>
      cmdcfgs ++ [(SHRPX_OPT_PRIVATE_KEY_FILE, key); (SHRPX_OPT_CERTIFICATE_FILE, cert)]
  | _ => cmdcfgs
  end.

(** The addresses of the backend, and syslog. *)
Definition main_finish (g : globals) : ending + globals :=
  let c := config g in
  let c := c <| downstream_hostport :=
                  set_config_str (downstream_hostport c) (downstream_hostport_of c) |> in
  match cache_downstream_host_address c with
  | inl e => inl e
  | inr c => inr (g <| config := if syslog c then c <| use_syslog := true |> else c |>)
  end.

(** main until the event loop: the configuration it runs with.  [os] is what
    getopt_long finds, [rest] what is left of argv after it. *)
Definition main_config (memory : timeval) (os : list found_option) (rest : list (list Z))
    : ending + globals :=
  match main_options os (main_initial memory) with
  | inl e => inl e
  | inr (cmdcfgs, g) =>
      match main_load g with
      | inl e => inl e
      | inr g =>
          if (bool_decide (private_key_file (config g) = None) ||
              bool_decide (cert_file (config g) = None)) && (length rest <? 2)%nat
          then inl (Exit 1)
          else
            match apply_options (main_keys rest cmdcfgs) g with
            | inl e => inl e
            | inr g => main_finish g
            end
      end
  end.

(** * The configuration is well formed *)

Definition facilities : list Z :=
  [LOG_AUTH; LOG_AUTHPRIV; LOG_CRON; LOG_DAEMON; LOG_FTP; LOG_KERN; LOG_LOCAL0; LOG_LOCAL1;
   LOG_LOCAL2; LOG_LOCAL3; LOG_LOCAL4; LOG_LOCAL5; LOG_LOCAL6; LOG_LOCAL7; LOG_LPR; LOG_MAIL;
   LOG_NEWS; LOG_SYSLOG; LOG_USER; LOG_UUCP].

Definition host_fits (h : option (list Z)) : Prop := exists s, h = Some s /\ zlen s < NI_MAXHOST.

(** Hosts that fit their buffer, ports that are not 0, a window of at most 2^30
    and a facility of syslog. *)
Record config_ok (c : Config) : Prop := {
  ok_host : host_fits (host c);
  ok_port : 1 <= port c <= 65535;
  ok_downstream_host : host_fits (downstream_host c);
  ok_downstream_port : 1 <= downstream_port c <= 65535;
  ok_window : 0 <= spdy_upstream_window_bits c <= 30;
  ok_facility : syslog_facility c ∈ facilities
}.

Lemma c_str_length s : zlen (c_str s) <= zlen s.
Proof.
  induction s as [|c s IH]; simpl; [done|]. destruct (c =? 0); rewrite ?zlen_cons.
  - change (zlen []) with 0. pose proof (zlen_nonneg s). lia.
  - lia.
Qed.

Lemma split_host_port_ok hostport h p old :
  split_host_port NI_MAXHOST hostport = Some (h, p) ->
  host_fits (set_config_str old h) /\ 1 <= p <= 65535.
Proof.
  unfold split_host_port. destruct (_ =? zlen hostport); [done|].
  destruct (Z.ltb_spec NI_MAXHOST (Z.of_nat (std_find hostport (chr ",")) + 1)); [done|].
  destruct (strtoul _) as [d e]. destruct (negb e && _ && _) eqn:E; [|done]. intros [= <- <-].
  zbool. split; [|done]. eexists. split; [done|]. pose proof (c_str_length
    (take (std_find hostport (chr ",")) hostport)) as Hc.
  unfold zlen in Hc at 2. rewrite length_take in Hc. lia.
Qed.

Lemma int_syslog_facility_in s : int_syslog_facility s <> -1 -> int_syslog_facility s ∈ facilities.
Proof.
  unfold int_syslog_facility. cbv zeta.
  repeat match goal with
  | |- context [if strieq ?a ?b then _ else _] =>
      destruct (strieq a b); [intros _; apply list_elem_of_In; cbn; tauto|]
  end. done.
Qed.

(** Case on the option that is read, then on the tests of its branch. *)
Ltac each_option tac :=
  unfold parse_config, set_severity_level_by_name;
  repeat match goal with
  | |- context [if strieq (Some ?opt) (Some ?n) then _ else _] =>
      is_var opt; destruct (strieq (Some opt) (Some n)); [by tac|]
  end; try by tac.

Ltac branch_tests :=
  repeat match goal with
  | |- context [strtoul ?s] => pose proof (strtoul_range s); destruct (strtoul s) as [? []]
  | |- context [match ?t with _ => _ end] => let x := first_test t in destruct x eqn:?
  | H : split_host_port _ _ = Some _ |- _ => apply (split_host_port_ok _ _ _ None) in H as [? ?]
  end.

Lemma parse_config_ok opt arg g :
  config_ok (config g) -> config_ok (config (parse_config opt arg g).2).
Proof.
  intros [Hh Hp Hdh Hdp Hw Hf].
  each_option ltac:(cbn [snd set_severity_level_by_name]; branch_tests; constructor; cbn;
    zbool; auto using int_syslog_facility_in with lia).
Qed.

(** * Options are independent of letter case, and the last one wins *)

(** The name of an option is compared case aside. *)
Lemma parse_config_case opt opt' arg g :
  strieq (Some opt) (Some opt') = true -> parse_config opt arg g = parse_config opt' arg g.
Proof. intros H. unfold parse_config. by rewrite !(strieq_congr opt opt' _ H). Qed.

(** An option that is given again has the effect of its last value alone. *)
Theorem parse_config_last (opt a1 a2 : list Z) (g g1 g2 : globals) :
  parse_config opt a1 g = (0, g1) -> parse_config opt a2 g = (0, g2) ->
  parse_config opt a2 g1 = (0, g2).
Proof.
  each_option ltac:(branch_tests; intros; simplify_eq; reflexivity).
Qed.

(** * The configuration file *)

Inductive file_line := Blank | Comment (text : list Z) | Setting (key value : list Z).

Definition line_text (l : file_line) : list Z :=
  match l with
  | Blank => []
  | Comment t => chr "#" :: t
  | Setting k v => k ++ chr "=" :: v
  end.

Definition file_text (ls : list file_line) : list Z := concat (map (fun l => line_text l ++ [LF]) ls).

Definition settings (ls : list file_line) : list (list Z * list Z) :=
  omap (fun l => match l with Setting k v => Some (k, v) | _ => None end) ls.

(** Keys are not empty, do not start a comment and have no equals sign; nothing
    has a line feed. *)
Definition line_ok (l : file_line) : bool :=
  forallb (fun c => negb (c =? LF)) (line_text l) &&
  match l with
  | Setting k _ => negb (bool_decide (k = [])) && negb (hd 0 k =? chr "#") &&
                   forallb (fun c => negb (c =? chr "=")) k
  | _ => true
  end.

Lemma forallb_free c l : forallb (fun x => negb (x =? c)) l = true -> c ∉ l.
Proof.
  rewrite forallb_Forall_true, Forall_forall. intros H Hin. specialize (H c Hin).
  by rewrite Z.eqb_refl in H.
Qed.

Lemma getlines_text ls :
  Forall (fun l => line_ok l = true) ls -> getlines (file_text ls) = map line_text ls.
Proof.
  unfold getlines, file_text. induction 1 as [|l ls Hl _ IH]; [done|].
  cbn [map concat]. rewrite <- app_assoc. cbn [app].
  unfold line_ok in Hl. apply andb_true_iff in Hl as [Hl _].
  rewrite split_loop_cut by (by apply forallb_free). by rewrite IH.
Qed.

#[local] Opaque parse_config.

Lemma load_line_text l g :
  line_ok l = true ->
  load_line (line_text l) g =
  match l with Setting k v => parse_config k v g | _ => (0, g) end.
Proof.
  unfold line_ok. intros [_ Hk]%andb_true_iff. destruct l as [|t|k v]; [done|done|].
  zbool. apply bool_decide_eq_false in H. unfold load_line. cbn [line_text].
  rewrite bool_decide_eq_false_2 by (by destruct k).
  assert (hd 0 (k ++ chr "=" :: v) = hd 0 k) as -> by (by destruct k).
  destruct (Z.eqb_spec (hd 0 k) (chr "#")); [done|]. cbn [orb].
  rewrite std_find_app by (by apply forallb_free). rewrite length_app.
  destruct (Nat.eqb_spec (length k) (length k + length (chr "=" :: v))); [simpl in *; lia|].
  rewrite take_app_length, drop_app_ge by lia.
  by replace (S (length k) - length k)%nat with 1%nat by lia.
Qed.

(** C35. A file of settings, comments and blank lines does what its settings do as
    options of the command line, in their order. *)
Theorem load_config_settings (ls : list file_line) (g : globals) :
  Forall (fun l => line_ok l = true) ls ->
  apply_options (settings ls) g =
  let '(rv, g') := load_config (Some (file_text ls)) g in
  if rv =? -1 then inl (Exit 1) else inr g'.
Proof.
  intros Hls. cbn [load_config]. rewrite getlines_text by done.
  revert g. induction Hls as [|l ls Hl _ IH]; intros g; [done|].
  cbn [map load_lines]. rewrite load_line_text by done.
  destruct l as [|t|k v]; cbv beta iota;
    [change (0 =? -1) with false; cbv iota; exact (IH g)..|].
  change (settings (Setting k v :: ls)) with ((k, v) :: settings ls).
  cbn [apply_options]. destruct (parse_config k v g) as [rv g'].
  destruct (rv =? -1); [done|apply IH].
Qed.
#[local] Transparent parse_config.

(** * The configuration main runs with *)

(** What every way to change the configuration keeps. *)
Definition keys_set (c : Config) : Prop := private_key_file c <> None /\ cert_file c <> None.

Lemma parse_config_keys opt arg g :
  keys_set (config g) -> keys_set (config (parse_config opt arg g).2).
Proof.
  intros [Hk Hc]. each_option ltac:(branch_tests; split; cbn; auto).
Qed.

(** A property of the configuration that each option keeps holds after a file
    and after the command line. *)
Section Kept.
Context (P : Config -> Prop).
Hypothesis parse_keeps : forall opt arg g, P (config g) -> P (config (parse_config opt arg g).2).

Lemma load_lines_keeps lines g : P (config g) -> P (config (load_lines lines g).2).
Proof.
  revert g. induction lines as [|l lines IH]; intros g Hg; [done|]. cbn [load_lines].
  assert (Hl : P (config (load_line l g).2)).
  { unfold load_line. destruct (_ || _); [done|]. destruct (_ =? _)%nat; [done|]. by apply parse_keeps. }
  destruct (load_line l g) as [rv g']. destruct (rv =? -1); [done|by apply IH].
Qed.

Lemma load_config_keeps content g : P (config g) -> P (config (load_config content g).2).
Proof. destruct content; [apply load_lines_keeps|done]. Qed.

Lemma apply_options_keeps cfgs g g' :
  apply_options cfgs g = inr g' -> P (config g) -> P (config g').
Proof.
  revert g. induction cfgs as [|[opt arg] cfgs IH]; intros g; cbn [apply_options].
  - by intros [= <-].
  - pose proof (parse_keeps opt arg g) as Hp. destruct (parse_config opt arg g) as [rv g1].
    destruct (rv =? -1); [done|]. intros H Hg. by eapply IH; [|apply Hp].
Qed.

End Kept.

Lemma apply_options_app l k g :
  apply_options (l ++ k) g =
  match apply_options l g with inl e => inl e | inr g => apply_options k g end.
Proof.
  revert g. induction l as [|[opt arg] l IH]; intros g; [done|]. cbn [app apply_options].
  destruct (parse_config opt arg g) as [rv g1]. destruct (rv =? -1); [done|apply IH].
Qed.

(** The options of the command line change nothing but the path of the file. *)
Lemma main_options_config os g cfgs g' :
  main_options os g = inr (cfgs, g') ->
  exists path, config g' = (config g) <| conf_path := path |>.
Proof.
  revert g cfgs g'. induction os as [|o os IH]; intros g cfgs g'; cbn [main_options].
  - intros [= <- <-]. exists (conf_path (config g)). by destruct (config g).
  - destruct (main_option o g) as [e|[c1 g1]] eqn:E1; [done|].
    destruct (main_options os g1) as [e|[c2 g2]] eqn:E2; [done|]. intros [= _ <-].
    destruct (IH _ _ _ E2) as [path Hp]. rewrite Hp.
    assert (H1 : exists p1, config g1 = (config g) <| conf_path := p1 |>).
    { revert E1. unfold main_option. cbv zeta.
      assert (config g = (config g) <| conf_path := conf_path (config g) |>) by (by destruct (config g)).
      repeat match goal with
      | |- context [if ?t then _ else _] => destruct t
      end; intros; simplify_eq; eauto; by eexists. }
    destruct H1 as [p1 ->]. by exists path.
Qed.

Lemma hostport_fits c :
  config_ok c -> downstream_hostport_of c = hostport_text c.
Proof.
  intros [_ _ (h & Hh & Hl) Hp _ _]. unfold downstream_hostport_of. apply firstn_all2.
  assert (Hlen : zlen (hostport_text c) <= zlen h + 8).
  { unfold hostport_text. rewrite Hh. cbn [default]. cbv zeta.
    pose proof (int_text_short (downstream_port c) 5 ltac:(lia) ltac:(lia)).
    destruct (is_ipv6_numeric_addr _), (downstream_port c =? 80);
      rewrite ?zlen_app, ?zlen_cons; change (zlen []) with 0; cbn [from_option id]; lia. }
  unfold NI_MAXHOST, zlen in *. lia.
Qed.

Lemma fill_default_ok c : config_ok (fill_default_config c).
Proof.
  constructor.
  - by exists (str "0.0.0.0").
  - change (1 <= 3000 <= 65535). lia.
  - by exists (str "127.0.0.1").
  - change (1 <= 80 <= 65535). lia.
  - change (0 <= 16 <= 30). lia.
  - change (LOG_DAEMON ∈ facilities). apply list_elem_of_In. unfold facilities, In. tauto.
Qed.

Lemma config_ok_path c p : config_ok c -> config_ok (c <| conf_path := p |>).
Proof. by intros []; constructor. Qed.

(** The key and the certificate of the command line. *)
Lemma apply_key_cert k c g g' :
  apply_options [(SHRPX_OPT_PRIVATE_KEY_FILE, k); (SHRPX_OPT_CERTIFICATE_FILE, c)] g = inr g' ->
  keys_set (config g').
Proof.
  cbn [apply_options].
  assert (Hk : forall g, parse_config SHRPX_OPT_PRIVATE_KEY_FILE k g =
    (0, mod_config (fun cf => cf <| private_key_file := set_config_str (private_key_file cf) k |>) g))
    by (intros; reflexivity).
  assert (Hc : forall g, parse_config SHRPX_OPT_CERTIFICATE_FILE c g =
    (0, mod_config (fun cf => cf <| cert_file := set_config_str (cert_file cf) c |>) g))
    by (intros; reflexivity).
  rewrite Hk. change (0 =? -1) with false. cbv iota. rewrite Hc.
  change (0 =? -1) with false. cbv iota. intros [= <-]. done.
Qed.

(** The fields that main sets at its end. *)
Lemma main_finish_ok g g' :
  main_finish g = inr g' -> config_ok (config g) -> keys_set (config g) ->
  config_ok (config g') /\ keys_set (config g') /\
  downstream_hostport (config g') = Some (c_str (hostport_text (config g'))).
Proof.
  unfold main_finish, cache_downstream_host_address. cbv zeta.
  destruct (resolve _ _) as [addr|]; [|done]. intros [= <-] Hok [].
  pose proof (hostport_fits _ Hok) as Hfit. destruct g as [c sev]. cbn [config] in *.
  unfold set_config_str. rewrite Hfit. destruct Hok.
  cbn [config syslog]. destruct (syslog _); (split; [by constructor|done]).
Qed.

Lemma main_load_keeps (P : Config -> Prop) g g' :
  (forall opt arg g, P (config g) -> P (config (parse_config opt arg g).2)) ->
  main_load g = inr g' -> P (config g) -> P (config g').
Proof.
  unfold main_load. cbv zeta. intros HP. destruct (conf_exists _); [|by intros [= <-]].
  pose proof (load_config_keeps P HP (read_file (default [] (conf_path (config g)))) g) as Hl.
  destruct (load_config _ g) as [rv g1]. destruct (rv =? -1); [done|]. by intros [= <-].
Qed.

Lemma main_keys_set rest cmd g g' :
  apply_options (main_keys rest cmd) g = inr g' ->
  (bool_decide (private_key_file (config g) = None) || bool_decide (cert_file (config g) = None)) &&
    (length rest <? 2)%nat = false ->
  keys_set (config g').
Proof.
  assert (Hfile : keys_set (config g) -> apply_options cmd g = inr g' -> keys_set (config g')).
  { intros Hk Ha. by eapply apply_options_keeps; [apply parse_config_keys|..]. }
  destruct rest as [|key [|cert rest]]; cbn [main_keys length Nat.ltb Nat.leb];
    rewrite ?andb_true_r, ?andb_false_r.
  1,2: intros Ha [Hk%bool_decide_eq_false Hc%bool_decide_eq_false]%orb_false_iff;
       by apply Hfile; [split|].
  intros Ha _. rewrite apply_options_app in Ha.
  destruct (apply_options cmd g) as [e|g4]; [done|]. by eapply apply_key_cert.
Qed.

(** C34. The configuration that main makes is well formed and names a key and a
    certificate, whatever the file and the command line hold; the text of the
    backend address is not cut. *)
Theorem main_config_ok (memory : timeval) (os : list found_option) (rest : list (list Z)) (g : globals) :
  main_config memory os rest = inr g ->
  config_ok (config g) /\ keys_set (config g) /\
  downstream_hostport (config g) = Some (c_str (hostport_text (config g))).
Proof.
  unfold main_config. assert (H0 : config_ok (config (main_initial memory))) by apply fill_default_ok.
  destruct (main_options os (main_initial memory)) as [e|[cmd g1]] eqn:E1; [done|].
  assert (H1 : config_ok (config g1)).
  { destruct (main_options_config _ _ _ _ E1) as [path ->]. by apply config_ok_path. }
  destruct (main_load g1) as [e|g2] eqn:E2; [done|].
  assert (H2 : config_ok (config g2)) by (by eapply main_load_keeps; [apply parse_config_ok|..]).
  destruct (_ && _) eqn:Ekeys; [done|].
  destruct (apply_options _ g2) as [e|g3] eqn:E3; [done|]. intros Hf.
  apply (main_finish_ok _ _ Hf).
  - by eapply apply_options_keeps; [apply parse_config_ok|..].
  - by eapply main_keys_set.
Qed.

End Options.

(** A configuration file whose second window option replaces the first. *)
Definition no_users (name : list Z) : option (Z * Z) := None.
Definition some_globals : globals := mk_globals (Config_new (mk_time 0 7)) WARNING.
Definition some_lines : list file_line :=
  [Comment (str " window"); Setting (str "Frontend-SPDY-Window-Bits") (str "17"); Blank;
   Setting (str "backend") (str "::1,8080")].

Lemma load_config_settings_witness :
  apply_options no_users (settings some_lines) some_globals =
  let '(rv, g') := load_config no_users (Some (file_text some_lines)) some_globals in
  if rv =? -1 then inl (Exit 1) else inr g'.
Proof. apply load_config_settings. repeat constructor. Defined.

Lemma parse_config_last_witness :
  parse_config no_users (str "workers") (str "8")
    (parse_config no_users (str "workers") (str "4") some_globals).2 =
  (0, (parse_config no_users (str "workers") (str "8") some_globals).2).
Proof. eapply parse_config_last; reflexivity. Defined.

Definition some_run : ending + globals :=
  main_config no_users (str "1") 100 (fun _ => true)
    (fun _ => Some (file_text some_lines)) (fun h => in_charset h (chr ":"))
    (fun h _ => Some [10; 0; 0; 1]) (mk_time 0 7)
    [mk_found (chr "b") 0 (str "::1,81"); mk_found 0 13 []] [str "key.pem"; str "cert.pem"].

Definition some_result : globals :=
  ltac:(let v := eval vm_compute in some_run in lazymatch v with inr ?g => exact g end).

Lemma main_config_ok_witness :
  config_ok (config some_result) /\ keys_set (config some_result) /\
  downstream_hostport (config some_result) =
    Some (c_str (hostport_text (fun h => in_charset h (chr ":")) (config some_result))).
Proof.
  apply (main_config_ok no_users (str "1") 100 (fun _ => true)
    (fun _ => Some (file_text some_lines)) (fun h => in_charset h (chr ":"))
    (fun h _ => Some [10; 0; 0; 1]) (mk_time 0 7)
    [mk_found (chr "b") 0 (str "::1,81"); mk_found 0 13 []] [str "key.pem"; str "cert.pem"]).
  vm_compute. reflexivity.
Defined.

(** * What the names of levels and facilities leave out *)

(** A facility is read back from its name. *)
Theorem facility_roundtrip (f : Z) :
  f ∈ facilities -> f <> LOG_NEWS -> int_syslog_facility (str_syslog_facility f) = f.
Proof.
  intros Hf%list_elem_of_In Hn. cbn in Hf. decompose [or] Hf; subst; try done; reflexivity.
Qed.

(** The name of the facility news is known when it is read and not when it is
    printed. *)
Theorem facility_news_unnamed :
  int_syslog_facility (str "news") = LOG_NEWS /\
  str_syslog_facility LOG_NEWS = str "(unknown)".
Proof. done. Qed.

(** The help text of main offers the level WARNING, which is the default; as a
    value of the option it is refused, since the table has WARN. *)
Theorem level_warning_refused (g : globals) :
  set_severity_level_by_name (str "WARNING") g = (-1, g) /\
  set_severity_level_by_name (str "WARN") g = (0, set_severity_level WARNING g).
Proof. done. Qed.

(** The microseconds of the timeout of idle connections are what the memory of
    the object held. *)
Theorem idle_timeout_uninitialised (version : list Z) (streams : Z) (memory : timeval) :
  downstream_idle_read_timeout (config (main_initial version streams memory)) =
  mk_time 60 (tv_usec memory).
Proof. done. Qed.

End Config.
