(* ===== verification/ShrpxHttp.v ===== *)
(** HTTP helpers of the reverse proxy: shrpx_http.cc.

    The configuration they read is an argument. *)
From S2P Require Import Prelude Libc CppUtil CppUri Records ShrpxConfig.

Module Http.
Import Util Uri Config.

(** * Status lines and error pages *)

Definition get_status_string (status_code : Z) : list Z :=
  match status_code with
  | 100 => str "100 Continue"
  | 101 => str "101 Switching Protocols"
  | 200 => str "200 OK"
  | 201 => str "201 Created"
  | 202 => str "202 Accepted"
  | 203 => str "203 Non-Authoritative Information"
  | 204 => str "204 No Content"
  | 205 => str "205 Reset Content"
  | 206 => str "206 Partial Content"
  | 300 => str "300 Multiple Choices"
  | 301 => str "301 Moved Permanently"
  | 302 => str "302 Found"
  | 303 => str "303 See Other"
  | 304 => str "304 Not Modified"
  | 305 => str "305 Use Proxy"
  | 307 => str "307 Temporary Redirect"
  | 400 => str "400 Bad Request"
  | 401 => str "401 Unauthorized"
  | 402 => str "402 Payment Required"
  | 403 => str "403 Forbidden"
  | 404 => str "404 Not Found"
  | 405 => str "405 Method Not Allowed"
  | 406 => str "406 Not Acceptable"
  | 407 => str "407 Proxy Authentication Required"
  | 408 => str "408 Request Timeout"
  | 409 => str "409 Conflict"
  | 410 => str "410 Gone"
  | 411 => str "411 Length Required"
  | 412 => str "412 Precondition Failed"
  | 413 => str "413 Request Entity Too Large"
  | 414 => str "414 Request-URI Too Long"
  | 415 => str "415 Unsupported Media Type"
  | 416 => str "416 Requested Range Not Satisfiable"
  | 417 => str "417 Expectation Failed"
  | 500 => str "500 Internal Server Error"
  | 501 => str "501 Not Implemented"
  | 502 => str "502 Bad Gateway"
  | 503 => str "503 Service Unavailable"
  | 504 => str "504 Gateway Timeout"
  | 505 => str "505 HTTP Version Not Supported"
  | _ => []
  end.

Definition create_error_html (c : Config) (status_code : Z) : list Z :=
  let status := get_status_string status_code in
  str "<html><head><title>" ++ status ++ str "</title></head><body>" ++
  str "<h1>" ++ status ++ str "</h1>" ++ str "<hr>" ++
  str "<address>" ++ default [] (server_name c) ++ str " at port " ++ int_text (Config.port c) ++
  str "</address>" ++ str "</body></html>" ++ [LF].

(** static_cast<char>(major + '0') keeps the low byte. *)
Definition create_via_header_value (major minor : Z) : list Z :=
  [u8 (major + chr "0")] ++ str "." ++ [u8 (minor + chr "0")] ++ str " shrpx".

(** * The Location header *)

(** The host of a redirection to the backend is replaced; [None] is a read
    outside the string, which does not happen (parse_total). *)
Definition modify_location_header_value (c : Config) (uri : list Z) : option (list Z) :=
  let rewrite norm_uri :=
    '(ok, us) ← parse UriStruct_new norm_uri;
    if (ok : bool) && (strieq (Some (Uri.host us)) (downstream_host c) &&
                       (Uri.port us =? downstream_port c))
    then Some (construct (set_port (Config.port c)
                 (set_host (default [] (Config.host c)) (set_protocol (str "https") us))))
    else Some uri in
  if istartsWith_c (Some uri) (Some (str "//")) then rewrite (str "http:" ++ uri)
  else if negb (istartsWith_c (Some uri) (Some (str "http://"))) then Some uri
  else rewrite uri.

(** * Theorems *)

(** A status line starts with its number. *)
Theorem status_string_number (n : Z) :
  get_status_string n = [] \/
  exists reason, get_status_string n = int_text n ++ str " " ++ reason.
Proof.
  unfold get_status_string.
  repeat (case_match; try (by left); try (by right; eexists; reflexivity)).
Qed.

(** A name that can stand in the host part of a URI. *)
Definition name_ok (h : list Z) : bool :=
  avoid (str ":/?#@") h && negb (bool_decide (h = [])) && negb (hd 0 h =? chr "[").

(** The Location of a redirection to the backend by name becomes one to the
    frontend: reading the new value back gives the same user, path and query
    with the scheme https and the host and port of the frontend. *)
Theorem location_rewritten (c : Config) (uri h : list Z) (us r : UriStruct) :
  Forall is_byte uri -> istartsWith_c (Some uri) (Some (str "http://")) = true ->
  parse UriStruct_new uri = Some (true, us) ->
  strieq (Some (Uri.host us)) (downstream_host c) = true -> Uri.port us = downstream_port c ->
  ipv6LiteralAddress us = false -> username us <> [] \/ hasPassword us = false ->
  Config.host c = Some h -> name_ok h = true -> 1 <= Config.port c <= 65535 ->
  exists res, modify_location_header_value c uri = Some res /\
    parse r res = Some (true, set_port (Config.port c) (set_host h (set_protocol (str "https") us))).
Proof.
  intros Hb Hhttp Hp Hdh Hdp Hip Hpw Hh Hname Hport. unfold modify_location_header_value.
  assert (Hss : istartsWith_c (Some uri) (Some (str "//")) = false).
  { destruct (istartsWith_c (Some uri) (Some (str "//"))) eqn:E; [|done].
    apply istartsWith_c_spec in E as [k Hk], Hhttp as [k' Hk']. rewrite Hk in Hk'. done. }
  rewrite Hss, Hhttp, Hp. cbn [negb mbind option_bind]. rewrite Hdh.
  destruct (Z.eqb_spec (Uri.port us) (downstream_port c)); [|done]. cbn [andb].
  eexists. split; [done|]. rewrite Hh. cbn [default].
  destruct (parse_accepts _ _ _ Hb Hp) as ((_ & _ & Hd & Hpath & Hhas & Hun & Hpwb) & _ & Hq & Hhash).
  unfold name_ok in Hname. apply andb_true_iff in Hname as [Hname Hb1%negb_true_iff%Z.eqb_neq].
  apply andb_true_iff in Hname as [Havoid Hne%negb_true_iff%bool_decide_eq_false].
  apply parse_construct; [|done|done]. apply parsed_uri_wf; [|done|done|done|done|cbn; lia].
  unfold parsed_ok. cbn [set_port set_host set_protocol Uri.host Uri.port dir file username password
    hasPassword ipv6LiteralAddress]. rewrite Hip. split_and!; auto; lia.
Qed.

Definition some_config : Config :=
  (Config_new (mk_time 0 0)) <| Config.host := Some (str "www.example.com") |>
    <| Config.port := 3000 |> <| downstream_host := Some (str "Backend") |> <| downstream_port := 8080 |>.

Lemma location_rewritten_witness :
  exists res, modify_location_header_value some_config (str "http://backend:8080/a/b?c") = Some res /\
    parse UriStruct_new res = Some (true, mk_uri (str "https") (str "www.example.com") 3000
      (str "/a/") (str "b") (str "?c") [] [] false false).
Proof.
  apply (location_rewritten some_config (str "http://backend:8080/a/b?c") (str "www.example.com")
    (mk_uri (str "http") (str "backend") 8080 (str "/a/") (str "b") (str "?c") [] [] false false)
    UriStruct_new); try reflexivity; [by repeat constructor|by right|by split].
Defined.

(** A backend that is an IPv6 literal leaves its brackets around the name of the
    frontend. *)
Theorem location_keeps_brackets :
  modify_location_header_value (some_config <| downstream_host := Some (str "::1") |>)
    (str "http://[::1]:8080/") = Some (str "https://[www.example.com]:3000/").
Proof. reflexivity. Qed.

End Http.
