(* ===== verification/ShrpxWorld.v ===== *)
(** The objects of the reverse proxy for one client, and how they refer to each
    other: shrpx_io_control.cc, shrpx_downstream_connection.cc, the pool of
    shrpx_client_handler.cc, and the class Downstream of shrpx_downstream.h.

    A pointer to a Downstream or a DownstreamConnection is a number, 0 is not
    used and a null pointer is [None]; the objects that exist are the maps
    [downs] and [dconns] of the world, and an access to an object that is not
    there is the failure [Use_after_free].  The operations are programs of the
    monad [M] of the world.  What a call of libevent or of the SPDY library
    returns is taken from the list [results], and what an attempt to connect
    returns from [connects], 0 when the list is empty; memory for objects is not
    exhausted. *)
From stdpp Require Import gmap.
From S2P Require Import Prelude Libc CppUtil Records ShrpxConfig HttpTypes.

Module World.
Import Config.

(** * Objects *)

(** The callbacks a bufferevent has: those of the client before and after the
    handshake, those of the upstream for a backend, and idle_eventcb. *)
Inductive bev_callbacks := Cb_none | Cb_handshake | Cb_client | Cb_backend | Cb_idle.

Record bufferevent := mk_bev {
  bev_input : list Z;
  bev_output : list Z;
  bev_read : bool;
  bev_watermark : Z;
  bev_cb : bev_callbacks;
  bev_read_timeout : timeval;
  bev_write_timeout : timeval
}.
#[export] Instance eta_bufferevent : Settable bufferevent := fun b =>
  mk_bev (bev_input b) (bev_output b) (bev_read b) (bev_watermark b) (bev_cb b)
    (bev_read_timeout b) (bev_write_timeout b).

(** bufferevent_socket_new: reading is not enabled. *)
Definition bev_new : bufferevent := mk_bev [] [] false 0 Cb_none no_time no_time.

(** The bufferevents that exist: that of the client and those of connections. *)
Inductive bev_ref := Client_bev | Dconn_bev (c : Z).

#[export] Instance bev_ref_eq_dec : EqDecision bev_ref.
Proof. solve_decision. Defined.

(** IOCtrlReason *)
Definition SHRPX_NO_BUFFER : Z := 1.
Definition SHRPX_MSG_BLOCK : Z := 2.

Record IOControl := mk_io { io_bev : option bev_ref; rdbits_ : Z }.
#[export] Instance eta_IOControl : Settable IOControl := fun i => mk_io (io_bev i) (rdbits_ i).

(** ErrorCode *)
Definition SHRPX_ERR_HTTP_PARSE : Z := -2.
Definition SHRPX_ERR_NETWORK : Z := -3.

Definition SHRPX_READ_WARTER_MARK : Z := 64 * 1024.

(** The states of a request and of a response. *)
Inductive dstate := INITIAL | HEADER_COMPLETE | MSG_COMPLETE | STREAM_CLOSED | CONNECT_FAIL | IDLE.

#[export] Instance dstate_eq_dec : EqDecision dstate.
Proof. solve_decision. Defined.

Definition Headers : Type := list (list Z * list Z).

Record Downstream := mk_down {
  dconn_ : option Z;
  stream_id_ : Z;
  priority_ : Z;
  ioctrl_ : IOControl;
  request_state_ : dstate;
  request_method_ : list Z;
  request_path_ : list Z;
  request_major_ : Z;
  request_minor_ : Z;
  chunked_request_ : bool;
  request_connection_close_ : bool;
  request_expect_100_continue_ : bool;
  request_headers_ : Headers;
  request_header_key_prev_ : bool;
  response_state_ : dstate;
  response_http_status_ : Z;
  response_major_ : Z;
  response_minor_ : Z;
  chunked_response_ : bool;
  response_connection_close_ : bool;
  response_headers_ : Headers;
  response_header_key_prev_ : bool;
  response_htp_ : http_parser;
  response_body_buf_ : option (list Z);
  recv_window_size_ : Z
}.
#[export] Instance eta_Downstream : Settable Downstream := fun d =>
  mk_down (dconn_ d) (stream_id_ d) (priority_ d) (ioctrl_ d) (request_state_ d)
    (request_method_ d) (request_path_ d) (request_major_ d) (request_minor_ d)
    (chunked_request_ d) (request_connection_close_ d) (request_expect_100_continue_ d)
    (request_headers_ d) (request_header_key_prev_ d) (response_state_ d)
    (response_http_status_ d) (response_major_ d) (response_minor_ d) (chunked_response_ d)
    (response_connection_close_ d) (response_headers_ d) (response_header_key_prev_ d)
    (response_htp_ d) (response_body_buf_ d) (recv_window_size_ d).

(** The constructor Downstream(upstream, stream_id, priority). *)
Definition Downstream_new (stream_id priority : Z) : Downstream :=
  mk_down None stream_id priority (mk_io None 0) INITIAL [] [] 1 1 false false false [] false
    INITIAL 0 1 1 false false [] false (http_parser_init HTTP_RESPONSE) None 0.

Record DownstreamConnection := mk_dconn { bev_ : option bufferevent; downstream_ : option Z }.
#[export] Instance eta_DownstreamConnection : Settable DownstreamConnection := fun c =>
  mk_dconn (bev_ c) (downstream_ c).

(** * The world of one client *)

(** How the code can go wrong: a null pointer that is followed, an object that
    was deleted, an assertion of the proxy, that of http_parser_pause, the macro
    DIE, back() of an empty vector, a write outside an array. *)
Inductive failure :=
  Null_pointer | Use_after_free | Assertion | Pause_assertion | Died | Empty_vector | Buffer_overrun.

Section World.
Context {Up : Type}.

(** ClientHandler; [Up] is the class of its upstream_. *)
Record ClientHandler := mk_handler {
  ch_bev : bufferevent;
  upstream_ : option Up;
  ipaddr_ : list Z;
  should_close_after_write_ : bool;
  dconn_pool_ : gset Z
}.
#[export] Instance eta_ClientHandler : Settable ClientHandler := fun h =>
  mk_handler (ch_bev h) (upstream_ h) (ipaddr_ h) (should_close_after_write_ h) (dconn_pool_ h).

Record world := mk_world {
  cfg : Config;
  results : list Z;
  connects : list Z;
  downs : gmap Z Downstream;
  dconns : gmap Z DownstreamConnection;
  fresh : Z;
  client : option ClientHandler
}.
#[export] Instance eta_world : Settable world := fun w =>
  mk_world (cfg w) (results w) (connects w) (downs w) (dconns w) (fresh w) (client w).

Definition M (A : Type) : Type := world -> failure + A * world.

#[export] Instance M_ret : MRet M := fun A a w => inr (a, w).
#[export] Instance M_bind : MBind M := fun A B k m w =>
  match m w with inl e => inl e | inr (a, w) => k a w end.

Definition failed {A} (e : failure) : M A := fun _ => inl e.
Definition get : M world := fun w => inr (w, w).
Definition update (f : world -> world) : M unit := fun w => inr (tt, f w).
Definition check (b : bool) (e : failure) : M unit := if b then mret tt else failed e.
Definition when (b : bool) (m : M unit) : M unit := if b then m else mret tt.

(** A pointer that is followed. *)
Definition nonnull {A} (p : option A) : M A :=
  match p with Some a => mret a | None => failed Null_pointer end.

(** What the next library call that can fail returns. *)
Definition next_result : M Z := fun w =>
  match results w with
  | [] => inr (0, w)
  | r :: rs => inr (r, w <| results := rs |>)
  end.

(** What bufferevent_socket_connect returns. *)
Definition next_connect : M Z := fun w =>
  match connects w with
  | [] => inr (0, w)
  | r :: rs => inr (r, w <| connects := rs |>)
  end.

(** ** Access to objects *)

Definition get_down (d : Z) : M Downstream := fun w =>
  match downs w !! d with Some x => inr (x, w) | None => inl Use_after_free end.
Definition set_down (d : Z) (x : Downstream) : M unit := fun w =>
  match downs w !! d with
  | Some _ => inr (tt, w <| downs := <[d := x]> (downs w) |>)
  | None => inl Use_after_free
  end.
Definition mod_down (d : Z) (f : Downstream -> Downstream) : M unit :=
  x ← get_down d; set_down d (f x).

Definition get_dconn (c : Z) : M DownstreamConnection := fun w =>
  match dconns w !! c with Some x => inr (x, w) | None => inl Use_after_free end.
Definition set_dconn (c : Z) (x : DownstreamConnection) : M unit := fun w =>
  match dconns w !! c with
  | Some _ => inr (tt, w <| dconns := <[c := x]> (dconns w) |>)
  | None => inl Use_after_free
  end.
Definition mod_dconn (c : Z) (f : DownstreamConnection -> DownstreamConnection) : M unit :=
  x ← get_dconn c; set_dconn c (f x).

Definition get_client : M ClientHandler := fun w =>
  match client w with Some h => inr (h, w) | None => inl Use_after_free end.
Definition mod_client (f : ClientHandler -> ClientHandler) : M unit :=
  h ← get_client; update (fun w => w <| client := Some (f h) |>).

Definition get_bev (r : bev_ref) : M bufferevent :=
  match r with
  | Client_bev => h ← get_client; mret (ch_bev h)
  | Dconn_bev c => x ← get_dconn c; nonnull (bev_ x)
  end.
Definition set_bev (r : bev_ref) (b : bufferevent) : M unit :=
  match r with
  | Client_bev => mod_client (fun h => h <| ch_bev := b |>)
  | Dconn_bev c => mod_dconn c (fun x => x <| bev_ := Some b |>)
  end.
Definition mod_bev (r : bev_ref) (f : bufferevent -> bufferevent) : M unit :=
  b ← get_bev r; set_bev r (f b).

(** evbuffer_add to the output of a bufferevent, and bufferevent_write. *)
Definition output_add (r : bev_ref) (data : list Z) : M Z :=
  b ← get_bev r; rv ← next_result;
  (if rv =? 0 then set_bev r (b <| bev_output := bev_output b ++ data |>) else mret tt);;
  mret rv.

(** ** IOControl *)

Definition io_pause_read (io : IOControl) (reason : Z) : M IOControl :=
  match io_bev io with
  | Some r => mod_bev r (fun b => b <| bev_read := false |>)
  | None => mret tt
  end;;
  mret (io <| rdbits_ := Z.lor (rdbits_ io) reason |>).

Definition io_resume_read (io : IOControl) (reason : Z) : M (bool * IOControl) :=
  let io := io <| rdbits_ := Z.ldiff (rdbits_ io) reason |> in
  if rdbits_ io =? 0 then
    match io_bev io with
    | Some r => mod_bev r (fun b => b <| bev_read := true |>)
    | None => mret tt
    end;;
    mret (true, io)
  else mret (false, io).

Definition io_force_resume_read (io : IOControl) : M IOControl :=
  match io_bev io with
  | Some r => mod_bev r (fun b => b <| bev_read := true |>)
  | None => mret tt
  end;;
  mret (io <| rdbits_ := 0 |>).

(** ** Downstream: connection and reading *)

Definition set_downstream_connection (d : Z) (dconn : option Z) : M unit :=
  match dconn with
  | Some c =>
      x ← get_dconn c;
      mod_down d (fun o => o <| dconn_ := Some c |>
        <| ioctrl_ := (ioctrl_ o) <| io_bev := match bev_ x with Some _ => Some (Dconn_bev c)
                                                             | None => None end |> |>)
  | None => mod_down d (fun o => o <| dconn_ := None |> <| ioctrl_ := (ioctrl_ o) <| io_bev := None |> |>)
  end.

Definition down_pause_read (d : Z) (reason : Z) : M unit :=
  o ← get_down d; io ← io_pause_read (ioctrl_ o) reason;
  mod_down d (fun o => o <| ioctrl_ := io |>).

Definition down_resume_read (d : Z) (reason : Z) : M bool :=
  o ← get_down d; '(b, io) ← io_resume_read (ioctrl_ o) reason;
  mod_down d (fun o => o <| ioctrl_ := io |>);; mret b.

Definition down_force_resume_read (d : Z) : M unit :=
  o ← get_down d; io ← io_force_resume_read (ioctrl_ o);
  mod_down d (fun o => o <| ioctrl_ := io |>).

(** ** DownstreamConnection *)

Definition max_timeout : timeval := mk_time 86400 0.

(** new DownstreamConnection(this) *)
Definition new_dconn : M Z := fun w =>
  inr (fresh w, w <| dconns := <[fresh w := mk_dconn None None]> (dconns w) |> <| fresh := fresh w + 1 |>).

(** The destructor; its bufferevent is freed with it. *)
Definition delete_dconn (c : Z) : M unit :=
  x ← get_dconn c;
  match downstream_ x with Some d => set_downstream_connection d None | None => mret tt end;;
  update (fun w => w <| dconns := delete c (dconns w) |>).

Definition attach_downstream (c d : Z) : M Z :=
  o ← get_down d;
  x ← get_dconn c;
  w ← get;
  rv ← match bev_ x with
       | Some _ => mret 0
       | None =>
           rv ← next_connect;
           if rv =? 0 then set_dconn c (x <| bev_ := Some bev_new |>);; mret 0
           else mret SHRPX_ERR_NETWORK
       end;
  if negb (rv =? 0) then mret rv else
  set_downstream_connection d (Some c);;
  mod_dconn c (fun x => x <| downstream_ := Some d |>);;
  mod_bev (Dconn_bev c) (fun b => b <| bev_watermark := SHRPX_READ_WARTER_MARK |>
    <| bev_read := true |> <| bev_cb := Cb_backend |>
    <| bev_read_timeout := max_timeout |> <| bev_write_timeout := downstream_write_timeout (cfg w) |>);;
  mret 0.

Definition start_waiting_response (c : Z) : M unit :=
  x ← get_dconn c; w ← get;
  match bev_ x with
  | Some _ => mod_bev (Dconn_bev c) (fun b => b <| bev_read_timeout := downstream_read_timeout (cfg w) |>
                <| bev_write_timeout := downstream_write_timeout (cfg w) |>)
  | None => mret tt
  end.

(** ** The pool of the client handler *)

Definition pool_downstream_connection (c : Z) : M unit :=
  mod_client (fun h => h <| dconn_pool_ := {[c]} ∪ dconn_pool_ h |>).

Definition remove_downstream_connection (c : Z) : M unit :=
  mod_client (fun h => h <| dconn_pool_ := dconn_pool_ h ∖ {[c]} |>).

(** *dconn_pool_.begin(): which element is first depends on the addresses. *)
Definition get_downstream_connection : M Z :=
  h ← get_client;
  match elements (dconn_pool_ h) with
  | [] => new_dconn
  | c :: _ => remove_downstream_connection c;; mret c
  end.

Definition detach_downstream (c d : Z) : M unit :=
  set_downstream_connection d None;;
  mod_dconn c (fun x => x <| downstream_ := None |>);;
  w ← get;
  mod_bev (Dconn_bev c) (fun b => b <| bev_read := true |> <| bev_cb := Cb_idle |>
    <| bev_read_timeout := downstream_idle_read_timeout (cfg w) |>
    <| bev_write_timeout := downstream_write_timeout (cfg w) |>);;
  pool_downstream_connection c.

(** The event bits of libevent. *)
Definition BEV_EVENT_EOF : Z := 16.
Definition BEV_EVENT_ERROR : Z := 32.
Definition BEV_EVENT_TIMEOUT : Z := 64.
Definition BEV_EVENT_CONNECTED : Z := 128.

(** The event callback of a pooled connection. *)
Definition idle_eventcb (c : Z) (events : Z) : M unit :=
  if has_flag events BEV_EVENT_CONNECTED then mret tt
  else remove_downstream_connection c;; delete_dconn c.

(** ** Downstream objects *)

Definition new_down (stream_id priority : Z) : M Z := fun w =>
  inr (fresh w, w <| downs := <[fresh w := Downstream_new stream_id priority]> (downs w) |>
                  <| fresh := fresh w + 1 |>).

(** The destructor of Downstream. *)
Definition delete_down (d : Z) : M unit :=
  o ← get_down d;
  match dconn_ o with Some c => delete_dconn c | None => mret tt end;;
  update (fun w => w <| downs := delete d (downs w) |>).

Definition get_pending_write_length : M Z :=
  b ← get_bev Client_bev; mret (zlen (bev_output b)).

Definition set_should_close_after_write (f : bool) : M unit :=
  mod_client (fun h => h <| should_close_after_write_ := f |>).

(** What an upstream provides to the rest of the proxy: class Upstream of
    shrpx_upstream.h, and its destructor. *)
Class UpstreamOps := {
  on_downstream_header_complete : Z -> M Z;
  on_downstream_body : Z -> list Z -> M Z;
  on_downstream_body_complete : Z -> M Z;
  delete_upstream : M unit
}.

(** The destructor of ClientHandler: the upstream, then the pool. *)
Definition delete_handler `{UpstreamOps} : M unit :=
  h ← get_client;
  match upstream_ h with Some _ => delete_upstream | None => mret tt end;;
  h ← get_client;
  foldr (fun c m => delete_dconn c;; m) (mret tt) (elements (dconn_pool_ h));;
  update (fun w => w <| client := None |>).

End World.
Arguments ClientHandler Up : clear implicits.
Arguments world Up : clear implicits.
Arguments M Up A : clear implicits.
Arguments UpstreamOps Up : clear implicits.

End World.
