(* ===== verification/ShrpxDownstream.v ===== *)
(** Requests and responses in the reverse proxy: shrpx_downstream.cc.

    The operations that read and write the fields of one Downstream object are
    functions of the record; those that reach its connection, its upstream or
    the parser of responses are programs of the monad of ShrpxWorld.v, with the
    upstream as an instance of [UpstreamOps]. *)
From stdpp Require Import gmap.
From S2P Require Import Prelude Libc CppUtil CppUri Records ShrpxConfig ShrpxHttp.
From S2P Require Import HttpTypes HttpExec ShrpxWorld.

Module Down.
Import Util Config Http World.

(** * Header fields *)

(** strieq and strifind of std::string members with literals. *)
Definition name_is (name lit : list Z) : bool := strieq (Some name) (Some lit).
Definition value_has (value lit : list Z) : bool := strifind (Some value) (Some lit).

Definition check_header_field (result : bool) (item : list Z * list Z) (name value : list Z) : bool :=
  if name_is item.1 name then if value_has item.2 value then true else result else result.

Definition check_transfer_encoding_chunked (chunked : bool) (item : list Z * list Z) : bool :=
  check_header_field chunked item (str "transfer-encoding") (str "chunked").

Definition check_expect_100_continue (res : bool) (item : list Z * list Z) : bool :=
  check_header_field res item (str "expect") (str "100-continue").

(** Not called: its two uses are commented out. *)
Definition check_connection_close (connection_close : bool) (item : list Z * list Z) : bool :=
  if name_is item.1 (str "connection") then
    if value_has item.2 (str "close") then true
    else if value_has item.2 (str "keep-alive") then false
    else connection_close
  else connection_close.

(** A change of the last element of a vector; back() of an empty one is
    undefined. *)
Fixpoint mod_last (f : list Z * list Z -> list Z * list Z) (hs : Headers) : option Headers :=
  match hs with
  | [] => None
  | [h] => Some [f h]
  | h :: hs => hs ← mod_last f hs; Some (h :: hs)
  end.

Definition last_or (hs : Headers) : list Z * list Z := List.last hs ([], []).

(** ** Of the request *)

Definition add_request_header (name value : list Z) (d : Downstream) : Downstream :=
  d <| request_header_key_prev_ := true |>
    <| request_headers_ := request_headers_ d ++ [(name, value)] |>.

Definition set_last_request_header_value (value : list Z) (d : Downstream) : failure + Downstream :=
  match mod_last (fun h => (h.1, value)) (request_headers_ d) with
  | None => inl Empty_vector
  | Some hs =>
      let item := last_or hs in
      inr (d <| request_header_key_prev_ := false |>
             <| request_headers_ := hs |>
             <| chunked_request_ := check_transfer_encoding_chunked (chunked_request_ d) item |>
             <| request_expect_100_continue_ :=
                  check_expect_100_continue (request_expect_100_continue_ d) item |>)
  end.

Definition append_last_request_header_key (data : list Z) (d : Downstream) : failure + Downstream :=
  if request_header_key_prev_ d then
    match mod_last (fun h => (h.1 ++ data, h.2)) (request_headers_ d) with
    | None => inl Empty_vector
    | Some hs => inr (d <| request_headers_ := hs |>)
    end
  else inl Assertion.

Definition append_last_request_header_value (data : list Z) (d : Downstream) : failure + Downstream :=
  if request_header_key_prev_ d then inl Assertion
  else
    match mod_last (fun h => (h.1, h.2 ++ data)) (request_headers_ d) with
    | None => inl Empty_vector
    | Some hs => inr (d <| request_headers_ := hs |>)
    end.

Definition append_request_path (data : list Z) (d : Downstream) : Downstream :=
  d <| request_path_ := request_path_ d ++ data |>.

(** ** Of the response *)

Definition add_response_header (name value : list Z) (d : Downstream) : Downstream :=
  d <| response_header_key_prev_ := true |>
    <| response_headers_ := response_headers_ d ++ [(name, value)] |>.

Definition set_last_response_header_value (value : list Z) (d : Downstream) : failure + Downstream :=
  match mod_last (fun h => (h.1, value)) (response_headers_ d) with
  | None => inl Empty_vector
  | Some hs =>
      inr (d <| response_header_key_prev_ := false |>
             <| response_headers_ := hs |>
             <| chunked_response_ := check_transfer_encoding_chunked (chunked_response_ d) (last_or hs) |>)
  end.

Definition append_last_response_header_key (data : list Z) (d : Downstream) : failure + Downstream :=
  if response_header_key_prev_ d then
    match mod_last (fun h => (h.1 ++ data, h.2)) (response_headers_ d) with
    | None => inl Empty_vector
    | Some hs => inr (d <| response_headers_ := hs |>)
    end
  else inl Assertion.

Definition append_last_response_header_value (data : list Z) (d : Downstream) : failure + Downstream :=
  if response_header_key_prev_ d then inl Assertion
  else
    match mod_last (fun h => (h.1, h.2 ++ data)) (response_headers_ d) with
    | None => inl Empty_vector
    | Some hs => inr (d <| response_headers_ := hs |>)
    end.

Definition get_response_version (d : Downstream) : Z := response_major_ d * 100 + response_minor_ d.

(** * The request that is sent to the backend *)

Definition CRLF : list Z := [CR; LF].

(** The header fields that are not sent. *)
Definition hop_by_hop (name : list Z) : bool :=
  name_is name (str "X-Forwarded-Proto") || name_is name (str "keep-alive") ||
  name_is name (str "connection") || name_is name (str "proxy-connection").

(** The loop over the header fields: the text so far, and the values of via and
    x-forwarded-for. *)
Fixpoint request_header_loop (hs : Headers) (hdrs via_value xff_value : list Z)
    : list Z * list Z * list Z :=
  match hs with
  | [] => (hdrs, via_value, xff_value)
  | (name, value) :: hs =>
      if hop_by_hop name then request_header_loop hs hdrs via_value xff_value
      else if name_is name (str "via") then request_header_loop hs hdrs value xff_value
      else if name_is name (str "x-forwarded-for") then request_header_loop hs hdrs via_value value
      else if name_is name (str "expect") && value_has value (str "100-continue")
      then request_header_loop hs hdrs via_value xff_value
      else request_header_loop hs (hdrs ++ name ++ str ": " ++ value ++ CRLF) via_value xff_value
  end.

(** The text that push_request_headers makes; [ip] is the address of the client. *)
Definition request_text (c : Config) (ip : list Z) (d : Downstream) : list Z :=
  let hdrs := request_method_ d ++ str " " ++ request_path_ d ++ str " " ++ str "HTTP/1.1" ++ CRLF in
  let '(hdrs, via_value, xff_value) := request_header_loop (request_headers_ d) hdrs [] [] in
  let hdrs := if request_connection_close_ d then hdrs ++ str "Connection: close" ++ CRLF else hdrs in
  let hdrs :=
    if add_x_forwarded_for c then
      hdrs ++ str "X-Forwarded-For: " ++
      (if bool_decide (xff_value = []) then [] else xff_value ++ str ", ") ++ ip ++ CRLF
    else if bool_decide (xff_value = []) then hdrs
    else hdrs ++ str "X-Forwarded-For: " ++ xff_value ++ CRLF in
  let hdrs :=
    if bool_decide (request_method_ d = str "CONNECT") then hdrs
    else hdrs ++ str "X-Forwarded-Proto: " ++
         (if istartsWith (request_path_ d) (str "http:") then str "http" else str "https") ++ CRLF in
  hdrs ++ str "Via: " ++ via_value ++ (if bool_decide (via_value = []) then [] else str ", ") ++
  create_via_header_value (request_major_ d) (request_minor_ d) ++ CRLF ++ CRLF.

Definition DOWNSTREAM_OUTPUT_UPPER_THRES : Z := 64 * 1024.

(** The header of a chunk: the size in hexadecimal digits. *)
Definition chunk_head (datalen : Z) : list Z := uint_hex datalen ++ CRLF.

Definition tunnel_established (d : Downstream) : bool :=
  bool_decide (request_method_ d = str "CONNECT") &&
  (200 <=? response_http_status_ d) && (response_http_status_ d <? 300).

Section Down.
Context {Up : Type} `{ops : UpstreamOps Up}.
Notation M := (World.M Up).

(** A function of the record that can fail, on an object. *)
Definition try_down (d : Z) (f : Downstream -> failure + Downstream) : M unit :=
  o ← get_down d;
  match f o with inl e => failed e | inr o => set_down d o end.

Definition get_output_buffer_full (d : Z) : M bool :=
  o ← get_down d;
  match dconn_ o with
  | Some c => b ← get_bev (Dconn_bev c);
              mret (DOWNSTREAM_OUTPUT_UPPER_THRES <=? zlen (bev_output b))
  | None => mret false
  end.

Definition push_request_headers (d : Z) : M Z :=
  o ← get_down d; w ← get; h ← get_client;
  c ← nonnull (dconn_ o);
  rv ← output_add (Dconn_bev c) (request_text (cfg w) (ipaddr_ h) o);
  if negb (rv =? 0) then mret (-1) else start_waiting_response c;; mret 0.

Definition push_upload_data_chunk (d : Z) (data : list Z) : M Z :=
  o ← get_down d;
  match dconn_ o with
  | None => mret 0
  | Some c =>
      let head := chunk_head (zlen data) in
      let add text (k : Z -> M Z) : M Z :=
        rv ← output_add (Dconn_bev c) text; if rv =? -1 then mret (-1) else k rv in
      if chunked_request_ o then
        add head (fun _ => add data (fun rv => add CRLF (fun _ => mret (zlen head + rv + 2))))
      else add data (fun rv => mret rv)
  end.

Definition end_upload_data (d : Z) : M Z :=
  o ← get_down d;
  if chunked_request_ o then
    c ← nonnull (dconn_ o);
    rv ← output_add (Dconn_bev c) (str "0" ++ CRLF ++ CRLF);
    mret (if rv =? 0 then 0 else -1)
  else mret 0.

(** * The response of the backend *)

Definition htp_hdrs_completecb (d : Z) (htp : http_parser) : M Z :=
  mod_down d (fun o => o <| response_http_status_ := hp_status_code htp |>
    <| response_major_ := hp_http_major htp |> <| response_minor_ := hp_http_minor htp |>
    <| response_connection_close_ := negb (http_should_keep_alive htp) |>
    <| response_state_ := HEADER_COMPLETE |>);;
  rv ← on_downstream_header_complete d;
  if negb (rv =? 0) then mret (-1) else
  o ← get_down d;
  let status := response_http_status_ o in
  mret (if bool_decide (request_method_ o = str "HEAD") || ((100 <=? status) && (status <=? 199)) ||
           (status =? 204) || (status =? 304) then 1 else 0).

Definition htp_hdr_keycb (d : Z) (data : list Z) : M Z :=
  try_down d (fun o => if response_header_key_prev_ o then append_last_response_header_key data o
                       else inr (add_response_header data [] o));; mret 0.

Definition htp_hdr_valcb (d : Z) (data : list Z) : M Z :=
  try_down d (fun o => if response_header_key_prev_ o then set_last_response_header_value data o
                       else append_last_response_header_value data o);; mret 0.

Definition htp_bodycb (d : Z) (data : list Z) : M Z := on_downstream_body d data.

Definition htp_msg_completecb (d : Z) : M Z :=
  mod_down d (fun o => o <| response_state_ := MSG_COMPLETE |>);; on_downstream_body_complete d.

(** A callback of the parser as a function of the world, which has failed or
    not; a callback is not called again after a failure. *)
Definition run_cb (m : M (Z * option bool)) (u : failure + world Up) : cb_result (failure + world Up) :=
  match u with
  | inl e => mk_cb (-1) None (inl e)
  | inr w =>
      match m w with
      | inl e => mk_cb (-1) None (inl e)
      | inr (rv, pause, w) => mk_cb rv pause (inr w)
      end
  end.

Definition no_pause (m : M Z) : M (Z * option bool) := rv ← m; mret (rv, None).

Definition htp_hooks (d : Z) : http_parser_settings (failure + world Up) :=
  mk_settings None None
    (Some (fun _ data => run_cb (no_pause (htp_hdr_keycb d data))))
    (Some (fun _ data => run_cb (no_pause (htp_hdr_valcb d data))))
    (Some (fun htp => run_cb (no_pause (htp_hdrs_completecb d htp))))
    (Some (fun _ data => run_cb (no_pause (htp_bodycb d data))))
    (Some (fun _ => run_cb (no_pause (htp_msg_completecb d)))).

(** http_parser_execute with the world as the data of the application. *)
Definition execute_in (settings : http_parser_settings (failure + world Up)) (data : list Z) (htp : http_parser)
    : M (http_parser * Z) := fun w =>
  match http_parser_execute settings data htp (inr w) with
  | Returned p (inr w) n => inr ((p, n), w)
  | Returned _ (inl e) _ => inl e
  | Aborted | Diverged => inl Assertion
  end.

Definition parse_http_response (d : Z) : M Z :=
  o ← get_down d;
  c ← nonnull (dconn_ o);
  b ← get_bev (Dconn_bev c);
  '(htp, nread) ← execute_in (htp_hooks d) (bev_input b) (response_htp_ o);
  mod_down d (fun o => o <| response_htp_ := htp |>);;
  mod_bev (Dconn_bev c) (fun b => b <| bev_input := drop (Z.to_nat nread) (bev_input b) |>);;
  mret (if errno_ok htp then 0 else SHRPX_ERR_HTTP_PARSE).

(** init_response_body_buf, and the callback of that buffer when it is emptied. *)
Definition init_response_body_buf (d : Z) : M unit :=
  mod_down d (fun o => match response_body_buf_ o with
                       | Some _ => o
                       | None => o <| response_body_buf_ := Some [] |>
                       end).

Definition body_buf_cb (d : Z) (newlen : Z) : M unit :=
  if newlen =? 0 then down_resume_read d SHRPX_NO_BUFFER;; mret tt else mret tt.

End Down.

End Down.
