(* ===== verification/ShrpxObjects.v ===== *)
(** The objects of one client and who points to whom, for either upstream.

    [wp] is the weakest precondition of a program of the monad; which failures it
    tolerates is chosen for each class of upstream by an instance of [Tolerates].
    [conns_ok] is the shape of the requests and connections: an attached pair
    points to each other, and a connection without a Downstream is in the pool.
    A lemma per operation of ShrpxWorld.v says how the shape changes. *)
From stdpp Require Import gmap.
From S2P Require Import Prelude Records ShrpxConfig HttpTypes HttpExec ShrpxWorld ShrpxDownstream.

Module Objects.
Import Config World Down.

(** * Weakest preconditions *)

Class Tolerates (Up : Type) := tolerates : failure -> Prop.

Section Wp.
Context {Up : Type} {tol : Tolerates Up}.
Notation M := (World.M Up).
Notation world := (World.world Up).

Definition wp {A} (m : M A) (Q : A -> world -> Prop) (w : world) : Prop :=
  match m w with inl e => tolerates e | inr (a, w) => Q a w end.

Lemma wp_ret {A} (a : A) (Q : A -> world -> Prop) w : Q a w -> wp (mret a) Q w.
Proof. done. Qed.

Lemma wp_bind {A B} (m : M A) (k : A -> M B) Q w :
  wp m (fun a => wp (k a) Q) w -> wp (m ≫= k) Q w.
Proof. unfold wp, mbind, M_bind. by destruct (m w) as [e|[a w']]. Qed.

Lemma wp_mono {A} (m : M A) (P Q : A -> world -> Prop) w :
  wp m P w -> (forall a w', P a w' -> Q a w') -> wp m Q w.
Proof. unfold wp. destruct (m w) as [e|[a w']]; auto. Qed.

Lemma wp_and {A} (m : M A) (P Q R : A -> world -> Prop) w :
  wp m P w -> wp m Q w -> (forall a w', P a w' -> Q a w' -> R a w') -> wp m R w.
Proof. unfold wp. destruct (m w) as [e|[a w']]; auto. Qed.

Lemma wp_get Q (w : world) : Q w w -> wp World.get Q w.
Proof. done. Qed.

Lemma wp_check b e (Q : unit -> world -> Prop) w : b = true -> Q tt w -> wp (check b e) Q w.
Proof. by intros ->. Qed.

(** A Downstream with a connection and without one. *)
Definition attached (c : Z) (o : Downstream) : Downstream :=
  o <| dconn_ := Some c |> <| ioctrl_ := (ioctrl_ o) <| io_bev := Some (Dconn_bev c) |> |>.
Definition unattached (o : Downstream) : Downstream :=
  o <| dconn_ := None |> <| ioctrl_ := (ioctrl_ o) <| io_bev := None |> |>.

(** Operations on objects that are there. *)
Lemma raw_get_down d o (Q : Downstream -> world -> Prop) w :
  downs w !! d = Some o -> Q o w -> wp (get_down d) Q w.
Proof. intros Ho HQ. unfold wp, get_down. by rewrite Ho. Qed.

Lemma raw_get_dconn c x (Q : DownstreamConnection -> world -> Prop) w :
  dconns w !! c = Some x -> Q x w -> wp (get_dconn c) Q w.
Proof. intros Hx HQ. unfold wp, get_dconn. by rewrite Hx. Qed.

Lemma raw_mod_dconn c x f (Q : unit -> world -> Prop) w :
  dconns w !! c = Some x -> Q tt (w <| dconns := <[c := f x]> (dconns w) |>) -> wp (mod_dconn c f) Q w.
Proof.
  intros Hx HQ. apply wp_bind. eapply raw_get_dconn; [done|]. unfold wp, set_dconn. by rewrite Hx.
Qed.

Lemma raw_get_dconn_bev c x b (Q : bufferevent -> world -> Prop) w :
  dconns w !! c = Some x -> bev_ x = Some b -> Q b w -> wp (get_bev (Dconn_bev c)) Q w.
Proof. intros Hx Hb HQ. apply wp_bind. eapply raw_get_dconn; [done|]. by rewrite Hb. Qed.

Lemma raw_mod_dconn_bev c x b f (Q : unit -> world -> Prop) w :
  dconns w !! c = Some x -> bev_ x = Some b ->
  Q tt (w <| dconns := <[c := x <| bev_ := Some (f b) |>]> (dconns w) |>) ->
  wp (mod_bev (Dconn_bev c) f) Q w.
Proof.
  intros Hx Hb HQ. apply wp_bind. eapply raw_get_dconn_bev; [done..|]. by eapply raw_mod_dconn.
Qed.

Lemma raw_set_down d o o' (Q : unit -> world -> Prop) w :
  downs w !! d = Some o -> Q tt (w <| downs := <[d := o']> (downs w) |>) -> wp (set_down d o') Q w.
Proof. intros Ho HQ. unfold wp, set_down. by rewrite Ho. Qed.

Lemma raw_mod_down d o f (Q : unit -> world -> Prop) w :
  downs w !! d = Some o -> Q tt (w <| downs := <[d := f o]> (downs w) |>) -> wp (mod_down d f) Q w.
Proof. intros Ho HQ. apply wp_bind. eapply raw_get_down; [done|]. by eapply raw_set_down. Qed.

Lemma raw_set_connection d o c x b (Q : unit -> world -> Prop) w :
  downs w !! d = Some o -> dconns w !! c = Some x -> bev_ x = Some b ->
  Q tt (w <| downs := <[d := attached c o]> (downs w) |>) ->
  wp (set_downstream_connection d (Some c)) Q w.
Proof.
  intros Ho Hx Hb HQ. apply wp_bind. eapply raw_get_dconn; [done|]. rewrite Hb. by eapply raw_mod_down.
Qed.

Lemma raw_delete_dconn c x d o (Q : unit -> world -> Prop) w :
  dconns w !! c = Some x -> downstream_ x = Some d -> downs w !! d = Some o ->
  Q tt (w <| downs := <[d := unattached o]> (downs w) |> <| dconns := delete c (dconns w) |>) ->
  wp (delete_dconn c) Q w.
Proof.
  intros Hx Hd Ho HQ. apply wp_bind. eapply raw_get_dconn; [done|]. rewrite Hd.
  apply wp_bind. eapply raw_mod_down; [done|]. exact HQ.
Qed.

Lemma raw_get_client h (Q : ClientHandler Up -> world -> Prop) w :
  client w = Some h -> Q h w -> wp get_client Q w.
Proof. intros Hh HQ. unfold wp, get_client. by rewrite Hh. Qed.

Lemma raw_mod_client h f (Q : unit -> world -> Prop) w :
  client w = Some h -> Q tt (w <| client := Some (f h) |>) -> wp (mod_client f) Q w.
Proof. intros Hh HQ. apply wp_bind. by eapply raw_get_client. Qed.

Lemma raw_mod_client_bev h f (Q : unit -> world -> Prop) w :
  client w = Some h -> Q tt (w <| client := Some (h <| ch_bev := f (ch_bev h) |>) |>) ->
  wp (mod_bev Client_bev f) Q w.
Proof.
  intros Hh HQ. apply wp_bind, wp_bind. eapply raw_get_client; [done|]. apply wp_ret.
  by eapply (raw_mod_client h).
Qed.

(** What is left of the results of library calls. *)
Record rest (w w' : world) : Prop := {
  rs_results : forall P, Forall P (results w) -> Forall P (results w');
  rs_connects : forall P, Forall P (connects w) -> Forall P (connects w')
}.

Lemma rest_refl w : rest w w.
Proof. done. Qed.

Lemma raw_next_result (Q : Z -> world -> Prop) w :
  (forall rv rs, rest w (w <| results := rs |>) -> (forall P : Z -> Prop, P 0 -> Forall P (results w) -> P rv) ->
     Q rv (w <| results := rs |>)) -> wp next_result Q w.
Proof.
  intros HQ. unfold wp, next_result. destruct (results w) as [|r rs] eqn:Er.
  - assert (E : w = w <| results := [] |>) by (rewrite <- Er; by destruct w). rewrite E. apply HQ; [|done].
    rewrite <- E. apply rest_refl.
  - apply HQ.
    + split; [|done]. intros P. rewrite Er. cbn. by inversion 1.
    + intros P _. by inversion 1.
Qed.

Lemma raw_next_connect (Q : Z -> world -> Prop) w :
  (forall rv rs, rest w (w <| connects := rs |>) -> (forall P : Z -> Prop, P 0 -> Forall P (connects w) -> P rv) ->
     Q rv (w <| connects := rs |>)) -> wp next_connect Q w.
Proof.
  intros HQ. unfold wp, next_connect. destruct (connects w) as [|r rs] eqn:Er.
  - assert (E : w = w <| connects := [] |>) by (rewrite <- Er; by destruct w). rewrite E. apply HQ; [|done].
    rewrite <- E. apply rest_refl.
  - apply HQ.
    + split; [done|]. intros P. rewrite Er. cbn. by inversion 1.
    + intros P _. by inversion 1.
Qed.

End Wp.

(** * The shape of requests and connections *)

Section Conns.
(** Which connections can be lost, neither attached nor in the pool, by their
    callbacks. *)
Context (lost : option bev_callbacks -> Prop).

Definition cb_of (x : DownstreamConnection) : option bev_callbacks := bev_cb <$> bev_ x.

(** [held] is a connection that an operation has taken out of the pool, [ds] the
    Downstream objects, [m] the connections. *)
Record conns_ok (held : option Z) (ds : gmap Z Downstream) (pool : gset Z) (fresh : Z)
    (m : gmap Z DownstreamConnection) : Prop := {
  co_each : forall c x, m !! c = Some x -> c < fresh /\
    match downstream_ x with
    | Some d => (exists o, ds !! d = Some o /\ dconn_ o = Some c) /\
                cb_of x = Some Cb_backend /\ c ∉ pool
    | None => cb_of x <> Some Cb_backend /\
              ((c ∈ pool /\ cb_of x = Some Cb_idle) \/
               ((c ∉ pool) /\ (held = Some c \/ lost (cb_of x))))
    end;
  co_pool : forall c, c ∈ pool -> is_Some (m !! c);
  co_downs : forall d o, ds !! d = Some o ->
    d < fresh /\ io_bev (ioctrl_ o) = Dconn_bev <$> dconn_ o /\
    forall c, dconn_ o = Some c -> exists x, m !! c = Some x /\ downstream_ x = Some d;
  co_held : forall c, held = Some c -> exists x, m !! c = Some x /\ downstream_ x = None /\ c ∉ pool
}.

Lemma conns_empty fr : conns_ok None ∅ ∅ fr ∅.
Proof.
  split.
  - intros c x Hx. by rewrite lookup_empty in Hx.
  - intros c Hc. by apply elem_of_empty in Hc.
  - intros d o Hd. by rewrite lookup_empty in Hd.
  - done.
Qed.

Section Changes.
Context (ds : gmap Z Downstream) (pool : gset Z) (fr : Z) (m : gmap Z DownstreamConnection).

(** The bufferevent of a connection, with the same callbacks. *)
Lemma conns_update held c x b b' :
  conns_ok held ds pool fr m -> m !! c = Some x -> bev_ x = Some b -> bev_cb b' = bev_cb b ->
  conns_ok held ds pool fr (<[c := x <| bev_ := Some b' |>]> m).
Proof.
  intros [He Hp Hds Hheld] Hx Hb Hcb.
  assert (Hlk : forall c' y, <[c := x <| bev_ := Some b' |>]> m !! c' = Some y ->
    exists y', m !! c' = Some y' /\ downstream_ y = downstream_ y' /\ cb_of y = cb_of y').
  { intros c' y. destruct (decide (c' = c)) as [->|Hne].
    - rewrite lookup_insert_eq. intros [= <-]. exists x. unfold cb_of. rewrite Hb. cbn. by rewrite Hcb.
    - rewrite lookup_insert_ne by done. eauto. }
  assert (Hlk2 : forall c' y, m !! c' = Some y ->
    exists y', <[c := x <| bev_ := Some b' |>]> m !! c' = Some y' /\ downstream_ y' = downstream_ y).
  { intros c' y Hy. destruct (decide (c' = c)) as [->|Hne].
    - rewrite lookup_insert_eq. rewrite Hx in Hy. injection Hy as <-. eauto.
    - rewrite lookup_insert_ne by done. eauto. }
  split.
  - intros c' y Hy. destruct (Hlk c' y Hy) as (y' & Hy' & -> & ->). by apply He.
  - intros c' Hc'. destruct (Hp c' Hc') as [y Hy]. destruct (Hlk2 c' y Hy) as (y' & -> & _). done.
  - intros d o Hc. destruct (Hds d o Hc) as (H1 & H2 & H3). do 2 (split; [done|]).
    intros c' Hc'. destruct (H3 c' Hc') as (y & Hy & Hd). destruct (Hlk2 c' y Hy) as (y' & ? & E).
    exists y'. by rewrite E.
  - intros c' Hc'. destruct (Hheld c' Hc') as (y & Hy & Hd & Hn). destruct (Hlk2 c' y Hy) as (y' & ? & E).
    exists y'. by rewrite E.
Qed.

(** A Downstream with the same connection. *)
Lemma conns_set_down held d o o' :
  conns_ok held ds pool fr m -> ds !! d = Some o -> dconn_ o' = dconn_ o ->
  io_bev (ioctrl_ o') = io_bev (ioctrl_ o) -> conns_ok held (<[d := o']> ds) pool fr m.
Proof.
  intros [He Hp Hds Hheld] Hd H1 H2. split; [|done| |done].
  - intros c x Hx. destruct (He c x Hx) as [? Hm]. split; [done|].
    destruct (downstream_ x) as [d'|]; [|done]. destruct Hm as [(o1 & Hd1 & Ho1) ?]. split; [|done].
    destruct (decide (d' = d)) as [->|]; [|exists o1; by rewrite lookup_insert_ne].
    exists o'. rewrite lookup_insert_eq, H1. by simplify_eq.
  - intros d' o1. destruct (decide (d' = d)) as [->|Hne].
    + rewrite lookup_insert_eq. intros [= <-]. rewrite H1, H2. by apply Hds.
    + rewrite lookup_insert_ne by done. apply Hds.
Qed.

Lemma conns_new :
  conns_ok None ds pool fr m -> conns_ok (Some fr) ds pool (fr + 1) (<[fr := mk_dconn None None]> m).
Proof.
  intros [He Hp Hds _].
  assert (Hfr : m !! fr = None) by (apply eq_None_not_Some; intros [x Hx]; destruct (He _ _ Hx); lia).
  assert (Hpf : fr ∉ pool) by (intros Hin; destruct (Hp _ Hin); congruence).
  split.
  - intros c x. destruct (decide (c = fr)) as [->|Hne]; rewrite ?lookup_insert_eq, ?lookup_insert_ne by done.
    + intros [= <-]. cbn. split; [lia|]. split; [done|]. auto.
    + intros Hx. destruct (He c x Hx) as [? Hm]. split; [lia|].
      destruct (downstream_ x); naive_solver.
  - intros c Hin. destruct (decide (c = fr)) as [->|]; [done|]. rewrite lookup_insert_ne by done. auto.
  - intros d o Ho. destruct (Hds d o Ho) as (? & ? & H). split; [lia|]. split; [done|].
    intros c Hoc. destruct (H c Hoc) as (x & Hx & ?). exists x. split; [|done].
    rewrite lookup_insert_ne; congruence.
  - intros c [= <-]. exists (mk_dconn None None). by rewrite lookup_insert_eq.
Qed.

Lemma conns_take c :
  conns_ok None ds pool fr m -> c ∈ pool -> conns_ok (Some c) ds (pool ∖ {[c]}) fr m.
Proof.
  intros [He Hp Hds _] Hin. split.
  - intros c' x Hx. destruct (He c' x Hx) as [? Hm]. split; [done|].
    destruct (downstream_ x); [set_solver|]. destruct Hm as [? Hm]. split; [done|].
    destruct (decide (c' = c)) as [->|]; [set_solver|]. destruct Hm as [[]|[? []]]; set_solver.
  - intros c' Hin'. apply Hp. set_solver.
  - done.
  - intros c' [= <-]. destruct (Hp c Hin) as [x Hx]. exists x. destruct (He c x Hx) as [_ Hm].
    destruct (downstream_ x); set_solver.
Qed.

Lemma conns_attach d o o' c x' :
  conns_ok (Some c) ds pool fr m -> ds !! d = Some o -> dconn_ o = None ->
  dconn_ o' = Some c -> io_bev (ioctrl_ o') = Some (Dconn_bev c) ->
  downstream_ x' = Some d -> cb_of x' = Some Cb_backend ->
  conns_ok None (<[d := o']> ds) pool fr (<[c := x']> m).
Proof.
  intros [He Hp Hds Hh] Hdo Ho Ho' Hio Hd Hcb. destruct (Hh c eq_refl) as (x & Hx & Hxd & Hn). split.
  - intros c' y. destruct (decide (c' = c)) as [->|Hne]; rewrite ?lookup_insert_eq, ?lookup_insert_ne by done.
    + intros [= <-]. split; [by destruct (He c x Hx)|]. rewrite Hd. split; [|done].
      exists o'. by rewrite lookup_insert_eq.
    + intros Hy. destruct (He c' y Hy) as [? Hm]. split; [done|]. destruct (downstream_ y) as [d'|].
      * destruct Hm as [(o1 & Hd1 & Ho1) ?]. split; [|done]. exists o1.
        rewrite lookup_insert_ne; [done|]. intros ->. congruence.
      * destruct Hm as [? [?|[? [[= ?]|?]]]]; [auto|congruence|auto].
  - intros c' Hin. destruct (decide (c' = c)) as [->|]; [done|]. rewrite lookup_insert_ne by done. auto.
  - intros d' o1. destruct (decide (d' = d)) as [->|Hne]; rewrite ?lookup_insert_eq, ?lookup_insert_ne by done.
    + intros [= <-]. destruct (Hds d o Hdo) as [? _]. split; [done|]. rewrite Ho'. split; [done|].
      intros ? [= <-]. exists x'. by rewrite lookup_insert_eq.
    + intros Hd1. destruct (Hds d' o1 Hd1) as (? & ? & H). do 2 (split; [done|]). intros c' Hc'.
      destruct (H c' Hc') as (y & Hy & Hyd). exists y. rewrite lookup_insert_ne; [done|]. intros ->. congruence.
  - done.
Qed.

Lemma conns_delete_held c :
  conns_ok (Some c) ds pool fr m -> conns_ok None ds pool fr (delete c m).
Proof.
  intros [He Hp Hds Hh]. destruct (Hh c eq_refl) as (x & Hx & Hd & Hn). split.
  - intros c' y [Hne Hy]%lookup_delete_Some. destruct (He c' y Hy) as [? Hm]. split; [done|].
    destruct (downstream_ y); [done|]. destruct Hm as [? [?|[? [[= ?]|?]]]]; [auto|congruence|auto].
  - intros c' Hin. rewrite lookup_delete_ne by set_solver. auto.
  - intros d o Ho. destruct (Hds d o Ho) as (? & ? & H). do 2 (split; [done|]). intros c' Hoc.
    destruct (H c' Hoc) as (y & Hy & ?). exists y. split; [|done]. rewrite lookup_delete_ne; congruence.
  - done.
Qed.

(** A Downstream loses its connection, which is deleted. *)
Lemma conns_drop d o o' c :
  conns_ok None ds pool fr m -> ds !! d = Some o -> dconn_ o = Some c ->
  dconn_ o' = None -> io_bev (ioctrl_ o') = None ->
  conns_ok None (<[d := o']> ds) pool fr (delete c m).
Proof.
  intros [He Hp Hds Hh] Hdo Ho Ho' Hio. destruct (Hds d o Hdo) as (Hfr & _ & Hx).
  destruct (Hx c Ho) as (x & Hxc & Hxd). split.
  - intros c' y [Hne Hy]%lookup_delete_Some. destruct (He c' y Hy) as [? Hm]. split; [done|].
    destruct (downstream_ y) as [d'|]; [|done]. destruct Hm as [(o1 & Hd1 & Ho1) ?]. split; [|done].
    exists o1. rewrite lookup_insert_ne; [done|]. intros ->. congruence.
  - intros c' Hin. destruct (decide (c = c')) as [<-|]; [|rewrite lookup_delete_ne by done; auto].
    destruct (He c x Hxc) as [_ Hm]. rewrite Hxd in Hm. set_solver.
  - intros d' o1. destruct (decide (d' = d)) as [->|Hne]; rewrite ?lookup_insert_eq, ?lookup_insert_ne by done.
    + intros [= <-]. by rewrite Ho'.
    + intros Hd1. destruct (Hds d' o1 Hd1) as (? & ? & H). do 2 (split; [done|]). intros c' Hc'.
      destruct (H c' Hc') as (y & Hy & Hyd). exists y. rewrite lookup_delete_ne; [done|]. intros ->. congruence.
  - done.
Qed.

(** A Downstream loses its connection, which goes to the pool. *)
Lemma conns_detach d o o' c x' :
  conns_ok None ds pool fr m -> ds !! d = Some o -> dconn_ o = Some c ->
  dconn_ o' = None -> io_bev (ioctrl_ o') = None ->
  downstream_ x' = None -> cb_of x' = Some Cb_idle ->
  conns_ok None (<[d := o']> ds) ({[c]} ∪ pool) fr (<[c := x']> m).
Proof.
  intros [He Hp Hds Hh] Hdo Ho Ho' Hio Hd Hcb. destruct (Hds d o Hdo) as (Hfr & _ & Hx).
  destruct (Hx c Ho) as (x & Hxc & Hxd). split.
  - intros c' y. destruct (decide (c' = c)) as [->|Hne]; rewrite ?lookup_insert_eq, ?lookup_insert_ne by done.
    + intros [= <-]. split; [by destruct (He c x Hxc)|]. rewrite Hd, Hcb. set_solver.
    + intros Hy. destruct (He c' y Hy) as [? Hm]. split; [done|]. destruct (downstream_ y) as [d'|].
      * destruct Hm as [(o1 & Hd1 & Ho1) ?]. split; [|set_solver].
        exists o1. rewrite lookup_insert_ne; [done|]. intros ->. congruence.
      * destruct Hm as [? [?|[? ?]]]; set_solver.
  - intros c' Hin. destruct (decide (c' = c)) as [->|]; [by rewrite lookup_insert_eq|].
    rewrite lookup_insert_ne by done. apply Hp. set_solver.
  - intros d' o1. destruct (decide (d' = d)) as [->|Hne]; rewrite ?lookup_insert_eq, ?lookup_insert_ne by done.
    + intros [= <-]. by rewrite Ho'.
    + intros Hd1. destruct (Hds d' o1 Hd1) as (? & ? & H). do 2 (split; [done|]). intros c' Hc'.
      destruct (H c' Hc') as (y & Hy & Hyd). exists y. rewrite lookup_insert_ne; [done|]. intros ->. congruence.
  - done.
Qed.

Lemma conns_idle_delete c x :
  conns_ok None ds pool fr m -> m !! c = Some x -> downstream_ x = None ->
  conns_ok None ds (pool ∖ {[c]}) fr (delete c m).
Proof.
  intros [He Hp Hds Hh] Hx Hd. split.
  - intros c' y [Hne Hy]%lookup_delete_Some. destruct (He c' y Hy) as [? Hm]. split; [done|].
    destruct (downstream_ y); [set_solver|]. destruct Hm as [? [?|[? ?]]]; set_solver.
  - intros c' Hin. rewrite lookup_delete_ne by set_solver. apply Hp. set_solver.
  - intros d o Ho. destruct (Hds d o Ho) as (? & ? & H). do 2 (split; [done|]). intros c' Hoc.
    destruct (H c' Hoc) as (y & Hy & ?). exists y. split; [|done]. rewrite lookup_delete_ne; congruence.
  - done.
Qed.

(** A Downstream without a connection comes and goes freely. *)
Lemma conns_del_down held d o :
  conns_ok held ds pool fr m -> ds !! d = Some o -> dconn_ o = None -> conns_ok held (delete d ds) pool fr m.
Proof.
  intros [He Hp Hds Hh] Hdo Ho. split; [|done| |done].
  - intros c x Hx. destruct (He c x Hx) as [? Hm]. split; [done|].
    destruct (downstream_ x) as [d'|]; [|done]. destruct Hm as [(o1 & Hd1 & Ho1) ?]. split; [|done].
    exists o1. rewrite lookup_delete_ne; [done|]. intros ->. congruence.
  - intros d' o1 [_ Hd1]%lookup_delete_Some. by apply Hds.
Qed.

Lemma conns_new_down held o :
  conns_ok held ds pool fr m -> dconn_ o = None -> io_bev (ioctrl_ o) = None ->
  conns_ok held (<[fr := o]> ds) pool (fr + 1) m.
Proof.
  intros [He Hp Hds Hh] Ho Hio. split; [|done| |done].
  - intros c x Hx. destruct (He c x Hx) as [? Hm]. split; [lia|].
    destruct (downstream_ x) as [d'|]; [|done]. destruct Hm as [(o1 & Hd1 & Ho1) ?]. split; [|done].
    exists o1. rewrite lookup_insert_ne; [done|]. intros <-. destruct (Hds _ _ Hd1). lia.
  - intros d' o1. destruct (decide (d' = fr)) as [->|Hne]; rewrite ?lookup_insert_eq, ?lookup_insert_ne by done.
    + intros [= <-]. split; [lia|]. by rewrite Ho.
    + intros Hd1. destruct (Hds d' o1 Hd1) as (? & ? & H). split; [lia|]. done.
Qed.

Lemma conns_leak c :
  (forall x, m !! c = Some x -> lost (cb_of x)) -> conns_ok (Some c) ds pool fr m -> conns_ok None ds pool fr m.
Proof.
  intros Hf [He Hp Hds Hh]. split; [|done..].
  intros c' x Hx. destruct (He c' x Hx) as [? Hm]. split; [done|]. destruct (downstream_ x); [done|].
  destruct Hm as [? [?|[? [[= <-]|?]]]]; split; auto.
Qed.

End Changes.

End Conns.

(** * The operations on the objects *)

Section Heap.
Context {Up : Type} {tol : Tolerates Up} (lost : option bev_callbacks -> Prop).
Notation M := (World.M Up).
Notation world := (World.world Up).

Definition heap_ok (held : option Z) (w : world) : Prop :=
  exists h, client w = Some h /\ bev_cb (ch_bev h) = Cb_client /\
    conns_ok lost held (downs w) (dconn_pool_ h) (fresh w) (dconns w).

Definition upstream_of (w : world) : option Up := client w ≫= upstream_.

(** The upstream stays, and results are only used up. *)
Record kept (w w' : world) : Prop := { k_rest : rest w w'; k_up : upstream_of w' = upstream_of w }.

Lemma heap_kept_refl w : kept w w.
Proof. done. Qed.

Lemma heap_kept_trans w1 w2 w3 : kept w1 w2 -> kept w2 w3 -> kept w1 w3.
Proof.
  intros [[H1 H2] H3] [[H4 H5] H6]. split; [split|congruence].
  - intros P HP. by apply H4, H1.
  - intros P HP. by apply H5, H2.
Qed.

Lemma heap_client held w h :
  heap_ok held w -> client w = Some h ->
  bev_cb (ch_bev h) = Cb_client /\ conns_ok lost held (downs w) (dconn_pool_ h) (fresh w) (dconns w).
Proof. intros (h' & E & ?) Hh. assert (h' = h) as -> by congruence. done. Qed.

Lemma heap_get_client held Q w :
  heap_ok held w -> (forall h, client w = Some h -> upstream_of w = upstream_ h -> Q h w) -> wp get_client Q w.
Proof. intros (h & Hh & _) HQ. eapply raw_get_client; [done|]. apply HQ; [done|]. unfold upstream_of. by rewrite Hh. Qed.

Lemma heap_mod_client held f (Q : unit -> world -> Prop) w :
  (forall h, upstream_ (f h) = upstream_ h /\ dconn_pool_ (f h) = dconn_pool_ h /\
             bev_cb (ch_bev (f h)) = bev_cb (ch_bev h)) ->
  heap_ok held w -> (forall w', heap_ok held w' -> kept w w' -> downs w' = downs w -> Q tt w') ->
  wp (mod_client f) Q w.
Proof.
  intros Hf (h & Hh & Hb & Hc) HQ. eapply raw_mod_client; [done|]. destruct (Hf h) as (H1 & H2 & H3).
  apply HQ; [|split; [done|]|done].
  - exists (f h). cbn. by rewrite H2, H3.
  - unfold upstream_of. rewrite Hh. exact H1.
Qed.

(** A new value of the upstream. *)
Lemma heap_set_upstream held u (Q : unit -> world -> Prop) w :
  heap_ok held w ->
  (forall w', heap_ok held w' -> rest w w' -> upstream_of w' = u -> downs w' = downs w -> Q tt w') ->
  wp (mod_client (fun h => h <| upstream_ := u |>)) Q w.
Proof.
  intros (h & Hh & Hb & Hc) HQ. eapply raw_mod_client; [done|]. apply HQ; try done. by eexists.
Qed.

(** A Downstream with the same connection. *)
Lemma heap_set_down held d o o' (Q : unit -> world -> Prop) w :
  heap_ok held w -> downs w !! d = Some o -> dconn_ o' = dconn_ o -> io_bev (ioctrl_ o') = io_bev (ioctrl_ o) ->
  (forall w', heap_ok held w' -> kept w w' -> downs w' = <[d := o']> (downs w) -> Q tt w') ->
  wp (set_down d o') Q w.
Proof.
  intros (h & Hh & Hb & Hc) Hd H1 H2 HQ. eapply raw_set_down; [done|]. apply HQ; try done.
  exists h. do 2 (split; [done|]). by eapply conns_set_down.
Qed.

Lemma heap_mod_down held d o f (Q : unit -> world -> Prop) w :
  heap_ok held w -> downs w !! d = Some o -> dconn_ (f o) = dconn_ o ->
  io_bev (ioctrl_ (f o)) = io_bev (ioctrl_ o) ->
  (forall w', heap_ok held w' -> kept w w' -> downs w' = <[d := f o]> (downs w) -> Q tt w') ->
  wp (mod_down d f) Q w.
Proof. intros Hi Hd H1 H2 HQ. apply wp_bind. eapply raw_get_down; [done|]. by eapply heap_set_down. Qed.

(** The connection of a Downstream. *)
Lemma heap_dconn held d o c w :
  heap_ok held w -> downs w !! d = Some o -> dconn_ o = Some c ->
  exists x b, dconns w !! c = Some x /\ downstream_ x = Some d /\ bev_ x = Some b /\ bev_cb b = Cb_backend.
Proof.
  intros (h & _ & _ & Hc) Hd Ho. destruct (co_downs _ _ _ _ _ _ Hc d o Hd) as (_ & _ & H).
  destruct (H c Ho) as (x & Hx & Hxd). destruct (co_each _ _ _ _ _ _ Hc c x Hx) as [_ He].
  rewrite Hxd in He. destruct He as (_ & Hb & _). unfold cb_of in Hb. apply fmap_Some in Hb as (b & Hb & E).
  by exists x, b.
Qed.

(** [r] is the bufferevent of the client or that of an attached connection. *)
Definition usable (r : bev_ref) (w : world) : Prop :=
  match r with
  | Client_bev => True
  | Dconn_bev c => exists d o, downs w !! d = Some o /\ dconn_ o = Some c
  end.

Lemma heap_get_bev held r (Q : bufferevent -> world -> Prop) w :
  heap_ok held w -> usable r w -> (forall b, Q b w) -> wp (get_bev r) Q w.
Proof.
  intros Hi Hr HQ. destruct r as [|c].
  - apply wp_bind. eapply heap_get_client; [done|]. intros h _ _. apply HQ.
  - destruct Hr as (d & o & Hd & Ho). destruct (heap_dconn _ _ _ _ _ Hi Hd Ho) as (x & b & Hx & _ & Hb & _).
    by eapply raw_get_dconn_bev.
Qed.

(** A bufferevent that was read can be written back with changes. *)
Lemma heap_get_set held r f (Q : unit -> world -> Prop) w :
  heap_ok held w -> usable r w -> (forall b, bev_cb (f b) = bev_cb b) ->
  wp (get_bev r) (fun b w1 => w1 = w /\ forall rs, let w2 := w <| results := rs |> in
    (forall w', heap_ok held w' -> kept w2 w' -> downs w' = downs w -> Q tt w') ->
    wp (set_bev r (f b)) Q w2) w.
Proof.
  intros Hi Hr Hf. destruct r as [|c].
  - destruct Hi as (h & Hh & Hb & Hc). apply wp_bind. eapply raw_get_client; [done|]. split; [done|].
    intros rs w2 HQ. eapply (raw_mod_client h); [done|]. apply HQ; [|split; [done|]|done].
    + eexists. split; [done|]. cbn. by rewrite Hf.
    + unfold upstream_of, w2. cbn. by rewrite Hh.
  - destruct Hr as (d & o & Hd & Ho). destruct (heap_dconn _ _ _ _ _ Hi Hd Ho) as (x & b & Hx & _ & Hb & _).
    destruct Hi as (h & Hh & Hcb & Hc).
    eapply raw_get_dconn_bev; [done..|]. split; [done|]. intros rs w2 HQ.
    eapply raw_mod_dconn; [done|]. apply HQ; [|done..].
    exists h. do 2 (split; [done|]). by eapply conns_update.
Qed.

Lemma heap_mod_bev held r f (Q : unit -> world -> Prop) w :
  heap_ok held w -> usable r w -> (forall b, bev_cb (f b) = bev_cb b) ->
  (forall w', heap_ok held w' -> kept w w' -> downs w' = downs w -> Q tt w') -> wp (mod_bev r f) Q w.
Proof.
  intros Hi Hr Hf HQ. apply wp_bind. eapply wp_mono; [by apply (heap_get_set held r f Q)|].
  intros b w1 [-> Hs]. assert (E : w = w <| results := results w |>) by (by destruct w).
  rewrite E. apply Hs. rewrite <- E. done.
Qed.

Lemma heap_output_add held r data (Q : Z -> world -> Prop) w :
  heap_ok held w -> usable r w ->
  (forall rv w', heap_ok held w' -> kept w w' -> downs w' = downs w ->
     (forall P : Z -> Prop, P 0 -> Forall P (results w) -> P rv) -> Q rv w') -> wp (output_add r data) Q w.
Proof.
  intros Hi Hr HQ. apply wp_bind.
  eapply wp_mono; [by apply (heap_get_set held r (fun b => b <| bev_output := bev_output b ++ data |>)
    (fun _ w' => heap_ok held w' /\ kept w w' /\ downs w' = downs w))|].
  intros b w1 [-> Hs]. apply wp_bind, raw_next_result. intros rv rs Hrest Hrv.
  assert (Hk : kept w (w <| results := rs |>)) by (by split).
  apply wp_bind. destruct (rv =? 0).
  - eapply wp_mono; [apply Hs|].
    + intros w' H1 H2 H3. split; [done|]. split; [by eapply heap_kept_trans|done].
    + intros [] w' (H1 & H2 & H3). by apply wp_ret, HQ.
  - apply wp_ret, wp_ret, HQ; try done.
Qed.

Lemma heap_next_result held (Q : Z -> world -> Prop) w :
  heap_ok held w ->
  (forall rv w', heap_ok held w' -> kept w w' -> downs w' = downs w ->
     (forall P : Z -> Prop, P 0 -> Forall P (results w) -> P rv) -> Q rv w') -> wp next_result Q w.
Proof. intros Hi HQ. apply raw_next_result. intros rv rs Hr Hp. by apply HQ. Qed.

Lemma heap_start_waiting_response held d o c (Q : unit -> world -> Prop) w :
  heap_ok held w -> downs w !! d = Some o -> dconn_ o = Some c ->
  (forall w', heap_ok held w' -> kept w w' -> downs w' = downs w -> Q tt w') ->
  wp (start_waiting_response c) Q w.
Proof.
  intros Hi Hd Ho HQ. destruct (heap_dconn _ _ _ _ _ Hi Hd Ho) as (x & b & Hx & _ & Hb & _).
  apply wp_bind. eapply raw_get_dconn; [done|]. apply wp_bind, wp_get. rewrite Hb.
  eapply heap_mod_bev; [done| |done|done]. cbn. eauto.
Qed.

(** What is sent to a backend. *)
Lemma heap_push_request_headers held d o c (Q : Z -> world -> Prop) w :
  heap_ok held w -> downs w !! d = Some o -> dconn_ o = Some c ->
  (forall rv w', heap_ok held w' -> kept w w' -> downs w' = downs w -> Q rv w') -> wp (push_request_headers d) Q w.
Proof.
  intros Hi Hd Ho HQ. apply wp_bind. eapply raw_get_down; [done|]. apply wp_bind, wp_get, wp_bind.
  eapply heap_get_client; [done|]. intros h _ _. apply wp_bind. rewrite Ho. apply wp_ret, wp_bind.
  eapply heap_output_add; [done|cbn; eauto|]. intros rv w1 H1 K1 E1 _. destruct (negb _); [by apply wp_ret, HQ|].
  rewrite <- E1 in Hd. apply wp_bind. eapply heap_start_waiting_response; [done..|]. intros w2 H2 K2 E2.
  apply wp_ret, HQ; [done|by eapply heap_kept_trans|congruence].
Qed.

Lemma heap_push_upload_data_chunk held d o data (Q : Z -> world -> Prop) w :
  heap_ok held w -> downs w !! d = Some o ->
  (forall rv w', heap_ok held w' -> kept w w' -> downs w' = downs w -> Q rv w') ->
  wp (push_upload_data_chunk d data) Q w.
Proof.
  intros Hi Hd HQ. apply wp_bind. eapply raw_get_down; [done|]. destruct (dconn_ o) as [c|] eqn:Ec; [|by apply HQ].
  set (ok w' := heap_ok held w' /\ kept w w' /\ downs w' = downs w).
  assert (Hq : forall rv w', ok w' -> Q rv w') by (intros rv w' (? & ? & ?); by apply HQ).
  assert (Hadd : forall text k w1, ok w1 -> (forall rv w', ok w' -> wp (k rv) Q w') ->
    wp (rv ← output_add (Dconn_bev c) text; if rv =? -1 then mret (-1) else k rv) Q w1).
  { intros text k w1 (H1 & K1 & E1) Hk. apply wp_bind.
    eapply heap_output_add; [done|exists d, o; by rewrite E1|]. intros rv w2 H2 K2 E2 _.
    assert (ok w2) by (split; [done|]; split; [by eapply heap_kept_trans|congruence]).
    destruct (rv =? -1); [by apply wp_ret, Hq|by apply Hk]. }
  assert (Hw : ok w) by done. destruct (chunked_request_ o); cbv zeta.
  - apply Hadd; [done|]. intros _ w1 H1. apply Hadd; [done|]. intros rv w2 H2. apply Hadd; [done|].
    intros _ w3 H3. by apply wp_ret, Hq.
  - apply Hadd; [done|]. intros rv w1 H1. by apply wp_ret, Hq.
Qed.

(** ** Reading enabled and disabled *)

Definition io_usable (io : IOControl) (w : world) : Prop :=
  match io_bev io with Some r => usable r w | None => True end.

Lemma heap_io_bev held (io : IOControl) b (Q : unit -> world -> Prop) w :
  heap_ok held w -> io_usable io w ->
  (forall w', heap_ok held w' -> kept w w' -> downs w' = downs w -> Q tt w') ->
  wp (match io_bev io with
      | Some r => mod_bev r (fun x => x <| bev_read := b |>)
      | None => mret tt
      end) Q w.
Proof.
  intros Hi Hu HQ. unfold io_usable in Hu. destruct (io_bev io) as [r|]; [|by apply HQ].
  by eapply heap_mod_bev.
Qed.

Lemma heap_io_pause held io reason (Q : IOControl -> world -> Prop) w :
  heap_ok held w -> io_usable io w ->
  (forall w', heap_ok held w' -> kept w w' -> downs w' = downs w ->
     Q (io <| rdbits_ := Z.lor (rdbits_ io) reason |>) w') ->
  wp (io_pause_read io reason) Q w.
Proof. intros Hi Hu HQ. apply wp_bind. by eapply heap_io_bev. Qed.

Lemma heap_io_resume held io reason (Q : bool * IOControl -> world -> Prop) w :
  heap_ok held w -> io_usable io w ->
  (let r := Z.ldiff (rdbits_ io) reason in
   forall w', heap_ok held w' -> kept w w' -> downs w' = downs w -> Q (r =? 0, io <| rdbits_ := r |>) w') ->
  wp (io_resume_read io reason) Q w.
Proof.
  intros Hi Hu HQ. unfold io_resume_read. cbn [rdbits_ set_field].
  cbn in HQ |- *. destruct (_ =? 0) eqn:E; [|by apply HQ].
  apply wp_bind. by eapply (heap_io_bev _ io).
Qed.

Lemma down_io_usable held d o w : heap_ok held w -> downs w !! d = Some o -> io_usable (ioctrl_ o) w.
Proof.
  intros (h & _ & _ & Hc) Hd. unfold io_usable.
  destruct (co_downs _ _ _ _ _ _ Hc d o Hd) as (_ & -> & _).
  destruct (dconn_ o) as [c|] eqn:Ho; cbn; eauto.
Qed.

Definition with_bits (o : Downstream) (bits : Z) : Downstream :=
  o <| ioctrl_ := (ioctrl_ o) <| rdbits_ := bits |> |>.

Lemma heap_down_pause held d o reason (Q : unit -> world -> Prop) w :
  heap_ok held w -> downs w !! d = Some o ->
  (forall w', heap_ok held w' -> kept w w' ->
     downs w' = <[d := with_bits o (Z.lor (rdbits_ (ioctrl_ o)) reason)]> (downs w) -> Q tt w') ->
  wp (down_pause_read d reason) Q w.
Proof.
  intros Hi Hd HQ. apply wp_bind. eapply raw_get_down; [done|]. apply wp_bind.
  eapply heap_io_pause; [done|by eapply down_io_usable|]. intros w1 Hi1 Hk1 E1. rewrite <- E1 in Hd.
  eapply heap_mod_down; [done|done|done|done|]. intros w2 Hi2 Hk2 E2. apply HQ; [done|by eapply heap_kept_trans|].
  by rewrite E2, E1.
Qed.

Lemma heap_down_resume held d o reason (Q : bool -> world -> Prop) w :
  heap_ok held w -> downs w !! d = Some o ->
  (forall b w', heap_ok held w' -> kept w w' ->
     downs w' = <[d := with_bits o (Z.ldiff (rdbits_ (ioctrl_ o)) reason)]> (downs w) -> Q b w') ->
  wp (down_resume_read d reason) Q w.
Proof.
  intros Hi Hd HQ. apply wp_bind. eapply raw_get_down; [done|]. apply wp_bind.
  eapply heap_io_resume; [done|by eapply down_io_usable|]. intros r w1 Hi1 Hk1 E1. rewrite <- E1 in Hd.
  apply wp_bind. eapply heap_mod_down; [done|done|done|done|]. intros w2 Hi2 Hk2 E2.
  apply wp_ret, HQ; [done|by eapply heap_kept_trans|]. by rewrite E2, E1.
Qed.

(** ** Changes of the shape *)

Lemma heap_leak c w :
  (forall x, dconns w !! c = Some x -> lost (cb_of x)) -> heap_ok (Some c) w -> heap_ok None w.
Proof. intros Hl (h & Hh & Hb & Hc). exists h. do 2 (split; [done|]). by eapply conns_leak. Qed.

Lemma heap_get_downstream_connection (Q : Z -> world -> Prop) w :
  heap_ok None w -> (forall c w', heap_ok (Some c) w' -> kept w w' -> downs w' = downs w -> Q c w') ->
  wp get_downstream_connection Q w.
Proof.
  intros (h & Hh & Hb & Hc) HQ. apply wp_bind. eapply raw_get_client; [done|].
  destruct (elements (dconn_pool_ h)) as [|c cs] eqn:Ee.
  - unfold wp, new_dconn. apply HQ; [|done..]. exists h. do 2 (split; [done|]). by apply conns_new.
  - assert (Hin : c ∈ dconn_pool_ h) by (apply elem_of_elements; rewrite Ee; left).
    apply wp_bind. eapply (raw_mod_client h); [done|]. apply HQ; [|split; [done|]|done].
    + eexists. split; [done|]. split; [done|]. by apply conns_take.
    + unfold upstream_of. by rewrite Hh.
Qed.

(** The connection is attached, or the attempt to connect has failed. *)
Lemma heap_attach_downstream d o c (Q : Z -> world -> Prop) w :
  heap_ok (Some c) w -> downs w !! d = Some o -> dconn_ o = None ->
  (forall w', heap_ok None w' -> kept w w' -> downs w' = <[d := attached c o]> (downs w) -> Q 0 w') ->
  (forall rv w', rv <> 0 -> (forall P : Z -> Prop, P 0 -> Forall P (connects w) -> exists n, n <> 0 /\ P n) ->
     (forall x, dconns w' !! c = Some x -> cb_of x = None) ->
     heap_ok (Some c) w' -> kept w w' -> downs w' = downs w -> Q rv w') ->
  wp (attach_downstream c d) Q w.
Proof.
  intros (h & Hh & Hb & Hc) Hd Ho H0 H1. apply wp_bind. eapply raw_get_down; [done|].
  destruct (co_held _ _ _ _ _ _ Hc c eq_refl) as (x & Hx & Hxd & Hn).
  apply wp_bind. eapply raw_get_dconn; [done|]. apply wp_bind, wp_get.
  (* the last part, with the bufferevent in place *)
  assert (Hrest : forall w1 b, client w1 = Some h -> downs w1 = downs w -> fresh w1 = fresh w -> rest w w1 ->
    dconns w1 = <[c := x <| bev_ := Some b |>]> (dconns w) ->
    wp (set_downstream_connection d (Some c);;
        mod_dconn c (fun x => x <| downstream_ := Some d |>);;
        mod_bev (Dconn_bev c) (fun b => b <| bev_watermark := SHRPX_READ_WARTER_MARK |>
          <| bev_read := true |> <| bev_cb := Cb_backend |>
          <| bev_read_timeout := max_timeout |> <| bev_write_timeout := downstream_write_timeout (cfg w) |>);;
        mret 0) Q w1).
  { intros w1 b E1 E2 E3 E4 E5.
    assert (Hx1 : dconns w1 !! c = Some (x <| bev_ := Some b |>)) by (by rewrite E5, lookup_insert_eq).
    apply wp_bind. eapply raw_set_connection; [by rewrite E2|done|done|].
    apply wp_bind. eapply raw_mod_dconn; [done|]. cbn.
    apply wp_bind. eapply raw_mod_dconn_bev; [cbn; by rewrite lookup_insert_eq|done|]. cbn.
    apply H0; [|split; [|by unfold upstream_of; cbn; rewrite E1, Hh]|cbn; by rewrite E2].
    - exists h. cbn. rewrite E1, E2, E3, E5, !insert_insert_eq. do 2 (split; [done|]). by eapply conns_attach.
    - split; apply E4. }
  apply wp_bind. destruct (bev_ x) as [b|] eqn:Eb.
  - apply wp_ret. apply (Hrest w b); try done.
    rewrite insert_id; [done|]. rewrite Hx. destruct x. cbn in *. by rewrite Eb.
  - apply wp_bind, raw_next_connect. intros rv rs Hr Hrv.
    destruct (Z.eqb_spec rv 0) as [->|Hne].
    + apply wp_bind. unfold wp at 1, set_dconn. cbn. rewrite Hx. apply wp_ret. cbn.
      apply (Hrest _ bev_new); try done. split; apply Hr.
    + apply wp_ret, H1; [done| | | |by split|done].
      * intros P H2 H3. exists rv. split; [done|]. by apply Hrv.
      * intros y Hy. assert (y = x) as -> by (cbn in Hy; congruence). unfold cb_of. by rewrite Eb.
      * exists h. by split.
Qed.

Lemma heap_delete_held c (Q : unit -> world -> Prop) w :
  heap_ok (Some c) w -> (forall w', heap_ok None w' -> kept w w' -> downs w' = downs w -> Q tt w') ->
  wp (delete_dconn c) Q w.
Proof.
  intros (h & Hh & Hb & Hc) HQ.
  destruct (co_held _ _ _ _ _ _ Hc c eq_refl) as (x & Hx & Hxd & Hn).
  apply wp_bind. eapply raw_get_dconn; [done|]. rewrite Hxd. apply HQ; [|done..].
  exists h. do 2 (split; [done|]). by apply conns_delete_held.
Qed.

(** downstream->set_downstream_connection(0); delete dconn; *)
Lemma heap_drop_connection d o c (Q : unit -> world -> Prop) w :
  heap_ok None w -> downs w !! d = Some o -> dconn_ o = Some c ->
  (forall w', heap_ok None w' -> kept w w' -> downs w' = <[d := unattached (unattached o)]> (downs w) -> Q tt w') ->
  wp (set_downstream_connection d None;; delete_dconn c) Q w.
Proof.
  intros Hi Hd Ho HQ. destruct (heap_dconn _ _ _ _ _ Hi Hd Ho) as (x & b & Hx & Hxd & _ & _).
  destruct Hi as (h & Hh & Hb & Hc).
  apply wp_bind. eapply raw_mod_down; [done|]. eapply raw_delete_dconn; [done|done|apply lookup_insert_eq|].
  apply HQ; [|done|cbn; by rewrite insert_insert_eq].
  exists h. cbn. rewrite insert_insert_eq. do 2 (split; [done|]). by eapply conns_drop.
Qed.

Lemma heap_detach_downstream d o c (Q : unit -> world -> Prop) w :
  heap_ok None w -> downs w !! d = Some o -> dconn_ o = Some c ->
  (forall w', heap_ok None w' -> kept w w' -> downs w' = <[d := unattached o]> (downs w) -> Q tt w') ->
  wp (detach_downstream c d) Q w.
Proof.
  intros Hi Hd Ho HQ. destruct (heap_dconn _ _ _ _ _ Hi Hd Ho) as (x & b & Hx & Hxd & Hxb & _).
  destruct Hi as (h & Hh & Hb & Hc).
  apply wp_bind. eapply raw_mod_down; [done|]. apply wp_bind. eapply raw_mod_dconn; [done|].
  apply wp_bind, wp_get, wp_bind. eapply raw_mod_dconn_bev; [cbn; apply lookup_insert_eq|done|].
  eapply (raw_mod_client h); [done|]. apply HQ; [|split; [done|]|done].
  - eexists. split; [done|]. cbn. split; [done|]. rewrite insert_insert_eq. by eapply conns_detach.
  - unfold upstream_of. cbn. by rewrite Hh.
Qed.

(** A Downstream and its connection are deleted. *)
Lemma heap_delete_down d o (Q : unit -> world -> Prop) w :
  heap_ok None w -> downs w !! d = Some o ->
  (forall w', heap_ok None w' -> kept w w' -> downs w' = delete d (downs w) -> Q tt w') ->
  wp (delete_down d) Q w.
Proof.
  intros Hi Hd HQ. apply wp_bind. eapply raw_get_down; [done|]. apply wp_bind.
  destruct (dconn_ o) as [c|] eqn:Ho.
  - destruct (heap_dconn _ _ _ _ _ Hi Hd Ho) as (x & b & Hx & Hxd & _ & _).
    destruct Hi as (h & Hh & Hb & Hc). eapply raw_delete_dconn; [done..|].
    apply HQ; [|done|cbn; apply delete_insert_eq].
    exists h. cbn. do 2 (split; [done|]). eapply (conns_del_down _ (<[d := unattached o]> (downs w)));
      [by eapply conns_drop|apply lookup_insert_eq|done].
  - apply wp_ret. destruct Hi as (h & Hh & Hb & Hc). apply HQ; [|done..].
    exists h. do 2 (split; [done|]). by eapply conns_del_down.
Qed.

(** The event of a connection without a Downstream. *)
Lemma heap_idle_eventcb c x events (Q : unit -> world -> Prop) w :
  heap_ok None w -> dconns w !! c = Some x -> cb_of x = Some Cb_idle ->
  (forall w', heap_ok None w' -> kept w w' -> downs w' = downs w -> Q tt w') -> wp (idle_eventcb c events) Q w.
Proof.
  intros Hi Hx Hcb HQ. unfold idle_eventcb. destruct (has_flag _ _); [by apply HQ|].
  destruct Hi as (h & Hh & Hb & Hc).
  assert (Hxd : downstream_ x = None).
  { destruct (co_each _ _ _ _ _ _ Hc c x Hx) as [_ Hm]. destruct (downstream_ x); [|done].
    destruct Hm as (_ & Hm & _). congruence. }
  apply wp_bind. eapply (raw_mod_client h); [done|]. apply wp_bind. eapply raw_get_dconn; [done|].
  rewrite Hxd. apply HQ; [|split; [done|]|done].
  - eexists. split; [done|]. split; [done|]. by eapply conns_idle_delete.
  - unfold upstream_of. cbn. by rewrite Hh.
Qed.

(** A connection with the callbacks of a backend has a Downstream. *)
Definition backend (c : Z) (w : world) : Prop :=
  exists x, dconns w !! c = Some x /\ cb_of x = Some Cb_backend.

Lemma backend_down held c w :
  heap_ok held w -> backend c w ->
  exists d o x, downs w !! d = Some o /\ dconn_ o = Some c /\ dconns w !! c = Some x /\ downstream_ x = Some d.
Proof.
  intros (h & _ & _ & Hc) (x & Hx & Hcb). destruct (co_each _ _ _ _ _ _ Hc c x Hx) as [_ Hm].
  destruct (downstream_ x) as [d|] eqn:Hd; [|by destruct Hm].
  destruct Hm as [(o & Hdo & Ho) _]. by exists d, o, x.
Qed.

(** ** The end of a client *)

Lemma delete_all (l : list Z) (w : world) :
  NoDup l -> (forall c, c ∈ l -> exists x, dconns w !! c = Some x /\ downstream_ x = None) ->
  wp (foldr (fun c m => delete_dconn c;; m) (mret tt) l)
    (fun _ w' => client w' = client w /\ downs w' = downs w /\
       forall c, dconns w' !! c = if decide (c ∈ l) then None else dconns w !! c) w.
Proof.
  intros Hnd. revert w. induction Hnd as [|c l Hn _ IH]; intros w Hl; cbn [foldr].
  - apply wp_ret. do 2 (split; [done|]). intros c. by destruct (decide _) as [H%elem_of_nil|].
  - destruct (Hl c) as (x & Hx & Hd); [left|]. apply wp_bind, wp_bind.
    eapply raw_get_dconn; [done|]. rewrite Hd. apply wp_bind, wp_ret. unfold wp at 1, update.
    eapply wp_mono; [apply IH|].
    + intros c' Hc'. destruct (Hl c') as (y & Hy & ?); [by right|]. exists y. cbn.
      rewrite lookup_delete_ne; [done|]. by intros ->.
    + intros [] w' (Hc & Hdn & Hall). do 2 (split; [done|]). intros c'. rewrite Hall. cbn.
      destruct (decide (c' = c)) as [->|Hne].
      * rewrite lookup_delete_eq. destruct (decide (c ∈ l)); [done|].
        by destruct (decide (c ∈ c :: l)) as [|Hn']; [|destruct Hn'; left].
      * rewrite lookup_delete_ne by done.
        destruct (decide (c' ∈ l)), (decide (c' ∈ c :: l)) as [Hi|Hi]; try done.
        -- destruct Hi. by right.
        -- by apply elem_of_cons in Hi as [|].
Qed.

(** Nothing is left but the connections that were lost. *)
Record gone (w : world) : Prop := {
  g_client : client w = None;
  g_downs : downs w = ∅;
  g_dconns : forall c x, dconns w !! c = Some x ->
    downstream_ x = None /\ cb_of x <> Some Cb_backend /\ lost (cb_of x)
}.

(** The handler is deleted when its upstream leaves no Downstream. *)
Lemma heap_delete_handler `{ops : UpstreamOps Up} u (Q : unit -> world -> Prop) w :
  heap_ok None w -> upstream_of w = Some u ->
  wp delete_upstream (fun _ w' => heap_ok None w' /\ downs w' = ∅) w ->
  (forall w', gone w' -> Q tt w') -> wp delete_handler Q w.
Proof.
  intros Hi Hu Hup HQ. apply wp_bind. eapply heap_get_client; [done|]. intros h Hh E.
  rewrite <- E, Hu. apply wp_bind. eapply wp_mono; [exact Hup|].
  clear w Hi h Hh E Hu Hup. intros [] w [(h & Hh & Hb & Hc) Hd].
  apply wp_bind. eapply raw_get_client; [done|]. apply wp_bind.
  eapply wp_mono; [apply delete_all; [apply NoDup_elements|]|].
  { intros c Hin%elem_of_elements. destruct (co_pool _ _ _ _ _ _ Hc c Hin) as [x Hx]. exists x. split; [done|].
    destruct (co_each _ _ _ _ _ _ Hc c x Hx) as [_ Hm]. destruct (downstream_ x); [|done].
    by destruct Hm as (_ & _ & ?). }
  intros [] w' (Hc' & Hd' & Hall). apply HQ. split; [done|cbn; congruence|].
  intros c x. cbn. rewrite Hall. destruct (decide _) as [|Hn]; [done|]. intros Hx.
  destruct (co_each _ _ _ _ _ _ Hc c x Hx) as [_ Hm]. destruct (downstream_ x).
  - destruct Hm as [(o & Ho & _) _]. by rewrite Hd in Ho.
  - destruct Hm as [? [[Hin _]|[_ [?|?]]]]; [|done|done]. destruct Hn. by apply elem_of_elements.
Qed.

End Heap.

End Objects.
