(* ===== verification/ShrpxResponse.v ===== *)
(** The response of a backend, read for either upstream.

    [Relay] is what the parser of responses needs of an upstream: that the
    Downstream and its connection are there, and that what the upstream does with
    the header, the body and the end of a response keeps them.  From it: no
    callback of the parser fails, on any bytes. *)
From stdpp Require Import gmap.
From S2P Require Import Prelude Records ShrpxConfig.
From S2P Require Import HttpTypes HttpExec HttpInv HttpSwitch HttpSafety HttpPhase.
From S2P Require Import ShrpxWorld ShrpxDownstream ShrpxObjects.

Module Response.
Import Config World Down Objects.

(** * What holds of a Downstream *)

Record response_ok (o : Downstream) : Prop := {
  ro_key : response_header_key_prev_ o = true -> response_headers_ o <> [];
  ro_parser : parser_ok (response_htp_ o);
  ro_value : hp_http_errno (response_htp_ o) = HPE_OK -> in_value (hp_state (response_htp_ o)) = true ->
    response_headers_ o <> []
}.

Lemma new_response_ok stream_id priority : response_ok (Downstream_new stream_id priority).
Proof. by split. Qed.

(** What a response leaves as it is. *)
Record same_request (o o' : Downstream) : Prop := {
  sr_conn : dconn_ o' = dconn_ o;
  sr_bev : io_bev (ioctrl_ o') = io_bev (ioctrl_ o);
  sr_stream : stream_id_ o' = stream_id_ o;
  sr_state : request_state_ o' = request_state_ o;
  sr_headers : request_headers_ o' = request_headers_ o;
  sr_key : request_header_key_prev_ o' = request_header_key_prev_ o;
  sr_body : is_Some (response_body_buf_ o) -> is_Some (response_body_buf_ o')
}.

Lemma same_request_refl o : same_request o o.
Proof. done. Qed.

Lemma same_request_trans o1 o2 o3 : same_request o1 o2 -> same_request o2 o3 -> same_request o1 o3.
Proof. intros [] []. split; [congruence..|auto]. Qed.

(** What the upstream leaves as it is: all but the buffer and the flags of reading. *)
Record relays (o o' : Downstream) : Prop := {
  rl_request : same_request o o';
  rl_headers : response_headers_ o' = response_headers_ o;
  rl_key : response_header_key_prev_ o' = response_header_key_prev_ o;
  rl_htp : response_htp_ o' = response_htp_ o
}.

Lemma relays_refl o : relays o o.
Proof. done. Qed.

Lemma relays_ok o o' : relays o o' -> response_ok o -> response_ok o'.
Proof. intros [_ H1 H2 H3] []. by split; rewrite ?H1, ?H2, ?H3. Qed.

(** * Callbacks of a parser *)

Section Leads.
Context {Up : Type} {tol : Tolerates Up}.
Notation M := (World.M Up).
Notation world := (World.world Up).

(** A condition on the world, or a failure that is tolerated. *)
Definition lift (P : world -> Prop) (x : failure + world) : Prop :=
  match x with inl e => tolerates e | inr w => P w end.

Context (Qpaused : bool -> world -> Prop) (Qany : world -> Prop).

Lemma run_leads b (pre post : world -> Prop) (ok : Z -> Prop) (m : http_parser -> M (Z * option bool)) :
  ~ ok (-1) ->
  (forall p w, pre w -> wp (m p) (fun r w' => Qany w' /\ (r.2 = Some true -> Qpaused b w') /\
    (ok r.1 -> r.2 <> Some true -> post w')) w) ->
  leads (fun b => lift (Qpaused b)) (lift Qany) b (lift pre) (lift post) ok (fun p => run_cb (m p)).
Proof.
  intros Hok Hm p [e|w] Hpre; cbn in Hpre |- *; [by split_and!|]. specialize (Hm p w Hpre). unfold wp in Hm.
  destruct (m p w) as [e|[[rv pause] w']]; [|done]. cbn. split_and!; [done|done|]. intros H. by destruct (Hok H).
Qed.

Lemma leads_mono b (pre pre' post post' : failure + world -> Prop) ok f :
  leads (fun b => lift (Qpaused b)) (lift Qany) b pre post ok f ->
  (forall x, pre' x -> pre x) -> (forall x, post x -> post' x) ->
  leads (fun b => lift (Qpaused b)) (lift Qany) b pre' post' ok f.
Proof. intros Hl H1 H2 p x Hx. destruct (Hl p x (H1 x Hx)) as (? & ? & ?). auto. Qed.

Lemma no_pause_leads b (pre post : world -> Prop) (ok : Z -> Prop) (m : http_parser -> M Z) :
  ~ ok (-1) ->
  (forall p w, pre w -> wp (m p) (fun rv w' => Qany w' /\ (ok rv -> post w')) w) ->
  leads (fun b => lift (Qpaused b)) (lift Qany) b (lift pre) (lift post) ok (fun p => run_cb (no_pause (m p))).
Proof.
  intros Hok Hm. apply run_leads; [done|]. intros p w Hpre. apply wp_bind.
  eapply wp_mono; [by apply Hm|]. intros rv w' [? ?]. apply wp_ret; cbn; by split_and!; auto.
Qed.

(** A parser that runs in the world. *)
Lemma wp_execute settings data p (Q : http_parser * Z -> world -> Prop) w :
  (exists p' x n, http_parser_execute settings data p (inr w) = Returned p' x n /\
    match x with inl e => tolerates e | inr w' => Q (p', n) w' end) ->
  wp (execute_in settings data p) Q w.
Proof. intros (p' & x & n & Hr & Hx). unfold wp, execute_in. rewrite Hr. by destruct x. Qed.

End Leads.

Lemma zero_fails : ~ zero (-1).
Proof. done. Qed.

Lemma zero_one_fails : ~ zero_one (-1).
Proof. by intros [|]. Qed.

Lemma mod_last_some f hs : hs <> [] -> exists hs', mod_last f hs = Some hs' /\ hs' <> [].
Proof.
  induction hs as [|h hs IH]; [done|]. intros _. destruct hs as [|h' hs]; cbn; [by eexists|].
  destruct IH as (hs' & E & _); [done|]. cbn in E. rewrite E. cbn. by eexists.
Qed.

(** * The interface *)

(** [I o w]: the object [d] is [o], attached to the connection [c]. *)
Class Relay {Up} {tol : Tolerates Up} {ops : UpstreamOps Up} (d c : Z)
    (I : Downstream -> World.world Up -> Prop) : Prop := {
  relay_down o w : I o w -> downs w !! d = Some o;
  relay_conn o w : I o w -> dconn_ o = Some c /\ exists x b, dconns w !! c = Some x /\ bev_ x = Some b;
  relay_set o o' w : I o w -> same_request o o' -> response_ok o' -> I o' (w <| downs := <[d := o']> (downs w) |>);
  relay_bev o x b b' w : I o w -> dconns w !! c = Some x -> bev_ x = Some b -> bev_cb b' = bev_cb b ->
    I o (w <| dconns := <[c := x <| bev_ := Some b' |>]> (dconns w) |>);
  relay_header o w : I o w -> response_ok o ->
    wp (on_downstream_header_complete d) (fun _ w' => exists o', I o' w' /\ relays o o') w;
  relay_body o data w : I o w -> response_ok o ->
    wp (on_downstream_body d data) (fun _ w' => exists o', I o' w' /\ relays o o') w;
  relay_complete o w : I o w -> response_ok o ->
    wp (on_downstream_body_complete d) (fun _ w' => exists o', I o' w' /\ relays o o') w
}.

Section Response.
Context {Up : Type} {tol : Tolerates Up} {ops : UpstreamOps Up} (d c : Z).
Context (I : Downstream -> World.world Up -> Prop) {R : Relay d c I} (o : Downstream).
Notation M := (World.M Up).
Notation world := (World.world Up).

(** The Downstream while its response is read: the request stays. *)
Definition reading (P : Downstream -> Prop) (w : world) : Prop :=
  exists o', I o' w /\ response_ok o' /\ same_request o o' /\ P o'.

Definition any (o' : Downstream) : Prop := True.
Definition response_field (o' : Downstream) : Prop := response_headers_ o' <> [].

Lemma reading_both (P P' : Downstream -> Prop) w :
  reading P w -> reading P' w -> reading (fun o' => P o' /\ P' o') w.
Proof.
  intros (o1 & Hi1 & Ho1 & Hs1 & HP1) (o2 & Hi2 & _ & _ & HP2). exists o1. do 3 (split; [done|]).
  pose proof (relay_down _ _ Hi1). pose proof (relay_down _ _ Hi2). by simplify_eq.
Qed.

(** A function of the record that does not fail. *)
Lemma reading_try f o1 o2 (P : Downstream -> Prop) w :
  I o1 w -> same_request o o1 -> f o1 = inr o2 -> same_request o1 o2 -> response_ok o2 -> P o2 ->
  wp (try_down d f) (fun _ w' => reading any w' /\ reading P w') w.
Proof.
  intros Hi Ho Hf Hs Hok HP. apply wp_bind. eapply raw_get_down; [by apply relay_down|]. rewrite Hf.
  eapply raw_set_down; [by apply relay_down|]. pose proof (relay_set _ _ _ Hi Hs Hok) as Hi2.
  assert (same_request o o2) by (by eapply same_request_trans). split; by exists o2.
Qed.

Lemma response_key_leads data w : reading any w ->
  wp (htp_hdr_keycb d data) (fun rv w' => reading any w' /\ reading response_field w') w.
Proof.
  intros (o1 & Hi & Ho & Hs & _). apply wp_bind.
  assert (Hf : exists o', (if response_header_key_prev_ o1 then append_last_response_header_key data o1
      else inr (add_response_header data [] o1)) = inr o' /\ same_request o1 o' /\
      response_ok o' /\ response_field o').
  { destruct (response_header_key_prev_ o1) eqn:Ek.
    - unfold append_last_response_header_key. rewrite Ek.
      destruct (mod_last_some (fun h => (h.1 ++ data, h.2)) (response_headers_ o1)) as (hs & -> & Hne);
        [by apply Ho|]. eexists. do 2 (split; [done|]). split; [|done]. by destruct Ho; split.
    - eexists. do 2 (split; [done|]).
      assert (Hne : response_headers_ o1 ++ [(data, [])] <> []) by (by destruct (response_headers_ o1)).
      split; [|done]. by destruct Ho; split. }
  destruct Hf as (o' & E & Hs' & Ho' & HP).
  eapply wp_mono; [by eapply reading_try|]. intros [] w' H. by apply wp_ret.
Qed.

Lemma response_value_leads data w : reading any w -> reading response_field w ->
  wp (htp_hdr_valcb d data) (fun rv w' => reading any w' /\ reading response_field w') w.
Proof.
  intros Hr1 Hr2. destruct (reading_both _ _ _ Hr1 Hr2) as (o1 & Hi & Ho & Hs & _ & Hne).
  unfold response_field in Hne. apply wp_bind.
  assert (Hf : exists o', (if response_header_key_prev_ o1 then set_last_response_header_value data o1
      else append_last_response_header_value data o1) = inr o' /\ same_request o1 o' /\
      response_ok o' /\ response_field o').
  { destruct (response_header_key_prev_ o1) eqn:Ek.
    - unfold set_last_response_header_value.
      destruct (mod_last_some (fun h => (h.1, data)) (response_headers_ o1)) as (hs & -> & Hne'); [done|].
      eexists. do 2 (split; [done|]). split; [|done]. by destruct Ho; split.
    - unfold append_last_response_header_value. rewrite Ek.
      destruct (mod_last_some (fun h => (h.1, h.2 ++ data)) (response_headers_ o1)) as (hs & -> & Hne'); [done|].
      eexists. do 2 (split; [done|]). split; [|done]. by destruct Ho; split. }
  destruct Hf as (o' & E & Hs' & Ho' & HP).
  eapply wp_mono; [by eapply reading_try|]. intros [] w' H. by apply wp_ret.
Qed.

(** What the upstream has done. *)
Lemma reading_relays o1 w :
  (exists o2, I o2 w /\ relays o1 o2) -> response_ok o1 -> same_request o o1 -> reading any w.
Proof.
  intros (o2 & Hi & Hr) Ho Hs. exists o2. split; [done|]. split; [by eapply relays_ok|]. split; [|done].
  eapply same_request_trans; [done|]. apply Hr.
Qed.

Lemma response_headers_leads p w : reading any w -> wp (htp_hdrs_completecb d p) (fun rv w' => reading any w') w.
Proof.
  intros (o1 & Hi & Ho & Hs & _). apply wp_bind. eapply raw_mod_down; [by apply relay_down|].
  match goal with |- context [<[d := ?x]> _] => set (o2 := x) end.
  assert (Ho2 : response_ok o2) by (by destruct Ho; split).
  assert (Hs2 : same_request o1 o2) by (by split).
  pose proof (relay_set _ _ _ Hi Hs2 Ho2) as Hi2.
  apply wp_bind. eapply wp_mono; [by apply (relay_header o2)|]. intros rv w1 H1.
  assert (Hr : reading any w1) by (eapply reading_relays; [exact H1|done|by eapply same_request_trans]).
  destruct (negb (rv =? 0)); [by apply wp_ret|].
  destruct H1 as (o3 & Hi3 & _). apply wp_bind. eapply raw_get_down; [by apply relay_down|]. by apply wp_ret.
Qed.

Lemma response_complete_leads w : reading any w -> wp (htp_msg_completecb d) (fun rv w' => reading any w') w.
Proof.
  intros (o1 & Hi & Ho & Hs & _). apply wp_bind. eapply raw_mod_down; [by apply relay_down|].
  match goal with |- context [<[d := ?x]> _] => set (o2 := x) end.
  assert (Ho2 : response_ok o2) by (by destruct Ho; split).
  assert (Hs2 : same_request o1 o2) by (by split).
  pose proof (relay_set _ _ _ Hi Hs2 Ho2) as Hi2.
  eapply wp_mono; [by apply (relay_complete o2)|]. intros rv w1 H1.
  eapply reading_relays; [exact H1|done|by eapply same_request_trans].
Qed.

Lemma response_body_leads data w : reading any w -> wp (htp_bodycb d data) (fun rv w' => reading any w') w.
Proof.
  intros (o1 & Hi & Ho & Hs & _). eapply wp_mono; [by apply (relay_body o1)|]. intros rv w1 H1.
  by eapply reading_relays; [exact H1|..].
Qed.

Lemma response_orderly :
  orderly (htp_hooks d) false (lift (reading any)) (fun _ => lift (reading any))
    (lift (reading response_field)) (fun _ => lift (reading any)) (lift (reading any)).
Proof.
  split; try done.
  - by right.
  - by intros x.
  - apply (no_pause_leads (fun _ => reading any)); [apply zero_one_fails|]. intros p w Hw.
    eapply wp_mono; [by apply response_headers_leads|]. auto.
  - apply (no_pause_leads (fun _ => reading any)); [apply zero_fails|]. intros _ w Hw.
    eapply wp_mono; [by apply response_complete_leads|]. auto.
  - intros b k.
    assert (Hk : forall m : list Z -> M Z,
      (forall data w, reading any w -> (k = D_header_value -> reading response_field w) ->
        wp (m data) (fun rv w' => reading any w' /\
          (k = D_header_field \/ k = D_header_value -> reading response_field w')) w) ->
      forall data, leads (fun _ => lift (reading any)) (lift (reading any)) false
        (before (fun _ => lift (reading any)) (lift (reading response_field)) b k)
        (after (fun _ => lift (reading any)) (lift (reading response_field)) b k) zero
        (fun _ => run_cb (no_pause (m data)))).
    { intros m Hm data. eapply (leads_mono (fun _ => reading any)).
      - apply (no_pause_leads (fun _ => reading any) (reading any) _
          (fun w => reading any w /\ (k = D_header_value -> reading response_field w))
          (fun w => reading any w /\ (k = D_header_field \/ k = D_header_value -> reading response_field w))
          _ (fun _ => m data) zero_fails).
        intros _ w [H1 H2]. eapply wp_mono; [by apply Hm|]. naive_solver.
      - intros [e|w] [H1 H2]; done.
      - by intros [e|w]; cbn; [|done]. }
    destruct k; cbn [data_cb htp_hooks on_header_field on_header_value on_url on_body].
    + apply Hk. intros data w Hw _. eapply wp_mono; [by apply response_key_leads|]. naive_solver.
    + apply Hk. intros data w Hw Hf. eapply wp_mono; [by apply response_value_leads; auto|]. naive_solver.
    + intros x [Hx _]. split; [done|]. by intros [|].
    + apply Hk. intros data w Hw _. eapply wp_mono; [by apply response_body_leads|]. naive_solver.
Qed.

(** The parser on any bytes. *)
Lemma execute_response data w :
  I o w -> response_ok o ->
  exists p' x n, http_parser_execute (htp_hooks d) data (response_htp_ o) (inr w) = Returned p' x n /\
    parser_ok p' /\ lift (reading any) x /\
    (hp_http_errno p' = HPE_OK -> in_value (hp_state p') = true -> lift (reading response_field) x).
Proof.
  intros Hi Ho. assert (Hw : reading any w) by (by exists o). set (p := response_htp_ o).
  destruct (execute_returns (htp_hooks d) data p (inr w) (ro_parser _ Ho)) as (p' & x & n & Hr & Hok).
  exists p', x, n. split; [done|]. split; [done|].
  destruct (decide (hp_http_errno p = HPE_OK)) as [He|He].
  - destruct (decide (data = [])) as [Hd|Hd].
    + rewrite Hd in Hr.
      split; [exact (execute_eof_any _ _ _ _ _ _ _ _ response_orderly p (inr w) Hw eq_refl _ _ _ Hr)|].
      intros He' Hv. by rewrite (execute_eof_state _ _ _ _ _ _ He Hr He') in Hv.
    + destruct (execute_phase_post (htp_hooks d) data _ _ _ _ _ _ response_orderly p (inr w)
        (ro_parser _ Ho) He) as (q & y & m & Hr' & Hany & Hph & _); [|done|].
      * split; [done|]. destruct (between (hp_state p)); [done|]. split; [done|]. intros Hv.
        exists o. do 3 (split; [done|]). by apply (ro_value _ Ho).
      * rewrite Hr in Hr'. simplify_eq. split; [done|]. intros He' Hv. destruct (Hph He') as [_ Hp].
        destruct (between (hp_state q)) eqn:Eb; [|by apply Hp]. by destruct (hp_state q).
  - revert Hr. unfold http_parser_execute. rewrite (proj2 (errno_ok_false p) He). intros [= <- <- _].
    split; [done|]. intros He'. done.
Qed.

Lemma parse_http_response_wp (Q : Z -> world -> Prop) w :
  I o w -> response_ok o ->
  (forall rv w' o', I o' w' -> response_ok o' -> same_request o o' -> Q rv w') ->
  wp (parse_http_response d) Q w.
Proof.
  intros Hi Ho HQ. destruct (relay_conn _ _ Hi) as (Hc & x & b & Hx & Hb).
  apply wp_bind. eapply raw_get_down; [by apply relay_down|]. apply wp_bind. rewrite Hc. apply wp_ret, wp_bind.
  eapply raw_get_dconn_bev; [done..|]. apply wp_bind, wp_execute.
  destruct (execute_response (bev_input b) w Hi Ho) as (p' & y & n & Hr & Hok & Hany & Hval).
  exists p', y, n. split; [done|]. destruct y as [e|w']; [done|].
  assert (Hv : exists o1, I o1 w' /\ response_ok o1 /\ same_request o o1 /\
    (hp_http_errno p' = HPE_OK -> in_value (hp_state p') = true -> response_headers_ o1 <> [])).
  { destruct Hany as (o1 & Hi1 & Ho1 & Hs1 & _). exists o1. do 3 (split; [done|]). intros He Hvs.
    destruct (Hval He Hvs) as (o2 & Hi2 & _ & _ & Hf). pose proof (relay_down _ _ Hi1).
    pose proof (relay_down _ _ Hi2). by simplify_eq. }
  destruct Hv as (o1 & Hi1 & Ho1 & Hs1 & Hv1). clear Hany Hval Hi x b Hx Hb Hr w Hc. rename w' into w.
  apply wp_bind. eapply raw_mod_down; [by apply relay_down|].
  assert (Ho2 : response_ok (o1 <| response_htp_ := p' |>)) by (destruct Ho1; by split).
  assert (Hs2 : same_request o1 (o1 <| response_htp_ := p' |>)) by (by split).
  pose proof (relay_set _ _ _ Hi1 Hs2 Ho2) as Hi2.
  destruct (relay_conn _ _ Hi2) as (Hc2 & x & b & Hx & Hb).
  apply wp_bind. eapply raw_mod_dconn_bev; [done..|]. apply wp_ret.
  eapply HQ; [by eapply relay_bev|done|by eapply same_request_trans].
Qed.

End Response.

End Response.
