(* ===== verification/ShrpxHttps.v ===== *)
(** The HTTPS side of the reverse proxy: shrpx_https_upstream.cc, and the
    callbacks of shrpx_client_handler.cc for a client that speaks HTTP/1.1. *)
From stdpp Require Import gmap.
From S2P Require Import Prelude Libc CppUtil Records ShrpxConfig ShrpxHttp.
From S2P Require Import HttpTypes HttpExec ShrpxWorld ShrpxDownstream.

Module Https.
Import Util Config Http World Down.

Definition SHRPX_HTTPS_UPSTREAM_OUTPUT_UPPER_THRES : Z := 64 * 1024.
Definition SHRPX_HTTPS_MAX_HEADER_LENGTH : Z := 64 * 1024.

Record HttpsUpstream := mk_https {
  htp_ : http_parser;
  current_header_length_ : Z;
  up_downstream_ : option Z;
  up_ioctrl_ : IOControl
}.
#[export] Instance eta_HttpsUpstream : Settable HttpsUpstream := fun u =>
  mk_https (htp_ u) (current_header_length_ u) (up_downstream_ u) (up_ioctrl_ u).

(** The constructor. *)
Definition HttpsUpstream_new : HttpsUpstream :=
  mk_https (http_parser_init HTTP_REQUEST) 0 None (mk_io (Some Client_bev) 0).

Notation M := (World.M HttpsUpstream).
Notation world := (World.world HttpsUpstream).

Definition get_upstream : M HttpsUpstream := h ← get_client; nonnull (upstream_ h).
Definition mod_upstream (f : HttpsUpstream -> HttpsUpstream) : M unit :=
  u ← get_upstream; mod_client (fun h => h <| upstream_ := Some (f u) |>).

Definition reset_current_header_length : M unit :=
  mod_upstream (fun u => u <| current_header_length_ := 0 |>).

Definition upstream_attach_downstream (d : Z) : M unit :=
  u ← get_upstream;
  check (bool_decide (up_downstream_ u = None)) Assertion;;
  mod_upstream (fun u => u <| up_downstream_ := Some d |>).

(** delete of a null pointer does nothing. *)
Definition delete_downstream : M unit :=
  u ← get_upstream;
  match up_downstream_ u with Some d => delete_down d | None => mret tt end;;
  mod_upstream (fun u => u <| up_downstream_ := None |>).

(** upstream->get_downstream(), followed. *)
Definition the_downstream : M Z := u ← get_upstream; nonnull (up_downstream_ u).

(** * The callbacks of the request parser *)

Definition htp_msg_begin : M Z :=
  reset_current_header_length;;
  d ← new_down 0 0;
  upstream_attach_downstream d;;
  mret 0.

Definition htp_uricb (data : list Z) : M Z :=
  d ← the_downstream; mod_down d (append_request_path data);; mret 0.

Definition htp_hdr_keycb (data : list Z) : M Z :=
  d ← the_downstream;
  try_down d (fun o => if request_header_key_prev_ o then append_last_request_header_key data o
                       else inr (add_request_header data [] o));; mret 0.

Definition htp_hdr_valcb (data : list Z) : M Z :=
  d ← the_downstream;
  try_down d (fun o => if request_header_key_prev_ o then set_last_request_header_value data o
                       else append_last_request_header_value data o);; mret 0.

Definition reply_100 : list Z := str "HTTP/1.1 100 Continue" ++ CRLF ++ CRLF.

Definition htp_hdrs_completecb (htp : http_parser) : M Z :=
  d ← the_downstream;
  mod_down d (fun o => o <| request_method_ := http_method_str (method_num (hp_method htp)) |>
    <| request_major_ := hp_http_major htp |> <| request_minor_ := hp_http_minor htp |>
    <| request_connection_close_ := negb (http_should_keep_alive htp) |>);;
  c ← get_downstream_connection;
  o ← get_down d;
  rv ← (if request_expect_100_continue_ o then output_add Client_bev reply_100 else mret 0);
  if negb (rv =? 0) then mret (-1) else
  rv ← attach_downstream c d;
  if negb (rv =? 0) then
    mod_down d (fun o => o <| request_state_ := CONNECT_FAIL |>);;
    set_downstream_connection d None;;
    delete_dconn c;;
    mret (-1)
  else
    rv ← push_request_headers d;
    if negb (rv =? 0) then mret (-1)
    else mod_down d (fun o => o <| request_state_ := HEADER_COMPLETE |>);; mret 0.

Definition htp_bodycb (data : list Z) : M Z :=
  d ← the_downstream; rv ← push_upload_data_chunk d data; mret (if rv =? 0 then 0 else -1).

Definition htp_msg_completecb : M (Z * option bool) :=
  d ← the_downstream;
  rv ← end_upload_data d;
  if negb (rv =? 0) then mret (-1, None)
  else mod_down d (fun o => o <| request_state_ := MSG_COMPLETE |>);; mret (0, Some true).

Definition htp_hooks : http_parser_settings (failure + world) :=
  mk_settings
    (Some (fun _ => run_cb (no_pause htp_msg_begin)))
    (Some (fun _ data => run_cb (no_pause (htp_uricb data))))
    (Some (fun _ data => run_cb (no_pause (htp_hdr_keycb data))))
    (Some (fun _ data => run_cb (no_pause (htp_hdr_valcb data))))
    (Some (fun htp => run_cb (no_pause (htp_hdrs_completecb htp))))
    (Some (fun _ data => run_cb (no_pause (htp_bodycb data))))
    (Some (fun _ => run_cb htp_msg_completecb)).

(** * Responses to the client *)

(** The header and the page of an error reply. *)
Definition error_header (c : Config) (close : bool) (status_code : Z) : list Z :=
  str "HTTP/1.1 " ++ get_status_string status_code ++ CRLF ++
  str "Server: " ++ default [] (server_name c) ++ CRLF ++
  str "Content-Length: " ++ int_text (zlen (create_error_html c status_code)) ++ CRLF ++
  str "Content-Type: " ++ str "text/html; charset=UTF-8" ++ CRLF ++
  (if close then str "Connection: close" ++ CRLF else []) ++ CRLF.

Definition error_reply (status_code : Z) : M Z :=
  w ← get; h ← get_client;
  rv ← output_add Client_bev (error_header (cfg w) (should_close_after_write_ h) status_code);
  if negb (rv =? 0) then mret (-1) else
  rv ← output_add Client_bev (create_error_html (cfg w) status_code);
  if negb (rv =? 0) then mret (-1) else
  u ← get_upstream;
  match up_downstream_ u with
  | Some d => mod_down d (fun o => o <| response_state_ := MSG_COMPLETE |>)
  | None => mret tt
  end;;
  mret 0.

(** The loop over the header fields of a response: the text and the value of via. *)
Fixpoint response_header_loop (hs : Headers) (hdrs via_value : list Z) : list Z * list Z :=
  match hs with
  | [] => (hdrs, via_value)
  | (name, value) :: hs =>
      if name_is name (str "keep-alive") || name_is name (str "connection") ||
         name_is name (str "proxy-connection")
      then response_header_loop hs hdrs via_value
      else if name_is name (str "via") then response_header_loop hs hdrs value
      else response_header_loop hs (hdrs ++ name ++ str ": " ++ value ++ CRLF) via_value
  end.

(** snprintf into temp, 16 bytes. *)
Definition version_text (major minor : Z) : list Z :=
  take 15 (str "HTTP/" ++ int_text major ++ str "." ++ int_text minor ++ str " ").

Definition response_text (d : Downstream) : list Z :=
  let hdrs := version_text (request_major_ d) (request_minor_ d) ++
              get_status_string (response_http_status_ d) ++ CRLF in
  let '(hdrs, via_value) := response_header_loop (response_headers_ d) hdrs [] in
  let hdrs :=
    if negb (request_connection_close_ d) && negb (response_connection_close_ d) then
      if (request_major_ d <=? 0) || (request_minor_ d <=? 0)
      then hdrs ++ str "Connection: Keep-Alive" ++ CRLF else hdrs
    else hdrs ++ str "Connection: close" ++ CRLF in
  hdrs ++ str "Via: " ++ via_value ++ (if bool_decide (via_value = []) then [] else str ", ") ++
  create_via_header_value (response_major_ d) (response_minor_ d) ++ CRLF ++ CRLF.

Definition https_header_complete (d : Z) : M Z :=
  o ← get_down d;
  rv ← output_add Client_bev (response_text o);
  mret (if rv =? 0 then 0 else -1).

Definition https_body (d : Z) (data : list Z) : M Z :=
  o ← get_down d;
  rv ← (if chunked_response_ o then output_add Client_bev (chunk_head (zlen data)) else mret 0);
  if negb (rv =? 0) then mret (-1) else
  output_add Client_bev data;;
  (if chunked_response_ o then output_add Client_bev CRLF else mret 0);;
  mret 0.

Definition https_body_complete (d : Z) : M Z :=
  o ← get_down d;
  rv ← (if chunked_response_ o then output_add Client_bev (str "0" ++ CRLF ++ CRLF) else mret 0);
  if negb (rv =? 0) then mret (-1) else
  when (request_connection_close_ o || response_connection_close_ o) (set_should_close_after_write true);;
  mret 0.

(** The destructor of HttpsUpstream. *)
Definition delete_https : M unit :=
  u ← get_upstream;
  match up_downstream_ u with Some d => delete_down d | None => mret tt end;;
  mod_client (fun h => h <| upstream_ := None |>).

#[export] Instance HttpsUpstream_ops : UpstreamOps HttpsUpstream := {
  on_downstream_header_complete := https_header_complete;
  on_downstream_body := https_body;
  on_downstream_body_complete := https_body_complete;
  delete_upstream := delete_https
}.

(** * Reading from the client *)

Definition pause_read (reason : Z) : M unit :=
  u ← get_upstream; io ← io_pause_read (up_ioctrl_ u) reason;
  mod_upstream (fun u => u <| up_ioctrl_ := io |>).

(** An error reply after which the connection is closed. *)
Definition close_with (status_code : Z) : M Z :=
  set_should_close_after_write true;;
  rv ← error_reply status_code;
  mret (if rv =? 0 then 0 else -1).

(** What on_read does after the parser, [downstream] the pointer it has read. *)
Definition after_parse (e : http_errno_t) (downstream : option Z) : M Z :=
  match e with
  | HPE_PAUSED =>
      d ← nonnull downstream;
      o ← get_down d;
      if bool_decide (request_state_ o = CONNECT_FAIL) then close_with 503
      else
        check (bool_decide (request_state_ o = MSG_COMPLETE)) Assertion;;
        match dconn_ o with
        | None =>
            check (bool_decide (response_state_ o = MSG_COMPLETE)) Assertion;;
            delete_downstream;; mret 0
        | Some _ => pause_read SHRPX_MSG_BLOCK;; mret 0
        end
  | HPE_OK =>
      match downstream with
      | None => mret 0
      | Some d =>
          o ← get_down d; u ← get_upstream;
          if bool_decide (request_state_ o = INITIAL) &&
             (SHRPX_HTTPS_MAX_HEADER_LENGTH <? current_header_length_ u)
          then close_with 400
          else
            full ← get_output_buffer_full d;
            when full (pause_read SHRPX_NO_BUFFER);; mret 0
      end
  | _ => close_with 400
  end.

Definition on_read : M Z :=
  b ← get_bev Client_bev;
  if zlen (bev_input b) =? 0 then mret 0 else
  u ← get_upstream;
  '(htp, nread) ← execute_in htp_hooks (bev_input b) (htp_ u);
  mod_upstream (fun u => u <| htp_ := htp |>
    <| current_header_length_ := u64 (current_header_length_ u + nread) |>);;
  mod_bev Client_bev (fun b => b <| bev_input := drop (Z.to_nat nread) (bev_input b) |>);;
  u ← get_upstream;
  after_parse (hp_http_errno htp) (up_downstream_ u).

Definition on_write : M Z :=
  u ← get_upstream;
  match up_downstream_ u with
  | Some d => down_resume_read d SHRPX_NO_BUFFER;; mret tt
  | None => mret tt
  end;;
  mret 0.

(** The result of on_read is not looked at. *)
Definition resume_read (reason : Z) : M unit :=
  u ← get_upstream;
  '(enabled, io) ← io_resume_read (up_ioctrl_ u) reason;
  mod_upstream (fun u => u <| up_ioctrl_ := io |>);;
  if (enabled : bool) then
    u ← get_upstream;
    match http_parser_pause false (htp_ u) with
    | Some htp => mod_upstream (fun u => u <| htp_ := htp |>)
    | None => failed Pause_assertion
    end;;
    on_read;; mret tt
  else mret tt.

(** * The callbacks of a backend connection *)

(** delete_downstream(); resume_read(SHRPX_MSG_BLOCK); *)
Definition next_request : M unit := delete_downstream;; resume_read SHRPX_MSG_BLOCK.

(** The handler is deleted when everything has been written already. *)
Definition written_out : M bool :=
  h ← get_client; n ← get_pending_write_length;
  mret (should_close_after_write_ h && (n =? 0)).

Definition https_downstream_readcb (c : Z) : M unit :=
  x ← get_dconn c;
  d ← nonnull (downstream_ x);
  rv ← parse_http_response d;
  o ← get_down d;
  if rv =? 0 then
    if bool_decide (response_state_ o = MSG_COMPLETE) then
      (if response_connection_close_ o then set_downstream_connection d None;; delete_dconn c
       else detach_downstream c d);;
      if bool_decide (request_state_ o = MSG_COMPLETE) then
        b ← written_out;
        if (b : bool) then delete_handler else next_request
      else mret tt
    else
      n ← get_pending_write_length;
      when (SHRPX_HTTPS_UPSTREAM_OUTPUT_UPPER_THRES <? n) (down_pause_read d SHRPX_NO_BUFFER)
  else
    if bool_decide (response_state_ o = HEADER_COMPLETE) then delete_handler
    else
      rv ← error_reply 502;
      if negb (rv =? 0) then delete_handler
      else if bool_decide (request_state_ o = MSG_COMPLETE) then next_request
      else mret tt.

Definition https_downstream_writecb (c : Z) : M unit :=
  x ← get_dconn c;
  d ← nonnull (downstream_ x);
  get_down d;;
  resume_read SHRPX_NO_BUFFER.

Definition https_downstream_eventcb (c : Z) (events : Z) : M unit :=
  x ← get_dconn c;
  d ← nonnull (downstream_ x);
  o ← get_down d;
  let finish := if bool_decide (request_state_ o = MSG_COMPLETE) then next_request else mret tt in
  if has_flag events BEV_EVENT_CONNECTED then mret tt
  else if has_flag events BEV_EVENT_EOF then
    if bool_decide (response_state_ o = HEADER_COMPLETE) then
      on_downstream_body_complete d;;
      mod_down d (fun o => o <| response_state_ := MSG_COMPLETE |>);;
      b ← written_out;
      if (b : bool) then delete_handler else finish
    else if bool_decide (response_state_ o = MSG_COMPLETE) then finish
    else
      rv ← error_reply 502;
      if negb (rv =? 0) then delete_handler else finish
  else if has_flag events (Z.lor BEV_EVENT_ERROR BEV_EVENT_TIMEOUT) then
    if bool_decide (response_state_ o = INITIAL) then
      rv ← error_reply (if has_flag events BEV_EVENT_TIMEOUT then 504 else 502);
      if negb (rv =? 0) then delete_handler else finish
    else finish
  else mret tt.

(** * The callbacks of the client connection *)

Definition upstream_readcb : M unit :=
  rv ← on_read; if negb (rv =? 0) then delete_handler else mret tt.

Definition upstream_writecb : M unit :=
  h ← get_client;
  if should_close_after_write_ h then delete_handler
  else rv ← on_write; if negb (rv =? 0) then delete_handler else mret tt.

(** The end of the handshake makes the upstream, here always that of HTTP/1.1, and
    reads what has arrived. *)
Definition upstream_eventcb (events : Z) : M unit :=
  if has_flag events BEV_EVENT_EOF || has_flag events BEV_EVENT_ERROR || has_flag events BEV_EVENT_TIMEOUT
  then delete_handler
  else if has_flag events BEV_EVENT_CONNECTED then
    mod_client (fun h => h <| ch_bev := (ch_bev h) <| bev_cb := Cb_client |> |>
                           <| upstream_ := Some HttpsUpstream_new |>);;
    on_read;; mret tt
  else mret tt.

End Https.
