(* ===== verification/ShrpxHeap.v ===== *)
(** The objects of a client that speaks HTTP/1.1.

    [inv] is the shape of the heap between the operations of the proxy: that of
    ShrpxObjects.v with at most one Downstream, the one of the upstream.  A lemma
    per operation of ShrpxHttps.v says how it changes; two failures are
    tolerated. *)
From stdpp Require Import gmap.
From S2P Require Import Prelude Records ShrpxConfig.
From S2P Require Import HttpTypes HttpExec ShrpxWorld ShrpxDownstream ShrpxHttps ShrpxObjects.

Module Heap.
Import Config World Down Https Objects.

Definition tolerated (e : failure) : Prop := e = Null_pointer \/ e = Pause_assertion.
#[export] Instance https_tolerates : Tolerates HttpsUpstream := tolerated.

Lemma wp_nonnull {A} (p : option A) (Q : A -> world -> Prop) w :
  (forall a, p = Some a -> Q a w) -> wp (nonnull p) Q w.
Proof. intros H. destruct p; [by apply H|]. by left. Qed.

Section Heap.
(** Whether calls of the libraries may fail; when they do a connection can be
    lost. *)
Context (faults : bool).

Definition may_lose (_ : option bev_callbacks) : Prop := faults = true.

Definition downs_of (cur : option (Z * Downstream)) : gmap Z Downstream :=
  match cur with Some (d, o) => {[d := o]} | None => ∅ end.

Record inv (held : option Z) (u : HttpsUpstream) (cur : option (Z * Downstream)) (w : world) : Prop := {
  i_client : exists h, client w = Some h /\ upstream_ h = Some u /\ bev_cb (ch_bev h) = Cb_client /\
    conns_ok (may_lose) held (downs w) (dconn_pool_ h) (fresh w) (dconns w);
  i_downs : downs w = downs_of cur;
  i_up : up_downstream_ u = fst <$> cur;
  i_io : io_bev (up_ioctrl_ u) = Some Client_bev;
  i_results : faults = false -> Forall (fun r => r = 0) (results w)
}.

Lemma inv_heap held u cur w : inv held u cur w -> heap_ok (may_lose) held w.
Proof. intros [(h & Hh & _ & Hb & Hc) _ _ _ _]. by exists h. Qed.

Lemma inv_upstream held u cur w : inv held u cur w -> upstream_of w = Some u.
Proof. intros [(h & Hh & Hu & _) _ _ _ _]. unfold upstream_of. by rewrite Hh. Qed.

Lemma inv_lookup held u d o w : inv held u (Some (d, o)) w -> downs w !! d = Some o.
Proof. intros Hi. rewrite (i_downs _ _ _ _ Hi). apply lookup_singleton_eq. Qed.

(** The invariant after an operation. *)
Lemma inv_intro held held' u u' cur cur' w w' :
  inv held u cur w -> heap_ok (may_lose) held' w' -> rest w w' -> upstream_of w' = Some u' ->
  downs w' = downs_of cur' -> up_downstream_ u' = fst <$> cur' ->
  io_bev (up_ioctrl_ u') = io_bev (up_ioctrl_ u) -> inv held' u' cur' w'.
Proof.
  intros [_ _ _ Hio Hr] (h & Hh & Hb & Hc) [Hrs _] Hu Hd Hup Hio'. split; [|done|done|congruence|].
  - exists h. unfold upstream_of in Hu. rewrite Hh in Hu. done.
  - intros Hf. by apply Hrs, Hr.
Qed.

Lemma inv_kept held held' u cur cur' w w' :
  inv held u cur w -> heap_ok (may_lose) held' w' -> kept w w' -> downs w' = downs_of cur' ->
  fst <$> cur' = fst <$> cur -> inv held' u cur' w'.
Proof.
  intros Hi Hh [Hr Hu] Hd E. eapply inv_intro; [done|done|done| |done| |done].
  - rewrite Hu. by eapply inv_upstream.
  - rewrite E. apply Hi.
Qed.

Lemma inv_same held held' u cur w w' :
  inv held u cur w -> heap_ok (may_lose) held' w' -> kept w w' -> downs w' = downs w -> inv held' u cur w'.
Proof. intros Hi Hh Hk E. eapply inv_kept; [done..| |done]. rewrite E. apply Hi. Qed.

(** The Downstream with a new value. *)
Lemma inv_insert held held' u d o o' w w' :
  inv held u (Some (d, o)) w -> heap_ok (may_lose) held' w' -> kept w w' ->
  downs w' = <[d := o']> (downs w) -> inv held' u (Some (d, o')) w'.
Proof.
  intros Hi Hh Hk E. eapply inv_kept; [done|done|done| |done]. rewrite E, (i_downs _ _ _ _ Hi).
  apply insert_singleton_eq.
Qed.

(** ** Reading *)

Lemma wp_get_client held u cur (Q : ClientHandler HttpsUpstream -> world -> Prop) w :
  inv held u cur w ->
  (forall h, client w = Some h -> upstream_ h = Some u -> Q h w) -> wp get_client Q w.
Proof.
  intros [(h & Hh & Hu & _) _ _ _ _] HQ. eapply raw_get_client; [done|]. by apply HQ.
Qed.

Lemma wp_get_upstream held u cur (Q : HttpsUpstream -> world -> Prop) w :
  inv held u cur w -> Q u w -> wp get_upstream Q w.
Proof.
  intros Hi HQ. apply wp_bind. eapply wp_get_client; [done|]. intros h _ ->. by apply wp_nonnull; intros ? [= <-].
Qed.

Lemma wp_get_down held u d o (Q : Downstream -> world -> Prop) w :
  inv held u (Some (d, o)) w -> Q o w -> wp (get_down d) Q w.
Proof. intros Hi HQ. eapply raw_get_down; [by eapply inv_lookup|done]. Qed.

Lemma wp_the_downstream held u d o (Q : Z -> world -> Prop) w :
  inv held u (Some (d, o)) w -> Q d w -> wp the_downstream Q w.
Proof.
  intros Hi HQ. apply wp_bind. eapply wp_get_upstream; [done|]. apply wp_nonnull.
  rewrite (i_up _ _ _ _ Hi). by intros ? [= <-].
Qed.

(** A client of the invariant is the one of the world. *)
Lemma inv_client held u cur w h :
  inv held u cur w -> client w = Some h ->
  upstream_ h = Some u /\ bev_cb (ch_bev h) = Cb_client /\
  conns_ok (may_lose) held (downs w) (dconn_pool_ h) (fresh w) (dconns w).
Proof. intros [(h' & E & ?) _ _ _ _] Hh. assert (h' = h) as -> by congruence. done. Qed.

(** ** Changes that keep the shape *)

(** The client handler, with the same upstream, pool and callbacks. *)
Lemma wp_mod_client held u cur f (Q : unit -> world -> Prop) w :
  (forall h, upstream_ (f h) = upstream_ h /\ dconn_pool_ (f h) = dconn_pool_ h /\
             bev_cb (ch_bev (f h)) = bev_cb (ch_bev h)) ->
  inv held u cur w -> (forall w', inv held u cur w' -> Q tt w') -> wp (mod_client f) Q w.
Proof.
  intros Hf Hi HQ. eapply heap_mod_client; [done|by eapply inv_heap|]. intros w' H1 H2 H3.
  by eapply HQ, inv_same.
Qed.

Lemma wp_mod_upstream held u cur f (Q : unit -> world -> Prop) w :
  inv held u cur w -> up_downstream_ (f u) = up_downstream_ u ->
  io_bev (up_ioctrl_ (f u)) = io_bev (up_ioctrl_ u) ->
  (forall w', inv held (f u) cur w' -> Q tt w') -> wp (mod_upstream f) Q w.
Proof.
  intros Hi E1 E2 HQ. apply wp_bind. eapply wp_get_upstream; [done|].
  eapply heap_set_upstream; [by eapply inv_heap|]. intros w' H1 H2 H3 H4. eapply HQ, inv_intro; try done.
  - rewrite H4. apply Hi.
  - rewrite E1. apply Hi.
Qed.

(** A Downstream with the same connection. *)
Lemma wp_set_down held u d o o' (Q : unit -> world -> Prop) w :
  inv held u (Some (d, o)) w -> dconn_ o' = dconn_ o -> io_bev (ioctrl_ o') = io_bev (ioctrl_ o) ->
  (forall w', inv held u (Some (d, o')) w' -> Q tt w') -> wp (set_down d o') Q w.
Proof.
  intros Hi H1 H2 HQ. eapply heap_set_down; [by eapply inv_heap|by eapply inv_lookup|done|done|].
  intros w' H3 H4 H5. by eapply HQ, inv_insert.
Qed.

Lemma wp_mod_down held u d o f (Q : unit -> world -> Prop) w :
  inv held u (Some (d, o)) w -> dconn_ (f o) = dconn_ o -> io_bev (ioctrl_ (f o)) = io_bev (ioctrl_ o) ->
  (forall w', inv held u (Some (d, f o)) w' -> Q tt w') -> wp (mod_down d f) Q w.
Proof.
  intros Hi H1 H2 HQ. apply wp_bind. eapply wp_get_down; [done|]. by eapply wp_set_down.
Qed.

Lemma wp_try_down held u d o o' f (Q : unit -> world -> Prop) w :
  inv held u (Some (d, o)) w -> f o = inr o' ->
  dconn_ o' = dconn_ o -> io_bev (ioctrl_ o') = io_bev (ioctrl_ o) ->
  (forall w', inv held u (Some (d, o')) w' -> Q tt w') -> wp (try_down d f) Q w.
Proof.
  intros Hi Hf H1 H2 HQ. apply wp_bind. eapply wp_get_down; [done|]. rewrite Hf. by eapply wp_set_down.
Qed.

(** A result is 0 when nothing fails. *)
Lemma inv_zero held u cur w rv :
  inv held u cur w -> (forall P : Z -> Prop, P 0 -> Forall P (results w) -> P rv) -> faults = false -> rv = 0.
Proof. intros Hi HP Hf. apply HP; [done|]. by apply (i_results _ _ _ _ Hi). Qed.

Lemma inv_update held u cur w c x b b' :
  inv held u cur w -> dconns w !! c = Some x -> bev_ x = Some b -> bev_cb b' = bev_cb b ->
  inv held u cur (w <| dconns := <[c := x <| bev_ := Some b' |>]> (dconns w) |>).
Proof.
  intros [(h & Hh & Hu & Hb & Hc) ? ? ? ?] Hx Hxb E. split; [|done..].
  exists h. do 3 (split; [done|]). by eapply conns_update.
Qed.

Lemma inv_set held u d o o' w :
  inv held u (Some (d, o)) w -> dconn_ o' = dconn_ o -> io_bev (ioctrl_ o') = io_bev (ioctrl_ o) ->
  inv held u (Some (d, o')) (w <| downs := <[d := o']> (downs w) |>).
Proof.
  intros Hi E1 E2. eapply inv_insert; [done| |done|done].
  destruct (inv_heap _ _ _ _ Hi) as (h & Hh & Hb & Hc). exists h. do 2 (split; [done|]).
  eapply conns_set_down; [done|by eapply inv_lookup|done..].
Qed.

(** [r] is the bufferevent of the client or that of the connection. *)
Definition usable (r : bev_ref) (cur : option (Z * Downstream)) : Prop :=
  match r with
  | Client_bev => True
  | Dconn_bev c => exists d o, cur = Some (d, o) /\ dconn_ o = Some c
  end.

Lemma usable_world held u cur r w : inv held u cur w -> usable r cur -> Objects.usable r w.
Proof.
  destruct r as [|c]; [done|]. intros Hi (d & o & -> & Ho). exists d, o. split; [by eapply inv_lookup|done].
Qed.

Lemma wp_get_bev held u cur r (Q : bufferevent -> world -> Prop) w :
  inv held u cur w -> usable r cur -> (forall b, Q b w) -> wp (get_bev r) Q w.
Proof. intros Hi Hr HQ. eapply heap_get_bev; [by eapply inv_heap|by eapply usable_world|done]. Qed.

Lemma wp_mod_bev held u cur r f (Q : unit -> world -> Prop) w :
  inv held u cur w -> usable r cur -> (forall b, bev_cb (f b) = bev_cb b) ->
  (forall w', inv held u cur w' -> Q tt w') -> wp (mod_bev r f) Q w.
Proof.
  intros Hi Hr Hf HQ. eapply heap_mod_bev; [by eapply inv_heap|by eapply usable_world|done|].
  intros w' H1 H2 H3. by eapply HQ, inv_same.
Qed.

Lemma wp_output_add held u cur r data (Q : Z -> world -> Prop) w :
  inv held u cur w -> usable r cur ->
  (forall rv w', inv held u cur w' -> (faults = false -> rv = 0) -> Q rv w') -> wp (output_add r data) Q w.
Proof.
  intros Hi Hr HQ. eapply heap_output_add; [by eapply inv_heap|by eapply usable_world|].
  intros rv w' H1 H2 H3 H4. eapply HQ; [by eapply inv_same|by eapply inv_zero].
Qed.

Lemma wp_start_waiting_response held u d o c (Q : unit -> world -> Prop) w :
  inv held u (Some (d, o)) w -> dconn_ o = Some c ->
  (forall w', inv held u (Some (d, o)) w' -> Q tt w') -> wp (start_waiting_response c) Q w.
Proof.
  intros Hi Ho HQ. eapply heap_start_waiting_response; [by eapply inv_heap|by eapply inv_lookup|done|].
  intros w' H1 H2 H3. by eapply HQ, inv_same.
Qed.

(** ** Reading enabled and disabled *)

Definition io_usable (io : IOControl) (cur : option (Z * Downstream)) : Prop :=
  match io_bev io with Some r => usable r cur | None => True end.

Lemma io_usable_world held u cur io w : inv held u cur w -> io_usable io cur -> Objects.io_usable io w.
Proof.
  unfold io_usable, Objects.io_usable. destruct (io_bev io); [|done]. intros Hi Hr. by eapply usable_world.
Qed.

Lemma wp_io_pause held u cur io reason (Q : IOControl -> world -> Prop) w :
  inv held u cur w -> io_usable io cur ->
  (forall w', inv held u cur w' -> Q (io <| rdbits_ := Z.lor (rdbits_ io) reason |>) w') ->
  wp (io_pause_read io reason) Q w.
Proof.
  intros Hi Hu HQ. eapply heap_io_pause; [by eapply inv_heap|by eapply io_usable_world|].
  intros w' H1 H2 H3. by eapply HQ, inv_same.
Qed.

Lemma wp_io_resume held u cur io reason (Q : bool * IOControl -> world -> Prop) w :
  inv held u cur w -> io_usable io cur ->
  (let r := Z.ldiff (rdbits_ io) reason in
   forall w', inv held u cur w' -> Q (r =? 0, io <| rdbits_ := r |>) w') ->
  wp (io_resume_read io reason) Q w.
Proof.
  intros Hi Hu HQ. eapply heap_io_resume; [by eapply inv_heap|by eapply io_usable_world|].
  intros r w' H1 H2 H3. by eapply HQ, inv_same.
Qed.

Lemma wp_down_pause held u d o reason (Q : unit -> world -> Prop) w :
  inv held u (Some (d, o)) w ->
  (forall w', inv held u (Some (d, o <| ioctrl_ := (ioctrl_ o) <| rdbits_ := Z.lor (rdbits_ (ioctrl_ o)) reason |> |>)) w' ->
     Q tt w') -> wp (down_pause_read d reason) Q w.
Proof.
  intros Hi HQ. eapply heap_down_pause; [by eapply inv_heap|by eapply inv_lookup|].
  intros w' H1 H2 H3. by eapply HQ, inv_insert.
Qed.

Lemma wp_down_resume held u d o reason (Q : bool -> world -> Prop) w :
  inv held u (Some (d, o)) w ->
  (forall b w', inv held u (Some (d, o <| ioctrl_ := (ioctrl_ o) <| rdbits_ := Z.ldiff (rdbits_ (ioctrl_ o)) reason |> |>)) w' ->
     Q b w') -> wp (down_resume_read d reason) Q w.
Proof.
  intros Hi HQ. eapply heap_down_resume; [by eapply inv_heap|by eapply inv_lookup|].
  intros b w' H1 H2 H3. by eapply HQ, inv_insert.
Qed.

(** ** The operations that change the shape *)

Lemma inv_leak u cur w c : faults = true -> inv (Some c) u cur w -> inv None u cur w.
Proof.
  intros Hf Hi. eapply inv_same; [done|eapply heap_leak; [by intros|by eapply inv_heap]|done|done].
Qed.

Lemma wp_get_downstream_connection u cur (Q : Z -> world -> Prop) w :
  inv None u cur w -> (forall c w', inv (Some c) u cur w' -> Q c w') -> wp get_downstream_connection Q w.
Proof.
  intros Hi HQ. eapply heap_get_downstream_connection; [by eapply inv_heap|].
  intros c w' H1 H2 H3. by eapply HQ, inv_same.
Qed.

Lemma wp_attach_downstream u d o c (Q : Z -> world -> Prop) w :
  inv (Some c) u (Some (d, o)) w -> dconn_ o = None ->
  (forall w', inv None u (Some (d, attached c o)) w' -> Q 0 w') ->
  (forall rv w', rv <> 0 -> inv (Some c) u (Some (d, o)) w' -> Q rv w') ->
  wp (attach_downstream c d) Q w.
Proof.
  intros Hi Ho H0 H1. eapply heap_attach_downstream; [by eapply inv_heap|by eapply inv_lookup|done|..].
  - intros w' H2 H3 H4. by eapply H0, inv_insert.
  - intros rv w' Hrv _ _ H2 H3 H4. eapply H1; [done|]. by eapply inv_same.
Qed.

Lemma wp_set_no_connection u d o c (Q : unit -> world -> Prop) w :
  inv (Some c) u (Some (d, o)) w -> dconn_ o = None ->
  (forall w', inv (Some c) u (Some (d, unattached o)) w' -> Q tt w') ->
  wp (set_downstream_connection d None) Q w.
Proof.
  intros Hi Ho HQ. eapply wp_mod_down; [done|done| |done].
  pose proof (inv_lookup _ _ _ _ _ Hi) as Hd. destruct Hi as [(h & _ & _ & _ & Hc) _ _ _ _].
  destruct (co_downs _ _ _ _ _ _ Hc d o Hd) as (_ & -> & _). by rewrite Ho.
Qed.

Lemma wp_delete_held u cur c (Q : unit -> world -> Prop) w :
  inv (Some c) u cur w -> (forall w', inv None u cur w' -> Q tt w') -> wp (delete_dconn c) Q w.
Proof.
  intros Hi HQ. eapply heap_delete_held; [by eapply inv_heap|]. intros w' H1 H2 H3. by eapply HQ, inv_same.
Qed.

Lemma wp_drop_connection u d o c (Q : unit -> world -> Prop) w :
  inv None u (Some (d, o)) w -> dconn_ o = Some c ->
  (forall w', inv None u (Some (d, unattached (unattached o))) w' -> Q tt w') ->
  wp (set_downstream_connection d None;; delete_dconn c) Q w.
Proof.
  intros Hi Ho HQ. eapply heap_drop_connection; [by eapply inv_heap|by eapply inv_lookup|done|].
  intros w' H1 H2 H3. by eapply HQ, inv_insert.
Qed.

Lemma wp_detach_downstream u d o c (Q : unit -> world -> Prop) w :
  inv None u (Some (d, o)) w -> dconn_ o = Some c ->
  (forall w', inv None u (Some (d, unattached o)) w' -> Q tt w') ->
  wp (detach_downstream c d) Q w.
Proof.
  intros Hi Ho HQ. eapply heap_detach_downstream; [by eapply inv_heap|by eapply inv_lookup|done|].
  intros w' H1 H2 H3. by eapply HQ, inv_insert.
Qed.

(** The Downstream of the upstream is deleted with its connection. *)
Lemma wp_delete_current u cur (Q : unit -> world -> Prop) w :
  inv None u cur w ->
  (forall w', heap_ok (may_lose) None w' -> kept w w' -> downs w' = ∅ -> Q tt w') ->
  wp (match up_downstream_ u with Some d => delete_down d | None => mret tt end) Q w.
Proof.
  intros Hi HQ. pose proof (inv_heap _ _ _ _ Hi) as Hh. rewrite (i_up _ _ _ _ Hi).
  destruct cur as [[d o]|]; cbn [fmap option_fmap option_map fst].
  - eapply heap_delete_down; [done|by eapply inv_lookup|]. intros w' H1 H2 H3. apply HQ; [done|done|].
    rewrite H3, (i_downs _ _ _ _ Hi). apply delete_singleton_eq.
  - apply wp_ret, HQ; [done|done|]. apply Hi.
Qed.

Lemma wp_delete_downstream u cur (Q : unit -> world -> Prop) w :
  inv None u cur w ->
  (forall w', inv None (u <| up_downstream_ := None |>) None w' -> Q tt w') -> wp delete_downstream Q w.
Proof.
  intros Hi HQ. apply wp_bind. eapply wp_get_upstream; [done|]. apply wp_bind.
  eapply wp_delete_current; [done|]. intros w1 H1 [H2 H3] H4. rewrite (inv_upstream _ _ _ _ Hi) in H3.
  apply wp_bind, wp_bind. eapply heap_get_client; [done|]. intros h _ E. rewrite <- E, H3. apply wp_ret.
  eapply heap_set_upstream; [done|]. intros w2 H5 [H6 H6'] H7 H8. eapply HQ, (inv_intro None None u); try done.
  - split; intros P HP; [by apply H6, H2|by apply H6', H2].
  - by rewrite H8.
Qed.

(** on_message_begin: a Downstream for the request. *)
Lemma wp_htp_msg_begin u (Q : Z -> world -> Prop) w :
  inv None u None w ->
  (forall d w', inv None (u <| current_header_length_ := 0 |> <| up_downstream_ := Some d |>)
     (Some (d, Downstream_new 0 0)) w' -> Q 0 w') ->
  wp htp_msg_begin Q w.
Proof.
  intros Hi HQ. apply wp_bind. eapply wp_mod_upstream; [done|done|done|]. clear Hi w. intros w Hi.
  apply wp_bind. unfold wp at 1, new_down. apply wp_bind.
  destruct Hi as [(h & Hh & Hu & Hb & Hc) Hd Hup Hio Hr]. cbn in Hup, Hio, Hd.
  unfold wp at 1, upstream_attach_downstream, mod_upstream, get_upstream, mod_client, get_client, nonnull,
    check, mbind, M_bind, mret, M_ret, update.
  cbn. rewrite Hh. cbn. rewrite Hu. cbn. rewrite Hup. cbn. rewrite Hh. cbn. rewrite Hu. cbn. rewrite Hh.
  apply (HQ (fresh w)). split; [|cbn; by rewrite Hd|done..].
  eexists. split; [done|]. cbn. do 2 (split; [done|]). by apply conns_new_down.
Qed.

(** The event of a connection without a Downstream. *)
Lemma wp_idle_eventcb u cur c x events (Q : unit -> world -> Prop) w :
  inv None u cur w -> dconns w !! c = Some x -> cb_of x = Some Cb_idle ->
  (forall w', inv None u cur w' -> Q tt w') -> wp (idle_eventcb c events) Q w.
Proof.
  intros Hi Hx Hcb HQ. eapply heap_idle_eventcb; [by eapply inv_heap|done|done|].
  intros w' H1 H2 H3. by eapply HQ, inv_same.
Qed.

Lemma wp_delete_handler u cur (Q : unit -> world -> Prop) w :
  inv None u cur w -> (forall w', gone (may_lose) w' -> Q tt w') -> wp delete_handler Q w.
Proof.
  intros Hi HQ. eapply heap_delete_handler; [by eapply inv_heap|by eapply inv_upstream| |done].
  apply wp_bind. eapply wp_get_upstream; [done|]. apply wp_bind. eapply wp_delete_current; [done|].
  intros w1 H1 H2 H3. eapply heap_set_upstream; [done|]. intros w2 H4 H5 H6 H7. split; [done|]. congruence.
Qed.

End Heap.
End Heap.
