(* ===== verification/ShrpxSafety.v ===== *)
(** Memory safety of the HTTPS side of the proxy: as long as the client is there no
    callback of libevent, in any order and with any data, touches a deleted object,
    reads the back of an empty vector or fails an assertion of the proxy; and a client
    that is gone has left no Downstream, and no connection but one that was lost when a
    call of the library failed. *)
From stdpp Require Import gmap.
From S2P Require Import Prelude Records ShrpxConfig.
From S2P Require Import HttpTypes HttpExec HttpInv HttpSwitch HttpSafety HttpPhase.
From S2P Require Import ShrpxWorld ShrpxDownstream ShrpxObjects ShrpxResponse ShrpxHttps ShrpxHeap.

Module Safety.
Import Config World Down Objects Response Https Heap.

(** * What holds of a Downstream *)

Record down_ok (o : Downstream) : Prop := {
  do_request_key : request_header_key_prev_ o = true -> request_headers_ o <> [];
  do_response_key : response_header_key_prev_ o = true -> response_headers_ o <> [];
  do_parser : parser_ok (response_htp_ o);
  do_value : hp_http_errno (response_htp_ o) = HPE_OK -> in_value (hp_state (response_htp_ o)) = true ->
    response_headers_ o <> [];
  do_done : request_state_ o = HEADER_COMPLETE \/ request_state_ o = MSG_COMPLETE ->
    dconn_ o = None -> response_state_ o = MSG_COMPLETE
}.

Lemma Downstream_new_ok stream_id priority : down_ok (Downstream_new stream_id priority).
Proof. split; try done; by intros [|]. Qed.

Lemma down_response_ok o : down_ok o -> response_ok o.
Proof. by intros []; split. Qed.

(** A response leaves what holds of the request. *)
Lemma response_down_ok o o' c :
  down_ok o -> dconn_ o = Some c -> response_ok o' -> same_request o o' -> down_ok o'.
Proof.
  intros [] Hc [] [E1 _ _ _ E2 E3 _]. split; try done; rewrite ?E1, ?E2, ?E3; [done|congruence].
Qed.

Definition cur_ok (cur : option (Z * Downstream)) : Prop := forall d o, cur = Some (d, o) -> down_ok o.

(** Inside a request, in its head or after it; and when it was read. *)
Definition inside (b : bool) (cur : option (Z * Downstream)) : Prop :=
  exists d o, cur = Some (d, o) /\ down_ok o /\ request_state_ o <> MSG_COMPLETE /\
    if b then dconn_ o = None else request_state_ o = HEADER_COMPLETE.
Definition field_seen (cur : option (Z * Downstream)) : Prop :=
  exists d o, cur = Some (d, o) /\ request_headers_ o <> [].
Definition complete (cur : option (Z * Downstream)) : Prop :=
  exists d o, cur = Some (d, o) /\ down_ok o /\ request_state_ o = MSG_COMPLETE.

(** * The parser of requests and the Downstream of the upstream *)

Definition is_request (p : http_parser) : Prop :=
  hp_type p = HTTP_REQUEST /\ response_state (hp_state p) = false.

Definition place_ok (p : http_parser) (cur : option (Z * Downstream)) : Prop :=
  is_request p /\
  if between (hp_state p) then cur = None
  else inside (head p) cur /\ (in_value (hp_state p) = true -> field_seen cur).

Definition blocked (u : HttpsUpstream) : Prop := Z.testbit (rdbits_ (up_ioctrl_ u)) 1 = true.

Record up_ok (u : HttpsUpstream) (cur : option (Z * Downstream)) : Prop := {
  uo_cur : cur_ok cur;
  uo_parser : parser_ok (htp_ u);
  uo_running : hp_http_errno (htp_ u) = HPE_OK -> place_ok (htp_ u) cur;
  uo_paused : hp_http_errno (htp_ u) = HPE_PAUSED ->
    is_request (htp_ u) /\ between (hp_state (htp_ u)) = true /\
    (cur = None \/ (complete cur /\ blocked u))
}.

Section Safety.
Context (faults : bool).
Notation inv := (inv faults).
Notation gone := (gone (may_lose faults)).

Definition running (w : world) : Prop := exists u cur, inv None u cur w /\ up_ok u cur.

(** The world determines the upstream and its Downstream. *)
Lemma inv_unique u1 cur1 u2 cur2 w : inv None u1 cur1 w -> inv None u2 cur2 w -> u1 = u2 /\ cur1 = cur2.
Proof.
  intros [(h1 & E1 & U1 & _) D1 P1 _ _] [(h2 & E2 & U2 & _) D2 P2 _ _].
  assert (Hu : u1 = u2) by congruence. split; [done|]. subst u2. rewrite P1 in P2.
  destruct cur1 as [[d1 o1]|], cur2 as [[d2 o2]|]; try done.
  injection P2 as <-. rewrite D1 in D2. cbn [downs_of] in D2. do 2 f_equal.
  assert (E : ({[d1 := o1]} : gmap Z Downstream) !! d1 = ({[d1 := o2]} : gmap Z Downstream) !! d1) by (by rewrite D2).
  rewrite !lookup_singleton_eq in E. congruence.
Qed.

(** * The callbacks of the request parser *)

Section Request.
(** The reasons to stop reading, which the callbacks do not change. *)
Context (io : IOControl).

Definition at_ (P : option (Z * Downstream) -> Prop) (w : world) : Prop :=
  exists u cur, inv None u cur w /\ up_ioctrl_ u = io /\ P cur.

Definition outside (cur : option (Z * Downstream)) : Prop := cur = None.

Lemma at_intro P u cur w : inv None u cur w -> up_ioctrl_ u = io -> P cur -> at_ P w.
Proof. by exists u, cur. Qed.

Lemma inside_cur_ok b cur : inside b cur -> cur_ok cur.
Proof. intros (d & o & -> & H & _) ? ? [= <- <-]. done. Qed.

(** A change of the Downstream inside a request. *)
Lemma at_inside (b : bool) u d o w :
  inv None u (Some (d, o)) w -> up_ioctrl_ u = io -> down_ok o -> request_state_ o <> MSG_COMPLETE ->
  (if b then dconn_ o = None else request_state_ o = HEADER_COMPLETE) -> at_ cur_ok w /\ at_ (inside b) w.
Proof.
  intros Hi Hio Ho Hs Hb. assert (inside b (Some (d, o))) by (exists d, o; done).
  split; (eapply at_intro; [done|done|]); [by eapply inside_cur_ok|done].
Qed.

Lemma begin_leads w : at_ outside w -> wp htp_msg_begin (fun rv w' => at_ cur_ok w' /\ (zero rv -> at_ (inside true) w')) w.
Proof.
  intros (u & cur & Hi & Hio & ->). eapply wp_htp_msg_begin; [done|]. intros d w' Hi'.
  destruct (at_inside true _ _ _ _ Hi') as [H1 H2]; [done|apply Downstream_new_ok|done..|]. auto.
Qed.

Lemma uri_leads b data w : at_ (inside b) w ->
  wp (htp_uricb data) (fun rv w' => at_ cur_ok w' /\ (zero rv -> at_ (inside b) w')) w.
Proof.
  intros (u & cur & Hi & Hio & d & o & -> & Ho & Hs & Hb). apply wp_bind.
  eapply wp_the_downstream; [done|]. apply wp_bind. eapply wp_mod_down; [done|done|done|]. intros w' Hi'.
  apply wp_ret. destruct (at_inside b _ _ _ _ Hi') as [H1 H2]; [done|by destruct Ho; split|done..|]. auto.
Qed.

Lemma key_leads b data w : at_ (inside b) w ->
  wp (htp_hdr_keycb data) (fun rv w' => at_ cur_ok w' /\ (zero rv -> at_ (inside b) w' /\ at_ field_seen w')) w.
Proof.
  intros (u & cur & Hi & Hio & d & o & -> & Ho & Hs & Hb). apply wp_bind.
  eapply wp_the_downstream; [done|]. apply wp_bind.
  assert (Hf : exists o', (if request_header_key_prev_ o then append_last_request_header_key data o
      else inr (add_request_header data [] o)) = inr o' /\ dconn_ o' = dconn_ o /\ ioctrl_ o' = ioctrl_ o /\
      request_state_ o' = request_state_ o /\ request_headers_ o' <> [] /\ down_ok o').
  { destruct (request_header_key_prev_ o) eqn:Ek.
    - unfold append_last_request_header_key. rewrite Ek.
      destruct (mod_last_some (fun h => (h.1 ++ data, h.2)) (request_headers_ o)) as (hs & -> & Hne);
        [by apply Ho|]. eexists. split; [done|]. cbn. do 4 (split; [done|]). by destruct Ho; split.
    - eexists. split; [done|]. cbn. do 3 (split; [done|]).
      assert (Hne : request_headers_ o ++ [(data, [])] <> []) by (by destruct (request_headers_ o)).
      split; [done|]. by destruct Ho; split. }
  destruct Hf as (o' & E & E1 & E2 & E3 & E4 & Ho').
  eapply wp_try_down; [done|exact E|done|by rewrite E2|]. intros w' Hi'. apply wp_ret.
  destruct (at_inside b _ _ _ _ Hi') as [H1 H2]; [done|done|congruence|by rewrite E1, E3|].
  split; [done|]. intros _. split; [done|]. eapply at_intro; [done|done|]. by exists d, o'.
Qed.

Lemma value_leads b data w : at_ (inside b) w -> at_ field_seen w ->
  wp (htp_hdr_valcb data) (fun rv w' => at_ cur_ok w' /\ (zero rv -> at_ (inside b) w' /\ at_ field_seen w')) w.
Proof.
  intros (u & cur & Hi & Hio & d & o & -> & Ho & Hs & Hb) (u' & cur' & Hi' & _ & Hfs).
  destruct (inv_unique _ _ _ _ _ Hi Hi') as [<- <-]. destruct Hfs as (? & ? & [= <- <-] & Hne). clear Hi'.
  apply wp_bind. eapply wp_the_downstream; [done|]. apply wp_bind.
  assert (Hf : exists o', (if request_header_key_prev_ o then set_last_request_header_value data o
      else append_last_request_header_value data o) = inr o' /\ dconn_ o' = dconn_ o /\ ioctrl_ o' = ioctrl_ o /\
      request_state_ o' = request_state_ o /\ request_headers_ o' <> [] /\ down_ok o').
  { destruct (request_header_key_prev_ o) eqn:Ek.
    - unfold set_last_request_header_value.
      destruct (mod_last_some (fun h => (h.1, data)) (request_headers_ o)) as (hs & -> & Hne'); [done|].
      eexists. split; [done|]. cbn. do 4 (split; [done|]). by destruct Ho; split.
    - unfold append_last_request_header_value. rewrite Ek.
      destruct (mod_last_some (fun h => (h.1, h.2 ++ data)) (request_headers_ o)) as (hs & -> & Hne'); [done|].
      eexists. split; [done|]. cbn. do 4 (split; [done|]). by destruct Ho; split. }
  destruct Hf as (o' & E & E1 & E2 & E3 & E4 & Ho').
  eapply wp_try_down; [done|exact E|done|by rewrite E2|]. intros w' Hi'. apply wp_ret.
  destruct (at_inside b _ _ _ _ Hi') as [H1 H2]; [done|done|congruence|by rewrite E1, E3|].
  split; [done|]. intros _. split; [done|]. eapply at_intro; [done|done|]. by exists d, o'.
Qed.

(** The end of the headers: a connection is found and the request is sent. *)
Lemma push_request_headers_wp u d o c Q w :
  inv None u (Some (d, o)) w -> dconn_ o = Some c ->
  (forall rv w', inv None u (Some (d, o)) w' -> Q rv w') -> wp (push_request_headers d) Q w.
Proof.
  intros Hi Ho HQ. eapply heap_push_request_headers; [by eapply inv_heap|by eapply inv_lookup|done|].
  intros rv w' H1 H2 H3. by eapply HQ, inv_same.
Qed.

Lemma headers_leads p w : at_ (inside true) w ->
  wp (htp_hdrs_completecb p) (fun rv w' => at_ cur_ok w' /\ (zero_one rv -> at_ (inside false) w')) w.
Proof.
  intros (u & cur & Hi & Hio & d & o & -> & Ho & Hs & Hb).
  apply wp_bind. eapply wp_the_downstream; [done|]. apply wp_bind.
  eapply wp_mod_down; [done|done|done|]. clear w Hi. intros w Hi.
  match type of Hi with inv _ _ (Some (_, ?x)) _ => set (o1 := x) in * end.
  assert (H1 : down_ok o1 /\ dconn_ o1 = None /\ request_state_ o1 = request_state_ o)
    by (by destruct Ho; split; [split|]). destruct H1 as (Ho1 & Hc1 & Hs1). clearbody o1.
  apply wp_bind. eapply wp_get_downstream_connection; [done|]. clear w Hi. intros c w Hi.
  apply wp_bind. eapply wp_get_down; [done|]. apply wp_bind.
  (* the reply 100 *)
  assert (H100 : wp (if request_expect_100_continue_ o1 then output_add Client_bev reply_100 else mret 0)
    (fun rv w' => inv (Some c) u (Some (d, o1)) w' /\ (faults = false -> rv = 0)) w).
  { destruct (request_expect_100_continue_ o1); [by eapply wp_output_add|by apply wp_ret]. }
  eapply wp_mono; [exact H100|]. clear w Hi H100. intros rv w [Hi H0].
  assert (Hin : forall w' o', inv None u (Some (d, o')) w' -> down_ok o' -> at_ cur_ok w').
  { intros w' o' Hi' Ho'. eapply at_intro; [done|done|]. by intros ? ? [= <- <-]. }
  destruct (Z.eqb_spec rv 0) as [->|Hne]; cbn [negb].
  2: { apply wp_ret. split; [|by intros [|]]. apply (Hin w o1); [|done].
       eapply inv_leak; [|done]. by destruct faults; auto. }
  apply wp_bind. eapply wp_attach_downstream; [done|done| |]; clear w Hi H0.
  - intros w Hi. cbn [negb Z.eqb]. apply wp_bind.
    assert (Ha : down_ok (attached c o1)) by (by destruct Ho1; split).
    eapply push_request_headers_wp; [done|done|]. clear w Hi. intros rv w Hi.
    destruct (negb (rv =? 0)).
    + apply wp_ret. split; [|by intros [|]]. by eapply Hin.
    + apply wp_bind. eapply wp_mod_down; [done|done|done|]. clear w Hi. intros w Hi. apply wp_ret.
      destruct (at_inside false _ _ _ _ Hi) as [? ?]; [done|by destruct Ha; split|done..|]. auto.
  - intros rv w Hne Hi. destruct (Z.eqb_spec rv 0) as [|_]; [done|]. cbn [negb].
    apply wp_bind. eapply wp_mod_down; [done|done|done|]. clear w Hi. intros w Hi.
    apply wp_bind. eapply wp_set_no_connection; [done|done|]. clear w Hi. intros w Hi.
    apply wp_bind. eapply wp_delete_held; [done|]. clear w Hi. intros w Hi. apply wp_ret.
    split; [|by intros [|]]. eapply Hin; [done|]. by destruct Ho1; split; cbn; try done; intros [|].
Qed.

(** The body and the end of a request. *)
Lemma push_upload_data_chunk_wp u d o data Q w :
  inv None u (Some (d, o)) w -> (forall rv w', inv None u (Some (d, o)) w' -> Q rv w') ->
  wp (push_upload_data_chunk d data) Q w.
Proof.
  intros Hi HQ. eapply heap_push_upload_data_chunk; [by eapply inv_heap|by eapply inv_lookup|].
  intros rv w' H1 H2 H3. by eapply HQ, inv_same.
Qed.

Lemma body_leads b data w : at_ (inside b) w ->
  wp (htp_bodycb data) (fun rv w' => at_ cur_ok w' /\ (zero rv -> at_ (inside b) w')) w.
Proof.
  intros (u & cur & Hi & Hio & d & o & -> & Ho & Hs & Hb). apply wp_bind.
  eapply wp_the_downstream; [done|]. apply wp_bind. eapply push_upload_data_chunk_wp; [done|].
  intros rv w' Hi'. apply wp_ret. destruct (at_inside b _ _ _ _ Hi') as [H1 H2]; auto.
Qed.

Lemma complete_leads w : at_ (inside false) w ->
  wp htp_msg_completecb (fun r w' => at_ cur_ok w' /\ (r.2 = Some true -> at_ complete w') /\
    (zero r.1 -> r.2 <> Some true -> at_ outside w')) w.
Proof.
  intros (u & cur & Hi & Hio & d & o & -> & Ho & Hs & Hb). apply wp_bind.
  eapply wp_the_downstream; [done|]. apply wp_bind.
  assert (He : wp (end_upload_data d) (fun rv w' => inv None u (Some (d, o)) w') w).
  { apply wp_bind. eapply wp_get_down; [done|]. destruct (chunked_request_ o); [|by apply wp_ret].
    apply wp_bind, wp_nonnull. intros c Ec. apply wp_bind. eapply wp_output_add; [done|cbn; eauto|].
    intros rv w' Hi' _. by apply wp_ret. }
  eapply wp_mono; [exact He|]. clear w Hi He. intros rv w Hi.
  destruct (Z.eqb_spec rv 0) as [->|Hne]; cbn [negb].
  - apply wp_bind. eapply wp_mod_down; [done|done|done|]. clear w Hi. intros w Hi. apply wp_ret. cbn.
    assert (Ho' : down_ok (o <| request_state_ := MSG_COMPLETE |>)).
    { destruct Ho; split; try done. cbn. auto. }
    split; [|split; [intros _|by intros _ []]]; (eapply at_intro; [done|done|]).
    + by intros ? ? [= <- <-].
    + by eexists _, _.
  - apply wp_ret. destruct (at_inside false _ _ _ _ Hi) as [H1 _]; auto. done.
Qed.

(** The callbacks keep the order that the parser promises. *)
Lemma https_orderly :
  orderly htp_hooks true (lift (at_ outside)) (fun b => lift (at_ (inside b))) (lift (at_ field_seen))
    (fun b => lift (fun w => b = true /\ at_ complete w)) (lift (at_ cur_ok)).
Proof.
  assert (Himp : forall P Q : option (Z * Downstream) -> Prop, (forall cur, P cur -> Q cur) ->
    forall x, lift (at_ P) x -> lift (at_ Q) x).
  { intros P Q H [e|w]; cbn; [done|]. intros (u & cur & ? & ? & ?). exists u, cur. auto. }
  split.
  - by left.
  - intros b. apply Himp. apply inside_cur_ok.
  - apply Himp. by intros cur -> ? ? ?.
  - apply no_pause_leads; [apply zero_fails|]. intros _. apply begin_leads.
  - apply no_pause_leads; [apply zero_one_fails|]. apply headers_leads.
  - apply run_leads; [apply zero_fails|]. intros _ w Hw. eapply wp_mono; [by apply complete_leads|].
    intros r w' (H1 & H2 & H3). auto.
  - intros b k.
    assert (Hk : forall m : list Z -> M Z,
      (forall data w, at_ (inside b) w -> (k = D_header_value -> at_ field_seen w) ->
        wp (m data) (fun rv w' => at_ cur_ok w' /\ (zero rv -> at_ (inside b) w' /\
          (k = D_header_field \/ k = D_header_value -> at_ field_seen w'))) w) ->
      forall data, leads (fun b => lift (fun w => b = true /\ at_ complete w)) (lift (at_ cur_ok)) false
        (before (fun b => lift (at_ (inside b))) (lift (at_ field_seen)) b k)
        (after (fun b => lift (at_ (inside b))) (lift (at_ field_seen)) b k) zero
        (fun _ => run_cb (no_pause (m data)))).
    { intros m Hm data. eapply leads_mono.
      - apply (no_pause_leads _ _ _ (fun w => at_ (inside b) w /\ (k = D_header_value -> at_ field_seen w))
          (fun w => at_ (inside b) w /\ (k = D_header_field \/ k = D_header_value -> at_ field_seen w)) _ (fun _ => m data) zero_fails).
        intros _ w [H1 H2]. by apply Hm.
      - intros [e|w] [H1 H2]; done.
      - by intros [e|w]; cbn; [|done]. }
    destruct k; cbn [data_cb htp_hooks on_header_field on_header_value on_url on_body].
    + apply Hk. intros data w Hw _. eapply wp_mono; [by apply key_leads|]. naive_solver.
    + apply Hk. intros data w Hw Hf. eapply wp_mono; [by apply value_leads; auto|]. naive_solver.
    + apply Hk. intros data w Hw _. eapply wp_mono; [by apply uri_leads|]. naive_solver.
    + apply Hk. intros data w Hw _. eapply wp_mono; [by apply body_leads|]. naive_solver.
Qed.

End Request.

(** * Reading from the client *)

(** Changes that [up_ok] does not see. *)
Lemma up_ok_same u u' cur :
  up_ok u cur -> htp_ u' = htp_ u ->
  (hp_http_errno (htp_ u) = HPE_PAUSED -> cur <> None -> blocked u -> blocked u') -> up_ok u' cur.
Proof.
  intros [H1 H2 H3 H4] E Hb. split; rewrite ?E; try done. intros Hp.
  destruct (H4 Hp) as (? & ? & [->|[Hc Hbl]]); split_and!; auto.
  right. split; [done|]. apply Hb; [done| |done]. by destruct Hc as (? & ? & -> & _).
Qed.

(** A Downstream that changed in its response only. *)
Lemma up_ok_response u d o o' :
  up_ok u (Some (d, o)) -> down_ok o' -> request_state_ o' = request_state_ o ->
  request_headers_ o' = request_headers_ o -> (dconn_ o = None -> dconn_ o' = None) ->
  up_ok u (Some (d, o')).
Proof.
  intros [H1 H2 H3 H4] Ho E1 E2 E3. split; [by intros ? ? [= <- <-]|done| |].
  - intros He. destruct (H3 He) as [Hr Hp]. split; [done|]. destruct (between _); [done|].
    destruct Hp as [(? & ? & [= <- <-] & _ & Hs & Hb) Hv]. split.
    + exists d, o'. split; [done|]. split; [done|]. rewrite E1. split; [done|]. destruct (head _); auto.
    + intros Hin. destruct (Hv Hin) as (? & ? & [= <- <-] & Hne). exists d, o'. by rewrite E2.
  - intros Hp. destruct (H4 Hp) as (? & ? & [?|[(? & ? & [= <- <-] & _ & Hs) ?]]); [done|].
    split_and!; [done|done|]. right. split; [|done]. exists d, o'. by rewrite E1.
Qed.

(** A request that was read: its parser is paused or in an error state. *)
Lemma complete_not_running u cur : up_ok u cur -> complete cur -> hp_http_errno (htp_ u) <> HPE_OK.
Proof.
  intros [_ _ H3 _] (d & o & -> & _ & Hs) He. destruct (H3 He) as [_ Hp].
  destruct (between _); [done|]. by destruct Hp as [(? & ? & [= <- <-] & _ & Hn & _) _].
Qed.

Lemma error_reply_wp u cur status Q w :
  inv None u cur w -> up_ok u cur ->
  (forall rv w' cur', inv None u cur' w' -> up_ok u cur' -> (complete cur -> complete cur') -> Q rv w') ->
  wp (error_reply status) Q w.
Proof.
  intros Hi Hu HQ. apply wp_bind, wp_get, wp_bind. eapply wp_get_client; [done|]. intros h _ _.
  generalize (cfg w) as cf. intros cf.
  apply wp_bind. eapply wp_output_add; [done|done|]. clear w Hi. intros rv w Hi _.
  destruct (negb _); [by apply wp_ret, (HQ _ _ cur)|]. apply wp_bind.
  eapply wp_output_add; [done|done|]. clear w Hi. intros rv' w Hi _.
  destruct (negb _); [by apply wp_ret, (HQ _ _ cur)|]. apply wp_bind.
  eapply wp_get_upstream; [done|]. apply wp_bind. rewrite (i_up _ _ _ _ _ Hi).
  destruct cur as [[d o]|]; cbn [fmap option_fmap option_map fst]; [|by apply (HQ _ _ None)].
  eapply wp_mod_down; [done|done|done|]. clear w Hi. intros w Hi.
  assert (Ho : down_ok (o <| response_state_ := MSG_COMPLETE |>)).
  { destruct (uo_cur _ _ Hu d o eq_refl). by split. }
  apply (HQ _ _ _ Hi); [by eapply up_ok_response|].
  intros (? & ? & [= <- <-] & _ & Hs). by eexists _, _.
Qed.

Lemma close_with_wp u cur status (Q : Z -> world -> Prop) w :
  inv None u cur w -> up_ok u cur -> (forall rv w', running w' -> Q rv w') -> wp (close_with status) Q w.
Proof.
  intros Hi Hu HQ. apply wp_bind. eapply wp_mod_client; [by intros|exact Hi|]. clear w Hi. intros w Hi.
  apply wp_bind. eapply error_reply_wp; [done|done|]. intros rv w' cur' Hi' Hu' _.
  apply wp_ret, HQ. by exists u, cur'.
Qed.

Lemma pause_read_wp u cur reason Q w :
  inv None u cur w ->
  (forall w', inv None (u <| up_ioctrl_ := (up_ioctrl_ u) <| rdbits_ := Z.lor (rdbits_ (up_ioctrl_ u)) reason |> |>) cur w' ->
     Q tt w') -> wp (pause_read reason) Q w.
Proof.
  intros Hi HQ. apply wp_bind. eapply wp_get_upstream; [done|]. apply wp_bind.
  eapply wp_io_pause; [done|unfold io_usable; by rewrite (i_io _ _ _ _ _ Hi)|].
  intros w' Hi'. by eapply wp_mod_upstream.
Qed.

(** After the parser, with its result in the upstream. *)
Lemma after_parse_wp u cur (Q : Z -> world -> Prop) w :
  inv None u cur w -> cur_ok cur -> parser_ok (htp_ u) ->
  (hp_http_errno (htp_ u) = HPE_OK -> place_ok (htp_ u) cur) ->
  (hp_http_errno (htp_ u) = HPE_PAUSED ->
    is_request (htp_ u) /\ between (hp_state (htp_ u)) = true /\ (cur = None \/ complete cur)) ->
  (forall rv w', running w' -> Q rv w') ->
  wp (after_parse (hp_http_errno (htp_ u)) (up_downstream_ u)) Q w.
Proof.
  intros Hi Hc Hp Hrun Hpause HQ.
  assert (Hother : hp_http_errno (htp_ u) <> HPE_PAUSED -> up_ok u cur) by (intros; by split).
  destruct (decide (hp_http_errno (htp_ u) = HPE_PAUSED)) as [Ep|Ep];
    [|destruct (decide (hp_http_errno (htp_ u) = HPE_OK)) as [Eo|Eo]].
  - rewrite Ep. cbn [after_parse]. destruct (Hpause Ep) as (Hreq & Hb & Hcur).
    apply wp_bind, wp_nonnull. rewrite (i_up _ _ _ _ _ Hi). intros d Hd.
    destruct Hcur as [->|(? & o & -> & Ho & Hs)]; [done|]. injection Hd as ->.
    apply wp_bind. eapply wp_get_down; [done|]. rewrite Hs. cbn.
    apply wp_bind, wp_check; [done|]. destruct (dconn_ o) as [c|] eqn:Ec.
    + apply wp_bind. eapply pause_read_wp; [done|]. clear w Hi. intros w Hi. apply wp_ret, HQ.
      eexists _, _. split; [done|]. split; [done|done|by cbn; rewrite Ep|]. intros _.
      split_and!; [done|done|]. right. split; [by eexists _, _|].
      transitivity (Z.testbit (Z.lor (rdbits_ (up_ioctrl_ u)) SHRPX_MSG_BLOCK) 1); [done|].
      rewrite Z.lor_spec. apply orb_true_r.
    + apply wp_bind, wp_check; [apply bool_decide_eq_true; apply Ho; auto|].
      apply wp_bind. eapply wp_delete_downstream; [done|]. clear w Hi. intros w Hi. apply wp_ret, HQ.
      eexists _, _. split; [done|]. split; cbn; [done|done|by rewrite Ep|]. intros _. auto.
  - rewrite Eo. cbn [after_parse]. rewrite (i_up _ _ _ _ _ Hi). specialize (Hother Ep).
    destruct cur as [[d o]|]; cbn [fmap option_fmap option_map fst]; [|by apply wp_ret, HQ; eexists _, _].
    apply wp_bind. eapply wp_get_down; [done|]. apply wp_bind. eapply wp_get_upstream; [done|].
    destruct (_ && _); [by eapply close_with_wp|]. apply wp_bind.
    assert (Hfull : wp (get_output_buffer_full d) (fun _ => inv None u (Some (d, o))) w).
    { apply wp_bind. eapply wp_get_down; [done|]. destruct (dconn_ o) as [c|] eqn:Ec; [|by apply wp_ret].
      apply wp_bind. eapply wp_get_bev; [done|cbn; eauto|]. intros b. by apply wp_ret. }
    eapply wp_mono; [exact Hfull|]. clear w Hi Hfull. intros full w Hi. apply wp_bind.
    destruct full; cbn [when]; [|by apply wp_ret, HQ; eexists _, _].
    eapply pause_read_wp; [done|]. clear w Hi. intros w Hi. apply wp_ret, HQ. eexists _, _. split; [done|].
    eapply up_ok_same; [done|done|]. by intros ?.
  - specialize (Hother Ep). destruct (hp_http_errno (htp_ u)) eqn:E; try done; by eapply close_with_wp.
Qed.

(** What the parser leaves, in the world or as a failure. *)
Definition parsed (io : IOControl) (p : http_parser) (x : failure + world) : Prop :=
  match x with
  | inl e => tolerated e
  | inr w => exists u cur, inv None u cur w /\ up_ioctrl_ u = io /\ cur_ok cur /\ parser_ok p /\
      (hp_http_errno p = HPE_OK -> place_ok p cur) /\
      (hp_http_errno p = HPE_PAUSED ->
        is_request p /\ between (hp_state p) = true /\ (cur = None \/ complete cur))
  end.

Lemma phase_place io p u cur w :
  inv None u cur w -> up_ioctrl_ u = io ->
  phase true (lift (at_ io outside)) (fun b => lift (at_ io (inside b))) (lift (at_ io field_seen)) p (inr w) <->
  place_ok p cur.
Proof.
  intros Hi Hio.
  assert (Hat : forall P, at_ io P w <-> P cur).
  { intros P. split; [|by apply at_intro with u].
    intros (u' & cur' & Hi' & _ & HP). by destruct (inv_unique _ _ _ _ _ Hi Hi') as [_ <-]. }
  unfold phase, place_ok, request_parser, is_request. cbn [lift].
  destruct (between _); rewrite !Hat; unfold outside; naive_solver.
Qed.

Lemma execute_parsed u cur data w :
  inv None u cur w -> up_ok u cur -> data <> [] ->
  exists p x n, http_parser_execute htp_hooks data (htp_ u) (inr w) = Returned p x n /\
    parsed (up_ioctrl_ u) p x.
Proof.
  intros Hi [H1 H2 H3 H4] Hd. destruct (decide (hp_http_errno (htp_ u) = HPE_OK)) as [He|He].
  - destruct (execute_returns htp_hooks data (htp_ u) (inr w) H2) as (p & x & n & Hr & Hok).
    exists p, x, n. split; [done|].
    destruct (execute_phase_post htp_hooks data _ _ _ _ _ _ (https_orderly (up_ioctrl_ u)) (htp_ u) (inr w) H2 He)
      as (q & y & m & Hr' & Hany & Hph & Hps); [by eapply phase_place; eauto|done|].
    rewrite Hr in Hr'. simplify_eq. destruct y as [e|w']; cbn; [done|].
    destruct Hany as (u' & cur' & Hi' & Hio & Hc). exists u', cur'. do 4 (split; [done|]). split.
    + intros E. by eapply phase_place; eauto.
    + intros E. destruct (Hps E) as [Hreq [Hb (u2 & cur2 & Hi2 & _ & Hcm)]].
      destruct (inv_unique _ _ _ _ _ Hi' Hi2) as [_ <-]. split; [by apply Hreq|]. auto.
  - exists (htp_ u), (inr w), 0. unfold http_parser_execute. rewrite (proj2 (errno_ok_false _) He).
    split; [done|]. exists u, cur. do 4 (split; [done|]). split; [done|].
    intros E. destruct (H4 E) as (? & ? & [|[]]); auto.
Qed.

Lemma on_read_wp u cur (Q : Z -> world -> Prop) w :
  inv None u cur w -> up_ok u cur -> (forall rv w', running w' -> Q rv w') -> wp on_read Q w.
Proof.
  intros Hi Hu HQ. apply wp_bind. eapply wp_get_bev; [done|done|]. intros b.
  destruct (Z.eqb_spec (zlen (bev_input b)) 0) as [|Hne].
  { apply wp_ret, HQ. by exists u, cur. }
  assert (Hd : bev_input b <> []) by (intros E; by rewrite E in Hne).
  apply wp_bind. eapply wp_get_upstream; [done|]. apply wp_bind, wp_execute.
  destruct (execute_parsed _ _ _ _ Hi Hu Hd) as (p & x & n & Hr & Hx). exists p, x, n. split; [done|].
  destruct x as [e|w']; [done|]. destruct Hx as (u' & cur' & Hi' & Hio & Hc & Hok & Hrun & Hps).
  clear w Hi Hr. apply wp_bind. eapply wp_mod_upstream; [done|done|done|]. clear w' Hi'. intros w Hi.
  apply wp_bind. eapply wp_mod_bev; [done|done|done|]. clear w Hi. intros w Hi.
  apply wp_bind. eapply wp_get_upstream; [done|]. by eapply (after_parse_wp _ _ _ _ Hi).
Qed.

(** * Resuming *)

Lemma resume_read_wp u cur reason (Q : unit -> world -> Prop) w :
  inv None u cur w -> up_ok u cur ->
  reason = SHRPX_NO_BUFFER \/ (reason = SHRPX_MSG_BLOCK /\ cur = None) ->
  (forall w', running w' -> Q tt w') -> wp (resume_read reason) Q w.
Proof.
  intros Hi Hu Hreason HQ. apply wp_bind. eapply wp_get_upstream; [done|]. apply wp_bind.
  eapply wp_io_resume; [done|unfold io_usable; by rewrite (i_io _ _ _ _ _ Hi)|]. clear w Hi. intros r w Hi.
  assert (Hblocked : cur <> None -> blocked u -> Z.testbit r 1 = true).
  { intros Hcur Hb. destruct Hreason as [->|[_ ?]]; [|done]. unfold r. rewrite Z.ldiff_spec, Hb. done. }
  apply wp_bind. eapply wp_mod_upstream; [done|done|done|]. clear w Hi. intros w Hi.
  match type of Hi with inv _ ?x _ _ => set (u1 := x) in * end.
  assert (Hu1 : up_ok u1 cur) by (eapply up_ok_same; [done|done|]; intros _ ? ?; by apply Hblocked).
  destruct (Z.eqb_spec r 0) as [Hr|Hr]; [|apply wp_ret, HQ; by exists u1, cur].
  apply wp_bind. eapply wp_get_upstream; [done|]. apply wp_bind.
  destruct (http_parser_pause false (htp_ u1)) as [p|] eqn:Ep; [|by right].
  eapply wp_mod_upstream; [done|done|done|]. clear w Hi. intros w Hi.
  apply wp_bind. eapply on_read_wp; [done| |].
  2: { intros _ w' Hw'. by apply wp_ret, HQ. }
  destruct Hu1 as [K1 K2 K3 K4]. split; cbn [htp_ set_field]; [done|by eapply pause_ok| |].
  - intros _. unfold http_parser_pause in Ep. cbn in Ep.
    assert (Hp : is_request p <-> is_request (htp_ u)) by (by destruct (hp_http_errno (htp_ u)); simplify_eq).
    assert (Hs : place_ok p cur <-> place_ok (htp_ u) cur) by (by destruct (hp_http_errno (htp_ u)); simplify_eq).
    apply Hs. destruct (hp_http_errno (htp_ u)) eqn:E; try done; [by apply K3|].
    destruct (K4 E) as (Hreq & Hb & Hcur). split; [done|]. cbn in Hb. rewrite Hb.
    destruct Hcur as [|[(d & o & -> & _) Hbl]]; [done|].
    exfalso. unfold blocked in Hbl. cbn in Hbl. by rewrite Hr in Hbl.
  - intros E. exfalso. unfold http_parser_pause in Ep. cbn in Ep, E.
    by destruct (hp_http_errno (htp_ u)); simplify_eq.
Qed.

(** The next request, once this one was read. *)
Lemma next_request_wp u cur (Q : unit -> world -> Prop) w :
  inv None u cur w -> up_ok u cur -> complete cur -> (forall w', running w' -> Q tt w') ->
  wp next_request Q w.
Proof.
  intros Hi Hu Hcm HQ. apply wp_bind. eapply wp_delete_downstream; [done|]. clear w Hi. intros w Hi.
  pose proof (complete_not_running _ _ Hu Hcm) as He. destruct Hu as [K1 K2 K3 K4].
  eapply resume_read_wp; [done| |by right|done]. split; cbn; [done|done|done|].
  intros E. destruct (K4 E) as (? & ? & _). auto.
Qed.

(** * The response of the backend *)

Section Response.
Context (u : HttpsUpstream) (d : Z) (o : Downstream) (c : Z).

(** What the upstream does with the response writes to the client only. *)
Lemma https_header_complete_wp u1 o1 (Q : Z -> world -> Prop) w :
  inv None u1 (Some (d, o1)) w -> (forall rv w', inv None u1 (Some (d, o1)) w' -> Q rv w') ->
  wp (https_header_complete d) Q w.
Proof.
  intros Hi HQ. apply wp_bind. eapply wp_get_down; [done|]. apply wp_bind.
  eapply wp_output_add; [done|done|]. intros rv w' Hi' _. by apply wp_ret, HQ.
Qed.

Lemma https_body_wp u1 o1 data (Q : Z -> world -> Prop) w :
  inv None u1 (Some (d, o1)) w -> (forall rv w', inv None u1 (Some (d, o1)) w' -> Q rv w') ->
  wp (https_body d data) Q w.
Proof.
  intros Hi HQ. apply wp_bind. eapply wp_get_down; [done|].
  assert (Hadd : forall b text (Q' : Z -> world -> Prop) w1, inv None u1 (Some (d, o1)) w1 ->
    (forall rv w', inv None u1 (Some (d, o1)) w' -> Q' rv w') ->
    wp (if (b : bool) then output_add Client_bev text else mret 0) Q' w1).
  { intros b text Q' w1 H1 H2. destruct b; [|by apply H2]. eapply wp_output_add; [done|done|]. auto. }
  apply wp_bind, Hadd; [done|]. intros rv w1 H1. destruct (negb _); [by apply wp_ret, HQ|].
  apply wp_bind. eapply wp_output_add; [done|done|]. intros _ w2 H2 _.
  apply wp_bind, Hadd; [done|]. intros _ w3 H3. by apply wp_ret, HQ.
Qed.

Lemma https_body_complete_wp u1 o1 (Q : Z -> world -> Prop) w :
  inv None u1 (Some (d, o1)) w -> (forall rv w', inv None u1 (Some (d, o1)) w' -> Q rv w') ->
  wp (https_body_complete d) Q w.
Proof.
  intros Hi HQ. apply wp_bind. eapply wp_get_down; [done|]. apply wp_bind.
  assert (H0 : wp (if chunked_response_ o1 then output_add Client_bev (str "0" ++ CRLF ++ CRLF) else mret 0)
    (fun _ => inv None u1 (Some (d, o1))) w).
  { destruct (chunked_response_ o1); [|by apply wp_ret]. by eapply wp_output_add. }
  eapply wp_mono; [exact H0|]. clear w Hi H0. intros rv w Hi. destruct (negb _); [by apply wp_ret, HQ|].
  apply wp_bind. destruct (_ || _); cbn [when]; [|by apply wp_ret, HQ].
  eapply wp_mod_client; [by intros|exact Hi|]. intros w' Hi'. by apply wp_ret, HQ.
Qed.

(** The interface of the parser of responses. *)
Definition relayed (o' : Downstream) (w : world) : Prop :=
  inv None u (Some (d, o')) w /\ dconn_ o' = Some c.

#[local] Instance https_relay : Relay d c relayed.
Proof.
  split.
  - intros o1 w [Hi _]. by eapply inv_lookup.
  - intros o1 w [Hi Hc]. split; [done|].
    destruct (heap_dconn _ _ _ _ _ _ (inv_heap _ _ _ _ _ Hi) (inv_lookup _ _ _ _ _ _ Hi) Hc) as (x & b & ? & _ & ? & _).
    by exists x, b.
  - intros o1 o2 w [Hi Hc] [E1 E2 _ _ _ _ _] _. split; [|congruence].
    by eapply inv_set.
  - intros o1 x b b' w [Hi Hc] Hx Hb E. split; [|done]. by eapply inv_update.
  - intros o1 w [Hi Hc] _. eapply https_header_complete_wp; [done|]. intros rv w' Hi'. by exists o1.
  - intros o1 data w [Hi Hc] _. eapply https_body_wp; [done|]. intros rv w' Hi'. by exists o1.
  - intros o1 w [Hi Hc] _. eapply https_body_complete_wp; [done|]. intros rv w' Hi'. by exists o1.
Qed.

(** The parser of responses, on any bytes. *)
Lemma https_parse_response_wp (Q : Z -> world -> Prop) w :
  inv None u (Some (d, o)) w -> up_ok u (Some (d, o)) -> dconn_ o = Some c ->
  (forall rv w' o', inv None u (Some (d, o')) w' -> up_ok u (Some (d, o')) -> dconn_ o' = Some c ->
     request_state_ o' = request_state_ o -> Q rv w') ->
  wp (parse_http_response d) Q w.
Proof.
  intros Hi Hu Hc HQ. pose proof (uo_cur _ _ Hu d o eq_refl) as Ho.
  eapply (parse_http_response_wp d c relayed o); [done|by apply down_response_ok|].
  intros rv w' o' [Hi' Hc'] Ho' Hs'. eapply HQ; [done| |done|apply Hs'].
  eapply up_ok_response; [done| |apply Hs'..|congruence]. by eapply response_down_ok.
Qed.

End Response.

(** * The callbacks of libevent *)

Definition settled (w : world) : Prop := running w \/ gone w.

Lemma settled_running u cur w : inv None u cur w -> up_ok u cur -> settled w.
Proof. left. by exists u, cur. Qed.

Lemma delete_handler_wp u cur w : inv None u cur w -> wp delete_handler (fun _ => settled) w.
Proof. intros Hi. eapply wp_delete_handler; [done|]. by right. Qed.

Lemma next_request_settled u cur w :
  inv None u cur w -> up_ok u cur -> complete cur -> wp next_request (fun _ => settled) w.
Proof. intros Hi Hu Hc. eapply next_request_wp; [done..|]. by left. Qed.

Lemma backend_cur u cur c w :
  inv None u cur w -> backend c w ->
  exists d o x, cur = Some (d, o) /\ dconn_ o = Some c /\ dconns w !! c = Some x /\ downstream_ x = Some d.
Proof.
  intros Hi Hb. destruct (backend_down _ _ _ _ (inv_heap _ _ _ _ _ Hi) Hb) as (d & o & x & Hd & ? & ? & ?).
  exists d, o, x. split; [|done]. rewrite (i_downs _ _ _ _ _ Hi) in Hd.
  destruct cur as [[d1 o1]|]; cbn [downs_of] in Hd; [|done]. by apply lookup_singleton_Some in Hd as [<- <-].
Qed.

(** The Downstream without its connection, once the response was read. *)
Lemma unattached_ok u d o :
  up_ok u (Some (d, o)) -> response_state_ o = MSG_COMPLETE ->
  up_ok u (Some (d, unattached o)) /\ response_state_ (unattached o) = MSG_COMPLETE.
Proof.
  intros Hu Hs. split; [|done]. eapply up_ok_response; [done| |done..].
  destruct (uo_cur _ _ Hu d o eq_refl). by split.
Qed.

Lemma written_out_wp u cur (Q : bool -> world -> Prop) w :
  inv None u cur w -> (forall b, Q b w) -> wp written_out Q w.
Proof.
  intros Hi HQ. apply wp_bind. eapply wp_get_client; [done|]. intros h _ _. apply wp_bind, wp_bind.
  eapply wp_get_bev; [done|done|]. intros b. by apply wp_ret, wp_ret, HQ.
Qed.

(** Either the handler is deleted or the next request is read. *)
Lemma finish_wp u d o (b : bool) w :
  inv None u (Some (d, o)) w -> up_ok u (Some (d, o)) ->
  wp (if b then delete_handler else if bool_decide (request_state_ o = MSG_COMPLETE) then next_request else mret tt)
    (fun _ => settled) w.
Proof.
  intros Hi Hu. destruct b; [by eapply delete_handler_wp|].
  case_bool_decide as Hs; [|by apply wp_ret; eapply settled_running].
  eapply next_request_settled; [done..|]. exists d, o. split; [done|]. split; [by apply (uo_cur _ _ Hu d)|done].
Qed.

(** The error replies of the callbacks of a backend. *)
Lemma error_finish_wp u d o status w :
  inv None u (Some (d, o)) w -> up_ok u (Some (d, o)) ->
  wp (rv ← error_reply status;
      if negb (rv =? 0) then delete_handler
      else if bool_decide (request_state_ o = MSG_COMPLETE) then next_request else mret tt)
    (fun _ => settled) w.
Proof.
  intros Hi Hu. apply wp_bind. eapply error_reply_wp; [done|done|]. clear w Hi. intros rv w cur' Hi Hu' Hc.
  destruct (negb _); [by eapply delete_handler_wp|].
  case_bool_decide as Hs; [|by apply wp_ret; eapply settled_running].
  eapply next_request_settled; [done..|]. apply Hc. exists d, o. split; [done|].
  split; [by apply (uo_cur _ _ Hu d)|done].
Qed.

Lemma https_downstream_readcb_wp u cur c w :
  inv None u cur w -> up_ok u cur -> backend c w -> wp (https_downstream_readcb c) (fun _ => settled) w.
Proof.
  intros Hi Hu Hb. destruct (backend_cur _ _ _ _ Hi Hb) as (d & o & x & -> & Hc & Hx & Hd).
  apply wp_bind. eapply raw_get_dconn; [done|]. apply wp_bind. rewrite Hd. apply wp_ret, wp_bind.
  eapply https_parse_response_wp; [done..|]. clear w Hi Hb Hx x Hd. intros rv w o1 Hi Hu1 Hc1 Hs1.
  apply wp_bind. eapply wp_get_down; [done|]. destruct (rv =? 0).
  - case_bool_decide as Hr.
    + assert (Hsplit : wp (if response_connection_close_ o1
          then set_downstream_connection d None;; delete_dconn c else detach_downstream c d)
        (fun _ w' => exists o2, inv None u (Some (d, o2)) w' /\ up_ok u (Some (d, o2)) /\
           request_state_ o2 = request_state_ o1) w).
      { destruct (unattached_ok _ _ _ Hu1 Hr) as [Hu2 Hr2].
        destruct (unattached_ok _ _ _ Hu2 Hr2) as [Hu3 _]. destruct (response_connection_close_ o1).
        - eapply wp_drop_connection; [done..|]. intros w' Hi'. by eexists.
        - eapply wp_detach_downstream; [done..|]. intros w' Hi'. by eexists. }
      apply wp_bind. eapply wp_mono; [exact Hsplit|]. clear w Hi Hsplit. intros [] w (o2 & Hi & Hu2 & Hs2).
      rewrite <- Hs2. case_bool_decide as Hm; [|by apply wp_ret; eapply settled_running].
      apply wp_bind. eapply written_out_wp; [done|]. intros b.
      pose proof (finish_wp _ _ _ b _ Hi Hu2) as Hf. by rewrite bool_decide_eq_true_2 in Hf.
    + apply wp_bind.
      assert (Hn : wp get_pending_write_length (fun _ w' => w' = w) w).
      { apply wp_bind. eapply wp_get_bev; [done|done|]. done. }
      eapply wp_mono; [exact Hn|]. intros n ? ->. destruct (_ <? _); cbn [when].
      * eapply wp_down_pause; [done|]. clear w Hi Hn. intros w Hi. eapply settled_running; [done|].
        eapply up_ok_response; [done| |done..]. by destruct (uo_cur _ _ Hu1 d o1 eq_refl); split.
      * apply wp_ret. by eapply settled_running.
  - case_bool_decide; [by eapply delete_handler_wp|]. by eapply error_finish_wp.
Qed.

Lemma https_downstream_writecb_wp u cur c w :
  inv None u cur w -> up_ok u cur -> backend c w -> wp (https_downstream_writecb c) (fun _ => settled) w.
Proof.
  intros Hi Hu Hb. destruct (backend_cur _ _ _ _ Hi Hb) as (d & o & x & -> & Hc & Hx & Hd).
  apply wp_bind. eapply raw_get_dconn; [done|]. apply wp_bind. rewrite Hd. apply wp_ret, wp_bind.
  eapply wp_get_down; [done|]. eapply resume_read_wp; [done|done|by left|]. by left.
Qed.

Lemma https_downstream_eventcb_wp u cur c events w :
  inv None u cur w -> up_ok u cur -> backend c w -> wp (https_downstream_eventcb c events) (fun _ => settled) w.
Proof.
  intros Hi Hu Hb. destruct (backend_cur _ _ _ _ Hi Hb) as (d & o & x & -> & Hc & Hx & Hd).
  apply wp_bind. eapply raw_get_dconn; [done|]. apply wp_bind. rewrite Hd. apply wp_ret, wp_bind.
  eapply wp_get_down; [done|]. cbv zeta.
  assert (Hfin : forall w o1, inv None u (Some (d, o1)) w -> up_ok u (Some (d, o1)) ->
    request_state_ o1 = request_state_ o ->
    wp (if bool_decide (request_state_ o = MSG_COMPLETE) then next_request else mret tt) (fun _ => settled) w).
  { intros w1 o1 Hi1 Hu1 Hs1. rewrite <- Hs1. by apply (finish_wp _ _ _ false _ Hi1 Hu1). }
  destruct (has_flag events BEV_EVENT_CONNECTED); [by apply wp_ret; eapply settled_running|].
  destruct (has_flag events BEV_EVENT_EOF).
  - destruct (bool_decide (response_state_ o = HEADER_COMPLETE)).
    + apply wp_bind. eapply https_body_complete_wp; [done|]. clear w Hi Hb Hx. intros _ w Hi.
      apply wp_bind. eapply wp_mod_down; [done|done|done|]. clear w Hi. intros w Hi.
      assert (Hu1 : up_ok u (Some (d, o <| response_state_ := MSG_COMPLETE |>))).
      { eapply up_ok_response; [done| |done..]. by destruct (uo_cur _ _ Hu d o eq_refl); split. }
      apply wp_bind. eapply written_out_wp; [done|]. intros b. exact (finish_wp _ _ _ b _ Hi Hu1).
    + destruct (bool_decide (response_state_ o = MSG_COMPLETE)); [by eapply Hfin|]. by eapply error_finish_wp.
  - destruct (has_flag events (Z.lor BEV_EVENT_ERROR BEV_EVENT_TIMEOUT)).
    + destruct (bool_decide (response_state_ o = INITIAL)); [by eapply error_finish_wp|]. by eapply Hfin.
    + apply wp_ret. by eapply settled_running.
Qed.

(** ** Of the client *)

Lemma upstream_readcb_wp u cur w :
  inv None u cur w -> up_ok u cur -> wp upstream_readcb (fun _ => settled) w.
Proof.
  intros Hi Hu. apply wp_bind. eapply on_read_wp; [done..|]. clear w Hi. intros rv w (u' & cur' & Hi & Hu').
  destruct (negb _); [by eapply delete_handler_wp|]. apply wp_ret. by eapply settled_running.
Qed.

Lemma upstream_writecb_wp u cur w :
  inv None u cur w -> up_ok u cur -> wp upstream_writecb (fun _ => settled) w.
Proof.
  intros Hi Hu. apply wp_bind. eapply wp_get_client; [done|]. intros h _ _.
  destruct (should_close_after_write_ h); [by eapply delete_handler_wp|].
  apply wp_bind, wp_bind. eapply wp_get_upstream; [done|]. apply wp_bind. rewrite (i_up _ _ _ _ _ Hi).
  destruct cur as [[d o]|]; cbn [fmap option_fmap option_map fst].
  - apply wp_bind. eapply wp_down_resume; [done|]. clear w Hi. intros b w Hi. do 2 apply wp_ret. cbn.
    eapply settled_running; [done|]. eapply up_ok_response; [done| |done..].
    by destruct (uo_cur _ _ Hu d o eq_refl); split.
  - do 2 apply wp_ret. cbn. by eapply settled_running.
Qed.

End Safety.
End Safety.
