(* ===== verification/ShrpxEvents.v ===== *)
(** A client of the proxy from its connection to its end: the events of libevent
    in any order, what they call, and the theorems on every such run. *)
From stdpp Require Import gmap.
From S2P Require Import Prelude Records ShrpxConfig.
From S2P Require Import HttpTypes HttpExec HttpInv HttpPhase.
From S2P Require Import ShrpxWorld ShrpxDownstream ShrpxObjects ShrpxResponse ShrpxHttps ShrpxHeap ShrpxSafety.

Module Events.
Import Config World Down Objects Https Heap Safety.

(** * Events *)

(** The constructor ClientHandler(bev, ssl, ipaddr), and the world it is made in:
    the read callback is not set before the handshake is done. *)
Definition ClientHandler_new (c : Config) (ipaddr : list Z) : ClientHandler HttpsUpstream :=
  mk_handler (mk_bev [] [] true SHRPX_READ_WARTER_MARK Cb_handshake (upstream_read_timeout c)
                (upstream_write_timeout c)) None ipaddr false ∅.

Definition initial (c : Config) (ipaddr : list Z) : world :=
  mk_world c [] [] ∅ ∅ 1 (Some (ClientHandler_new c ipaddr)).

(** Bytes that arrive while reading is enabled, bytes that were written, and
    events, for the client and for the connection [c] to the backend. *)
Inductive event :=
  | Client_data (data : list Z)
  | Client_written (n : Z)
  | Client_event (events : Z)
  | Backend_data (c : Z) (data : list Z)
  | Backend_written (c : Z) (n : Z)
  | Backend_event (c : Z) (events : Z).

Definition receive (data : list Z) (b : bufferevent) : bufferevent := b <| bev_input := bev_input b ++ data |>.
Definition send (n : Z) (b : bufferevent) : bufferevent := b <| bev_output := drop (Z.to_nat n) (bev_output b) |>.

(** The write callback is called when the last byte was written. *)
Definition drained (n : Z) (b : bufferevent) : bool :=
  negb (bool_decide (bev_output b = [])) && bool_decide (bev_output (send n b) = []).

Definition client_dispatch (h : ClientHandler HttpsUpstream) (e : event) : M unit :=
  let b := ch_bev h in
  match e with
  | Client_data data =>
      if bev_read b then
        mod_bev Client_bev (receive data);;
        match bev_cb b with Cb_client => upstream_readcb | _ => mret tt end
      else mret tt
  | Client_written n =>
      mod_bev Client_bev (send n);; if drained n b then upstream_writecb else mret tt
  | Client_event events =>
      match bev_cb b with
      | Cb_handshake => upstream_eventcb events
      | _ => if has_flag events BEV_EVENT_CONNECTED then mret tt else upstream_eventcb events
      end
  | _ => mret tt
  end.

Definition backend_dispatch (c : Z) (b : bufferevent) (e : event) : M unit :=
  match e with
  | Backend_data _ data =>
      if bev_read b then
        mod_bev (Dconn_bev c) (receive data);;
        match bev_cb b with Cb_backend => https_downstream_readcb c | _ => mret tt end
      else mret tt
  | Backend_written _ n =>
      mod_bev (Dconn_bev c) (send n);;
      match bev_cb b with
      | Cb_backend => if drained n b then https_downstream_writecb c else mret tt
      | _ => mret tt
      end
  | Backend_event _ events =>
      match bev_cb b with
      | Cb_backend => https_downstream_eventcb c events
      | Cb_idle => idle_eventcb c events
      | _ => mret tt
      end
  | _ => mret tt
  end.

(** What an event calls: the bufferevent of the client is freed with the client, that of
    a connection with the connection, which may outlive the client. *)
Definition dispatch (e : event) : M unit := fun w =>
  match e with
  | Client_data _ | Client_written _ | Client_event _ =>
      match client w with
      | Some h => client_dispatch h e w
      | None => inr (tt, w)
      end
  | Backend_data c _ | Backend_written c _ | Backend_event c _ =>
      match dconns w !! c ≫= bev_ with
      | Some b => backend_dispatch c b e w
      | None => inr (tt, w)
      end
  end.

(** A run: events, each with what the calls of libevent return. *)
Record occurrence := occurs { ev : event; ev_results : list Z; ev_connects : list Z }.

Fixpoint run (trace : list occurrence) (w : world) : failure + world :=
  match trace with
  | [] => inr w
  | x :: trace =>
      match dispatch (ev x) (w <| results := ev_results x |> <| connects := ev_connects x |>) with
      | inl e => inl e
      | inr (_, w) => run trace w
      end
  end.

(** * Every event keeps the invariant *)

Section Run.
Context (faults : bool).

(** A client before the end of the handshake. *)
Definition handshaking (w : world) : Prop :=
  exists h, client w = Some h /\ upstream_ h = None /\ bev_cb (ch_bev h) = Cb_handshake /\
    bev_output (ch_bev h) = [] /\ dconn_pool_ h = ∅ /\ downs w = ∅ /\ dconns w = ∅ /\
    (faults = false -> Forall (fun r => r = 0) (results w)).

Definition ok (w : world) : Prop := handshaking w \/ settled faults w.

Lemma connected_ok h w (Q : Z -> world -> Prop) :
  client w = Some h -> dconn_pool_ h = ∅ -> downs w = ∅ -> dconns w = ∅ ->
  (faults = false -> Forall (fun r => r = 0) (results w)) ->
  upstream_ h = Some HttpsUpstream_new -> bev_cb (ch_bev h) = Cb_client ->
  (forall rv w', settled faults w' -> Q rv w') -> wp on_read Q w.
Proof.
  intros Hh Hp Hd Hc Hr Hu Hb HQ. eapply (on_read_wp faults HttpsUpstream_new None); [split|split|].
  all: try done.
  - exists h. rewrite Hd, Hc, Hp. do 3 (split; [done|]). apply conns_empty.
  - intros rv w' Hw'. apply HQ. by left.
Qed.

Lemma handshake_event events w :
  handshaking w -> wp (upstream_eventcb events) (fun _ => settled faults) w \/
    upstream_eventcb events w = inr (tt, w).
Proof.
  intros (h & Hh & Hu & Hb & Ho & Hp & Hd & Hc & Hr). unfold upstream_eventcb.
  destruct (_ || _ || _).
  - left. unfold delete_handler. apply wp_bind. unfold wp at 1, get_client. rewrite Hh, Hu.
    apply wp_bind, wp_ret, wp_bind. unfold wp at 1, get_client. rewrite Hh, Hp, elements_empty.
    right. split; [done|done|]. intros c x. cbn. by rewrite Hc, lookup_empty.
  - destruct (has_flag events BEV_EVENT_CONNECTED); [left|by right].
    apply wp_bind. unfold wp at 1, mod_client, get_client, mbind, M_bind, update. rewrite Hh.
    apply wp_bind. eapply (connected_ok (h <| ch_bev := (ch_bev h) <| bev_cb := Cb_client |> |>
      <| upstream_ := Some HttpsUpstream_new |>)); try done.
Qed.

Lemma handshake_client_dispatch h e w :
  handshaking w -> client w = Some h -> wp (client_dispatch h e) (fun _ => ok) w.
Proof.
  intros Hw Hh. pose proof Hw as (h' & Hh' & Hu & Hb & Ho & Hp & Hd & Hc & Hr).
  assert (h' = h) as -> by congruence. destruct e as [data|n|events| | |]; cbn [client_dispatch]; cbv zeta; rewrite ?Hb; try by left.
  - destruct (bev_read (ch_bev h)); [|by left]. apply wp_bind. eapply raw_mod_client_bev; [done|].
    left. eexists. split; [done|]. done.
  - unfold drained. rewrite Ho. apply wp_bind. eapply raw_mod_client_bev; [done|]. left. eexists. split; [done|]. cbn. rewrite Ho. split_and!; try done. by destruct (Z.to_nat n).
  - destruct (handshake_event events w Hw) as [H|H].
    + eapply wp_mono; [exact H|]. intros [] w' Hw'. by right.
    + unfold wp. rewrite H. by left.
Qed.

Lemma running_client_dispatch u cur h e w :
  inv faults None u cur w -> up_ok u cur -> client w = Some h ->
  wp (client_dispatch h e) (fun _ => settled faults) w.
Proof.
  intros Hi Hu Hh. destruct (inv_client _ _ _ _ _ _ Hi Hh) as (Hup & Hb & _).
  destruct e as [data|n|events| | |]; cbn [client_dispatch]; cbv zeta; rewrite ?Hb; try by eapply settled_running.
  - destruct (bev_read _); [|by eapply settled_running]. apply wp_bind.
    eapply wp_mod_bev; [done|done|done|]. intros w' Hi'. by eapply upstream_readcb_wp.
  - apply wp_bind. eapply wp_mod_bev; [done|done|done|]. intros w' Hi'.
    destruct (drained n _); [by eapply upstream_writecb_wp|]. by eapply settled_running.
  - destruct (has_flag events BEV_EVENT_CONNECTED) eqn:Ec; [by eapply settled_running|].
    unfold upstream_eventcb. destruct (_ || _ || _); [by eapply delete_handler_wp|].
    rewrite Ec. by eapply settled_running.
Qed.

Lemma running_backend_dispatch u cur c b e w :
  inv faults None u cur w -> up_ok u cur -> dconns w !! c ≫= bev_ = Some b ->
  wp (backend_dispatch c b e) (fun _ => settled faults) w.
Proof.
  intros Hi Hu Hc. apply bind_Some in Hc as (x & Hx & Hxb).
  assert (Hmod : forall f (m : M unit), (forall b, bev_cb (f b) = bev_cb b) ->
    (forall w' x', inv faults None u cur w' -> dconns w' !! c = Some x' -> cb_of x' = Some (bev_cb b) ->
      wp m (fun _ => settled faults) w') ->
    wp (mod_bev (Dconn_bev c) f;; m) (fun _ => settled faults) w).
  { intros f m Hf Hm. apply wp_bind. eapply raw_mod_dconn_bev; [done..|].
    eapply Hm; [by eapply inv_update|cbn; apply lookup_insert_eq|]. unfold cb_of. cbn. by rewrite Hf. }
  assert (Hcb : cb_of x = Some (bev_cb b)) by (unfold cb_of; by rewrite Hxb).
  destruct e as [| | |c' data|c' n|c' events]; cbn [backend_dispatch]; try by eapply settled_running.
  - destruct (bev_read b); [|by eapply settled_running]. apply Hmod; [done|]. intros w' x' Hi' Hx' Hcb'.
    destruct (bev_cb b) eqn:Eb; try by eapply settled_running.
    eapply https_downstream_readcb_wp; [done|done|]. by exists x'.
  - apply Hmod; [done|]. intros w' x' Hi' Hx' Hcb'.
    destruct (bev_cb b) eqn:Eb; try by eapply settled_running.
    destruct (drained n b); [|by eapply settled_running].
    eapply https_downstream_writecb_wp; [done|done|]. by exists x'.
  - destruct (bev_cb b) eqn:Eb; try by eapply settled_running.
    + eapply https_downstream_eventcb_wp; [done|done|]. by exists x.
    + eapply wp_idle_eventcb; [done|done|done|]. intros w' Hi'. by eapply settled_running.
Qed.

(** A connection that was lost, with the callbacks of a pooled one. *)
Definition lost_idle (c : Z) (w : world) : Prop :=
  client w = None /\ exists x, dconns w !! c = Some x /\ downstream_ x = None /\ cb_of x = Some Cb_idle.

(** The events of a connection that has outlived its client. *)
Lemma gone_backend_dispatch c b e w :
  gone (may_lose faults) w -> dconns w !! c ≫= bev_ = Some b ->
  match backend_dispatch c b e w with
  | inl er => er = Use_after_free /\ lost_idle c w /\ exists c' events, e = Backend_event c' events
  | inr (_, w') => gone (may_lose faults) w'
  end.
Proof.
  intros Hg Hc. apply bind_Some in Hc as (x & Hx & Hxb). pose proof Hg as [Hcl Hd Hleft].
  destruct (Hleft c x Hx) as (Hxd & Hxc & Hl).
  assert (Hcb : cb_of x = Some (bev_cb b)) by (unfold cb_of; by rewrite Hxb).
  assert (Hmod : forall f, (forall b, bev_cb (f b) = bev_cb b) ->
    exists w', mod_bev (Dconn_bev c) f w = inr (tt, w') /\ gone (may_lose faults) w').
  { intros f Hf. exists (w <| dconns := <[c := x <| bev_ := Some (f b) |>]> (dconns w) |>). split.
    - unfold mod_bev, get_bev, set_bev, mod_dconn, get_dconn, set_dconn, mbind, M_bind. rewrite Hx. cbn. rewrite Hxb. cbn.
      rewrite Hx. cbn. by rewrite Hx.
    - split; [done|done|]. intros c' y. cbn. destruct (decide (c' = c)) as [->|Hne]; rewrite ?lookup_insert_eq, ?lookup_insert_ne by done; [|by apply Hleft].
      intros [= <-]. unfold cb_of in *. cbn. rewrite Hf, <- Hcb. by rewrite Hxb in *. }
  destruct e as [| | |c' data|c' n|c' events]; cbn [backend_dispatch]; try done.
  - destruct (bev_read b); [|done]. destruct (Hmod (receive data)) as (w' & Hm & Hw'); [done|].
    unfold mbind, M_bind. rewrite Hm. by destruct (bev_cb b).
  - destruct (Hmod (send n)) as (w' & Hm & Hw'); [done|]. unfold mbind, M_bind. rewrite Hm. by destruct (bev_cb b).
  - destruct (bev_cb b) eqn:Eb; try done. unfold idle_eventcb. destruct (has_flag events BEV_EVENT_CONNECTED); [done|].
    unfold remove_downstream_connection, mod_client, get_client, mbind, M_bind. rewrite Hcl.
    split; [done|]. split; [by split; [|exists x]|eauto].
Qed.

(** An event leaves the client in order, fails in a tolerated way, or is that of a lost
    connection. *)
Lemma dispatch_ok e rs cs w :
  (faults = false -> Forall (fun r => r = 0) rs) -> ok w ->
  match dispatch e (w <| results := rs |> <| connects := cs |>) with
  | inl er => tolerated er \/ (er = Use_after_free /\ exists c events, e = Backend_event c events /\ lost_idle c w)
  | inr (_, w') => ok w'
  end.
Proof.
  intros Hrs Hw. set (w1 := w <| results := rs |> <| connects := cs |>).
  assert (Hw1 : ok w1).
  { destruct Hw as [(h & Hh)|[(u & cur & [? ? ? ? ?] & Hu)|[? ? ?]]].
    - left. exists h. unfold w1. cbn. naive_solver.
    - right; left. exists u, cur. split; [|done]. by split.
    - right; right. by split. }
  assert (Hlost : forall c, lost_idle c w1 -> lost_idle c w) by done.
  clearbody w1. rename w into w0, w1 into w. clear Hw. rename Hw1 into Hw.
  assert (Hwp : forall m : M unit, wp m (fun _ => ok) w -> match m w with
    | inl er => tolerated er \/ (er = Use_after_free /\ exists c events, e = Backend_event c events /\ lost_idle c w0)
    | inr (_, w') => ok w' end) by (intros m; unfold wp; destruct (m w) as [er|[]]; [by left|done]).
  assert (Hset : forall m : M unit, wp m (fun _ => settled faults) w -> wp m (fun _ => ok) w)
    by (intros m Hm; eapply wp_mono; [exact Hm|]; intros a w' Hw'; by right).
  assert (Hclient : match client w with Some h => wp (client_dispatch h e) (fun _ => ok) w | None => True end).
  { destruct (client w) as [h|] eqn:Hh; [|done]. destruct Hw as [Hw|[(u & cur & Hi & Hu)|[Hg _ _]]]; [| |congruence].
    - by apply handshake_client_dispatch.
    - by eapply Hset, running_client_dispatch. }
  assert (Hback : forall c, (exists events, e = Backend_event c events) \/ (forall c' events, e <> Backend_event c' events) ->
    match match dconns w !! c ≫= bev_ with Some b => backend_dispatch c b e w | None => inr (tt, w) end with
    | inl er => tolerated er \/ (er = Use_after_free /\ exists c events, e = Backend_event c events /\ lost_idle c w0)
    | inr (_, w') => ok w' end).
  { intros c He. destruct (dconns w !! c ≫= bev_) as [b|] eqn:Eb; [|done].
    destruct Hw as [Hw|[(u & cur & Hi & Hu)|Hg]].
    - exfalso. destruct Hw as (h & _ & _ & _ & _ & _ & _ & Hc & _). by rewrite Hc, lookup_empty in Eb.
    - by eapply Hwp, Hset, running_backend_dispatch.
    - pose proof (gone_backend_dispatch c b e w Hg Eb) as H. destruct (backend_dispatch c b e w) as [er|[[] w']].
      + destruct H as (-> & Hl & c' & events & ->). right. split; [done|].
        destruct He as [[? [= -> ->]]|He]; [eauto|]. by destruct (He c' events).
      + right. by right. }
  destruct e as [data|n|events|c data|c n|c events]; cbn [dispatch]; try (apply Hback; (by left; eexists) || by right).
  all: destruct (client w); [by apply Hwp|done].
Qed.

Lemma run_ok trace w w' :
  (faults = false -> Forall (fun x => Forall (fun r => r = 0) (ev_results x)) trace) -> ok w ->
  run trace w = inr w' -> ok w'.
Proof.
  revert w. induction trace as [|x trace IH]; intros w Ht Hw; cbn; [by intros [= <-]|].
  pose proof (dispatch_ok (ev x) (ev_results x) (ev_connects x) w) as Hd.
  destruct (dispatch _ _) as [e|[[] w1]]; [done|].
  apply IH; [|apply Hd; [|done]]; intros Hf; specialize (Ht Hf); by inversion Ht.
Qed.

Lemma initial_ok c ipaddr : ok (initial c ipaddr).
Proof. left. eexists. split; [done|]. done. Qed.

End Run.

(** When nothing failed, a client that is gone has left nothing. *)
Lemma no_faults_gone w : client w = None -> ok false w -> downs w = ∅ /\ dconns w = ∅.
Proof.
  intros Hn [(h & Hh & _)|[(u & cur & [(h & Hh & _) _ _ _ _] & _)|[_ H1 H2]]]; [congruence|congruence|].
  split; [done|]. apply map_empty. intros c. apply eq_None_not_Some. intros [x Hx]. by destruct (H2 c x Hx) as (_ & _ & ?).
Qed.

(** * Theorems *)

(** The event at which a run fails. *)
Lemma run_failure trace w e :
  run trace w = inl e -> exists before x after w', trace = before ++ x :: after /\ run before w = inr w' /\
    dispatch (ev x) (w' <| results := ev_results x |> <| connects := ev_connects x |>) = inl e.
Proof.
  revert w. induction trace as [|x trace IH]; intros w; [done|]. cbn.
  destruct (dispatch _ _) as [e'|[[] w1]] eqn:Hd.
  - intros [= ->]. by exists [], x, trace, w.
  - intros (before & y & after & w' & -> & Hr & Hy)%IH. exists (x :: before), y, after, w'. cbn. by rewrite Hd.
Qed.

(** C4. Whatever arrives from the client and the backend, in any order, and whatever
    the calls of libevent return: no callback fails an assertion of the proxy or reads
    the last element of an empty vector, and a client that is gone has left no
    Downstream.  The failures that remain are a null pointer, the assertion of
    http_parser_pause, and one use of an object that was deleted: an event of a pooled
    connection that was lost, after a call of libevent had failed, and that has outlived
    the client handler to which its callback refers. *)
Theorem https_memory_safe (c : Config) (ipaddr : list Z) (trace : list occurrence) :
  match run trace (initial c ipaddr) with
  | inl e =>
      e = Null_pointer \/ e = Pause_assertion \/
      (e = Use_after_free /\ exists before x after w conn events,
         trace = before ++ x :: after /\ run before (initial c ipaddr) = inr w /\
         ev x = Backend_event conn events /\ lost_idle conn w /\
         Exists (fun x => Exists (fun r => r <> 0) (ev_results x)) before)
  | inr w => client w = None -> downs w = ∅
  end.
Proof.
  assert (Hok : forall before w, run before (initial c ipaddr) = inr w -> ok true w).
  { intros before w. apply run_ok; [done|apply initial_ok]. }
  destruct (run trace (initial c ipaddr)) as [e|w] eqn:Hr.
  - destruct (run_failure _ _ _ Hr) as (before & x & after & w & Ht & Hb & Hx).
    pose proof (dispatch_ok true (ev x) (ev_results x) (ev_connects x) w ltac:(done) (Hok _ _ Hb)) as Hd. rewrite Hx in Hd.
    destruct Hd as [[?|?]|(-> & cn & events & He & Hl)]; [auto|auto|]. right; right. split; [done|].
    exists before, x, after, w, cn, events. do 4 (split; [done|]).
    destruct (decide (Forall (fun x => Forall (fun r => r = 0) (ev_results x)) before)) as [Hz|Hz].
    + exfalso. destruct Hl as [Hn (y & Hy & _)]. destruct (no_faults_gone w Hn) as [_ Hc]; [|by rewrite Hc, lookup_empty in Hy].
      eapply run_ok; [by intros _|apply initial_ok|done].
    + apply (not_Forall_Exists _ _) in Hz. eapply Exists_impl; [exact Hz|]. intros z Hz1.
      by apply (not_Forall_Exists _ _) in Hz1.
  - intros Hn. destruct (Hok _ _ Hr) as [(h & Hh & _)|[(u & cur & [(h & Hh & _) _ _ _ _] & _)|[_ H _]]]; congruence.
Qed.

(** C6. When writing to a buffer never fails, a client that is gone has left no
    request and no connection, although attempts to connect may have failed. *)
Theorem https_no_leak (c : Config) (ipaddr : list Z) (trace : list occurrence) (w : world) :
  Forall (fun x => Forall (fun r => r = 0) (ev_results x)) trace ->
  run trace (initial c ipaddr) = inr w -> client w = None -> downs w = ∅ /\ dconns w = ∅.
Proof.
  intros Ht Hr Hn.
  eapply no_faults_gone; [done|]. eapply run_ok; [by intros|apply initial_ok|done].
Qed.

(** * Runs *)

Definition lines (ls : list (list Z)) : list Z := concat (map (fun l => l ++ CRLF) ls).
Definition on (e : event) : occurrence := occurs e [] [].
Definition connected : occurrence := on (Client_event BEV_EVENT_CONNECTED).

Definition get_request : list Z :=
  lines [str "GET /a HTTP/1.1"; str "Host: h"; str "Connection: keep-alive"; []].
Definition post_head : list Z := lines [str "POST / HTTP/1.1"; str "Content-Length: 5"; []].
Definition expect_head : list Z := lines [str "POST / HTTP/1.1"; str "Expect: 100-continue"; str "Content-Length: 5"; []].
Definition chunked_head : list Z := lines [str "POST / HTTP/1.1"; str "Transfer-Encoding: chunked"; []].
Definition reply : list Z :=
  lines [str "HTTP/1.1 200 OK"; str "Content-Length: 2"; str "Keep-Alive: 5"; []] ++ str "ok".

Definition plain : Config := Config_new no_time.

(** What the client has to be sent, what the connection [c] has to send, and how
    many requests and connections there are. *)
Definition sent (c : Z) (x : failure + world) : option (list Z * option (list Z) * nat * nat) :=
  match x with
  | inl _ => None
  | inr w => h ← client w;
      Some (bev_output (ch_bev h), bev_output <$> (dconns w !! c ≫= bev_), size (downs w), size (dconns w))
  end.

(** A request and its response pass the proxy, without the fields that belong to
    one connection, and the connection is kept for the next request. *)
Example https_exchange :
  let t := [connected; on (Client_data get_request)] in
  sent 2 (run t (initial plain (str "10.0.0.1"))) = Some ([], Some (lines [str "GET /a HTTP/1.1"; str "Host: h"; str "X-Forwarded-Proto: https";
                                   str "Via: 1.1 shrpx"; []]), 1%nat, 1%nat) /\
  sent 2 (run (t ++ [on (Backend_written 2 1000); on (Backend_data 2 reply)]) (initial plain (str "10.0.0.1"))) =
    Some (lines [str "HTTP/1.1 200 OK"; str "Content-Length: 2"; str "Via: 1.1 shrpx"; []] ++ str "ok",
          Some [], 0%nat, 1%nat).
Proof. vm_compute. done. Qed.

Lemma https_no_leak_witness :
  exists w, run [connected; on (Client_data get_request); on (Backend_data 2 reply); on (Client_event BEV_EVENT_EOF)]
    (initial plain []) = inr w /\ downs w = ∅ /\ dconns w = ∅.
Proof.
  eexists. split; [vm_compute; reflexivity|].
  refine (https_no_leak plain [] [connected; on (Client_data get_request); on (Backend_data 2 reply);
    on (Client_event BEV_EVENT_EOF)] _ _ _ _); [by repeat constructor|vm_compute; reflexivity|reflexivity].
Defined.

(** The failures happen.  A backend that answers before the request was read:
    the end of the request leaves the parser paused with no Downstream, and the
    next byte of the client is taken for the end of a request; for a chunked
    request its end is sent to a connection that is not there any more. *)
Theorem https_null_pointer_reached :
  run [connected; on (Client_data (post_head ++ str "ab")); on (Backend_data 2 reply);
       on (Client_data (str "cde")); on (Client_data (str "G"))] (initial plain []) = inl Null_pointer /\
  run [connected; on (Client_data chunked_head); on (Backend_data 2 reply);
       on (Client_data (lines [str "0"; []]))] (initial plain []) = inl Null_pointer.
Proof. vm_compute. done. Qed.

(** A connection in the pool is taken for a request that expects the reply 100; when that
    cannot be written the connection is in no pool any more and has no Downstream.  The
    client is answered 400 and closes, and the backend closes the connection: its
    callback removes it from the pool of the handler that was deleted. *)
Theorem https_use_after_free_reached :
  let t := [connected; on (Client_data get_request); on (Backend_data 2 reply);
            occurs (Client_data expect_head) [1] []; on (Client_event BEV_EVENT_EOF)] in
  (match run t (initial plain []) with
   | inr w => bool_decide (client w = None) && bool_decide (is_Some (dconns w !! 2))
   | inl _ => false
   end) = true /\
  run (t ++ [on (Backend_event 2 BEV_EVENT_EOF)]) (initial plain []) = inl Use_after_free.
Proof. vm_compute. done. Qed.

(** A chunked request whose first chunk was read: the callback takes the number of
    bytes it wrote for a failure, the client is answered 400, and when the backend
    has been sent the headers the parser in its error state is resumed. *)
Theorem https_pause_assertion_reached :
  let t := [connected; on (Client_data (chunked_head ++ lines [str "3"; str "abc"]))] in
  (fun x => take 12 x.1.1.1) <$> sent 2 (run t (initial plain [])) = Some (str "HTTP/1.1 400") /\
  run (t ++ [on (Backend_written 2 1000)]) (initial plain []) = inl Pause_assertion.
Proof. vm_compute. done. Qed.

End Events.
