(* ===== verification/ShrpxHeaders.v ===== *)
(** The header fields that pass the proxy: how the callbacks collect them from the
    pieces a parser delivers, and which of them are sent on. *)
From stdpp Require Import gmap.
From S2P Require Import Prelude Libc CppUtil Records ShrpxConfig ShrpxHttp.
From S2P Require Import HttpTypes HttpExec ShrpxWorld ShrpxDownstream ShrpxHttps.

Module Headers.
Import Util Config Http World Down Https.

(** * From pieces to fields *)

(** The parser reports the name of a field and its value in one piece each or in
    several. *)
Inductive piece := Name (data : list Z) | Value (data : list Z).

Definition request_piece (x : piece) (o : Downstream) : failure + Downstream :=
  match x with
  | Name data => if request_header_key_prev_ o then append_last_request_header_key data o
                 else inr (add_request_header data [] o)
  | Value data => if request_header_key_prev_ o then set_last_request_header_value data o
                  else append_last_request_header_value data o
  end.

Definition response_piece (x : piece) (o : Downstream) : failure + Downstream :=
  match x with
  | Name data => if response_header_key_prev_ o then append_last_response_header_key data o
                 else inr (add_response_header data [] o)
  | Value data => if response_header_key_prev_ o then set_last_response_header_value data o
                  else append_last_response_header_value data o
  end.

Fixpoint pieces (f : piece -> Downstream -> failure + Downstream) (xs : list piece) (o : Downstream)
    : failure + Downstream :=
  match xs with
  | [] => inr o
  | x :: xs => match f x o with inl e => inl e | inr o => pieces f xs o end
  end.

(** A field as it arrives: its name and its value in pieces, at least one each. *)
Record field := mk_field { name1 : list Z; names : list (list Z); value1 : list Z; values : list (list Z) }.

Definition field_pieces (x : field) : list piece :=
  Name (name1 x) :: map Name (names x) ++ Value (value1 x) :: map Value (values x).
Definition field_name (x : field) : list Z := concat (name1 x :: names x).
Definition field_value (x : field) : list Z := concat (value1 x :: values x).
Definition whole (x : field) : list Z * list Z := (field_name x, field_value x).

Lemma pieces_app f xs ys o :
  pieces f (xs ++ ys) o = match pieces f xs o with inl e => inl e | inr o => pieces f ys o end.
Proof. revert o. induction xs as [|x xs IH]; intros o; cbn; [done|]. by destruct (f x o). Qed.

Lemma mod_last_app g hs h : mod_last g (hs ++ [h]) = Some (hs ++ [g h]).
Proof.
  induction hs as [|h' hs IH]; cbn; [done|]. rewrite IH. by destruct (hs ++ [h]) eqn:E; [destruct hs|].
Qed.

Lemma last_or_app hs h : last_or (hs ++ [h]) = h.
Proof. apply last_last. Qed.

(** What the callbacks have collected: the fields, whether the last piece was one
    of a name, and the two flags of a request. *)
Definition collected (o : Downstream) : Headers * bool * bool * bool :=
  (request_headers_ o, request_header_key_prev_ o, chunked_request_ o, request_expect_100_continue_ o).

Lemma more_names hs n v ns o c e :
  collected o = (hs ++ [(n, v)], true, c, e) ->
  exists o', pieces request_piece (map Name ns) o = inr o' /\
    collected o' = (hs ++ [(n ++ concat ns, v)], true, c, e).
Proof.
  revert n o. induction ns as [|x ns IH]; intros n o [= H1 H2 H3 H4]; cbn.
  - exists o. split; [done|]. unfold collected. rewrite H1, H2, H3, H4. by rewrite app_nil_r.
  - rewrite H2. unfold append_last_request_header_key. rewrite H2, H1, mod_last_app. cbn.
    rewrite (app_assoc n). apply IH. unfold collected. cbn. by rewrite H2, H3, H4.
Qed.

Lemma more_values hs n v vs o c e :
  collected o = (hs ++ [(n, v)], false, c, e) ->
  exists o', pieces request_piece (map Value vs) o = inr o' /\
    collected o' = (hs ++ [(n, v ++ concat vs)], false, c, e).
Proof.
  revert v o. induction vs as [|x vs IH]; intros v o [= H1 H2 H3 H4]; cbn.
  - exists o. split; [done|]. unfold collected. rewrite H1, H2, H3, H4. by rewrite app_nil_r.
  - rewrite H2. unfold append_last_request_header_value. rewrite H2, H1, mod_last_app. cbn.
    rewrite (app_assoc v). apply IH. unfold collected. cbn. by rewrite H2, H3, H4.
Qed.

(** The flags look at the first piece of a value only. *)
Definition first_piece (x : field) : list Z * list Z := (field_name x, value1 x).

Lemma one_field x hs o c e :
  collected o = (hs, false, c, e) ->
  exists o', pieces request_piece (field_pieces x) o = inr o' /\
    collected o' = (hs ++ [whole x], false, check_transfer_encoding_chunked c (first_piece x),
                    check_expect_100_continue e (first_piece x)).
Proof.
  intros [= H1 H2 H3 H4]. unfold field_pieces. cbn [pieces request_piece]. rewrite H2.
  set (o1 := add_request_header (name1 x) [] o).
  destruct (more_names hs (name1 x) [] (names x) o1 c e) as (o2 & E2 & [= K1 K2 K3 K4]).
  { unfold collected, o1. cbn. by rewrite H1, H3, H4. }
  rewrite pieces_app, E2. cbn [pieces request_piece]. rewrite K2. unfold set_last_request_header_value.
  rewrite K1, mod_last_app, last_or_app. cbn [fst snd].
  match goal with |- context [pieces _ _ ?o] => set (o3 := o) end.
  destruct (more_values hs (field_name x) (value1 x) (values x) o3
    (check_transfer_encoding_chunked c (first_piece x)) (check_expect_100_continue e (first_piece x)))
    as (o4 & E4 & C4).
  { unfold collected, o3. cbn. by rewrite K3, K4. }
  exists o4. by split.
Qed.

(** However the fields of a request are cut into pieces, no callback fails and the
    fields are collected as they are; the flags for a chunked body and for
    100-continue are those of the first pieces of the values. *)
Theorem request_fields_collected (xs : list field) (o : Downstream) :
  request_header_key_prev_ o = false ->
  exists o', pieces request_piece (concat (map field_pieces xs)) o = inr o' /\
    request_headers_ o' = request_headers_ o ++ map whole xs /\
    request_header_key_prev_ o' = false /\
    chunked_request_ o' = fold_left check_transfer_encoding_chunked (map first_piece xs) (chunked_request_ o) /\
    request_expect_100_continue_ o' =
      fold_left check_expect_100_continue (map first_piece xs) (request_expect_100_continue_ o).
Proof.
  revert o. induction xs as [|x xs IH]; intros o Hk; cbn [map concat pieces fold_left].
  - exists o. by rewrite app_nil_r.
  - destruct (one_field x _ o _ _ ltac:(unfold collected; by rewrite Hk)) as (o1 & E1 & [= K1 K2 K3 K4]).
    rewrite pieces_app, E1. destruct (IH o1 K2) as (o2 & E2 & L1 & L2 & L3 & L4).
    exists o2. rewrite L1, K1, <- app_assoc, L3, L4, K3, K4. done.
Qed.

(** The chunked flag misses a value whose first piece is not the whole word. *)
Lemma chunked_in_two_pieces :
  let x := mk_field (str "Transfer-Encoding") [] (str "chun") [str "ked"] in
  check_transfer_encoding_chunked false (first_piece x) = false /\
  check_transfer_encoding_chunked false (whole x) = true.
Proof. vm_compute. done. Qed.

Definition sample_fields : list field :=
  [mk_field (str "Ho") [str "st"] (str "exam") [str "ple.org"];
   mk_field (str "Expect") [] (str "100-continue") []].

Lemma request_fields_collected_witness :
  exists o', pieces request_piece (concat (map field_pieces sample_fields)) (Downstream_new 0 0) = inr o' /\
    request_headers_ o' = [(str "Host", str "example.org"); (str "Expect", str "100-continue")] /\
    request_expect_100_continue_ o' = true.
Proof.
  destruct (request_fields_collected sample_fields (Downstream_new 0 0) eq_refl) as (o' & E & H1 & _ & _ & H4).
  exists o'. rewrite H1, H4. split; [exact E|]. split; vm_compute; reflexivity.
Defined.

(** * From fields to the text that is sent *)

Definition header_line (h : list Z * list Z) : list Z := h.1 ++ str ": " ++ h.2 ++ CRLF.

(** What happens to a field of a request. *)
Inductive fate := Sent | Dropped | Is_via | Is_forwarded_for.

Definition request_fate (h : list Z * list Z) : fate :=
  if hop_by_hop h.1 then Dropped
  else if name_is h.1 (str "via") then Is_via
  else if name_is h.1 (str "x-forwarded-for") then Is_forwarded_for
  else if name_is h.1 (str "expect") && value_has h.2 (str "100-continue") then Dropped
  else Sent.

#[export] Instance fate_eq_dec : EqDecision fate.
Proof. solve_decision. Defined.

(** The last value of the fields of a kind. *)
Definition last_value (k : fate) (hs : Headers) (v : list Z) : list Z :=
  fold_left (fun v h => if decide (request_fate h = k) then h.2 else v) hs v.

(** The loop of push_request_headers, written as filters. *)
Lemma request_header_loop_spec (hs : list (list Z * list Z)) hdrs v x :
  request_header_loop hs hdrs v x =
  (hdrs ++ concat (map header_line (filter (fun h => request_fate h = Sent) hs)),
   last_value Is_via hs v, last_value Is_forwarded_for hs x).
Proof.
  unfold last_value.
  revert hdrs v x. induction hs as [|[n w] hs IH]; intros hdrs v x; cbn [request_header_loop]; [by rewrite app_nil_r|].
  rewrite filter_cons. cbn [fold_left].
  assert (Hf : request_fate (n, w) = if hop_by_hop n then Dropped else if name_is n (str "via") then Is_via
    else if name_is n (str "x-forwarded-for") then Is_forwarded_for
    else if name_is n (str "expect") && value_has w (str "100-continue") then Dropped else Sent) by done.
  rewrite Hf. clear Hf.
  destruct (hop_by_hop n); [by rewrite IH|]. destruct (name_is n (str "via")); [by rewrite IH|].
  destruct (name_is n (str "x-forwarded-for")); [by rewrite IH|].
  destruct (name_is n (str "expect") && value_has w (str "100-continue")); [by rewrite IH|].
  rewrite IH. cbn. by rewrite <- app_assoc.
Qed.

(** The fields that a backend is sent: those of the client that are sent on, in
    their order, and those the proxy adds. *)
Definition forwarded (c : Config) (ip : list Z) (o : Downstream) : Headers :=
  let hs := request_headers_ o in
  let xff := last_value Is_forwarded_for hs [] in
  let via := last_value Is_via hs [] in
  filter (fun h : list Z * list Z => request_fate h = Sent) (hs : list (list Z * list Z)) ++
  (if request_connection_close_ o then [(str "Connection", str "close")] else []) ++
  (if add_x_forwarded_for c then
     [(str "X-Forwarded-For", (if bool_decide (xff = []) then [] else xff ++ str ", ") ++ ip)]
   else if bool_decide (xff = []) then [] else [(str "X-Forwarded-For", xff)]) ++
  (if bool_decide (request_method_ o = str "CONNECT") then []
   else [(str "X-Forwarded-Proto",
          if istartsWith (request_path_ o) (str "http:") then str "http" else str "https")]) ++
  [(str "Via", via ++ (if bool_decide (via = []) then [] else str ", ") ++
               create_via_header_value (request_major_ o) (request_minor_ o))].

(** The text of a request is its first line, these fields and an empty line. *)
Lemma request_text_forwarded c ip o :
  request_text c ip o =
  (request_method_ o ++ str " ") ++ request_path_ o ++ str " HTTP/1.1" ++ CRLF ++
  concat (map header_line (forwarded c ip o)) ++ CRLF.
Proof.
  unfold request_text, forwarded. cbv zeta. rewrite request_header_loop_spec.
  generalize (last_value Is_via (request_headers_ o) []) as via.
  generalize (last_value Is_forwarded_for (request_headers_ o) []) as xff. intros xff via.
  destruct (request_connection_close_ o), (add_x_forwarded_for c), (bool_decide (xff = [])),
    (bool_decide (request_method_ o = str "CONNECT")), (bool_decide (via = [])).
  all: rewrite !map_app, !concat_app; unfold header_line; cbn [map concat fst snd].
  all: repeat (rewrite <- ?app_assoc, ?app_nil_r, ?app_nil_l; cbn [app]); reflexivity.
Qed.

Lemma in_sent_name h lit : request_fate h = Sent ->
  lit ∈ [str "X-Forwarded-Proto"; str "keep-alive"; str "connection"; str "proxy-connection"; str "via";
         str "x-forwarded-for"] ->
  map lowcase (c_str h.1) <> map lowcase (c_str lit).
Proof.
  intros Hf Hl E. apply strieq_spec in E. revert Hf. unfold request_fate, hop_by_hop, name_is.
  repeat (apply elem_of_cons in Hl as [->|Hl]; [rewrite E, ?orb_true_r; repeat case_match; done|]).
  by apply elem_of_nil in Hl.
Qed.

(** C20. The request that is sent to a backend is the first line of the client's
    request, its fields in their order without those that belong to the
    connection, and at most one field each of Connection, X-Forwarded-For,
    X-Forwarded-Proto and Via of the proxy: no field of the client with one of
    their names, in any case, is sent on as it is. *)
Theorem request_text_lines (c : Config) (ip : list Z) (o : Downstream) :
  let sent := filter (fun h : list Z * list Z => request_fate h = Sent) (request_headers_ o : list (list Z * list Z)) in
  exists added,
    request_text c ip o =
      (request_method_ o ++ str " ") ++ request_path_ o ++ str " HTTP/1.1" ++ CRLF ++
      concat (map header_line (sent ++ added)) ++ CRLF /\
    map fst added `sublist_of` [str "Connection"; str "X-Forwarded-For"; str "X-Forwarded-Proto"; str "Via"] /\
    (forall h lit, h ∈ sent ->
      lit ∈ [str "X-Forwarded-Proto"; str "keep-alive"; str "connection"; str "proxy-connection"; str "via";
             str "x-forwarded-for"] ->
      map lowcase (c_str h.1) <> map lowcase (c_str lit)).
Proof.
  intros sent. eexists. split; [apply request_text_forwarded|]. split.
  - generalize (last_value Is_via (request_headers_ o) []) as via.
    generalize (last_value Is_forwarded_for (request_headers_ o) []) as xff. intros xff via.
    destruct (request_connection_close_ o), (add_x_forwarded_for c), (bool_decide (xff = [])),
      (bool_decide (request_method_ o = str "CONNECT")); cbn [map app fst];
      repeat first [apply sublist_skip | apply sublist_nil | apply sublist_cons].
  - intros h lit [Hf _]%list_elem_of_filter. by apply in_sent_name.
Qed.

End Headers.
