(* ===== verification/ShrpxForward.v ===== *)
(** The proxy and the parser together: what is sent to a backend is read back by
    the same parser as the request it was made from. *)
From S2P Require Import Prelude CppUtil Records ShrpxConfig ShrpxHttp.
From S2P Require Import HttpTypes HttpExec HttpInv HttpSwitch HttpSafety HttpSim HttpStream HttpRun HttpHeader HttpMsg HttpRequest.
From S2P Require Import ShrpxWorld ShrpxDownstream ShrpxHttps ShrpxHeaders.

Module Forward.
Import Config World Down Headers.

(** * Requests that the parser reads *)

(** A Content-Length field, with a number that can be counted. *)
Definition length_field (h : list Z * list Z) : bool :=
  bool_decide (map TOKEN h.1 = CONTENT_LENGTH) && forallb is_token h.1 &&
  negb (bool_decide (h.2 = [])) && forallb IS_NUM h.2 && (digits_value 0 h.2 <? ULLONG_MAX).

(** The length that the fields give to the body, when each of them is a plain one or a
    Content-Length; the last one counts. *)
Fixpoint fields_length (len : option Z) (hs : list (list Z * list Z)) : option (option Z) :=
  match hs with
  | [] => Some len
  | h :: hs =>
      if plain_header h then fields_length len hs
      else if length_field h then fields_length (Some (digits_value 0 h.2)) hs else None
  end.

(** A request, as the parser reports it. *)
Definition parsed_events (me : http_method) (path : list Z) (hs : list (list Z * list Z)) (body : list Z) : list token :=
  ([T_message_begin] ++ bytes_of D_url path) ++ concat (map header_events hs) ++
  [T_headers_complete me] ++ bytes_of D_body body ++ [T_message_complete me].

Lemma runs_fields skip s hs ix n m l len len' :
  line_start s -> fields_length len l = Some len' -> 0 <= n ->
  n + zlen (concat (map HttpMsg.header_line l)) <= HTTP_MAX_HEADER_SIZE ->
  exists s' hs' ix', line_start s' /\
  runs skip (at_ s hs ix n (with_length (default ULLONG_MAX len) m)) (concat (map HttpMsg.header_line l))
    (at_ s' hs' ix' (n + zlen (concat (map HttpMsg.header_line l))) (with_length (default ULLONG_MAX len') m))
    (concat (map header_events l)).
Proof.
  revert s hs ix n len. induction l as [|h l IH]; intros s hs ix n len Hs Hl H0 Hn; cbn [map concat fields_length] in *.
  { injection Hl as <-. exists s, hs, ix. split; [done|]. change (zlen []) with 0. rewrite Z.add_0_r. apply runs_nil. }
  rewrite zlen_app in *. pose proof (zlen_nonneg (HttpMsg.header_line h)).
  pose proof (zlen_nonneg (concat (map HttpMsg.header_line l))). rewrite Z.add_assoc. destruct (plain_header h) eqn:Hp.
  - destruct (IH s_header_value_lws h_general 0 (n + zlen (HttpMsg.header_line h)) len)
      as (s' & hs' & ix' & Hs' & Hr); [by right|done|lia|lia|].
    exists s', hs', ix'. split; [done|]. eapply runs_app; [apply runs_plain_header; (done || lia)|done].
  - destruct (length_field h) eqn:Hf; [|done]. unfold length_field in Hf. rewrite !andb_true_iff in Hf.
    destruct Hf as [[[[Hname%bool_decide_eq_true Htok] Hds%negb_true_iff%bool_decide_eq_false] Hnum] Hlt%Z.ltb_lt].
    destruct (IH s_header_value_lws h_content_length 0 (n + zlen (HttpMsg.header_line h)) (Some (digits_value 0 h.2)))
      as (s' & hs' & ix' & Hs' & Hr); [by right|done|lia|lia|].
    exists s', hs', ix'. split; [done|]. eapply runs_app; [|exact Hr]. destruct h as [name ds]. cbn [fst snd] in *.
    apply (runs_content_length skip s hs ix n (with_length (default ULLONG_MAX len) m) name ds); (done || lia).
Qed.

Lemma request_parses me path hs len body :
  let head := request_line (mk_request me path hs [] []) ++ concat (map HttpMsg.header_line hs) ++ CRLF in
  me <> HTTP_CONNECT -> path_ok path = true -> fields_length None hs = Some len ->
  zlen body = default 0 len -> zlen body < ULLONG_MAX -> zlen head <= HTTP_MAX_HEADER_SIZE ->
  exists p', http_parser_execute (recorder never) (head ++ body) (http_parser_init HTTP_REQUEST) [] =
      Returned p' (parsed_events me path hs body) (zlen (head ++ body)) /\
    hp_method p' = me /\ hp_state p' = s_start_req /\ hp_http_errno p' = HPE_OK.
Proof.
  intros head Hme Hpath Hh Hbody Hlt Hmax. unfold head in Hmax. rewrite !zlen_app in Hmax.
  change (zlen CRLF) with 2 in Hmax. set (r := mk_request me path hs [] []) in *.
  pose proof (zlen_nonneg (request_line r)). pose proof (zlen_nonneg (concat (map HttpMsg.header_line hs))).
  set (m := mk_message HTTP_REQUEST 0 0 0 0 0 HTTP_DELETE false).
  set (m1 := with_version 1 1 (new_request me m)). set (L := default ULLONG_MAX len).
  destruct (runs_fields never s_header_field_start h_general (zlen (matcher_of me) + 1)
              (zlen (request_line r)) m1 hs None len) as (s' & hs' & ix' & Hs' & Hrun); [by left|done|lia|lia|].
  pose proof (runs_request_line never h_general 0 m r Hme Hpath ltac:(lia)) as Hline.
  set (n := zlen (request_line r) + zlen (concat (map HttpMsg.header_line hs))) in *.
  assert (Hm1 : with_length L m1 = request_message me L 0) by done. fold L in Hrun. rewrite Hm1 in Hrun.
  pose proof (runs_headers_cr never s' hs' ix' n _ Hs' ltac:(lia) ltac:(lia) : runs _ (at_ _ _ _ _ (request_message me L 0)) _ _ _) as Hcr.
  pose proof (runs_headers_lf never (fun _ => eq_refl) hs' ix' (n + 1) me L 0 ltac:(lia) ltac:(lia) Hme) as Hlf. cbv zeta in Hlf.
  assert (Hend : exists k, runs never (at_ s_headers_almost_done hs' ix' (n + 1) (request_message me L 0)) ([LF] ++ body)
    (at_ s_start_req hs' ix' 0 (request_message me k 0)) ([T_headers_complete me] ++ bytes_of D_body body ++ [T_message_complete me])).
  { destruct len as [v|]; cbn in Hbody; unfold L in *; cbn [default from_option id] in *.
    - subst v. rewrite (proj2 (Z.eqb_neq _ ULLONG_MAX)), orb_false_r in Hlf by lia. destruct body as [|b l] eqn:Hb; [by eexists|].
      assert (zlen (b :: l) <> 0) as Hnz by (rewrite zlen_cons; pose proof (zlen_nonneg l); lia).
      rewrite (proj2 (Z.eqb_neq _ 0) Hnz) in Hlf. exists 0.
      eapply (runs_app _ _ _ _ [T_headers_complete me]); [exact Hlf|]. by apply runs_body.
    - destruct body as [|b l]; [by eexists|]. rewrite zlen_cons in Hbody. pose proof (zlen_nonneg l). lia. }
  destruct Hend as [k Hend].
  assert (Hall : runs never (http_parser_init HTTP_REQUEST) (head ++ body)
    (at_ s_start_req hs' ix' 0 (request_message me k 0)) (parsed_events me path hs body)).
  { unfold head, parsed_events. rewrite <- !app_assoc. rewrite (app_assoc [T_message_begin]).
    eapply runs_app; [exact Hline|]. eapply runs_app; [exact Hrun|].
    change (CRLF ++ body) with ([CR] ++ ([LF] ++ body)). eapply runs_silent_app; [exact Hcr|]. exact Hend. }
  exists (at_ s_start_req hs' ix' 0 (request_message me k 0)). split; [|done].
  apply (runs_execute never _ (head ++ body) _ _ [] Hall); [apply init_good|].
  unfold head, request_line. cbn. by destruct (matcher_of me).
Qed.

(** C19. A request passes the proxy.  When the request has a method that http_parser knows
    (and not CONNECT) and a target that begins with a slash, when every field that is
    sent on is a Content-Length with a number below ULLONG_MAX or a plain one (a token as
    a name, one whose value the parser does not interpret, and a non-empty value of one
    line that begins with no blank), and when the head has at most HTTP_MAX_HEADER_SIZE
    bytes, then the text that the backend gets, followed by a body of the length
    announced, is parsed as the same method and target, with the fields that are sent on
    and those of the proxy, and the same body, and is consumed to its end. *)
Theorem forwarded_request_parsed (c : Config) (ip : list Z) (o : Downstream) (me : http_method) (len : option Z) (body : list Z) :
  request_method_ o = http_method_str (method_num me) -> me <> HTTP_CONNECT ->
  path_ok (request_path_ o) = true -> fields_length None (forwarded c ip o) = Some len ->
  zlen body = default 0 len -> zlen body < ULLONG_MAX ->
  zlen (request_text c ip o) <= HTTP_MAX_HEADER_SIZE ->
  exists p', http_parser_execute (recorder never) (request_text c ip o ++ body) (http_parser_init HTTP_REQUEST) [] =
      Returned p' (parsed_events me (request_path_ o) (forwarded c ip o) body) (zlen (request_text c ip o ++ body)) /\
    hp_method p' = me /\ hp_state p' = s_start_req /\ hp_http_errno p' = HPE_OK.
Proof.
  intros Hm Hme Hpath Hh Hbody Hlt Hmax.
  assert (Hstr : http_method_str (method_num me) = matcher_of me) by (by destruct me).
  assert (Ht : request_text c ip o =
    request_line (mk_request me (request_path_ o) (forwarded c ip o) [] []) ++
    concat (map HttpMsg.header_line (forwarded c ip o)) ++ CRLF).
  { rewrite request_text_forwarded, Hm, Hstr. unfold request_line. cbn [rq_method rq_path].
    change (map HttpMsg.header_line ?l) with (map header_line l). by rewrite <- !app_assoc. }
  rewrite Ht in *. by eapply request_parses.
Qed.

Definition sample_downstream : Downstream :=
  (Downstream_new 0 0) <| request_method_ := str "POST" |> <| request_path_ := str "/a?b=c" |>
    <| request_headers_ := [(str "Host", str "h"); (str "content-length", str "2"); (str "CONNECTION", str "keep-alive");
                            (str "Via", str "1.0 x")] |>.

Lemma forwarded_request_parsed_witness :
  exists p', http_parser_execute (recorder never) (request_text (Config_new no_time) [] sample_downstream ++ str "hi")
      (http_parser_init HTTP_REQUEST) [] =
      Returned p' (parsed_events HTTP_POST (str "/a?b=c")
        [(str "Host", str "h"); (str "content-length", str "2"); (str "X-Forwarded-Proto", str "https");
         (str "Via", str "1.0 x, 1.1 shrpx")] (str "hi"))
        (zlen (request_text (Config_new no_time) [] sample_downstream ++ str "hi")) /\
    hp_method p' = HTTP_POST /\ hp_state p' = s_start_req /\ hp_http_errno p' = HPE_OK.
Proof.
  apply (forwarded_request_parsed (Config_new no_time) [] sample_downstream HTTP_POST (Some 2) (str "hi"));
    first [vm_compute; reflexivity | discriminate | vm_compute; discriminate].
Defined.

End Forward.
