(* ===== verification/ShrpxSpdy.v ===== *)
(** The SPDY side of the reverse proxy: shrpx_spdy_upstream.cc,
    shrpx_downstream_queue.cc, and the choice of the upstream in
    shrpx_client_handler.cc.

    The SPDY library keeps the session.  What the proxy submits to it is the log
    [submitted]; which callbacks it calls while it receives and sends is an
    argument of these operations; the data providers it was given are a map from
    streams to Downstream objects, until their stream is closed. *)
From stdpp Require Import gmap.
From S2P Require Import Prelude Libc CppUtil Records ShrpxConfig ShrpxHttp.
From S2P Require Import HttpTypes HttpExec ShrpxWorld ShrpxDownstream.

Module Spdy.
Import Util Config Http World Down.

Definition SHRPX_SPDY_UPSTREAM_OUTPUT_UPPER_THRES : Z := 64 * 1024.

(** * The interface of the SPDY library *)

(** The numbers of the library that the code compares with. *)
Class SpdyLib := {
  SPDYLAY_ERR_FATAL : Z;
  fatal_negative : SPDYLAY_ERR_FATAL < 0;
  SPDYLAY_PROTO_SPDY3 : Z;
  npn_get_version : list Z -> Z
}.

Inductive rst_code := SPDYLAY_INTERNAL_ERROR | SPDYLAY_FLOW_CONTROL_ERROR.

(** What is submitted: settings (concurrent streams and window), the end of a
    stream, the return of a window, a response with its fields, and the news that
    a deferred stream has data. *)
Inductive submission :=
  | Settings (max_concurrent_streams initial_window_size : Z)
  | Rst_stream (stream_id : Z) (code : rst_code)
  | Window_update (stream_id delta : Z)
  | Response (stream_id : Z) (nv : list (list Z))
  | Resume_data (stream_id : Z).

Record SpdyUpstream := mk_spdy {
  submitted : list submission;
  providers : gmap Z Z;
  flow_control_ : bool;
  initial_window_size_ : Z;
  downstream_queue_ : gmap Z Z
}.
#[export] Instance eta_SpdyUpstream : Settable SpdyUpstream := fun u =>
  mk_spdy (submitted u) (providers u) (flow_control_ u) (initial_window_size_ u) (downstream_queue_ u).

Notation M := (World.M SpdyUpstream).
Notation world := (World.world SpdyUpstream).

(** The callbacks the library calls. *)
Inductive session_call :=
  | On_stream_close (stream_id : Z)
  | On_syn_stream (stream_id pri : Z) (nv : list (list Z * list Z)) (fin : bool)
  | On_other_ctrl
  | On_data_chunk (fin : bool) (stream_id : Z) (data : list Z)
  | On_ctrl_not_send (syn_reply : bool) (stream_id : Z)
  | Send_callback (data : list Z)
  | Recv_callback (len : Z)
  | Read_data (stream_id : Z) (length : Z).

(** A call of spdylay_session_recv or spdylay_session_send: the callbacks, what it
    returns, and whether the session wants to go on. *)
Record session_io := mk_session_io { io_calls : list session_call; io_rv : Z; io_want : bool }.

(** What the callbacks that move bytes return. *)
Inductive moved := Moved (n : Z) | Would_block | Callback_failure | Deferred.

Section Spdy.
Context `{lib : SpdyLib}.

Definition get_upstream : M SpdyUpstream := h ← get_client; nonnull (upstream_ h).
Definition mod_upstream (f : SpdyUpstream -> SpdyUpstream) : M unit :=
  u ← get_upstream; mod_client (fun h => h <| upstream_ := Some (f u) |>).

(** A call that submits; what it returns says whether it was accepted. *)
Definition submit (x : submission) : M Z :=
  rv ← next_result;
  (if rv =? 0 then mod_upstream (fun u => u <| submitted := submitted u ++ [x] |>) else mret tt);;
  mret rv.

(** spdylay_submit_response with a data provider for [d]. *)
Definition submit_response (stream_id : Z) (nv : list (list Z)) (d : Z) : M Z :=
  rv ← submit (Response stream_id nv);
  (if rv =? 0 then mod_upstream (fun u => u <| providers := <[stream_id := d]> (providers u) |>) else mret tt);;
  mret rv.

Definition die_on_fatal (rv : Z) : M unit := check (negb (rv <? SPDYLAY_ERR_FATAL)) Died.

(** * DownstreamQueue *)

Definition queue_add (d : Z) : M unit :=
  o ← get_down d;
  mod_upstream (fun u => u <| downstream_queue_ := <[stream_id_ o := d]> (downstream_queue_ u) |>).

Definition queue_remove (d : Z) : M unit :=
  o ← get_down d;
  mod_upstream (fun u => u <| downstream_queue_ := delete (stream_id_ o) (downstream_queue_ u) |>).

Definition queue_find (stream_id : Z) : M (option Z) :=
  u ← get_upstream; mret (downstream_queue_ u !! stream_id).

(** * Submissions of the upstream *)

Definition rst_stream (d : Z) (code : rst_code) : M unit :=
  o ← get_down d; rv ← submit (Rst_stream (stream_id_ o) code); die_on_fatal rv.

Definition window_update (d : Z) : M unit :=
  o ← get_down d; rv ← submit (Window_update (stream_id_ o) (recv_window_size_ o));
  mod_down d (fun o => o <| recv_window_size_ := 0 |>);; die_on_fatal rv.

Definition error_nv (c : Config) (status_code : Z) : list (list Z) :=
  [str ":status"; get_status_string status_code; str ":version"; str "http/1.1";
   str "content-type"; str "text/html; charset=UTF-8"; str "server"; default [] (server_name c)].

Definition error_reply (d : Z) (status_code : Z) : M Z :=
  w ← get;
  init_response_body_buf d;;
  o ← get_down d;
  body ← nonnull (response_body_buf_ o);
  rv ← next_result;
  if rv =? -1 then mret (-1) else
  mod_down d (fun o => o <| response_body_buf_ := Some (body ++ create_error_html (cfg w) status_code) |>
                         <| response_state_ := MSG_COMPLETE |>);;
  rv ← submit_response (stream_id_ o) (error_nv (cfg w) status_code) d;
  die_on_fatal rv;; mret 0.

(** * The response of a backend *)

(** nv[hdidx++] = x in an array of [size] elements. *)
Definition nv_put (size : Z) (nv : list (option (list Z))) (x : option (list Z))
    : failure + list (option (list Z)) :=
  if Z.of_nat (length nv) <? size then inr (nv ++ [x]) else inl Buffer_overrun.

Definition put_all (size : Z) (xs : list (option (list Z))) (nv : list (option (list Z)))
    : failure + list (option (list Z)) :=
  foldl (fun acc x => match acc with inl e => inl e | inr nv => nv_put size nv x end) (inr nv) xs.

Definition ignored_name (name : list Z) : bool :=
  name_is name (str "transfer-encoding") || name_is name (str "keep-alive") ||
  name_is name (str "connection") || name_is name (str "proxy-connection").

(** The loop over the fields: the array, and the value of via. *)
Fixpoint nv_loop (size : Z) (hs : Headers) (nv : list (option (list Z))) (via_value : list Z)
    : failure + list (option (list Z)) * list Z :=
  match hs with
  | [] => inr (nv, via_value)
  | (name, value) :: hs =>
      if ignored_name name then nv_loop size hs nv via_value
      else if name_is name (str "via") then nv_loop size hs nv value
      else match put_all size [Some (c_str name); Some (c_str value)] nv with
           | inl e => inl e
           | inr nv => nv_loop size hs nv via_value
           end
  end.

(** The array nv of on_downstream_header_complete. *)
Definition response_nv (o : Downstream) : failure + list (option (list Z)) :=
  let nheader := Z.of_nat (length (response_headers_ o)) in
  let size := nheader * 2 + 6 + 1 in
  match put_all size [Some (str ":status"); Some (get_status_string (response_http_status_ o));
                      Some (str ":version"); Some (str "HTTP/1.1")] [] with
  | inl e => inl e
  | inr nv =>
      match nv_loop size (response_headers_ o) nv [] with
      | inl e => inl e
      | inr (nv, via_value) =>
          let via_value := (if bool_decide (via_value = []) then via_value else via_value ++ str ", ") ++
                           create_via_header_value (response_major_ o) (response_minor_ o) in
          put_all size [Some (str "via"); Some (c_str via_value); None] nv
      end
  end.

(** The strings before the null pointer. *)
Fixpoint strings_of (nv : list (option (list Z))) : list (list Z) :=
  match nv with Some x :: nv => x :: strings_of nv | _ => [] end.

Definition spdy_header_complete (d : Z) : M Z :=
  o ← get_down d;
  match response_nv o with
  | inl e => failed e
  | inr nv =>
      rv ← submit_response (stream_id_ o) (strings_of nv) d;
      mret (if rv =? 0 then 0 else -1)
  end.

Definition resume_data (stream_id : Z) : M unit := submit (Resume_data stream_id);; mret tt.

Definition spdy_body (d : Z) (data : list Z) : M Z :=
  o ← get_down d;
  body ← nonnull (response_body_buf_ o);
  rv ← next_result;
  if negb (rv =? 0) then mret (-1) else
  mod_down d (fun o => o <| response_body_buf_ := Some (body ++ data) |>);;
  resume_data (stream_id_ o);;
  when (SHRPX_SPDY_UPSTREAM_OUTPUT_UPPER_THRES <? zlen (body ++ data)) (down_pause_read d SHRPX_NO_BUFFER);;
  mret 0.

Definition spdy_body_complete (d : Z) : M Z :=
  o ← get_down d; resume_data (stream_id_ o);; mret 0.

(** The destructor of SpdyUpstream: the session, then the queue with its
    Downstream objects. *)
Definition delete_spdy : M unit :=
  u ← get_upstream;
  foldr (fun kv m => delete_down kv.2;; m) (mret tt) (map_to_list (downstream_queue_ u));;
  mod_client (fun h => h <| upstream_ := None |>).

#[export] Instance SpdyUpstream_ops : UpstreamOps SpdyUpstream := {
  on_downstream_header_complete := spdy_header_complete;
  on_downstream_body := spdy_body;
  on_downstream_body_complete := spdy_body_complete;
  delete_upstream := delete_spdy
}.

(** spdy_data_read_callback: the bytes, and whether they are the last. *)
Definition spdy_data_read_callback (d : Z) (length : Z) : M (moved * list Z * bool) :=
  o ← get_down d;
  match response_body_buf_ o with
  | None => failed Assertion
  | Some body =>
      let n := Z.min length (zlen body) in
      let rest := drop (Z.to_nat n) body in
      mod_down d (fun o => o <| response_body_buf_ := Some rest |>);;
      when (0 <? n) (body_buf_cb d (zlen rest));;
      let eof := negb (tunnel_established o) && (n =? 0) &&
                 bool_decide (response_state_ o = MSG_COMPLETE) in
      mret (if (n =? 0) && negb eof then (Deferred, [], false)
            else (Moved n, take (Z.to_nat n) body, eof))
  end.

(** * The callbacks of the session *)

Definition send_callback (data : list Z) : M moved :=
  n ← get_pending_write_length;
  if SHRPX_SPDY_UPSTREAM_OUTPUT_UPPER_THRES <? n then mret Would_block else
  rv ← output_add Client_bev data;
  mret (if rv =? -1 then Callback_failure else Moved (zlen data)).

Definition recv_callback (len : Z) : M (moved * list Z) :=
  b ← get_bev Client_bev;
  let n := Z.min len (zlen (bev_input b)) in
  mod_bev Client_bev (fun b => b <| bev_input := drop (Z.to_nat n) (bev_input b) |>);;
  mret (if n =? 0 then (Would_block, []) else (Moved n, take (Z.to_nat n) (bev_input b))).

Definition remove_and_delete (d : Z) : M unit := queue_remove d;; delete_down d.

Definition on_stream_close_callback (stream_id : Z) : M unit :=
  d ← queue_find stream_id;
  match d with
  | None => mret tt
  | Some d =>
      o ← get_down d;
      if bool_decide (request_state_ o = CONNECT_FAIL) then remove_and_delete d
      else
        mod_down d (fun o => o <| request_state_ := STREAM_CLOSED |>);;
        if bool_decide (response_state_ o = MSG_COMPLETE) then
          (if negb (tunnel_established o) && negb (response_connection_close_ o) then
             match dconn_ o with Some c => detach_downstream c d | None => mret tt end
           else mret tt);;
          remove_and_delete d
        else remove_and_delete d
  end.

(** The fields of a SYN_STREAM: path, scheme, host and method, and the Downstream
    with the other fields. *)
Record syn_fields := mk_syn {
  syn_path : option (list Z);
  syn_scheme : option (list Z);
  syn_host : option (list Z);
  syn_method : option (list Z)
}.
#[export] Instance eta_syn_fields : Settable syn_fields := fun s =>
  mk_syn (syn_path s) (syn_scheme s) (syn_host s) (syn_method s).

Definition strcmp_eq (a b : list Z) : bool := bool_decide (c_str a = b).

Definition syn_field (acc : syn_fields * Downstream) (nv : list Z * list Z) : syn_fields * Downstream :=
  let '(s, o) := acc in
  let '(name, value) := nv in
  if strcmp_eq name (str ":path") then (s <| syn_path := Some value |>, o)
  else if strcmp_eq name (str ":scheme") then (s <| syn_scheme := Some value |>, o)
  else if strcmp_eq name (str ":method") then
    (s <| syn_method := Some value |>, o <| request_method_ := c_str value |>)
  else if strcmp_eq name (str ":host") then (s <| syn_host := Some value |>, o)
  else if negb (deref name =? chr ":") then (s, add_request_header (c_str name) (c_str value) o)
  else (s, o).

Definition syn_path_of (c : Config) (scheme : option (list Z)) (host path : list Z) : list Z :=
  match scheme with
  | Some scheme =>
      if spdy_proxy c && (deref path =? chr "/")
      then c_str scheme ++ str "://" ++ c_str host ++ c_str path else c_str path
  | None => c_str path
  end.

Definition on_syn_stream (stream_id pri : Z) (nv : list (list Z * list Z)) (fin : bool) : M unit :=
  w ← get;
  d ← new_down stream_id pri;
  queue_add d;;
  init_response_body_buf d;;
  o ← get_down d;
  let '(s, o) := foldl syn_field (mk_syn None None None None, o) nv in
  set_down d o;;
  match syn_path s, syn_host s, syn_method s with
  | Some path, Some host, Some _ =>
      mod_down d (fun o =>
        let o := o <| request_path_ := syn_path_of (cfg w) (syn_scheme s) host path |> in
        let o := add_request_header (str "host") (c_str host) o in
        if spdy_proxy (cfg w) then o else add_request_header (str "X-Forwarded-Spdy") (str "true") o);;
      c ← get_downstream_connection;
      rv ← attach_downstream c d;
      if negb (rv =? 0) then
        rst_stream d SPDYLAY_INTERNAL_ERROR;;
        mod_down d (fun o => o <| request_state_ := CONNECT_FAIL |>)
      else
        rv ← push_request_headers d;
        if negb (rv =? 0) then rst_stream d SPDYLAY_INTERNAL_ERROR
        else
          mod_down d (fun o => o <| request_state_ := HEADER_COMPLETE |>);;
          when fin (mod_down d (fun o => o <| request_state_ := MSG_COMPLETE |>))
  | _, _, _ => rst_stream d SPDYLAY_INTERNAL_ERROR
  end.

Definition on_data_chunk_recv_callback (fin : bool) (stream_id : Z) (data : list Z) : M unit :=
  d ← queue_find stream_id;
  match d with
  | None => mret tt
  | Some d =>
      rv ← push_upload_data_chunk d data;
      if negb (rv =? 0) then rst_stream d SPDYLAY_INTERNAL_ERROR else
      u ← get_upstream;
      when (flow_control_ u)
        (mod_down d (fun o => o <| recv_window_size_ := recv_window_size_ o + zlen data |>));;
      o ← get_down d;
      if flow_control_ u && (initial_window_size_ u <? recv_window_size_ o)
      then rst_stream d SPDYLAY_FLOW_CONTROL_ERROR
      else when fin (mod_down d (fun o => o <| request_state_ := MSG_COMPLETE |>))
  end.

Definition on_ctrl_not_send_callback (syn_reply : bool) (stream_id : Z) : M unit :=
  if syn_reply then
    d ← queue_find stream_id;
    match d with Some d => rst_stream d SPDYLAY_INTERNAL_ERROR | None => mret tt end
  else mret tt.

(** What a call of the library does to the proxy.  The library reads no data for a
    stream that it closes, and a SYN_STREAM for a stream that is open is an error
    that it does not hand on. *)
Definition session_step (x : session_call) : M unit :=
  match x with
  | On_stream_close id =>
      mod_upstream (fun u => u <| providers := delete id (providers u) |>);; on_stream_close_callback id
  | On_syn_stream id pri nv fin =>
      d ← queue_find id;
      match d with Some _ => mret tt | None => on_syn_stream id pri nv fin end
  | On_other_ctrl => mret tt
  | On_data_chunk fin id data => on_data_chunk_recv_callback fin id data
  | On_ctrl_not_send syn_reply id => on_ctrl_not_send_callback syn_reply id
  | Send_callback data => send_callback data;; mret tt
  | Recv_callback len => recv_callback len;; mret tt
  | Read_data id length =>
      u ← get_upstream;
      match providers u !! id with
      | Some d => spdy_data_read_callback d length;; mret tt
      | None => mret tt
      end
  end.

Definition session_run (io : session_io) : M Z :=
  foldr (fun x m => session_step x;; m) (mret tt) (io_calls io);; mret (io_rv io).

(** * The upstream *)

(** 1 << bits of an int. *)
Definition window_of (c : Config) : Z := Z.shiftl 1 (spdy_upstream_window_bits c).

Definition send (io : session_io) : M Z :=
  rv ← session_run io;
  mret (if (rv =? 0) && negb (io_want io) then -1 else rv).

(** The constructor; the timeouts of the client are those of SPDY. *)
Definition new_spdy (version : Z) (io : session_io) : M unit :=
  w ← get;
  mod_client (fun h => h <| ch_bev := (ch_bev h) <| bev_read_timeout := spdy_upstream_read_timeout (cfg w) |>
                               <| bev_write_timeout := upstream_write_timeout (cfg w) |> |>);;
  let spdy3 := version =? SPDYLAY_PROTO_SPDY3 in
  let window := if spdy3 then window_of (cfg w) else 0 in
  rv ← next_result; check (rv =? 0) Assertion;;
  mod_client (fun h => h <| upstream_ := Some (mk_spdy [] ∅ spdy3 window ∅) |>);;
  (if spdy3 then rv ← next_result; check (rv =? 0) Assertion else mret tt);;
  rv ← submit (Settings (spdy_max_concurrent_streams (cfg w)) window);
  check (rv =? 0) Assertion;;
  send io;; mret tt.

Definition on_read (recv_io send_io : session_io) : M Z :=
  rv ← session_run recv_io;
  rv ← (if rv <? 0 then mret rv else session_run send_io);
  mret (if (rv =? 0) && negb (io_want send_io) then -1 else rv).

Definition on_write (io : session_io) : M Z := send io.

(** * The callbacks of a backend connection *)

Definition send_or_delete (io : session_io) : M unit :=
  rv ← send io; if negb (rv =? 0) then delete_handler else mret tt.

(** downstream->set_downstream_connection(0); delete dconn; *)
Definition drop_connection (d c : Z) : M unit := set_downstream_connection d None;; delete_dconn c.

Definition spdy_downstream_readcb (c : Z) (io : session_io) : M unit :=
  x ← get_dconn c;
  d ← nonnull (downstream_ x);
  o ← get_down d;
  if bool_decide (request_state_ o = STREAM_CLOSED) then remove_and_delete d
  else
    rv ← parse_http_response d;
    if negb (rv =? 0) then
      o ← get_down d;
      ok ← (if bool_decide (response_state_ o = HEADER_COMPLETE)
            then rst_stream d SPDYLAY_INTERNAL_ERROR;; mret 0
            else error_reply d 502);
      if negb (ok =? 0) then delete_handler
      else
        mod_down d (fun o => o <| response_state_ := MSG_COMPLETE |>);;
        drop_connection d c;;
        send_or_delete io
    else send_or_delete io.

Definition spdy_downstream_writecb (c : Z) : M unit :=
  x ← get_dconn c;
  d ← nonnull (downstream_ x);
  o ← get_down d;
  u ← get_upstream;
  when (flow_control_ u && (initial_window_size_ u / 2 <=? recv_window_size_ o)) (window_update d).

Definition spdy_downstream_eventcb (c : Z) (events : Z) (io : session_io) : M unit :=
  x ← get_dconn c;
  d ← nonnull (downstream_ x);
  o ← get_down d;
  if has_flag events BEV_EVENT_CONNECTED then mret tt
  else if has_flag events BEV_EVENT_EOF then
    if bool_decide (request_state_ o = STREAM_CLOSED) then remove_and_delete d
    else
      drop_connection d c;;
      match response_state_ o with
      | HEADER_COMPLETE =>
          mod_down d (fun o => o <| response_state_ := MSG_COMPLETE |>);;
          (if tunnel_established o then rst_stream d SPDYLAY_INTERNAL_ERROR
           else spdy_body_complete d;; mret tt);;
          send_or_delete io
      | MSG_COMPLETE => rst_stream d SPDYLAY_INTERNAL_ERROR;; send_or_delete io
      | _ =>
          rv ← error_reply d 502;
          if negb (rv =? 0) then mret tt
          else mod_down d (fun o => o <| response_state_ := MSG_COMPLETE |>);; send_or_delete io
      end
  else if has_flag events (Z.lor BEV_EVENT_ERROR BEV_EVENT_TIMEOUT) then
    if bool_decide (request_state_ o = STREAM_CLOSED) then remove_and_delete d
    else
      drop_connection d c;;
      match response_state_ o with
      | MSG_COMPLETE => rst_stream d SPDYLAY_INTERNAL_ERROR;; send_or_delete io
      | HEADER_COMPLETE =>
          rst_stream d SPDYLAY_INTERNAL_ERROR;;
          mod_down d (fun o => o <| response_state_ := MSG_COMPLETE |>);; send_or_delete io
      | _ =>
          rv ← error_reply d (if has_flag events BEV_EVENT_TIMEOUT then 504 else 502);
          if negb (rv =? 0) then delete_handler
          else mod_down d (fun o => o <| response_state_ := MSG_COMPLETE |>);; send_or_delete io
      end
  else mret tt.

(** * The callbacks of the client *)

Definition upstream_readcb (recv_io send_io : session_io) : M unit :=
  rv ← on_read recv_io send_io; if negb (rv =? 0) then delete_handler else mret tt.

Definition upstream_writecb (io : session_io) : M unit :=
  h ← get_client;
  if should_close_after_write_ h then delete_handler
  else rv ← on_write io; if negb (rv =? 0) then delete_handler else mret tt.

(** The end of the handshake makes the upstream, here that of SPDY, and reads what
    has arrived. *)
Definition upstream_eventcb (version : Z) (events : Z) (start_io recv_io send_io : session_io) : M unit :=
  if has_flag events BEV_EVENT_EOF || has_flag events BEV_EVENT_ERROR || has_flag events BEV_EVENT_TIMEOUT
  then delete_handler
  else if has_flag events BEV_EVENT_CONNECTED then
    mod_client (fun h => h <| ch_bev := (ch_bev h) <| bev_cb := Cb_client |> |>);;
    new_spdy version start_io;;
    on_read recv_io send_io;; mret tt
  else mret tt.

(** * The choice of the upstream *)

Inductive protocol := Spdy_version (version : Z) | Http_1_1.

Definition validate_next_proto (next_proto : option (list Z)) : protocol :=
  match next_proto with
  | Some proto => let version := npn_get_version proto in
                  if negb (version =? 0) then Spdy_version version else Http_1_1
  | None => Http_1_1
  end.

End Spdy.

End Spdy.
