(* ===== verification/ShrpxSpdyProps.v ===== *)
(** Properties of the SPDY side of the proxy: the fields of a response fit their
    array, the bytes of a response reach the stream in order, the flow control
    gives back what it takes, and a connection that is lost. *)
From stdpp Require Import gmap.
From S2P Require Import Prelude Libc CppUtil Records ShrpxConfig ShrpxHttp.
From S2P Require Import HttpTypes HttpExec ShrpxWorld ShrpxDownstream ShrpxSpdy.

Module SpdyProps.
Import Util Config Http World Down Spdy.

(** * The fields of a response *)

Definition relayed (h : list Z * list Z) : bool :=
  negb (ignored_name h.1) && negb (name_is h.1 (str "via")).

Definition pair_of (h : list Z * list Z) : list (option (list Z)) := [Some (c_str h.1); Some (c_str h.2)].

(** The value of the last via field. *)
Definition via_of (hs : list (list Z * list Z)) (v : list Z) : list Z :=
  fold_left (fun v h => if negb (ignored_name h.1) && name_is h.1 (str "via") then h.2 else v) hs v.

Lemma put_all_fits size xs nv :
  Z.of_nat (length nv + length xs) <= size -> put_all size xs nv = inr (nv ++ xs).
Proof.
  unfold put_all. revert nv. induction xs as [|x xs IH]; intros nv H; cbn [foldl]; [by rewrite app_nil_r|].
  cbn [length] in H. unfold nv_put at 2. destruct (Z.ltb_spec (Z.of_nat (length nv)) size); [|lia].
  rewrite IH; [by rewrite <- app_assoc|]. rewrite length_app. cbn [length]. lia.
Qed.

Lemma nv_loop_fits size hs nv v :
  Z.of_nat (length nv + 2 * length hs) <= size ->
  nv_loop size hs nv v = inr (nv ++ concat (map pair_of (List.filter relayed hs)), via_of hs v).
Proof.
  unfold via_of. revert nv v. induction hs as [|[n x] hs IH]; intros nv v H; cbn [nv_loop]; [by rewrite app_nil_r|].
  cbn [length List.filter fold_left fst snd] in *. unfold relayed at 1. cbn [fst snd].
  destruct (ignored_name n); cbn [negb andb]; [apply IH; lia|].
  destruct (name_is n (str "via")); cbn [negb]; [apply IH; lia|].
  rewrite put_all_fits by (cbn [length]; lia).
  rewrite IH by (rewrite length_app; cbn [length]; lia). cbn [map concat]. by rewrite <- app_assoc.
Qed.

Lemma filter_length_le (f : list Z * list Z -> bool) hs : (length (List.filter f hs) <= length hs)%nat.
Proof. induction hs as [|h hs IH]; cbn; [lia|]. destruct (f h); cbn; lia. Qed.

Lemma pairs_length hs : length (concat (map pair_of hs)) = (2 * length hs)%nat.
Proof. induction hs as [|h hs IH]; cbn; lia. Qed.

Lemma pairs_strings hs :
  concat (map pair_of hs) = map Some (concat (map (fun h => [c_str h.1; c_str h.2]) hs)).
Proof. induction hs as [|h hs IH]; [done|]. cbn [map concat]. by rewrite IH. Qed.

Lemma strings_of_some xs nv : strings_of (map Some xs ++ nv) = xs ++ strings_of nv.
Proof. induction xs as [|x xs IH]; cbn; [done|]. by rewrite IH. Qed.

(** The array of a response, with the null pointer that ends it. *)
Lemma response_nv_strings (o : Downstream) :
  let hs := response_headers_ o in
  let via := via_of hs [] in
  exists nv, response_nv o = inr nv /\
    strings_of nv =
      [str ":status"; get_status_string (response_http_status_ o); str ":version"; str "HTTP/1.1"] ++
      concat (map (fun h => [c_str h.1; c_str h.2]) (List.filter relayed hs)) ++
      [str "via"; c_str ((if bool_decide (via = []) then [] else via ++ str ", ") ++
                         create_via_header_value (response_major_ o) (response_minor_ o))].
Proof.
  intros hs via. unfold response_nv. cbv zeta. fold hs.
  rewrite put_all_fits by (cbn [length]; lia). cbn [app].
  rewrite nv_loop_fits by (cbn [length]; lia). fold via.
  assert (Hlen : (length (concat (map pair_of (List.filter relayed hs))) <= 2 * length hs)%nat).
  { rewrite pairs_length. pose proof (filter_length_le relayed hs). lia. }
  rewrite put_all_fits by (rewrite length_app; cbn [length]; lia).
  eexists. split; [done|]. cbn [app strings_of]. do 4 f_equal.
  rewrite pairs_strings, strings_of_some. cbn [strings_of]. clearbody via. by case_bool_decide; subst.
Qed.

Lemma response_nv_ok o : exists nv, response_nv o = inr nv.
Proof. destruct (response_nv_strings o) as (nv & E & _). by exists nv. Qed.

(** C21. However many fields a response has, the array that is made for them is large
    enough, and the reply has the status, the version, the fields of the backend
    in their order without those that belong to the connection, and one via. *)
Theorem response_nv_fits (o : Downstream) :
  let hs := response_headers_ o in
  let via := via_of hs [] in
  exists nv, response_nv o = inr nv /\
    strings_of nv =
      [str ":status"; get_status_string (response_http_status_ o); str ":version"; str "HTTP/1.1"] ++
      concat (map (fun h => [c_str h.1; c_str h.2]) (List.filter relayed hs)) ++
      [str "via"; c_str ((if bool_decide (via = []) then [] else via ++ str ", ") ++
                         create_via_header_value (response_major_ o) (response_minor_ o))].
Proof. apply response_nv_strings. Qed.

(** * Programs of the monad that succeed *)

Lemma bind_eq {Up A B} (m : World.M Up A) (k : A -> World.M Up B) w a w' :
  m w = inr (a, w') -> (m ≫= k) w = k a w'.
Proof. intros H. unfold mbind, M_bind. by rewrite H. Qed.

Section Stream.
Context `{lib : SpdyLib} (id d c : Z).

(** A stream with its Downstream and its connection, when no call fails. *)
Record stream (o : Downstream) (b : bufferevent) (u : SpdyUpstream) (w : world) : Prop := {
  st_client : exists h, client w = Some h /\ upstream_ h = Some u;
  st_queue : downstream_queue_ u !! id = Some d;
  st_down : downs w !! d = Some o;
  st_id : stream_id_ o = id;
  st_conn : dconn_ o = Some c;
  st_io : io_bev (ioctrl_ o) = Some (Dconn_bev c);
  st_dconn : exists x, dconns w !! c = Some x /\ bev_ x = Some b /\ downstream_ x = Some d;
  st_plain : chunked_request_ o = false;
  st_results : results w = []
}.

(** [does m w a P]: [m] succeeds in [w] with [a], in a world with [P]. *)
Definition does {A} (m : M A) (w : world) (a : A) (P : world -> Prop) : Prop :=
  exists w', m w = inr (a, w') /\ P w'.

Lemma does_bind {A B} (m : M A) (k : A -> M B) w a x (P Q : world -> Prop) :
  does m w a P -> (forall w', P w' -> does (k a) w' x Q) -> does (m ≫= k) w x Q.
Proof.
  intros (w1 & H1 & HP) Hk. destruct (Hk w1 HP) as (w2 & H2 & HQ). exists w2. split; [|done].
  by rewrite (bind_eq _ _ _ _ _ H1).
Qed.

Lemma does_ret {A} (a : A) w (P : world -> Prop) : P w -> does (mret a) w a P.
Proof. by exists w. Qed.

Lemma does_get_down o b u w : stream o b u w -> does (get_down d) w o (stream o b u).
Proof. intros H. exists w. split; [|done]. unfold get_down. by rewrite (st_down _ _ _ _ H). Qed.

Lemma does_get_upstream o b u w : stream o b u w -> does get_upstream w u (stream o b u).
Proof.
  intros H. exists w. split; [|done]. destruct (st_client _ _ _ _ H) as (h & Hh & Hu).
  unfold get_upstream, get_client, mbind, M_bind. by rewrite Hh, Hu.
Qed.

Lemma does_queue_find o b u w : stream o b u w -> does (queue_find id) w (Some d) (stream o b u).
Proof.
  intros H. eapply does_bind; [by eapply does_get_upstream|]. intros w' H'. rewrite (st_queue _ _ _ _ H').
  by apply does_ret.
Qed.

Lemma does_mod_down o b u w f :
  stream o b u w -> stream_id_ (f o) = stream_id_ o -> dconn_ (f o) = dconn_ o ->
  io_bev (ioctrl_ (f o)) = io_bev (ioctrl_ o) -> chunked_request_ (f o) = chunked_request_ o ->
  does (mod_down d f) w tt (stream (f o) b u).
Proof.
  intros H E1 E2 E3 E4. unfold mod_down. eapply does_bind; [by eapply does_get_down|]. clear w H. intros w H.
  eexists. split; [unfold set_down; by rewrite (st_down _ _ _ _ H)|].
  destruct H. split; cbn; rewrite ?E1, ?E2, ?E3, ?E4; try done. apply lookup_insert_eq.
Qed.

Lemma does_next_result o b u w : stream o b u w -> does next_result w 0 (stream o b u).
Proof. intros H. exists w. split; [|done]. unfold next_result. by rewrite (st_results _ _ _ _ H). Qed.

Lemma does_submit o b u w x :
  stream o b u w -> does (submit x) w 0 (stream o b (u <| submitted := submitted u ++ [x] |>)).
Proof.
  intros H. unfold submit. eapply does_bind; [by eapply does_next_result|]. clear w H. intros w H. cbn.
  unfold mod_upstream. destruct (st_client _ _ _ _ H) as (h & Hh & Hu).
  eexists. split; [unfold get_upstream, mod_client, get_client, nonnull, mbind, M_bind, update, mret, M_ret;
    by rewrite Hh, Hu, Hh|].
  destruct H. split; cbn; try done. by eexists.
Qed.

Lemma does_bev o b u w f :
  stream o b u w -> does (mod_bev (Dconn_bev c) f) w tt (stream o (f b) u).
Proof.
  intros H. destruct (st_dconn _ _ _ _ H) as (x & Hx & Hb & Hd). eexists. split.
  - unfold mod_bev, get_bev, set_bev, mod_dconn, get_dconn, set_dconn, nonnull, mbind, M_bind, mret, M_ret.
    rewrite Hx, Hb, Hx, Hx. done.
  - destruct H. split; cbn; try done. eexists. split; [apply lookup_insert_eq|]. done.
Qed.

Lemma does_output_add o b u w data :
  stream o b u w ->
  does (output_add (Dconn_bev c) data) w 0 (stream o (b <| bev_output := bev_output b ++ data |>) u).
Proof.
  intros H. destruct (does_bev _ _ _ _ (fun b => b <| bev_output := bev_output b ++ data |>) H) as (w' & E & H').
  exists w'. split; [|done]. revert E. destruct (st_dconn _ _ _ _ H) as (x & Hx & Hb & _).
  unfold output_add, mod_bev, get_bev, next_result, get_dconn, nonnull, mbind, M_bind, mret, M_ret.
  rewrite Hx, Hb, (st_results _ _ _ _ H). cbn. by intros ->.
Qed.

(** * Flow control *)

(** Data of the client, and the output of the connection written to the backend
    with the callback that follows; a step gives the bytes the backend gets. *)
Inductive upload := Chunk (data : list Z) | Taken.

Definition upload_step (x : upload) : M (list Z) :=
  match x with
  | Chunk data => on_data_chunk_recv_callback false id data;; mret []
  | Taken =>
      b ← get_bev (Dconn_bev c);
      mod_bev (Dconn_bev c) (fun b => b <| bev_output := [] |>);;
      spdy_downstream_writecb c;; mret (bev_output b)
  end.

(** Steps that give bytes, one after the other. *)
Fixpoint steps {A} (step : A -> M (list Z)) (xs : list A) : M (list Z) :=
  match xs with
  | [] => mret []
  | x :: xs => sent ← step x; rest ← steps step xs; mret (sent ++ rest)
  end.

(** The accounting: the bytes of the window in use, and what was submitted. *)
Definition account (initial : Z) (s : Z * list submission) (x : upload) : Z * list submission :=
  let '(win, log) := s in
  match x with
  | Chunk data =>
      let win := win + zlen data in
      (win, log ++ (if initial <? win then [Rst_stream id SPDYLAY_FLOW_CONTROL_ERROR] else []))
  | Taken => if initial / 2 <=? win then (0, log ++ [Window_update id win]) else (win, log)
  end.

Definition data_of (x : upload) : list Z := match x with Chunk data => data | Taken => [] end.
Definition uploaded (xs : list upload) : list Z := concat (map data_of xs).

Lemma chunk_step o b u w data :
  stream o b u w -> flow_control_ u = true ->
  let '(win, log) := account (initial_window_size_ u) (recv_window_size_ o, submitted u) (Chunk data) in
  does (on_data_chunk_recv_callback false id data) w tt
    (stream (o <| recv_window_size_ := win |>) (b <| bev_output := bev_output b ++ data |>)
       (u <| submitted := log |>)).
Proof.
  intros H Hf. cbn [account]. unfold on_data_chunk_recv_callback.
  eapply does_bind; [by eapply does_queue_find|]. clear w H. intros w H.
  (* the data goes to the backend *)
  eapply does_bind with (a := 0).
  { unfold push_upload_data_chunk. eapply does_bind; [by eapply does_get_down|]. intros w' H'.
    rewrite (st_conn _ _ _ _ H'), (st_plain _ _ _ _ H').
    eapply does_bind; [by eapply does_output_add|]. intros w2 H2. apply does_ret. exact H2. }
  clear w H. intros w H. cbn [Z.eqb negb].
  eapply does_bind; [by eapply does_get_upstream|]. clear w H. intros w H. rewrite Hf. cbn [when andb].
  eapply does_bind; [eapply does_mod_down; [exact H|done..]|]. clear w H. intros w H.
  eapply does_bind; [by eapply does_get_down|]. clear w H. intros w H. cbn [recv_window_size_ set_field].
  destruct (initial_window_size_ u <? recv_window_size_ o + zlen data).
  - unfold rst_stream. eapply does_bind; [by eapply does_get_down|]. clear w H. intros w H.
    rewrite (st_id _ _ _ _ H).
    eapply does_bind; [by eapply does_submit|]. clear w H. intros w H.
    unfold die_on_fatal, check. destruct (Z.ltb_spec 0 SPDYLAY_ERR_FATAL); [pose proof fatal_negative; lia|].
    by apply does_ret.
  - cbn [when]. apply does_ret. rewrite app_nil_r. by destruct u.
Qed.

Lemma taken_step o b u w :
  stream o b u w -> flow_control_ u = true ->
  let '(win, log) := account (initial_window_size_ u) (recv_window_size_ o, submitted u) Taken in
  does (spdy_downstream_writecb c) w tt (stream (o <| recv_window_size_ := win |>) b (u <| submitted := log |>)).
Proof.
  intros H Hf. destruct (account _ _ Taken) as [win log] eqn:Ea. cbn [account] in Ea.
  unfold spdy_downstream_writecb.
  destruct (st_dconn _ _ _ _ H) as (x & Hx & _ & Hd).
  eapply does_bind with (a := x) (P := stream o b u).
  { exists w. split; [|done]. unfold get_dconn. by rewrite Hx. }
  clear w H Hx. intros w H. rewrite Hd. eapply does_bind; [by apply does_ret|]. clear w H. intros w H.
  eapply does_bind; [by eapply does_get_down|]. clear w H. intros w H.
  eapply does_bind; [by eapply does_get_upstream|]. clear w H. intros w H. rewrite Hf. cbn [andb].
  destruct (initial_window_size_ u / 2 <=? recv_window_size_ o); injection Ea as <- <-; cbn [when].
  - unfold window_update. eapply does_bind; [by eapply does_get_down|]. clear w H. intros w H.
    rewrite (st_id _ _ _ _ H).
    eapply does_bind; [by eapply does_submit|]. clear w H. intros w H.
    eapply does_bind; [eapply does_mod_down; [exact H|done..]|]. clear w H. intros w H.
    unfold die_on_fatal, check. destruct (Z.ltb_spec 0 SPDYLAY_ERR_FATAL); [pose proof fatal_negative; lia|].
    by apply does_ret.
  - apply does_ret. by destruct o, u.
Qed.

Lemma does_get_bev o b u w : stream o b u w -> does (get_bev (Dconn_bev c)) w b (stream o b u).
Proof.
  intros H. destruct (st_dconn _ _ _ _ H) as (x & Hx & Hb & _). exists w. split; [|done].
  unfold get_bev, get_dconn, nonnull, mbind, M_bind, mret, M_ret. by rewrite Hx, Hb.
Qed.

Lemma upload_one x o b u w win log :
  stream o b u w -> flow_control_ u = true ->
  account (initial_window_size_ u) (recv_window_size_ o, submitted u) x = (win, log) ->
  exists sent out : list Z, sent ++ out = bev_output b ++ data_of x /\
    does (upload_step x) w sent
      (stream (o <| recv_window_size_ := win |>) (b <| bev_output := out |>) (u <| submitted := log |>)).
Proof.
  intros H Hf Ea. destruct x as [data|]; cbn [upload_step data_of].
  - exists [], (bev_output b ++ data). split; [done|].
    pose proof (chunk_step o b u w data H Hf) as Hc. rewrite Ea in Hc.
    eapply does_bind; [exact Hc|]. intros w' H'. by apply does_ret.
  - exists (bev_output b), []. split; [done|].
    eapply does_bind; [by eapply does_get_bev|]. clear w H. intros w H.
    eapply does_bind; [by eapply does_bev|]. clear w H. intros w H.
    pose proof (taken_step _ _ _ w H Hf) as Hc. cbv beta in Hc.
    rewrite Ea in Hc. eapply does_bind; [exact Hc|]. intros w' H'. by apply does_ret.
Qed.

Lemma upload_runs xs o b u w win log :
  stream o b u w -> flow_control_ u = true ->
  fold_left (account (initial_window_size_ u)) xs (recv_window_size_ o, submitted u) = (win, log) ->
  exists sent out : list Z, sent ++ out = bev_output b ++ uploaded xs /\
    does (steps upload_step xs) w sent
      (stream (o <| recv_window_size_ := win |>) (b <| bev_output := out |>) (u <| submitted := log |>)).
Proof.
  revert o b u w. induction xs as [|x xs IH]; intros o b u w H Hf; cbn [fold_left steps].
  { intros [= <- <-]. exists [], (bev_output b). split; [by cbn; rewrite app_nil_r|]. apply does_ret. by destruct o, b, u. }
  destruct (account _ _ x) as [win1 log1] eqn:Ea. intros Ef.
  destruct (upload_one x o b u w win1 log1 H Hf Ea) as (sent & out & Es & Hx).
  destruct Hx as (w1 & E1 & H1).
  destruct (IH _ _ _ w1 H1 Hf Ef) as (rest & out2 & Er & Hr).
  exists (sent ++ rest), out2. split.
  - cbn [bev_output set_field] in Er. rewrite <- app_assoc. etrans; [apply (f_equal (app sent) Er)|].
    rewrite app_assoc. etrans; [apply (f_equal (fun l => l ++ uploaded xs) Es)|]. by rewrite <- app_assoc.
  - eapply does_bind with (P := fun w' => w' = w1); [by exists w1|]. intros w' ->.
    eapply does_bind; [exact Hr|]. intros w'' H''. apply does_ret. exact H''.
Qed.

(** ** What the accounting amounts to *)

(** The bytes given back to the client. *)
Definition returned (log : list submission) : Z :=
  foldr (fun x n => match x with Window_update _ delta => delta + n | _ => n end) 0 log.

Lemma returned_app l l' : returned (l ++ l') = returned l + returned l'.
Proof. unfold returned. induction l as [|x l IH]; cbn; [done|]. destruct x; rewrite ?IH; lia. Qed.

Lemma uploaded_snoc xs x : uploaded (xs ++ [x]) = uploaded xs ++ data_of x.
Proof. unfold uploaded. rewrite map_app, concat_app. cbn. by rewrite app_nil_r. Qed.

Lemma account_log initial x win log a new :
  account initial (win, []) x = (a, new) -> account initial (win, log) x = (a, log ++ new).
Proof.
  destruct x; cbn [account app]; [intros [= <- <-]; done|].
  destruct (_ <=? _); intros [= <- <-]; [done|]. by rewrite app_nil_r.
Qed.

Lemma accounts_log initial xs win log a new :
  fold_left (account initial) xs (win, []) = (a, new) ->
  fold_left (account initial) xs (win, log) = (a, log ++ new).
Proof.
  revert a new. induction xs as [|x xs IH] using rev_ind; intros a new.
  { cbn. intros [= <- <-]. by rewrite app_nil_r. }
  rewrite !fold_left_app. cbn [fold_left]. destruct (fold_left _ xs (win, [])) as [a1 n1] eqn:E.
  rewrite (IH a1 n1 eq_refl). destruct (account initial (a1, []) x) as [a2 n2] eqn:E2.
  rewrite !(account_log _ _ _ _ _ _ E2). intros [= <- <-]. by rewrite app_assoc.
Qed.

(** The client has sent no more than its window and what it got back. *)
Definition within (initial : Z) (xs : list upload) : Prop :=
  forall p data q, xs = p ++ Chunk data :: q ->
  zlen (uploaded (p ++ [Chunk data])) - returned (fold_left (account initial) p (0, [])).2 <= initial.

Lemma within_snoc initial xs x :
  within initial (xs ++ [x]) <->
  within initial xs /\
  match x with
  | Chunk data => zlen (uploaded xs ++ data) - returned (fold_left (account initial) xs (0, [])).2 <= initial
  | Taken => True
  end.
Proof.
  split.
  - intros H. split.
    + intros p data q ->. apply (H p data (q ++ [x])). by rewrite <- app_assoc.
    + destruct x as [data|]; [|done]. pose proof (H xs data [] eq_refl) as H'. by rewrite uploaded_snoc in H'.
  - intros [H Hx] p data q E. destruct q as [|y q _] using rev_ind.
    + apply app_inj_tail in E as [-> ->]. rewrite uploaded_snoc. exact Hx.
    + rewrite app_comm_cons, app_assoc in E. apply app_inj_tail in E as [-> _]. by apply (H p data q).
Qed.

Definition updates_at_most (initial : Z) : submission -> Prop := fun x =>
  match x with Window_update i delta => i = id /\ 0 <= delta <= initial | _ => False end.

Record accounted (initial : Z) (xs : list upload) (win : Z) (log : list submission) : Prop := {
  acc_conserved : win + returned log = zlen (uploaded xs);
  acc_positive : 0 <= win;
  acc_within : within initial xs -> win <= initial /\ Forall (updates_at_most initial) log;
  acc_reset : ~ within initial xs -> Rst_stream id SPDYLAY_FLOW_CONTROL_ERROR ∈ log;
  acc_taken : last xs = Some Taken -> 2 * win <= initial
}.

Lemma fold_accounted initial xs win log :
  0 <= initial -> fold_left (account initial) xs (0, []) = (win, log) -> accounted initial xs win log.
Proof.
  intros Hi. revert win log. induction xs as [|x xs IH] using rev_ind; intros win log.
  { cbn. intros [= <- <-]. split; [done|lia|by constructor| |done].
    intros H. exfalso. apply H. intros p data q E. by destruct p. }
  rewrite fold_left_app. cbn [fold_left]. destruct (fold_left _ xs (0, [])) as [a n] eqn:E.
  destruct (IH a n eq_refl) as [Hc Hp Hw Hr Ht].
  assert (Hs := within_snoc initial xs x). rewrite E in Hs. cbn [snd] in Hs.
  destruct x as [data|]; cbn [account].
  - rewrite zlen_app in Hs. pose proof (zlen_nonneg data).
    intros [= <- <-]. split; rewrite ?uploaded_snoc, ?returned_app, ?zlen_app; cbn [data_of].
    + destruct (_ <? _); cbn; lia.
    + lia.
    + intros Hx. apply Hs in Hx as [Hx Hle]. destruct (Hw Hx) as [_ Hn].
      destruct (Z.ltb_spec initial (a + zlen data)); [lia|]. split; [lia|]. by rewrite app_nil_r.
    + intros Hx. destruct (Z.ltb_spec initial (a + zlen data)); [set_solver|].
      apply elem_of_app. left. apply Hr. intros Hx'. apply Hx, Hs. split; [done|]. lia.
    + by rewrite last_snoc.
  - destruct (Z.leb_spec (initial / 2) a); intros [= <- <-];
      split; rewrite ?uploaded_snoc, ?returned_app, ?zlen_app; cbn [data_of returned foldr]; change (zlen []) with 0; try lia.
    + intros Hx. apply Hs in Hx as [Hx _]. destruct (Hw Hx) as [Ha Hn]. split; [lia|].
      apply Forall_app. split; [done|]. constructor; [|done]. split; [done|lia].
    + intros Hx. apply elem_of_app. left. apply Hr. intros Hx'. by apply Hx, Hs.
    + intros Hx. by apply Hw, Hs.
    + intros Hx. apply Hr. intros Hx'. by apply Hx, Hs.
    + intros _. pose proof (Z.mul_div_le initial 2). lia.
Qed.

(** * The body of a response *)












End Stream.

(** C12. The flow control of an upload.  The bytes of the client reach the backend
    unchanged and in order; the window in use and the bytes given back are together
    what was received; a client that keeps within its window is never reset, gets
    back at most the window at a time, and no more than half of the window is in
    use when the backend has taken the data; one that exceeds it is reset. *)
Theorem flow_control `{lib : SpdyLib} (id d c : Z) xs o b u w :
  stream id d c o b u w -> flow_control_ u = true -> recv_window_size_ o = 0 -> 0 <= initial_window_size_ u ->
  exists sent out win log,
    (sent ++ out = bev_output b ++ uploaded xs) /\
    does (steps (upload_step id c) xs) w sent
      (stream id d c (o <| recv_window_size_ := win |>) (b <| bev_output := out |>)
         (u <| submitted := submitted u ++ log |>)) /\
    accounted id (initial_window_size_ u) xs win log.
Proof.
  intros H Hf H0 Hi.
  destruct (fold_left (account id (initial_window_size_ u)) xs (0, [])) as [win log] eqn:E.
  pose proof (accounts_log id _ xs 0 (submitted u) win log E) as E'. rewrite <- H0 in E'.
  destruct (upload_runs id d c xs o b u w _ _ H Hf E') as (sent & out & Es & Hd).
  exists sent, out, win, log. split; [done|]. split; [done|]. by apply fold_accounted.
Qed.


(** * A stream *)

(** A library whose protocol version 3 is called spdy/3. *)
Definition demo_lib : SpdyLib := {|
  SPDYLAY_ERR_FATAL := -500;
  fatal_negative := ltac:(lia);
  SPDYLAY_PROTO_SPDY3 := 3;
  npn_get_version := fun proto => if bool_decide (proto = str "spdy/3") then 3 else 0
|}.

(** A client after its handshake, with a window of sixteen bytes. *)
Definition demo_config : Config := (Config_new no_time) <| spdy_upstream_window_bits := 4 |>.
Definition demo_client (connects : list Z) : world :=
  mk_world demo_config [] connects ∅ ∅ 1
    (Some (mk_handler (mk_bev [] [] true 0 Cb_client no_time no_time) None (str "10.0.0.1") false ∅)).

Definition demo_fields : list (list Z * list Z) :=
  [(str ":method", str "POST"); (str ":path", str "/a"); (str ":host", str "h");
   (str ":version", str "HTTP/1.1"); (str "accept", str "*")].

(** It opens stream 1. *)
Definition open_stream (connects : list Z) : failure + unit * world :=
  (new_spdy (lib := demo_lib) 3 (mk_session_io [] 0 true);;
   on_syn_stream (lib := demo_lib) 1 0 demo_fields false) (demo_client connects).

Definition demo_world : world := match open_stream [] with inr (_, w) => w | inl _ => demo_client [] end.
Definition demo_down : Downstream := default (Downstream_new 0 0) (downs demo_world !! 1).
Definition demo_bev : bufferevent := default bev_new (dconns demo_world !! 2 ≫= bev_).
Definition demo_up : SpdyUpstream := default (mk_spdy [] ∅ false 0 ∅) (client demo_world ≫= upstream_).

Lemma demo_stream : stream 1 1 2 demo_down demo_bev demo_up demo_world.
Proof.
  split; try (vm_compute; reflexivity).
  - eexists. split; vm_compute; reflexivity.
  - eexists. split_and!; vm_compute; reflexivity.
Qed.

Lemma flow_control_witness :
  exists sent out win log,
    (sent ++ out = bev_output demo_bev ++ str "abcdefghij") /\
    accounted 1 16 [Chunk (str "abcdef"); Chunk (str "ghi"); Taken; Chunk (str "j")] win log /\ win = 1 /\
    exists w, steps (upload_step (lib := demo_lib) 1 2)
      [Chunk (str "abcdef"); Chunk (str "ghi"); Taken; Chunk (str "j")] demo_world = inr (sent, w).
Proof.
  destruct (flow_control (lib := demo_lib) 1 1 2
    [Chunk (str "abcdef"); Chunk (str "ghi"); Taken; Chunk (str "j")] demo_down demo_bev demo_up demo_world
    demo_stream) as (sent & out & win & log & Es & (w' & Ew & Hw) & Ha).
  1-3: vm_compute; reflexivity || by intros.
  exists sent, out, win, log. split; [exact Es|]. split; [exact Ha|]. split; [|by exists w'].
  vm_compute in Ew. injection Ew as <- <-. apply st_down in Hw. vm_compute in Hw. by injection Hw.
Defined.


(** When the connection to the backend cannot be started the stream is reset, and
    the connection object that was made for it belongs to nothing any more: it is
    left when the stream is closed and the client is gone. *)
Theorem spdy_connection_lost :
  match open_stream [-1] with
  | inr (_, w) =>
      (submitted <$> (client w ≫= upstream_)) = Some [Settings 0 16; Rst_stream 1 SPDYLAY_INTERNAL_ERROR] /\
      match (on_stream_close_callback 1;; delete_handler) w with
      | inr (_, w) => client w = None /\ downs w = ∅ /\ size (dconns w) = 1%nat
      | inl _ => False
      end
  | inl _ => False
  end.
Proof. vm_compute. done. Qed.

End SpdyProps.
