(* ===== verification/ShrpxSpdyHeap.v ===== *)
(** The objects of a client that speaks SPDY.

    [sinv] is the shape of the heap between the operations: that of ShrpxObjects.v
    with a Downstream for each stream of the queue and no other, the data
    providers of the library among them.  A lemma per operation of ShrpxSpdy.v
    says that it is kept; one failure is tolerated, the macro DIE. *)
From stdpp Require Import gmap.
From S2P Require Import Prelude Records ShrpxConfig.
From S2P Require Import HttpTypes HttpExec ShrpxWorld ShrpxDownstream ShrpxObjects ShrpxResponse ShrpxSpdy ShrpxSpdyProps.

Module SpdyHeap.
Import Config World Down Objects Response Spdy.

#[export] Instance spdy_tolerates : Tolerates SpdyUpstream := fun e => e = Died.

(** * The invariant *)

Record stream_ok (o : Downstream) : Prop := {
  so_response : response_ok o;
  so_body : is_Some (response_body_buf_ o);
  so_open : request_state_ o <> STREAM_CLOSED
}.

Section Heap.
Context `{lib : SpdyLib} (lossy : bool).

(** A connection is lost when it could not be made; it has no bufferevent then. *)
Definition unconnected (cb : option bev_callbacks) : Prop := lossy = true /\ cb = None.

Record sinv (held : option Z) (u : SpdyUpstream) (w : world) : Prop := {
  s_heap : heap_ok unconnected held w;
  s_up : upstream_of w = Some u;
  s_queue : forall id d, downstream_queue_ u !! id = Some d ->
    exists o, downs w !! d = Some o /\ stream_id_ o = id;
  s_downs : forall d o, downs w !! d = Some o -> downstream_queue_ u !! stream_id_ o = Some d /\ stream_ok o;
  s_providers : forall id d, providers u !! id = Some d -> downstream_queue_ u !! id = Some d;
  s_connects : lossy = false -> Forall (fun r => r = 0) (connects w)
}.

Definition safe (held : option Z) (w : world) : Prop := exists u, sinv held u w.

Lemma safe_heap held w : safe held w -> heap_ok unconnected held w.
Proof. by intros (u & []). Qed.

Lemma safe_down held d o w : safe held w -> downs w !! d = Some o -> stream_ok o.
Proof. intros (u & Hu) Hd. by apply (s_downs _ _ _ Hu d). Qed.

(** The upstream with the same queue. *)
Lemma sinv_same held held' u u' w w' :
  sinv held u w -> heap_ok unconnected held' w' -> rest w w' -> upstream_of w' = Some u' ->
  downstream_queue_ u' = downstream_queue_ u ->
  (forall id d, providers u' !! id = Some d -> downstream_queue_ u !! id = Some d) ->
  downs w' = downs w -> sinv held' u' w'.
Proof.
  intros [_ _ Hq Hd _ Hc] Hh [_ Hr] Hu Eq Hp Ed. split; rewrite ?Eq, ?Ed; try done. intros Hl. by apply Hr, Hc.
Qed.

Lemma safe_kept held held' w w' :
  safe held w -> heap_ok unconnected held' w' -> kept w w' -> downs w' = downs w -> safe held' w'.
Proof.
  intros (u & Hu) Hh [Hr Hk] Ed. exists u. eapply sinv_same; try done; [|apply Hu].
  rewrite Hk. apply Hu.
Qed.

(** A Downstream with a new value. *)
Lemma safe_insert held held' d o o' w w' :
  safe held w -> heap_ok unconnected held' w' -> kept w w' -> downs w !! d = Some o ->
  downs w' = <[d := o']> (downs w) -> stream_id_ o' = stream_id_ o -> stream_ok o' -> safe held' w'.
Proof.
  intros (u & [_ Hu Hq Hds Hp Hc]) Hh [[_ Hr] Hk] Hd Ed Es Ho. exists u. split; [done|congruence| | |done|].
  - intros id d' Hd'. destruct (Hq id d' Hd') as (o1 & Ho1 & E1). rewrite Ed.
    destruct (decide (d' = d)) as [->|Hne]; [exists o'; rewrite lookup_insert_eq; split; [done|congruence]|].
    exists o1. by rewrite lookup_insert_ne.
  - intros d' o1. rewrite Ed. destruct (decide (d' = d)) as [->|Hne].
    + rewrite lookup_insert_eq. intros [= <-]. rewrite Es. split; [by apply Hds|done].
    + rewrite lookup_insert_ne by done. apply Hds.
  - intros Hl. by apply Hr, Hc.
Qed.

(** A Downstream that leaves the queue and is deleted. *)
Lemma safe_delete u d o w w' :
  sinv None u w -> downs w !! d = Some o -> providers u !! stream_id_ o = None ->
  heap_ok unconnected None w' -> rest w w' ->
  upstream_of w' = Some (u <| downstream_queue_ := delete (stream_id_ o) (downstream_queue_ u) |>) ->
  downs w' = delete d (downs w) -> safe None w'.
Proof.
  intros [_ Hu Hq Hds Hp Hc] Hd Hn Hh [_ Hr] Hu' Ed. eexists. split; [done|done|..]; cbn; rewrite ?Ed.
  - intros id d' [Hne Hd']%lookup_delete_Some. destruct (Hq id d' Hd') as (o1 & Ho1 & E1). exists o1.
    rewrite lookup_delete_ne; [done|]. intros ->. by simplify_eq.
  - intros d' o1 [Hne Ho1]%lookup_delete_Some. destruct (Hds d' o1 Ho1) as [Hq1 Hok]. split; [|done].
    rewrite lookup_delete_ne; [done|]. intros E. destruct (Hds d o Hd) as [Hq2 _]. rewrite E in Hq2. congruence.
  - intros id d' Hd'. rewrite lookup_delete_ne; [by apply Hp|]. intros <-. congruence.
  - intros Hl. by apply Hr, Hc.
Qed.

(** ** The upstream *)

Lemma sp_get_upstream held (Q : SpdyUpstream -> world -> Prop) w :
  safe held w -> (forall u, sinv held u w -> Q u w) -> wp get_upstream Q w.
Proof.
  intros (u & Hu) HQ. apply wp_bind. eapply heap_get_client; [apply Hu|]. intros h _ E.
  rewrite <- E, (s_up _ _ _ Hu). by apply wp_ret, HQ.
Qed.

Lemma sp_mod_upstream held f (Q : unit -> world -> Prop) w :
  safe held w ->
  (forall u, sinv held u w -> downstream_queue_ (f u) = downstream_queue_ u /\
     forall id d, providers (f u) !! id = Some d -> downstream_queue_ u !! id = Some d) ->
  (forall w', safe held w' -> downs w' = downs w -> Q tt w') -> wp (mod_upstream f) Q w.
Proof.
  intros Hw Hf HQ. apply wp_bind. eapply sp_get_upstream; [done|]. intros u Hu.
  eapply heap_set_upstream; [apply Hu|]. intros w' H1 H2 H3 H4. apply HQ; [|done].
  destruct (Hf u Hu). exists (f u). by eapply sinv_same.
Qed.

Lemma sp_next_result held (Q : Z -> world -> Prop) w :
  safe held w -> (forall rv w', safe held w' -> downs w' = downs w -> Q rv w') -> wp next_result Q w.
Proof.
  intros Hw HQ. eapply heap_next_result; [by apply safe_heap|]. intros rv w' H1 H2 H3 _.
  apply HQ; [by eapply safe_kept|done].
Qed.

Lemma sp_submit held x (Q : Z -> world -> Prop) w :
  safe held w -> (forall rv w', safe held w' -> downs w' = downs w -> Q rv w') -> wp (submit x) Q w.
Proof.
  intros Hw HQ. apply wp_bind. eapply sp_next_result; [done|]. intros rv w1 H1 E1. apply wp_bind.
  destruct (rv =? 0); [|by apply wp_ret, wp_ret, HQ].
  eapply sp_mod_upstream; [done| |].
  - intros u Hu. split; [done|]. apply Hu.
  - intros w2 H2 E2. apply wp_ret, HQ; [done|congruence].
Qed.

Lemma sp_submit_response held nv d o (Q : Z -> world -> Prop) w :
  safe held w -> downs w !! d = Some o -> (forall rv w', safe held w' -> downs w' = downs w -> Q rv w') ->
  wp (submit_response (stream_id_ o) nv d) Q w.
Proof.
  intros Hw Hd HQ. apply wp_bind. eapply sp_submit; [done|]. intros rv w1 H1 E1. apply wp_bind.
  destruct (rv =? 0); [|by apply wp_ret, wp_ret, HQ].
  eapply sp_mod_upstream; [done| |].
  - intros u Hu. split; [done|]. cbn. intros id d'. rewrite <- E1 in Hd.
    destruct (decide (id = stream_id_ o)) as [->|Hne].
    + rewrite lookup_insert_eq. intros [= <-]. by apply (s_downs _ _ _ Hu).
    + rewrite lookup_insert_ne by done. apply Hu.
  - intros w2 H2 E2. apply wp_ret, HQ; [done|congruence].
Qed.

Lemma sp_die_on_fatal rv (Q : unit -> world -> Prop) w : Q tt w -> wp (die_on_fatal rv) Q w.
Proof. intros HQ. unfold die_on_fatal. by destruct (negb _). Qed.

Lemma sp_rst_stream held d o code (Q : unit -> world -> Prop) w :
  safe held w -> downs w !! d = Some o -> (forall w', safe held w' -> downs w' = downs w -> Q tt w') ->
  wp (rst_stream d code) Q w.
Proof.
  intros Hw Hd HQ. apply wp_bind. eapply raw_get_down; [done|]. apply wp_bind. eapply sp_submit; [done|].
  intros rv w' H E. by apply sp_die_on_fatal, HQ.
Qed.

Lemma sp_resume_data held id (Q : unit -> world -> Prop) w :
  safe held w -> (forall w', safe held w' -> downs w' = downs w -> Q tt w') -> wp (resume_data id) Q w.
Proof. intros Hw HQ. apply wp_bind. eapply sp_submit; [done|]. intros rv w' H E. by apply wp_ret, HQ. Qed.

(** ** A Downstream *)

Lemma sp_mod_down held d o f (Q : unit -> world -> Prop) w :
  safe held w -> downs w !! d = Some o -> dconn_ (f o) = dconn_ o ->
  io_bev (ioctrl_ (f o)) = io_bev (ioctrl_ o) -> stream_id_ (f o) = stream_id_ o -> stream_ok (f o) ->
  (forall w', safe held w' -> downs w' = <[d := f o]> (downs w) -> Q tt w') -> wp (mod_down d f) Q w.
Proof.
  intros Hw Hd H1 H2 H3 H4 HQ. eapply heap_mod_down; [by apply safe_heap|done..|]. intros w' K1 K2 K3.
  apply HQ; [by eapply safe_insert|done].
Qed.

Lemma sp_window_update d o (Q : unit -> world -> Prop) w :
  safe None w -> downs w !! d = Some o -> (forall w', safe None w' -> Q tt w') -> wp (window_update d) Q w.
Proof.
  intros Hw Hd HQ. apply wp_bind. eapply raw_get_down; [done|]. apply wp_bind. eapply sp_submit; [done|].
  intros rv w1 H1 E1. rewrite <- E1 in Hd. destruct (safe_down _ _ _ _ H1 Hd) as [[] ? ?].
  apply wp_bind. eapply sp_mod_down; [done|done|done|done|done|by split; [split|..]|]. intros w2 H2 _.
  by apply sp_die_on_fatal, HQ.
Qed.

(** The reply to an error; the Downstream stays with its connection. *)
Lemma sp_error_reply d o status (Q : Z -> world -> Prop) w :
  safe None w -> downs w !! d = Some o ->
  (forall rv w' o', safe None w' -> downs w' !! d = Some o' -> dconn_ o' = dconn_ o -> Q rv w') ->
  wp (error_reply d status) Q w.
Proof.
  intros Hw Hd HQ. apply wp_bind, wp_get, wp_bind. destruct (safe_down _ _ _ _ Hw Hd) as [Hr [body Hb] Hs].
  eapply sp_mod_down; [done|done|by rewrite Hb..|rewrite Hb; by split|]. rewrite Hb, insert_id by done.
  generalize (cfg w) as cf. intros cf w1 H1 E1. rewrite <- E1 in Hd. clear w Hw E1.
  apply wp_bind. eapply raw_get_down; [done|]. rewrite Hb. apply wp_bind, wp_ret, wp_bind.
  eapply sp_next_result; [done|]. intros rv w2 H2 E2. rewrite <- E2 in Hd. clear w1 H1 E2.
  destruct (rv =? -1); [by eapply wp_ret, HQ|]. apply wp_bind.
  eapply sp_mod_down; [done|done|done|done|done|destruct Hr; by split; [split|..]|]. intros w3 H3 E3.
  match type of E3 with _ = <[_ := ?x]> _ => set (o' := x) in E3 end.
  assert (Hd3 : downs w3 !! d = Some o') by (by rewrite E3, lookup_insert_eq).
  assert (Ec : dconn_ o' = dconn_ o) by done. change (stream_id_ o) with (stream_id_ o'). clearbody o'.
  apply wp_bind. eapply sp_submit_response; [done|done|]. intros rv' w4 H4 E4. rewrite <- E4 in Hd3.
  by apply wp_bind, sp_die_on_fatal; eapply wp_ret, HQ.
Qed.

Lemma with_bits_ok o bits : stream_ok o -> stream_ok (with_bits o bits).
Proof. intros [[] ? ?]. by split; [split|..]. Qed.

Lemma sp_down_pause held d o reason (Q : unit -> world -> Prop) w :
  safe held w -> downs w !! d = Some o ->
  (forall w' bits, safe held w' -> downs w' = <[d := with_bits o bits]> (downs w) -> Q tt w') ->
  wp (down_pause_read d reason) Q w.
Proof.
  intros Hw Hd HQ. eapply heap_down_pause; [by apply safe_heap|done|]. intros w' H1 H2 H3.
  eapply HQ; [|done]. eapply safe_insert; [done..|]. eapply with_bits_ok, safe_down; done.
Qed.

Lemma sp_down_resume held d o reason (Q : bool -> world -> Prop) w :
  safe held w -> downs w !! d = Some o ->
  (forall b w' bits, safe held w' -> downs w' = <[d := with_bits o bits]> (downs w) -> Q b w') ->
  wp (down_resume_read d reason) Q w.
Proof.
  intros Hw Hd HQ. eapply heap_down_resume; [by apply safe_heap|done|]. intros b w' H1 H2 H3.
  eapply HQ; [|done]. eapply safe_insert; [done..|]. eapply with_bits_ok, safe_down; done.
Qed.

(** ** What the library reads and writes *)

Lemma sp_mod_client_bev f (Q : unit -> world -> Prop) w :
  safe None w -> (forall b, bev_cb (f b) = bev_cb b) -> (forall w', safe None w' -> Q tt w') ->
  wp (mod_bev Client_bev f) Q w.
Proof.
  intros Hw Hf HQ. eapply heap_mod_bev; [by apply safe_heap|done|done|]. intros w' H1 H2 H3.
  by eapply HQ, safe_kept.
Qed.

Lemma sp_send_callback data (Q : moved -> world -> Prop) w :
  safe None w -> (forall m w', safe None w' -> Q m w') -> wp (send_callback data) Q w.
Proof.
  intros Hw HQ. apply wp_bind, wp_bind. eapply heap_get_bev; [by apply safe_heap|done|]. intros b.
  apply wp_ret. destruct (_ <? _); [by apply wp_ret, HQ|]. apply wp_bind.
  eapply heap_output_add; [by apply safe_heap|done|]. intros rv w' H1 H2 H3 _.
  by eapply wp_ret, HQ, safe_kept.
Qed.

Lemma sp_recv_callback len (Q : moved * list Z -> world -> Prop) w :
  safe None w -> (forall m w', safe None w' -> Q m w') -> wp (recv_callback len) Q w.
Proof.
  intros Hw HQ. apply wp_bind. eapply heap_get_bev; [by apply safe_heap|done|]. intros b.
  apply wp_bind. eapply sp_mod_client_bev; [done|done|]. intros w' H. by apply wp_ret, HQ.
Qed.

Lemma sp_data_read_callback d o len (Q : moved * list Z * bool -> world -> Prop) w :
  safe None w -> downs w !! d = Some o -> (forall m w', safe None w' -> Q m w') ->
  wp (spdy_data_read_callback d len) Q w.
Proof.
  intros Hw Hd HQ. apply wp_bind. eapply raw_get_down; [done|].
  destruct (safe_down _ _ _ _ Hw Hd) as [Hr [body Hb] Hs]. rewrite Hb. apply wp_bind.
  eapply sp_mod_down; [done|done|done|done|done|destruct Hr; by split; [split|..]|]. intros w1 H1 E1.
  apply wp_bind. destruct (0 <? _); cbn [when]; [|by apply wp_ret, wp_ret, HQ].
  unfold body_buf_cb. destruct (_ =? 0); [|by apply wp_ret, wp_ret, HQ].
  apply wp_bind. eapply sp_down_resume; [done|by rewrite E1, lookup_insert_eq|].
  intros b w2 bits H2 _. by apply wp_ret, wp_ret, HQ.
Qed.

(** ** The end of a stream *)

Lemma sp_queue_find (Q : option Z -> world -> Prop) id w :
  safe None w -> (forall u, sinv None u w -> Q (downstream_queue_ u !! id) w) -> wp (queue_find id) Q w.
Proof. intros Hw HQ. apply wp_bind. eapply sp_get_upstream; [done|]. intros u Hu. by apply wp_ret, HQ. Qed.

Lemma heap_remove_and_delete u d o (Q : unit -> world -> Prop) w :
  heap_ok unconnected None w -> upstream_of w = Some u -> downs w !! d = Some o ->
  (forall w', heap_ok unconnected None w' -> rest w w' ->
     upstream_of w' = Some (u <| downstream_queue_ := delete (stream_id_ o) (downstream_queue_ u) |>) ->
     downs w' = delete d (downs w) -> Q tt w') -> wp (remove_and_delete d) Q w.
Proof.
  intros Hh Hu Hd HQ. apply wp_bind, wp_bind. eapply raw_get_down; [done|]. apply wp_bind, wp_bind.
  eapply heap_get_client; [done|]. intros h _ E. rewrite <- E, Hu. apply wp_ret.
  eapply heap_set_upstream; [done|]. intros w1 H1 R1 U1 E1. rewrite <- E1 in Hd.
  eapply heap_delete_down; [done..|]. intros w2 H2 [R2 U2] E2. apply HQ; [done| |congruence|congruence].
  destruct R1 as [R1 R1'], R2 as [R2 R2']. by split; auto.
Qed.

Lemma sp_close u d o o1 w w1 :
  sinv None u w -> downs w !! d = Some o -> providers u !! stream_id_ o = None ->
  heap_ok unconnected None w1 -> kept w w1 -> downs w1 = <[d := o1]> (downs w) -> stream_id_ o1 = stream_id_ o ->
  wp (remove_and_delete d) (fun _ => safe None) w1.
Proof.
  intros Hw Hd Hp H1 [R1 U1] E1 Es. eapply (heap_remove_and_delete u _ o1); [done| |by rewrite E1, lookup_insert_eq|].
  - rewrite U1. apply Hw.
  - intros w2 H2 R2 U2 E2. rewrite Es in U2. eapply safe_delete; [done..| |done|].
    + destruct R1 as [R1 R1'], R2 as [R2 R2']. by split; auto.
    + by rewrite E2, E1, delete_insert_eq.
Qed.

Lemma sp_on_stream_close u id w :
  sinv None u w -> providers u !! id = None -> wp (on_stream_close_callback id) (fun _ => safe None) w.
Proof.
  intros Hu Hp. apply wp_bind. eapply sp_queue_find; [by exists u|]. intros u' Hu'.
  assert (u' = u) as -> by (pose proof (s_up _ _ _ Hu); pose proof (s_up _ _ _ Hu'); congruence). clear Hu'.
  destruct (downstream_queue_ u !! id) as [d|] eqn:Eq; [|by apply wp_ret; exists u].
  destruct (s_queue _ _ _ Hu id d Eq) as (o & Hd & Es). rewrite <- Es in Hp. clear Eq id Es.
  apply wp_bind. eapply raw_get_down; [done|].
  destruct (bool_decide (request_state_ o = CONNECT_FAIL)).
  { eapply (sp_close u d o o w w); try done; [apply Hu|by rewrite insert_id]. }
  apply wp_bind. eapply heap_mod_down; [apply Hu|done|done|done|]. intros w1 H1 K1 E1.
  match type of E1 with _ = <[_ := ?x]> _ => set (o1 := x) in E1 end.
  assert (Hd1 : downs w1 !! d = Some o1) by (by rewrite E1, lookup_insert_eq).
  destruct (bool_decide (response_state_ o = MSG_COMPLETE)); [|by eapply (sp_close u d o o1)].
  apply wp_bind. destruct (_ && _); [|by apply wp_ret; eapply (sp_close u d o o1)].
  destruct (dconn_ o) as [c|] eqn:Ec; [|by apply wp_ret; eapply (sp_close u d o o1)].
  eapply heap_detach_downstream; [done|done|done|]. intros w2 H2 K2 E2.
  eapply (sp_close u d o (unattached o1)); try done; [by eapply heap_kept_trans|].
  by rewrite E2, E1, insert_insert_eq.
Qed.

(** ** A new stream *)

Lemma safe_new u d o w w' :
  sinv None u w -> downstream_queue_ u !! stream_id_ o = None -> downs w !! d = None ->
  heap_ok unconnected None w' -> rest w w' ->
  upstream_of w' = Some (u <| downstream_queue_ := <[stream_id_ o := d]> (downstream_queue_ u) |>) ->
  downs w' = <[d := o]> (downs w) -> stream_ok o -> safe None w'.
Proof.
  intros [_ Hu Hq Hds Hp Hc] Hn Hd Hh [_ Hr] Hu' Ed Ho. eexists. split; [done|done|..]; cbn; rewrite ?Ed.
  - intros id d'. destruct (decide (id = stream_id_ o)) as [->|Hne].
    + rewrite lookup_insert_eq. intros [= <-]. exists o. by rewrite lookup_insert_eq.
    + rewrite lookup_insert_ne by done. intros Hd'. destruct (Hq id d' Hd') as (o1 & Ho1 & E1). exists o1.
      rewrite lookup_insert_ne; [done|]. intros ->. congruence.
  - intros d' o1. destruct (decide (d' = d)) as [->|Hne].
    + rewrite lookup_insert_eq. intros [= <-]. by rewrite lookup_insert_eq.
    + rewrite lookup_insert_ne by done. intros Ho1. destruct (Hds d' o1 Ho1) as [Hq1 ?]. split; [|done].
      rewrite lookup_insert_ne; [done|]. intros E. rewrite E in Hn. congruence.
  - intros id d' Hd'. specialize (Hp id d' Hd'). rewrite lookup_insert_ne; [done|]. intros <-. congruence.
  - intros Hl. by apply Hr, Hc.
Qed.

(** The fields change the request only. *)
Lemma syn_fields_request nv s o :
  exists m hs k, (foldl syn_field (s, o) nv).2 =
    o <| request_method_ := m |> <| request_headers_ := hs |> <| request_header_key_prev_ := k |>.
Proof.
  revert s o. induction nv as [|[name value] nv IH]; intros s o; cbn [foldl].
  - exists (request_method_ o), (request_headers_ o), (request_header_key_prev_ o). by destruct o.
  - assert (Hf : exists m hs k, (syn_field (s, o) (name, value)).2 =
      o <| request_method_ := m |> <| request_headers_ := hs |> <| request_header_key_prev_ := k |>).
    { set (o1 := (syn_field (s, o) (name, value)).2).
      exists (request_method_ o1), (request_headers_ o1), (request_header_key_prev_ o1). subst o1.
      destruct o. unfold syn_field. repeat case_match; reflexivity. }
    destruct (syn_field (s, o) (name, value)) as [s1 o1]. cbn [snd] in Hf. destruct Hf as (m & hs & k & ->).
    destruct (IH s1 (o <| request_method_ := m |> <| request_headers_ := hs |> <| request_header_key_prev_ := k |>))
      as (m' & hs' & k' & ->). by exists m', hs', k'.
Qed.

(** new Downstream, add_downstream and init_response_body_buf. *)
Lemma sp_new_stream u id pri (Q : Z -> world -> Prop) w :
  sinv None u w -> downstream_queue_ u !! id = None ->
  (forall d o w', safe None w' -> downs w' !! d = Some o -> dconn_ o = None -> Q d w') ->
  wp (d ← new_down id pri; queue_add d;; init_response_body_buf d;; mret d) Q w.
Proof.
  intros Hw Hq HQ. apply wp_bind. unfold wp at 1, new_down. set (d := fresh w).
  destruct (s_heap _ _ _ Hw) as (h & Hh & Hb & Hc).
  assert (Hd : downs w !! d = None).
  { destruct (downs w !! d) as [o|] eqn:E; [|done]. destruct (co_downs _ _ _ _ _ _ Hc d o E) as [? _]. lia. }
  match goal with |- wp _ _ ?x => set (w1 := x) end.
  assert (H1 : heap_ok unconnected None w1) by (exists h; do 2 (split; [done|]); by apply conns_new_down).
  assert (Hd1 : downs w1 !! d = Some (Downstream_new id pri)) by apply lookup_insert_eq.
  assert (E1 : downs w1 = <[d := Downstream_new id pri]> (downs w)) by done.
  assert (R1 : rest w w1) by (by split). assert (U1 : upstream_of w1 = Some u) by (by rewrite <- (s_up _ _ _ Hw)).
  clearbody w1 d. apply wp_bind, wp_bind. eapply raw_get_down; [done|]. cbn [stream_id_ Downstream_new].
  apply wp_bind, wp_bind. eapply heap_get_client; [done|]. intros h1 _ E. rewrite <- E, U1. apply wp_ret.
  eapply heap_set_upstream; [done|]. intros w2 H2 R2 U2 E2. rewrite <- E2 in Hd1.
  apply wp_bind. eapply heap_mod_down; [done|done|done|done|]. intros w3 H3 [R3 U3] E3. apply wp_ret.
  eapply HQ; [|by rewrite E3, lookup_insert_eq|done].
  eapply (safe_new u d ((Downstream_new id pri) <| response_body_buf_ := Some [] |>));
    [done|exact Hq|done|done| |by rewrite U3| |].
  - destruct R1, R2, R3. split; auto.
  - by rewrite E3, E2, E1, insert_insert_eq.
  - by split; [by split|eexists|].
Qed.

(** A connection that could not be attached is lost. *)
Lemma sp_attach c d o (Q : Z -> world -> Prop) w :
  safe (Some c) w -> downs w !! d = Some o -> dconn_ o = None ->
  (forall w', safe None w' -> downs w' = <[d := attached c o]> (downs w) -> Q 0 w') ->
  (forall rv w', rv <> 0 -> safe None w' -> downs w' = downs w -> Q rv w') -> wp (attach_downstream c d) Q w.
Proof.
  intros Hw Hd Ho H0 H1. eapply heap_attach_downstream; [by apply safe_heap|done|done|..].
  - intros w' K1 K2 K3. apply H0; [|done]. eapply safe_insert; [done..|].
    destruct (safe_down _ _ _ _ Hw Hd) as [[] ? ?]. by split; [split|..].
  - intros rv w' Hrv Hc Hcb K1 K2 K3. apply H1; [done| |done]. eapply safe_kept; [done| |done|done].
    assert (Hl : lossy = true -> heap_ok unconnected None w') by (intros Hl; eapply heap_leak; [|done]; intros x Hx; split; auto).
    destruct lossy eqn:El; [by apply Hl|]. exfalso. destruct Hw as (u & Hu).
    destruct (Hc (fun r => r = 0)) as (n & Hn & ->); [done| |done]. by apply (s_connects _ _ _ Hu).
Qed.

(** The request is sent to a backend. *)
Lemma sp_forward d o fin w :
  safe None w -> downs w !! d = Some o -> dconn_ o = None ->
  wp (c ← get_downstream_connection;
      rv ← attach_downstream c d;
      if negb (rv =? 0) then
        rst_stream d SPDYLAY_INTERNAL_ERROR;;
        mod_down d (fun o => o <| request_state_ := CONNECT_FAIL |>)
      else
        rv ← push_request_headers d;
        if negb (rv =? 0) then rst_stream d SPDYLAY_INTERNAL_ERROR
        else
          mod_down d (fun o => o <| request_state_ := HEADER_COMPLETE |>);;
          when fin (mod_down d (fun o => o <| request_state_ := MSG_COMPLETE |>)))
    (fun _ => safe None) w.
Proof.
  intros Hw Hd Ho.
  assert (Hmod : forall s o w, safe None w -> downs w !! d = Some o -> s <> STREAM_CLOSED ->
    wp (mod_down d (fun o => o <| request_state_ := s |>)) (fun _ w' => safe None w' /\
      exists o', downs w' !! d = Some o') w).
  { clear. intros s o w Hw Hd Hs. destruct (safe_down _ _ _ _ Hw Hd) as [[] ? ?].
    eapply sp_mod_down; [done|done|done|done|done|by split; [split|..]|]. intros w' H' E'.
    split; [done|]. eexists. by rewrite E', lookup_insert_eq. }
  apply wp_bind. eapply heap_get_downstream_connection; [by apply safe_heap|]. intros c w1 H1 K1 E1.
  assert (S1 : safe (Some c) w1) by (by eapply safe_kept). rewrite <- E1 in Hd.
  apply wp_bind. eapply sp_attach; [done|done|done|..].
  - intros w2 S2 E2. cbn [negb Z.eqb]. apply wp_bind.
    assert (Hd2 : downs w2 !! d = Some (attached c o)) by (by rewrite E2, lookup_insert_eq).
    eapply heap_push_request_headers; [by apply safe_heap|done|done|]. intros rv w3 H3 K3 E3.
    assert (S3 : safe None w3) by (by eapply safe_kept). rewrite <- E3 in Hd2.
    destruct (negb _); [by eapply sp_rst_stream|]. apply wp_bind.
    eapply wp_mono; [by eapply (Hmod HEADER_COMPLETE)|]. intros [] w4 (S4 & o4 & Hd4).
    destruct fin; cbn [when]; [|by apply wp_ret].
    eapply wp_mono; [by eapply (Hmod MSG_COMPLETE)|]. by intros [] w5 [? _].
  - intros rv w2 Hrv S2 E2. destruct (Z.eqb_spec rv 0) as [|_]; [done|]. cbn [negb]. rewrite <- E2 in Hd.
    apply wp_bind. eapply sp_rst_stream; [done|done|]. intros w3 S3 E3. rewrite <- E3 in Hd.
    eapply wp_mono; [by eapply (Hmod CONNECT_FAIL)|]. by intros [] w5 [? _].
Qed.

Lemma sp_on_syn_stream u id pri nv fin w :
  sinv None u w -> downstream_queue_ u !! id = None ->
  wp (on_syn_stream id pri nv fin) (fun _ => safe None) w.
Proof.
  intros Hw Hq. apply wp_bind, wp_get. generalize (cfg w) as cf. intros cf.
  pose proof (sp_new_stream u id pri (fun d w' => safe None w' /\ exists o, downs w' !! d = Some o /\ dconn_ o = None)
    w Hw Hq) as Hnew.
  assert (Hk : forall (k : Z -> M unit) w,
    wp (d ← new_down id pri; queue_add d;; init_response_body_buf d;; mret d)
      (fun d w' => wp (k d) (fun _ => safe None) w') w ->
    wp (d ← new_down id pri; queue_add d;; init_response_body_buf d;; k d) (fun _ => safe None) w).
  { clear. intros k w. unfold wp, mbind, M_bind, mret, M_ret.
    destruct (new_down id pri w) as [e|[d w1]]; [done|].
    destruct (queue_add d w1) as [e|[[] w2]]; [done|]. by destruct (init_response_body_buf d w2) as [e|[[] w3]]. }
  apply Hk. eapply wp_mono; [apply Hnew; eauto 10|]. clear w Hw Hq Hnew Hk. intros d w (Hw & o & Hd & Ho).
  apply wp_bind. eapply raw_get_down; [done|].
  destruct (syn_fields_request nv (mk_syn None None None None) o) as (m & hs & k & E).
  destruct (foldl syn_field _ nv) as [s o1]. cbn [snd] in E.
  assert (Ho1 : stream_ok o1 /\ dconn_ o1 = dconn_ o /\ ioctrl_ o1 = ioctrl_ o /\ stream_id_ o1 = stream_id_ o).
  { subst o1. split; [|done]. destruct (safe_down _ _ _ _ Hw Hd) as [[] ? ?]. by split; [split|..]. }
  clear E m hs k. destruct Ho1 as (Hok & E1 & E2 & E3).
  apply wp_bind. eapply heap_set_down; [by apply safe_heap|done|done|by rewrite E2|]. intros w1 H1 K1 Ed1.
  assert (S1 : safe None w1) by (by eapply safe_insert).
  assert (Hd1 : downs w1 !! d = Some o1) by (by rewrite Ed1, lookup_insert_eq).
  destruct (syn_path s) as [path|], (syn_host s) as [host|], (syn_method s); try by eapply sp_rst_stream.
  apply wp_bind. eapply sp_mod_down; [done|done|by destruct (spdy_proxy cf)..| |].
  - destruct Hok as [[] ? ?]. destruct (spdy_proxy cf); by split; [split|..].
  - intros w2 S2 Ed2. eapply sp_forward; [done|by rewrite Ed2, lookup_insert_eq|].
    rewrite <- E1 in Ho. by destruct (spdy_proxy cf).
Qed.

(** ** Data and the rest *)

Lemma sp_on_data_chunk fin id data w :
  safe None w -> wp (on_data_chunk_recv_callback fin id data) (fun _ => safe None) w.
Proof.
  intros Hw. apply wp_bind. eapply sp_queue_find; [done|]. intros u Hu.
  destruct (downstream_queue_ u !! id) as [d|] eqn:Eq; [|by apply wp_ret].
  destruct (s_queue _ _ _ Hu id d Eq) as (o & Hd & _). clear u Hu Eq. apply wp_bind.
  eapply heap_push_upload_data_chunk; [by apply safe_heap|done|]. intros rv w1 H1 K1 E1.
  assert (S1 : safe None w1) by (by eapply safe_kept). rewrite <- E1 in Hd. clear w Hw H1 K1 E1.
  destruct (negb _); [by eapply sp_rst_stream|]. apply wp_bind. eapply sp_get_upstream; [done|]. intros u _.
  apply wp_bind.
  assert (Hwin : wp (when (flow_control_ u)
      (mod_down d (fun o => o <| recv_window_size_ := recv_window_size_ o + zlen data |>)))
    (fun _ w' => safe None w' /\ exists o', downs w' !! d = Some o') w1).
  { destruct (flow_control_ u); cbn [when]; [|apply wp_ret; eauto].
    destruct (safe_down _ _ _ _ S1 Hd) as [[] ? ?].
    eapply sp_mod_down; [done|done|done|done|done|by split; [split|..]|]. intros w' S' E'.
    split; [done|]. eexists. by rewrite E', lookup_insert_eq. }
  eapply wp_mono; [exact Hwin|]. intros [] w2 (S2 & o2 & Hd2). apply wp_bind. eapply raw_get_down; [done|].
  destruct (_ && _); [by eapply sp_rst_stream|]. destruct fin; cbn [when]; [|by apply wp_ret].
  destruct (safe_down _ _ _ _ S2 Hd2) as [[] ? ?].
  eapply sp_mod_down; [done|done|done|done|done|by split; [split|..]|]. done.
Qed.

Lemma sp_session_step x w : safe None w -> wp (session_step x) (fun _ => safe None) w.
Proof.
  intros Hw. destruct x as [id|id pri nv fin| |fin id data|syn id|data|len|id len]; cbn [session_step].
  - apply wp_bind, wp_bind. eapply sp_get_upstream; [done|]. intros u Hu.
    eapply heap_set_upstream; [apply Hu|]. intros w1 H1 R1 U1 E1.
    eapply (sp_on_stream_close (u <| providers := delete id (providers u) |>)); [|apply lookup_delete_eq].
    eapply sinv_same; try done. cbn. intros id' d [_ Hp]%lookup_delete_Some. by apply (s_providers _ _ _ Hu).
  - apply wp_bind. eapply sp_queue_find; [done|]. intros u Hu.
    destruct (downstream_queue_ u !! id) eqn:Eq; [by apply wp_ret|]. by eapply sp_on_syn_stream.
  - by apply wp_ret.
  - by apply sp_on_data_chunk.
  - destruct syn; [|by apply wp_ret]. apply wp_bind. eapply sp_queue_find; [done|]. intros u Hu.
    destruct (downstream_queue_ u !! id) as [d|] eqn:Eq; [|by apply wp_ret].
    destruct (s_queue _ _ _ Hu id d Eq) as (o & Hd & _). by eapply sp_rst_stream.
  - apply wp_bind. eapply sp_send_callback; [done|]. intros m w' H. by apply wp_ret.
  - apply wp_bind. eapply sp_recv_callback; [done|]. intros m w' H. by apply wp_ret.
  - apply wp_bind. eapply sp_get_upstream; [done|]. intros u Hu.
    destruct (providers u !! id) as [d|] eqn:Ep; [|by apply wp_ret].
    destruct (s_queue _ _ _ Hu id d (s_providers _ _ _ Hu _ _ Ep)) as (o & Hd & _).
    apply wp_bind. eapply sp_data_read_callback; [done|done|]. intros m w' H. by apply wp_ret.
Qed.

Lemma sp_session_run io (Q : Z -> world -> Prop) w :
  safe None w -> (forall rv w', safe None w' -> Q rv w') -> wp (session_run io) Q w.
Proof.
  intros Hw HQ. apply wp_bind. eapply wp_mono.
  - instantiate (1 := fun _ => safe None). revert w Hw. induction (io_calls io) as [|x xs IH]; intros w Hw; cbn [foldr].
    + by apply wp_ret.
    + apply wp_bind. eapply wp_mono; [by apply sp_session_step|]. intros [] w' H. by apply IH.
  - intros [] w' H. by apply wp_ret, HQ.
Qed.

Lemma sp_send io (Q : Z -> world -> Prop) w :
  safe None w -> (forall rv w', safe None w' -> Q rv w') -> wp (send io) Q w.
Proof. intros Hw HQ. apply wp_bind. eapply sp_session_run; [done|]. intros rv w' H. by apply wp_ret, HQ. Qed.

Lemma sp_on_read recv_io send_io (Q : Z -> world -> Prop) w :
  safe None w -> (forall rv w', safe None w' -> Q rv w') -> wp (on_read recv_io send_io) Q w.
Proof.
  intros Hw HQ. apply wp_bind. eapply sp_session_run; [done|]. intros rv w1 H1. apply wp_bind.
  destruct (rv <? 0); [by apply wp_ret, wp_ret, HQ|]. eapply sp_session_run; [done|]. intros rv' w2 H2.
  by apply wp_ret, HQ.
Qed.

(** * The response of a backend *)

Section Relay.
Context (d c : Z).

Definition relayed (o : Downstream) (w : world) : Prop :=
  safe None w /\ downs w !! d = Some o /\ dconn_ o = Some c.

Lemma relayed_same o w w' : relayed o w -> safe None w' -> downs w' = downs w -> relayed o w'.
Proof. intros (_ & Hd & Hc) Hw E. split; [done|]. by rewrite E. Qed.

Lemma spdy_header_wp o w :
  relayed o w -> wp (spdy_header_complete d) (fun _ w' => exists o', relayed o' w' /\ relays o o') w.
Proof.
  intros Hr. pose proof Hr as (Hw & Hd & Hc). apply wp_bind. eapply raw_get_down; [done|].
  destruct (SpdyProps.response_nv_ok o) as (nv & ->). apply wp_bind.
  eapply sp_submit_response; [done|done|]. intros rv w' Hw' E. apply wp_ret. exists o.
  split; [by eapply relayed_same|apply relays_refl].
Qed.

Lemma spdy_body_wp o data w :
  relayed o w -> wp (spdy_body d data) (fun _ w' => exists o', relayed o' w' /\ relays o o') w.
Proof.
  intros Hr. pose proof Hr as (Hw & Hd & Hc). apply wp_bind. eapply raw_get_down; [done|].
  destruct (safe_down _ _ _ _ Hw Hd) as [Hok [body Hb] Hs]. rewrite Hb. apply wp_bind, wp_ret, wp_bind.
  eapply sp_next_result; [done|]. intros rv w1 H1 E1. rewrite <- E1 in Hd. clear w Hw Hr E1.
  destruct (negb _); [by apply wp_ret; exists o|]. apply wp_bind.
  eapply sp_mod_down; [done|done|done|done|done|destruct Hok; by split; [split|..]|]. intros w2 H2 E2.
  match type of E2 with _ = <[_ := ?x]> _ => set (o2 := x) in E2 end.
  assert (Hd2 : downs w2 !! d = Some o2) by (by rewrite E2, lookup_insert_eq).
  assert (R2 : relays o o2) by (split; [split|..]; done).
  assert (C2 : dconn_ o2 = Some c) by done. clearbody o2. clear w1 H1 E2 Hd.
  apply wp_bind. eapply sp_resume_data; [done|]. intros w3 H3 E3. rewrite <- E3 in Hd2. clear w2 H2 E3.
  apply wp_bind. destruct (_ <? _); cbn [when].
  - eapply sp_down_pause; [done|done|]. intros w4 bits H4 E4. apply wp_ret. exists (with_bits o2 bits). split.
    + split; [done|]. by rewrite E4, lookup_insert_eq.
    + destruct R2 as [[] ? ? ?]. by split; [split|..].
  - apply wp_ret, wp_ret. by exists o2.
Qed.

Lemma spdy_body_complete_wp o (Q : Z -> world -> Prop) w :
  safe None w -> downs w !! d = Some o ->
  (forall rv w', safe None w' -> downs w' = downs w -> Q rv w') -> wp (spdy_body_complete d) Q w.
Proof.
  intros Hw Hd HQ. apply wp_bind. eapply raw_get_down; [done|]. apply wp_bind.
  eapply sp_resume_data; [done|]. intros w' H E. by apply wp_ret, HQ.
Qed.

#[local] Instance spdy_relay : Relay d c relayed.
Proof.
  split.
  - by intros o w (_ & ? & _).
  - intros o w (Hw & Hd & Hc). split; [done|].
    destruct (heap_dconn _ _ _ _ _ _ (safe_heap _ _ Hw) Hd Hc) as (x & b & ? & _ & ? & _). by exists x, b.
  - intros o o' w (Hw & Hd & Hc) [E1 E2 E3 E4 _ _ E5] Ho'.
    destruct (safe_down _ _ _ _ Hw Hd) as [_ Hb Hs]. split; [|split; [apply lookup_insert_eq|congruence]].
    eapply safe_insert; [done| |done|done|done|done|split; [done|by apply E5|by rewrite E4]].
    destruct (safe_heap _ _ Hw) as (h & Hh & Hcb & Hcs). exists h. do 2 (split; [done|]). by eapply conns_set_down.
  - intros o x b b' w (Hw & Hd & Hc) Hx Hb E. split; [|done]. eapply safe_kept; [done| |done|done].
    destruct (safe_heap _ _ Hw) as (h & Hh & Hcb & Hcs). exists h. do 2 (split; [done|]). by eapply conns_update.
  - intros o w Hr _. by apply spdy_header_wp.
  - intros o data w Hr _. by apply spdy_body_wp.
  - intros o w Hr _. pose proof Hr as (Hw & Hd & Hc). eapply spdy_body_complete_wp; [done|done|].
    intros rv w' H E. exists o. split; [by eapply relayed_same|apply relays_refl].
Qed.

Lemma spdy_parse_response o (Q : Z -> world -> Prop) w :
  relayed o w -> (forall rv w' o', relayed o' w' -> Q rv w') -> wp (parse_http_response d) Q w.
Proof.
  intros Hr HQ. eapply (parse_http_response_wp d c relayed o); [done| |].
  - destruct Hr as (Hw & Hd & _). by apply (safe_down _ _ _ _ Hw Hd).
  - intros rv w' o' Hr' _ _. by eapply HQ.
Qed.

End Relay.

(** * The end of the client *)

Lemma delete_streams (l : list (Z * Z)) (w : world) :
  NoDup l.*2 -> (forall d, d ∈ l.*2 -> is_Some (downs w !! d)) -> heap_ok unconnected None w ->
  wp (foldr (fun kv m => delete_down kv.2;; m) (mret tt) l)
    (fun _ w' => heap_ok unconnected None w' /\ upstream_of w' = upstream_of w /\
       forall d, downs w' !! d = if decide (d ∈ l.*2) then None else downs w !! d) w.
Proof.
  revert w. induction l as [|[id d] l IH]; intros w Hnd Hl Hh; cbn [foldr fmap list_fmap snd] in *.
  - apply wp_ret. do 2 (split; [done|]). intros d. by destruct (decide _) as [H%elem_of_nil|].
  - apply NoDup_cons in Hnd as [Hn Hnd]. destruct (Hl d) as [o Ho]; [left|]. apply wp_bind.
    eapply heap_delete_down; [done|done|]. intros w1 H1 [_ U1] E1. eapply wp_mono; [apply IH; [done| |done]|].
    + intros d' Hd'. rewrite E1, lookup_delete_ne; [apply Hl; by right|]. by intros ->.
    + intros [] w2 (H2 & U2 & Hall). split; [done|]. split; [congruence|]. intros d'. rewrite Hall, E1.
      destruct (decide (d' = d)) as [->|Hne].
      * rewrite lookup_delete_eq, decide_False by done. by rewrite decide_True by left.
      * rewrite lookup_delete_ne by done.
        destruct (decide (d' ∈ l.*2)), (decide (d' ∈ d :: l.*2)) as [Hi|Hi]; try done.
        -- destruct Hi. by right.
        -- by apply elem_of_cons in Hi as [|].
Qed.

Lemma sp_delete_handler (Q : unit -> world -> Prop) w :
  safe None w -> (forall w', gone unconnected w' -> Q tt w') -> wp delete_handler Q w.
Proof.
  intros Hw HQ. pose proof Hw as (u & Hu). eapply heap_delete_handler; [apply Hu|apply Hu| |done].
  apply wp_bind. eapply sp_get_upstream; [done|]. intros u' Hu'. clear u Hu.
  set (l := map_to_list (downstream_queue_ u')).
  assert (Hin : forall id d, (id, d) ∈ l -> exists o, downs w !! d = Some o /\ stream_id_ o = id).
  { intros id d H%elem_of_map_to_list. by apply (s_queue _ _ _ Hu'). }
  apply wp_bind. eapply wp_mono; [apply (delete_streams l)|].
  - apply NoDup_fmap_2_strong; [|apply NoDup_map_to_list]. intros [i1 d1] [i2 d2] H1 H2 E. cbn in E. subst d2.
    destruct (Hin _ _ H1) as (o1 & ? & <-), (Hin _ _ H2) as (o2 & ? & <-). by simplify_eq.
  - intros d ([id d'] & -> & H)%list_elem_of_fmap. destruct (Hin _ _ H) as (o & Ho & _). by exists o.
  - by apply safe_heap.
  - intros [] w1 (H1 & U1 & Hall). eapply heap_set_upstream; [done|]. intros w2 H2 _ _ E2. split; [done|].
    rewrite E2. apply map_empty. intros d. rewrite Hall. destruct (decide _) as [|Hn]; [done|].
    apply eq_None_not_Some. intros [o Ho]. destruct Hn. destruct (s_downs _ _ _ Hu' d o Ho) as [Hq _].
    apply list_elem_of_fmap. exists (stream_id_ o, d). split; [done|]. by apply elem_of_map_to_list.
Qed.

(** * The callbacks of libevent *)

Definition settled (w : world) : Prop := safe None w \/ gone unconnected w.

Lemma delete_handler_settled w : safe None w -> wp delete_handler (fun _ => settled) w.
Proof. intros Hw. eapply sp_delete_handler; [done|]. by right. Qed.

Lemma send_or_delete_wp io w : safe None w -> wp (send_or_delete io) (fun _ => settled) w.
Proof.
  intros Hw. apply wp_bind. eapply sp_send; [done|]. intros rv w' H.
  destruct (negb _); [by apply delete_handler_settled|by apply wp_ret; left].
Qed.

(** A Downstream without its connection. *)
Lemma unattached_stream_ok o : stream_ok o -> stream_ok (unattached o).
Proof. intros [[] ? ?]. by split; [split|..]. Qed.

Lemma drop_connection_wp d o c (Q : unit -> world -> Prop) w :
  safe None w -> downs w !! d = Some o -> dconn_ o = Some c ->
  (forall w' o', safe None w' -> downs w' !! d = Some o' -> Q tt w') -> wp (drop_connection d c) Q w.
Proof.
  intros Hw Hd Hc HQ. eapply heap_drop_connection; [by apply safe_heap|done|done|]. intros w' H1 H2 H3.
  eapply HQ; [|by rewrite H3, lookup_insert_eq]. eapply safe_insert; [done..|].
  by eapply unattached_stream_ok, unattached_stream_ok, safe_down.
Qed.

(** The response has ended. *)
Lemma complete_wp d o (Q : unit -> world -> Prop) w :
  safe None w -> downs w !! d = Some o ->
  (forall w' o', safe None w' -> downs w' !! d = Some o' -> dconn_ o' = dconn_ o -> Q tt w') ->
  wp (mod_down d (fun o => o <| response_state_ := MSG_COMPLETE |>)) Q w.
Proof.
  intros Hw Hd HQ. destruct (safe_down _ _ _ _ Hw Hd) as [[] ? ?].
  eapply sp_mod_down; [done|done|done|done|done|by split; [split|..]|]. intros w' H E.
  by eapply HQ; [done|by rewrite E, lookup_insert_eq|].
Qed.

Lemma backend_stream c w :
  safe None w -> backend c w ->
  exists d o x, downs w !! d = Some o /\ dconn_ o = Some c /\ dconns w !! c = Some x /\ downstream_ x = Some d /\
    bool_decide (request_state_ o = STREAM_CLOSED) = false.
Proof.
  intros Hw Hb. destruct (backend_down _ _ _ _ (safe_heap _ _ Hw) Hb) as (d & o & x & Hd & ? & ? & ?).
  exists d, o, x. do 4 (split; [done|]). apply bool_decide_eq_false, (safe_down _ _ _ _ Hw Hd).
Qed.

End Heap.
End SpdyHeap.
