(* ===== verification/ShrpxSpdyEvents.v ===== *)
(** A client that speaks SPDY, from the end of its handshake: the events of
    libevent in any order, each with what the SPDY library does in it, and the
    theorems on every such run. *)
From stdpp Require Import gmap.
From S2P Require Import Prelude Records ShrpxConfig HttpTypes HttpExec.
From S2P Require Import ShrpxWorld ShrpxDownstream ShrpxObjects ShrpxSpdy ShrpxEvents ShrpxSpdyProps ShrpxSpdyHeap.

Module SpdyEvents.
Import Config World Down Objects Spdy SpdyHeap.

(** * Events *)

(** The events of libevent for the client and for the connection [c] to a backend,
    with the calls of the session that they lead to. *)
Inductive event :=
  | Client_data (data : list Z) (recv_io send_io : session_io)
  | Client_written (n : Z) (io : session_io)
  | Client_event (events : Z)
  | Backend_data (c : Z) (data : list Z) (io : session_io)
  | Backend_written (c : Z) (n : Z)
  | Backend_event (c : Z) (events : Z) (io : session_io).

Section Events.
Context `{lib : SpdyLib}.

(** A client whose handshake ends: the constructor of ClientHandler, and the event
    that the negotiated protocol is SPDY. *)
Definition initial (c : Config) (ipaddr : list Z) (results connects : list Z) : world :=
  mk_world c results connects ∅ ∅ 1
    (Some (mk_handler (mk_bev [] [] true SHRPX_READ_WARTER_MARK Cb_handshake (upstream_read_timeout c)
                         (upstream_write_timeout c)) None ipaddr false ∅)).

Definition start (version : Z) (start_io recv_io send_io : session_io) : M unit :=
  upstream_eventcb version BEV_EVENT_CONNECTED start_io recv_io send_io.

Definition client_dispatch (h : ClientHandler SpdyUpstream) (e : event) : M unit :=
  let b := ch_bev h in
  match e with
  | Client_data data recv_io send_io =>
      if bev_read b then mod_bev Client_bev (Events.receive data);; upstream_readcb recv_io send_io else mret tt
  | Client_written n io =>
      mod_bev Client_bev (Events.send n);; if Events.drained n b then upstream_writecb io else mret tt
  | Client_event events =>
      if has_flag events BEV_EVENT_CONNECTED then mret tt
      else upstream_eventcb 0 events (mk_session_io [] 0 true) (mk_session_io [] 0 true) (mk_session_io [] 0 true)
  | _ => mret tt
  end.

Definition backend_dispatch (c : Z) (b : bufferevent) (e : event) : M unit :=
  match e with
  | Backend_data _ data io =>
      if bev_read b then
        mod_bev (Dconn_bev c) (Events.receive data);;
        match bev_cb b with Cb_backend => spdy_downstream_readcb c io | _ => mret tt end
      else mret tt
  | Backend_written _ n =>
      mod_bev (Dconn_bev c) (Events.send n);;
      match bev_cb b with
      | Cb_backend => if Events.drained n b then spdy_downstream_writecb c else mret tt
      | _ => mret tt
      end
  | Backend_event _ events io =>
      match bev_cb b with
      | Cb_backend => spdy_downstream_eventcb c events io
      | Cb_idle => idle_eventcb c events
      | _ => mret tt
      end
  | _ => mret tt
  end.

(** What an event calls: the bufferevent of the client is freed with the client, that of
    a connection with the connection. *)
Definition dispatch (e : event) : M unit := fun w =>
  match e with
  | Client_data _ _ _ | Client_written _ _ | Client_event _ =>
      match client w with
      | Some h => client_dispatch h e w
      | None => inr (tt, w)
      end
  | Backend_data c _ _ | Backend_written c _ | Backend_event c _ _ =>
      match dconns w !! c ≫= bev_ with
      | Some b => backend_dispatch c b e w
      | None => inr (tt, w)
      end
  end.

(** A run: events, each with what the calls of the libraries return. *)
Record occurrence := occurs { ev : event; ev_results : list Z; ev_connects : list Z }.

Fixpoint run (trace : list occurrence) (w : world) : failure + world :=
  match trace with
  | [] => inr w
  | x :: trace =>
      match dispatch (ev x) (w <| results := ev_results x |> <| connects := ev_connects x |>) with
      | inl e => inl e
      | inr (_, w) => run trace w
      end
  end.

(** The calls that make the session succeed, the assertions of the constructor rely on
    it: spdylay_session_server_new, with SPDY/3 spdylay_session_set_option, and
    spdylay_submit_settings. *)
Definition made (version : Z) : list Z := if version =? SPDYLAY_PROTO_SPDY3 then [0; 0; 0] else [0; 0].

(** The whole life of a client; [results] is what the calls after these return while the
    session is started. *)
Definition session (c : Config) (ipaddr results connects : list Z) (version : Z)
    (start_io recv_io send_io : session_io) (trace : list occurrence) : failure + world :=
  match start version start_io recv_io send_io (initial c ipaddr (made version ++ results) connects) with
  | inl e => inl e
  | inr (_, w) => run trace w
  end.

(** * Every event keeps the invariant *)

Section Run.
Context (lossy : bool).
Notation safe := (safe lossy None).
Notation settled := (settled lossy).

Lemma spdy_downstream_readcb_wp c io w :
  safe w -> backend c w -> wp (spdy_downstream_readcb c io) (fun _ => settled) w.
Proof.
  intros Hw Hb. destruct (backend_stream _ _ _ Hw Hb) as (d & o & x & Hd & Hc & Hx & Hxd & Hcl).
  apply wp_bind. eapply raw_get_dconn; [done|]. rewrite Hxd. apply wp_bind, wp_ret, wp_bind.
  eapply raw_get_down; [done|]. rewrite Hcl. clear Hcl. apply wp_bind.
  eapply (spdy_parse_response lossy d c o); [done|]. clear w Hw Hb Hd Hx. intros rv w o1 (Hw & Hd & Hc1).
  destruct (negb _); [|by apply send_or_delete_wp].
  apply wp_bind. eapply raw_get_down; [done|]. apply wp_bind.
  assert (Hrep : wp (if bool_decide (response_state_ o1 = HEADER_COMPLETE)
      then rst_stream d SPDYLAY_INTERNAL_ERROR;; mret 0 else error_reply d 502)
    (fun _ w' => safe w' /\ exists o2, downs w' !! d = Some o2 /\ dconn_ o2 = Some c) w).
  { destruct (bool_decide _).
    - apply wp_bind. eapply sp_rst_stream; [done|done|]. intros w' H E. apply wp_ret. split; [done|].
      exists o1. by rewrite E.
    - eapply sp_error_reply; [done|done|]. intros rv' w' o2 H Hd2 E. split; [done|]. exists o2. split; [done|congruence]. }
  eapply wp_mono; [exact Hrep|]. clear w Hw Hd Hrep. intros ok w (Hw & o2 & Hd & Hc2).
  destruct (negb _); [by apply delete_handler_settled|]. apply wp_bind.
  eapply complete_wp; [done|done|]. intros w1 o3 H1 Hd1 E. apply wp_bind.
  eapply drop_connection_wp; [done|done|congruence|]. intros w2 o4 H2 _. by apply send_or_delete_wp.
Qed.

Lemma spdy_downstream_writecb_wp c w :
  safe w -> backend c w -> wp (spdy_downstream_writecb c) (fun _ => settled) w.
Proof.
  intros Hw Hb. destruct (backend_stream _ _ _ Hw Hb) as (d & o & x & Hd & Hc & Hx & Hxd & _).
  apply wp_bind. eapply raw_get_dconn; [done|]. rewrite Hxd. apply wp_bind, wp_ret, wp_bind.
  eapply raw_get_down; [done|]. apply wp_bind. eapply sp_get_upstream; [done|]. intros u _.
  destruct (_ && _); cbn [when]; [|by apply wp_ret; left]. eapply sp_window_update; [done|done|]. by left.
Qed.

(** The stream is ended once the connection is gone. *)
Lemma reset_wp d o io w :
  safe w -> downs w !! d = Some o ->
  wp (rst_stream d SPDYLAY_INTERNAL_ERROR;; send_or_delete io) (fun _ => settled) w.
Proof.
  intros Hw Hd. apply wp_bind. eapply sp_rst_stream; [done|done|]. intros w' H _. by apply send_or_delete_wp.
Qed.

Lemma error_or_wp d o status io m w :
  safe w -> downs w !! d = Some o -> (forall w, safe w -> wp m (fun _ => settled) w) ->
  wp (rv ← error_reply d status;
      if negb (rv =? 0) then m
      else mod_down d (fun o => o <| response_state_ := MSG_COMPLETE |>);; send_or_delete io) (fun _ => settled) w.
Proof.
  intros Hw Hd Hm. apply wp_bind. eapply sp_error_reply; [done|done|]. intros rv w1 o1 H1 Hd1 _.
  destruct (negb _); [by apply Hm|]. apply wp_bind. eapply complete_wp; [done|done|]. intros w2 o2 H2 _ _.
  by apply send_or_delete_wp.
Qed.

Lemma spdy_downstream_eventcb_wp c events io w :
  safe w -> backend c w -> wp (spdy_downstream_eventcb c events io) (fun _ => settled) w.
Proof.
  intros Hw Hb. destruct (backend_stream _ _ _ Hw Hb) as (d & o & x & Hd & Hc & Hx & Hxd & Hcl).
  apply wp_bind. eapply raw_get_dconn; [done|]. rewrite Hxd. apply wp_bind, wp_ret, wp_bind.
  eapply raw_get_down; [done|]. rewrite Hcl.
  destruct (has_flag events BEV_EVENT_CONNECTED); [by apply wp_ret; left|].
  destruct (has_flag events BEV_EVENT_EOF);
    [|destruct (has_flag events (Z.lor BEV_EVENT_ERROR BEV_EVENT_TIMEOUT)); [|by apply wp_ret; left]];
    apply wp_bind; (eapply drop_connection_wp; [done|done|done|]); clear w Hw Hb Hd Hx; intros w o1 Hw Hd.
  - assert (He : wp (rv ← error_reply d 502; if negb (rv =? 0) then mret tt
      else mod_down d (fun o => o <| response_state_ := MSG_COMPLETE |>);; send_or_delete io) (fun _ => settled) w).
    { eapply error_or_wp; [done|done|]. intros w' H. by apply wp_ret; left. }
    destruct (response_state_ o); try done; [|by eapply reset_wp].
    apply wp_bind. eapply complete_wp; [done|done|]. intros w1 o2 H1 Hd1 _. apply wp_bind.
    destruct (tunnel_established o).
    + eapply sp_rst_stream; [done|done|]. intros w2 H2 _. by apply send_or_delete_wp.
    + apply wp_bind. eapply spdy_body_complete_wp; [done|done|]. intros rv w2 H2 _. apply wp_ret.
      by apply send_or_delete_wp.
  - assert (He : forall status, wp (rv ← error_reply d status; if negb (rv =? 0) then delete_handler
      else mod_down d (fun o => o <| response_state_ := MSG_COMPLETE |>);; send_or_delete io) (fun _ => settled) w).
    { intros status. eapply error_or_wp; [done|done|]. intros w' H. by apply delete_handler_settled. }
    destruct (response_state_ o); try apply He; [|by eapply reset_wp].
    apply wp_bind. eapply sp_rst_stream; [done|done|]. intros w1 H1 E1. rewrite <- E1 in Hd. apply wp_bind.
    eapply complete_wp; [done|done|]. intros w2 o2 H2 _ _. by apply send_or_delete_wp.
Qed.

Lemma client_dispatch_ok h e w : safe w -> wp (client_dispatch h e) (fun _ => settled) w.
Proof.
  intros Hw. assert (Hdel : forall (m : M Z), wp m (fun _ => safe) w ->
    wp (rv ← m; if negb (rv =? 0) then delete_handler else mret tt) (fun _ => settled) w).
  { intros m Hm. apply wp_bind. eapply wp_mono; [exact Hm|]. intros rv w' H.
    destruct (negb _); [by apply delete_handler_settled|by apply wp_ret; left]. }
  destruct e as [data ri si|n io|events| | |]; cbn [client_dispatch]; cbv zeta; try by apply wp_ret; left.
  - destruct (bev_read _); [|by apply wp_ret; left]. clear Hdel.
    apply wp_bind. eapply sp_mod_client_bev; [done|done|]. intros w1 H1. apply wp_bind.
    eapply sp_on_read; [done|]. intros rv w2 H2.
    destruct (negb _); [by apply delete_handler_settled|by apply wp_ret; left].
  - clear Hdel. apply wp_bind. eapply sp_mod_client_bev; [done|done|]. intros w1 H1.
    destruct (Events.drained _ _); [|by apply wp_ret; left]. apply wp_bind.
    eapply heap_get_client; [by eapply safe_heap|]. intros h1 _ _.
    destruct (should_close_after_write_ h1); [by apply delete_handler_settled|]. by apply send_or_delete_wp.
  - destruct (has_flag events BEV_EVENT_CONNECTED) eqn:E; [by apply wp_ret; left|].
    unfold upstream_eventcb. destruct (_ || _ || _); [by apply delete_handler_settled|]. rewrite E.
    by apply wp_ret; left.
Qed.

Lemma backend_dispatch_ok c b e w :
  safe w -> dconns w !! c ≫= bev_ = Some b -> wp (backend_dispatch c b e) (fun _ => settled) w.
Proof.
  intros Hw Hc. apply bind_Some in Hc as (x & Hx & Hxb).
  assert (Hcb : cb_of x = Some (bev_cb b)) by (unfold cb_of; by rewrite Hxb).
  assert (Hmod : forall f (m : M unit), (forall b, bev_cb (f b) = bev_cb b) ->
    (forall w' x', safe w' -> dconns w' !! c = Some x' -> cb_of x' = Some (bev_cb b) ->
      wp m (fun _ => settled) w') -> wp (mod_bev (Dconn_bev c) f;; m) (fun _ => settled) w).
  { intros f m Hf Hm. apply wp_bind. eapply raw_mod_dconn_bev; [done..|].
    eapply Hm; [|cbn; apply lookup_insert_eq|unfold cb_of; cbn; by rewrite Hf].
    eapply safe_kept; [done| |done|done].
    destruct (safe_heap _ _ _ Hw) as (h & Hh & Hb & Hcs). exists h. do 2 (split; [done|]). by eapply conns_update. }
  destruct e as [| | |c' data io|c' n|c' events io]; cbn [backend_dispatch]; try by apply wp_ret; left.
  - destruct (bev_read b); [|by apply wp_ret; left]. apply Hmod; [done|]. intros w' x' Hw' Hx' Hcb'.
    destruct (bev_cb b); try by apply wp_ret; left. eapply spdy_downstream_readcb_wp; [done|]. by exists x'.
  - apply Hmod; [done|]. intros w' x' Hw' Hx' Hcb'. destruct (bev_cb b); try by apply wp_ret; left.
    destruct (Events.drained n b); [|by apply wp_ret; left].
    eapply spdy_downstream_writecb_wp; [done|]. by exists x'.
  - destruct (bev_cb b); try by apply wp_ret; left.
    + eapply spdy_downstream_eventcb_wp; [done|]. by exists x.
    + eapply heap_idle_eventcb; [by eapply safe_heap|done|done|]. intros w' H1 H2 H3. left. by eapply safe_kept.
Qed.

Lemma dispatch_settled e rs cs w :
  (lossy = false -> Forall (fun r => r = 0) cs) -> settled w ->
  wp (dispatch e) (fun _ => settled) (w <| results := rs |> <| connects := cs |>).
Proof.
  intros Hcs Hw. set (w1 := w <| results := rs |> <| connects := cs |>).
  assert (Hw1 : settled w1).
  { destruct Hw as [(u & [? ? ? ? ? ?])|[? ? ?]]; [left; exists u|right]; by split. }
  clearbody w1. clear w Hw. rename w1 into w, Hw1 into Hw.
  assert (Hc : match client w with Some h => wp (client_dispatch h e) (fun _ => settled) w | None => True end).
  { destruct (client w) as [h|] eqn:Hh; [|done]. destruct Hw as [Hw|[? _ _]]; [|congruence]. by apply client_dispatch_ok. }
  assert (Hb : forall c, match dconns w !! c ≫= bev_ with
    | Some b => wp (backend_dispatch c b e) (fun _ => settled) w
    | None => True end).
  { intros c. destruct (dconns w !! c ≫= bev_) as [b|] eqn:Eb; [|done].
    destruct Hw as [Hw|[_ _ Hleft]]; [by apply backend_dispatch_ok|]. exfalso.
    apply bind_Some in Eb as (x & Hx & Hxb). destruct (Hleft c x Hx) as (_ & _ & _ & Hcb). unfold cb_of in Hcb. by rewrite Hxb in Hcb. }
  unfold wp, dispatch in *. destruct e as [data ri si|n io|events|c data io|c n|c events io];
    [clear Hb; by destruct (client w)..| | |]; specialize (Hb c); by destruct (dconns w !! c ≫= bev_).
Qed.

Lemma run_settled trace w :
  (lossy = false -> Forall (fun x => Forall (fun r => r = 0) (ev_connects x)) trace) -> settled w ->
  match run trace w with inl e => e = Died | inr w => settled w end.
Proof.
  revert w. induction trace as [|x trace IH]; intros w Ht Hw; cbn; [done|].
  pose proof (dispatch_settled (ev x) (ev_results x) (ev_connects x) w) as Hd. unfold wp in Hd.
  destruct (dispatch _ _) as [e|[[] w']].
  - apply Hd; [|done]. intros Hf. specialize (Ht Hf). by inversion Ht.
  - apply IH; [|apply Hd; [|done]]; intros Hf; specialize (Ht Hf); by inversion Ht.
Qed.

(** The upstream when it is made. *)
Lemma new_upstream_safe c h rs cs flow window :
  bev_cb (ch_bev h) = Cb_client -> dconn_pool_ h = ∅ -> upstream_ h = Some (mk_spdy [] ∅ flow window ∅) ->
  (lossy = false -> Forall (fun r => r = 0) cs) -> safe (mk_world c rs cs ∅ ∅ 1 (Some h)).
Proof.
  intros Hb Hp Hu Hcs. exists (mk_spdy [] ∅ flow window ∅). split; try done.
  exists h. do 2 (split; [done|]). cbn. rewrite Hp. apply conns_empty.
Qed.

Lemma start_safe c ipaddr rs cs version start_io recv_io send_io :
  (lossy = false -> Forall (fun r => r = 0) cs) ->
  wp (start version start_io recv_io send_io) (fun _ => safe) (initial c ipaddr (made version ++ rs) cs).
Proof.
  intros Hcs. unfold start, upstream_eventcb.
  change (has_flag BEV_EVENT_CONNECTED BEV_EVENT_CONNECTED) with true.
  change (has_flag BEV_EVENT_CONNECTED _ || _ || _) with false. cbv iota.
  set (spdy3 := version =? SPDYLAY_PROTO_SPDY3).
  assert (Hm : made version ++ rs = 0 :: (if spdy3 then [0] else []) ++ 0 :: rs)
    by (unfold made, spdy3; by destruct (version =? _)).
  rewrite Hm. clear Hm.
  apply wp_bind. eapply raw_mod_client; [done|]. apply wp_bind.
  unfold new_spdy. fold spdy3. apply wp_bind, wp_get, wp_bind. eapply raw_mod_client; [done|]. cbv zeta.
  apply wp_bind. unfold wp at 1, next_result. cbn [results set_field initial].
  apply wp_bind, wp_check; [done|]. apply wp_bind. eapply raw_mod_client; [done|].
  match goal with |- wp _ _ ?x => assert (Hw : safe x) by (by eapply new_upstream_safe);
    assert (Hr : results x = (if spdy3 then [0] else []) ++ 0 :: rs) by done; generalize dependent x end. intros w Hw Hr.
  apply wp_bind.
  assert (Hopt : wp (if spdy3 then rv ← next_result; check (rv =? 0) Assertion else mret tt)
    (fun _ w' => safe w' /\ results w' = 0 :: rs) w).
  { destruct spdy3; [|by apply wp_ret]. apply wp_bind. unfold wp at 1, next_result. rewrite Hr. cbn [app].
    apply wp_check; [done|]. split; [|done]. destruct Hw as (u & [? ? ? ? ? ?]). exists u. by split. }
  eapply wp_mono; [exact Hopt|]. clear w Hw Hr Hopt. intros [] w [Hw Hr]. apply wp_bind. unfold submit. apply wp_bind.
  unfold wp at 1, next_result. rewrite Hr. apply wp_bind. cbn [Z.eqb].
  assert (Hw0 : safe (w <| results := rs |>)) by (destruct Hw as (u & [? ? ? ? ? ?]); exists u; by split).
  eapply sp_mod_upstream; [done| |].
  { intros u Hu. split; [done|]. apply Hu. }
  intros w1 H1 _. apply wp_ret, wp_bind, wp_check; [done|]. apply wp_bind.
  eapply sp_send; [done|]. intros _ w2 H2. apply wp_ret, wp_bind.
  eapply sp_on_read; [done|]. intros _ w3 H3. by apply wp_ret.
Qed.

Lemma session_settled c ipaddr rs cs version start_io recv_io send_io trace :
  (lossy = false -> Forall (fun r => r = 0) cs /\
     Forall (fun x => Forall (fun r => r = 0) (ev_connects x)) trace) ->
  match session c ipaddr rs cs version start_io recv_io send_io trace with
  | inl e => e = Died
  | inr w => settled w
  end.
Proof.
  intros Ht. pose proof (start_safe c ipaddr rs cs version start_io recv_io send_io) as Hs.
  unfold wp in Hs. unfold session. destruct (start _ _ _ _ _) as [e|[[] w]]; [apply Hs; naive_solver|].
  apply run_settled; [naive_solver|]. left. apply Hs. naive_solver.
Qed.

End Run.
End Events.

(** * Theorems *)

(** C5. Whatever the client, the backends and the SPDY library do, in any order, and
    whatever the calls of the libraries return once the session was made: no
    callback touches a Downstream or a connection that was deleted, follows a null
    pointer, reads the last element of an empty vector, writes outside an array or
    fails an assertion.  The process can only end in DIE, which the code calls
    when the library reports a fatal error; and a client that is gone has left no
    Downstream. *)
Theorem spdy_memory_safe `{lib : SpdyLib} (c : Config) (ipaddr results connects : list Z) (version : Z)
    (start_io recv_io send_io : session_io) (trace : list occurrence) :
  match session c ipaddr results connects version start_io recv_io send_io trace with
  | inl e => e = Died
  | inr w => client w = None -> downs w = ∅
  end.
Proof.
  pose proof (session_settled true c ipaddr results connects version start_io recv_io send_io trace ltac:(done)) as H.
  destruct (session _ _ _ _ _ _ _ _ _) as [e|w]; [done|]. intros Hn.
  destruct H as [Hw|[_ H _]]; [|done]. destruct (safe_heap _ _ _ Hw) as (h & Hh & _). congruence.
Qed.

(** C7. When every attempt to connect to a backend can be started, a client that is
    gone has left no request and no connection either. *)
Theorem spdy_no_leak `{lib : SpdyLib} (c : Config) (ipaddr results connects : list Z) (version : Z)
    (start_io recv_io send_io : session_io) (trace : list occurrence) (w : world) :
  Forall (fun r => r = 0) connects -> Forall (fun x => Forall (fun r => r = 0) (ev_connects x)) trace ->
  session c ipaddr results connects version start_io recv_io send_io trace = inr w -> client w = None ->
  downs w = ∅ /\ dconns w = ∅.
Proof.
  intros Hc Ht Hr Hn.
  pose proof (session_settled false c ipaddr results connects version start_io recv_io send_io trace) as H.
  rewrite Hr in H. destruct H as [Hw|[_ H1 H2]]; [done|destruct (safe_heap _ _ _ Hw) as (h & Hh & _); congruence|].
  split; [done|]. apply map_empty. intros cn. apply eq_None_not_Some. intros [x Hx]. by destruct (H2 cn x Hx) as (_ & _ & ? & _).
Qed.

(** * A run *)

Definition quiet : session_io := mk_session_io [] 0 true.
Definition calls (xs : list session_call) : session_io := mk_session_io xs 0 true.
Definition on (e : event) : occurrence := occurs e [] [].

(** Stream 1 is opened, the backend answers, the library reads the response and
    closes the stream, whose connection goes to the pool; stream 3 uses it and is
    reset by the client; then the client closes. *)
Definition exchange : list occurrence :=
  [on (Client_data [] (calls [On_syn_stream 1 0 SpdyProps.demo_fields true]) quiet);
   on (Backend_data 2 Events.reply (calls [Read_data 1 4096; Send_callback (str "ok"); Read_data 1 4096; On_stream_close 1]));
   on (Client_data [] (calls [On_syn_stream 3 0 SpdyProps.demo_fields false; On_data_chunk false 3 (str "ab")]) quiet);
   on (Client_written 100 (calls [On_stream_close 3]));
   on (Client_data [] quiet (mk_session_io [On_stream_close 3] 0 false))].

(** How many requests and connections there are after each of the first events. *)
Definition counts (n : nat) : option (nat * nat * bool) :=
  match session (lib := SpdyProps.demo_lib) SpdyProps.demo_config (str "10.0.0.1") [] [] 3 quiet quiet quiet (take n exchange) with
  | inl _ => None
  | inr w => Some (size (downs w), size (dconns w), bool_decide (client w = None))
  end.

Example spdy_exchange :
  map counts [0%nat; 1%nat; 2%nat; 3%nat; 4%nat; 5%nat] =
  [Some (0, 0, false); Some (1, 1, false); Some (0, 1, false); Some (1, 1, false); Some (0, 0, false); Some (0, 0, true)]%nat.
Proof. vm_compute. done. Qed.

Lemma spdy_no_leak_witness :
  exists w, session (lib := SpdyProps.demo_lib) SpdyProps.demo_config (str "10.0.0.1") [] [] 3 quiet quiet quiet exchange = inr w /\
    downs w = ∅ /\ dconns w = ∅.
Proof.
  eexists. split; [vm_compute; reflexivity|].
  refine (spdy_no_leak (lib := SpdyProps.demo_lib) SpdyProps.demo_config (str "10.0.0.1") [] [] 3 quiet quiet quiet exchange _ _ _ _ _);
    [by constructor|by repeat constructor|vm_compute; reflexivity|reflexivity].
Defined.

End SpdyEvents.
