(* ===== verification/ServerDocs.v ===== *)
(** The documents of the SPDY server: the requests of one session of SpdyServer.cc,
    what is answered to them, and the descriptors that are open for them.

    The descriptors of the process are the set [fds]; which number a new one gets,
    what the file system holds, the time and whether a pipe can be made are
    arguments.  The SPDY library is the log of what was submitted to it, and the
    streams it has open; the callbacks it makes are the steps of a session. *)
From stdpp Require Import gmap.
From S2P Require Import Prelude Libc CppUtil Records CppDate.

Module Docs.
Import Util Date.

(** * Data *)

(** struct Request; an int that is -1 when there is no file. *)
Record Request := mk_request {
  req_stream_id : Z;
  req_headers : list (list Z * list Z);
  req_file : option Z
}.
#[export] Instance eta_Request : Settable Request := fun r =>
  mk_request (req_stream_id r) (req_headers r) (req_file r).

Definition Request_new (stream_id : Z) : Request := mk_request stream_id [] None.

(** What is submitted: the stream, the names and values, and the descriptor of the
    data provider. *)
Record response := mk_response { rs_stream : Z; rs_nv : list (list Z); rs_data : option Z }.

(** The part of a SpdyEventHandler that belongs to its streams: id2req_ with its null
    pointers, the descriptors, the paths that were opened, what was submitted, and
    the streams of the library, which are [true] once their request was complete. *)
Record docs := mk_docs {
  id2req_ : gmap Z (option Request);
  fds : gset Z;
  opened : list (list Z);
  responses : list response;
  streams : gmap Z bool
}.
#[export] Instance eta_docs : Settable docs := fun s =>
  mk_docs (id2req_ s) (fds s) (opened s) (responses s) (streams s).

(** A new descriptor is one that is not open. *)
Class System := {
  new_fd : gset Z -> Z;
  new_fd_fresh : forall X, new_fd X ∉ X
}.

(** What the system answers while a request is handled; open of a path gives
    nothing, a file that cannot be examined, or the time and length of the file. *)
Record answers := mk_answers {
  now : Z;
  pipe_ok : bool;
  open_file : list Z -> option (option (Z * Z))
}.

Definition STATUS_200 : list Z := str "200 OK".
Definition STATUS_304 : list Z := str "304 Not Modified".
Definition STATUS_400 : list Z := str "400 Bad Request".
Definition STATUS_404 : list Z := str "404 Not Found".
Definition DEFAULT_HTML : list Z := str "index.html".

Section Docs.
(** config.htdocs and SPDYD_SERVER, which has the version of the library. *)
Context `{sys : System} (htdocs SPDYD_SERVER : list Z).

(** * Submitting *)

Definition submit (r : response) (s : docs) : docs := s <| responses := responses s ++ [r] |>.

Definition submit_file_response (a : answers) (status : list Z) (stream_id last_modified file_length fd : Z)
    (s : docs) : docs :=
  let nv := [str ":status"; status; str ":version"; str "HTTP/1.1"; str "server"; SPDYD_SERVER;
             str "content-length"; int_text file_length; str "cache-control"; str "max-age=3600";
             str "date"; http_date (now a)] in
  let nv := if negb (last_modified =? 0) then nv ++ [str "last-modified"; http_date last_modified] else nv in
  submit (mk_response stream_id nv (Some fd)) s.

(** submit_response with further fields, and without. *)
Definition submit_response_headers (a : answers) (status : list Z) (stream_id : Z) (headers : list (list Z * list Z))
    (fd : Z) (s : docs) : docs :=
  submit (mk_response stream_id
    ([str ":status"; status; str ":version"; str "HTTP/1.1"; str "server"; SPDYD_SERVER;
      str "date"; http_date (now a)] ++ concat (map (fun h => [h.1; h.2]) headers)) (Some fd)) s.

Definition submit_response (status : list Z) (stream_id : Z) (s : docs) : docs :=
  submit (mk_response stream_id
    [str ":status"; status; str ":version"; str "HTTP/1.1"; str "server"; SPDYD_SERVER] None) s.

(** * Requests *)

Definition add_stream (stream_id : Z) (req : Request) (s : docs) : docs :=
  s <| id2req_ := <[stream_id := Some req]> (id2req_ s) |>.

(** ~Request *)
Definition delete_request (req : option Request) (s : docs) : docs :=
  match req with
  | Some r => match req_file r with Some fd => s <| fds := fds s ∖ {[fd]} |> | None => s end
  | None => s
  end.

(** id2req_[stream_id] makes a null pointer where there is none. *)
Definition get_stream (stream_id : Z) (s : docs) : option Request * docs :=
  match id2req_ s !! stream_id with
  | Some req => (req, s)
  | None => (None, s <| id2req_ := <[stream_id := None]> (id2req_ s) |>)
  end.

Definition remove_stream (stream_id : Z) (s : docs) : docs :=
  let '(req, s) := get_stream stream_id s in
  delete_request req (s <| id2req_ := delete stream_id (id2req_ s) |>).

(** req->file = fd *)
Definition set_file (stream_id : Z) (fd : Z) (req : Request) (s : docs) : docs :=
  add_stream stream_id (req <| req_file := Some fd |>) s.

Definition append_nv (req : Request) (nv : list (list Z * list Z)) : Request :=
  req <| req_headers := req_headers req ++ map (fun h => (c_str h.1, c_str h.2)) nv |>.

(** * Responses *)

(** A pipe that holds the page: its writing end is closed by gzclose (and the second
    close of the code finds it closed), its reading end becomes the file. *)
Definition prepare_status_response (a : answers) (req : Request) (status : list Z) (s : docs) : docs :=
  if pipe_ok a then
    let fd := new_fd (fds s) in
    submit_response_headers a status (req_stream_id req)
      [(str "content-encoding", str "gzip"); (str "content-type", str "text/html; charset=UTF-8")] fd
      (set_file (req_stream_id req) fd req (s <| fds := {[fd]} ∪ fds s |>))
  else submit_response status (req_stream_id req) s.

(** std::string::find of a string, from the start. *)
Fixpoint contains (s pat : list Z) : bool :=
  startsWith s pat || match s with _ :: s => contains s pat | [] => false end.

Definition check_url (url : list Z) : bool :=
  negb (bool_decide (url = [])) && (hd 0 url =? chr "/") && negb (existsb (Z.eqb 92) url) &&
  negb (contains url (str "/../")) && negb (contains url (str "/./")) &&
  negb (endsWith url (str "/..")) && negb (endsWith url (str "/.")).

(** The fields that are looked for: the path, which others are there, and the date. *)
Record found := mk_found {
  f_url : option (list Z);
  f_method : bool;
  f_scheme : bool;
  f_version : bool;
  f_host : bool;
  f_last_mod : option Z
}.
#[export] Instance eta_found : Settable found := fun f =>
  mk_found (f_url f) (f_method f) (f_scheme f) (f_version f) (f_host f) (f_last_mod f).

Definition find_field (f : found) (h : list Z * list Z) : found :=
  let '(field, value) := h in
  if bool_decide (f_url f = None) && bool_decide (field = str ":path") then f <| f_url := Some value |>
  else if bool_decide (field = str ":method") then f <| f_method := true |>
  else if bool_decide (field = str ":scheme") then f <| f_scheme := true |>
  else if bool_decide (field = str ":version") then f <| f_version := true |>
  else if bool_decide (field = str ":host") then f <| f_host := true |>
  else if bool_decide (f_last_mod f = None) && bool_decide (field = str "if-modified-since")
  then f <| f_last_mod := Some (parse_http_date value) |>
  else f.

Definition find_fields (headers : list (list Z * list Z)) : found :=
  foldl find_field (mk_found None false false false false None) headers.

(** The file of a URL. *)
Definition file_path (url : list Z) : list Z :=
  let path := htdocs ++ url in
  if List.last path 0 =? chr "/" then path ++ DEFAULT_HTML else path.

(** The file is there: with an if-modified-since that is not older it is not sent. *)
Definition serve_file (a : answers) (req : Request) (last_mod : option Z) (st_mtime st_size : Z) (s : docs) : docs :=
  let file := new_fd (fds s) in
  let req := req <| req_file := Some file |> in
  let s := set_file (req_stream_id req) file req (s <| fds := {[file]} ∪ fds s |>) in
  if match last_mod with Some t => st_mtime <=? t | None => false end
  then prepare_status_response a req STATUS_304 s
  else submit_file_response a STATUS_200 (req_stream_id req) st_mtime st_size file s.

Definition respond_url (a : answers) (req : Request) (last_mod : option Z) (url : list Z) (s : docs) : docs :=
  let url := percentDecode url in
  if negb (check_url url) then prepare_status_response a req STATUS_404 s
  else
    let path := c_str (file_path url) in
    let s := s <| opened := opened s ++ [path] |> in
    match open_file a path with
    | None => prepare_status_response a req STATUS_404 s
    | Some None => prepare_status_response a req STATUS_404 s
    | Some (Some (st_mtime, st_size)) => serve_file a req last_mod st_mtime st_size s
    end.

Definition prepare_response (a : answers) (req : Request) (s : docs) : docs :=
  let f := find_fields (req_headers req) in
  match f_url f with
  | Some url =>
      if f_method f && f_scheme f && f_version f && f_host f then
        let query_pos := std_find url (chr "?") in
        if (query_pos <? length url)%nat then
          if contains (drop query_pos url) (str "spdyd_do_not_respond_to_req=yes") then s
          else respond_url a req (f_last_mod f) (take query_pos url) s
        else respond_url a req (f_last_mod f) url s
      else prepare_status_response a req STATUS_400 s
  | None => prepare_status_response a req STATUS_400 s
  end.

(** * The callbacks of the session *)

(** [None] is a null pointer that is followed. *)
Definition on_syn_stream (stream_id : Z) (nv : list (list Z * list Z)) (s : docs) : docs :=
  add_stream stream_id (append_nv (Request_new stream_id) nv) s.

Definition on_headers (stream_id : Z) (nv : list (list Z * list Z)) (s : docs) : option docs :=
  let '(req, s) := get_stream stream_id s in
  req ← req; Some (add_stream stream_id (append_nv req nv) s).

Definition htdocs_on_request_recv_callback (a : answers) (stream_id : Z) (s : docs) : option docs :=
  let '(req, s) := get_stream stream_id s in
  req ← req; Some (prepare_response a req s).

(** Reading from a file, with what read returns until it is not interrupted. *)
Inductive read_answer := Interrupted | Read_failed | Read_bytes (data : list Z).
Inductive read_result := Temporal_failure | Read_data (data : list Z) (eof : bool).

Fixpoint file_read_callback (rs : list read_answer) : option read_result :=
  match rs with
  | [] => None
  | Interrupted :: rs => file_read_callback rs
  | Read_failed :: _ => Some Temporal_failure
  | Read_bytes data :: _ => Some (Read_data data (zlen data =? 0))
  end.

(** What the library calls.  A stream is opened once; fields and the end of a request
    are reported for open streams whose request is not complete, and a stream is
    closed once. *)
Inductive call :=
  | Syn_stream (stream_id : Z) (nv : list (list Z * list Z))
  | Headers (stream_id : Z) (nv : list (list Z * list Z))
  | Request_recv (a : answers) (stream_id : Z)
  | Stream_close (stream_id : Z).

Definition step (x : call) (s : docs) : option docs :=
  match x with
  | Syn_stream id nv =>
      match streams s !! id with
      | None => Some (on_syn_stream id nv (s <| streams := <[id := false]> (streams s) |>))
      | Some _ => Some s
      end
  | Headers id nv =>
      match streams s !! id with Some false => on_headers id nv s | _ => Some s end
  | Request_recv a id =>
      match streams s !! id with
      | Some false => htdocs_on_request_recv_callback a id (s <| streams := <[id := true]> (streams s) |>)
      | _ => Some s
      end
  | Stream_close id =>
      match streams s !! id with
      | Some _ => Some (remove_stream id (s <| streams := delete id (streams s) |>))
      | None => Some s
      end
  end.

Fixpoint run (xs : list call) (s : docs) : option docs :=
  match xs with [] => Some s | x :: xs => s ← step x s; run xs s end.

(** ~SpdyEventHandler, of its requests. *)
Definition delete_requests (s : docs) : docs :=
  (foldr (fun kv s => delete_request kv.2 s) s (map_to_list (id2req_ s))) <| id2req_ := ∅ |>.

(** A session when it starts, in a process that has [X] open. *)
Definition initial (X : gset Z) : docs := mk_docs ∅ X [] [] ∅.

End Docs.

End Docs.
