(* ===== verification/ServerDocsProps.v ===== *)
(** The documents of the SPDY server: which files are opened, which descriptors stay
    open, and what is answered to a request that was answered before. *)
From stdpp Require Import gmap.
From S2P Require Import Prelude Libc CppUtil Records CppDate ServerDocs.

Module DocsProps.
Import Util Date Docs.

(** * Searching *)

Lemma startsWith_iff a b : startsWith a b = true <-> exists r, a = b ++ r.
Proof.
  unfold startsWith. split.
  - destruct (zlen a <? zlen b); [done|]. revert a. induction b as [|x b IH]; intros a H; [by exists a|].
    destruct a as [|y a]; [done|]. cbn [std_equal] in H. apply andb_true_iff in H as [<-%Z.eqb_eq H].
    destruct (IH a H) as [r ->]. by exists r.
  - intros [r ->]. destruct (Z.ltb_spec (zlen (b ++ r)) (zlen b)) as [H|_].
    { rewrite zlen_app in H. pose proof (zlen_nonneg r). lia. }
    induction b as [|x b IH]; [done|]. cbn [app std_equal]. by rewrite Z.eqb_refl.
Qed.

Lemma endsWith_iff a b : endsWith a b = true <-> exists r, a = r ++ b.
Proof.
  unfold endsWith. split.
  - destruct (Z.ltb_spec (zlen a) (zlen b)) as [|Hl]; [done|]. intros H. unfold zlen in Hl.
    assert (Hs : startsWith (drop (length a - length b) a) b = true).
    { unfold startsWith. destruct (Z.ltb_spec (zlen (drop (length a - length b) a)) (zlen b)) as [Hlt|]; [|done].
      unfold zlen in Hlt. rewrite length_drop in Hlt. lia. }
    apply startsWith_iff in Hs as [r Hr]. exists (take (length a - length b) a).
    rewrite <- (take_drop (length a - length b) a) at 1. f_equal. rewrite Hr.
    assert (r = []) as ->; [|by rewrite app_nil_r].
    apply length_zero_iff_nil. apply (f_equal length) in Hr. rewrite length_drop, length_app in Hr. lia.
  - intros [r ->]. destruct (Z.ltb_spec (zlen (r ++ b)) (zlen b)) as [H|_].
    { rewrite zlen_app in H. pose proof (zlen_nonneg r). lia. }
    rewrite length_app. replace (length r + length b - length b)%nat with (length r) by lia.
    rewrite drop_app_length. induction b as [|x b IH]; [done|]. cbn [std_equal]. by rewrite Z.eqb_refl.
Qed.

Lemma contains_iff s pat : contains s pat = true <-> exists a b, s = a ++ pat ++ b.
Proof.
  induction s as [|c s IH]; cbn [contains]; rewrite orb_true_iff, startsWith_iff.
  - split; [by intros [[r ->]|]; [exists [], r|]|]. intros (a & b & E). left. exists b. by destruct a.
  - rewrite IH. split.
    + intros [[r ->]|(a & b & ->)]; [by exists [], r|by exists (c :: a), b].
    + intros ([|x a] & b & E); [left; by exists b|]. injection E as -> ->. right. by exists a, b.
Qed.

Lemma contains_false s pat : contains s pat = false -> forall a b, s <> a ++ pat ++ b.
Proof.
  intros H a b ->. assert (contains (a ++ pat ++ b) pat = true) by (apply contains_iff; eauto). congruence.
Qed.

Lemma endsWith_false a b : endsWith a b = false -> forall r, a <> r ++ b.
Proof. intros H r ->. assert (endsWith (r ++ b) b = true) by (apply endsWith_iff; eauto). congruence. Qed.

(** ** The elements of a path *)

Definition elements_of (q : list Z) : list (list Z) := split q (chr "/") false true.
Definition is_dots (x : list Z) : Prop := x = str "." \/ x = str "..".

Lemma elements_inner q x :
  x ∈ removelast (elements_of q) -> exists a b, chr "/" :: q = a ++ chr "/" :: x ++ chr "/" :: b.
Proof.
  unfold elements_of. remember (length q) as n eqn:Hn. revert q x Hn. induction (lt_wf n) as [n _ IH].
  intros q x -> Hx. destruct (std_find_cases q (chr "/")) as [Hf|(y & r & -> & Hf)].
  { rewrite split_free in Hx by done. by apply elem_of_nil in Hx. }
  rewrite split_cut in Hx by done. pose proof (split_nonempty r (chr "/")) as Hne.
  destruct (split r (chr "/") false true) as [|z zs] eqn:E; [done|]. cbn [removelast] in Hx.
  apply elem_of_cons in Hx as [->|Hx].
  - by exists [], r.
  - destruct (IH (length r)) with (q := r) (x := x) as (a & b & Eab); [rewrite length_app; cbn; lia|done|by rewrite E|].
    exists (chr "/" :: y ++ a), b. rewrite Eab. cbn [app]. by rewrite <- !app_assoc.
Qed.

Lemma elements_last q : exists a, chr "/" :: q = a ++ chr "/" :: List.last (elements_of q) [].
Proof.
  unfold elements_of. remember (length q) as n eqn:Hn. revert q Hn. induction (lt_wf n) as [n _ IH].
  intros q ->. destruct (std_find_cases q (chr "/")) as [Hf|(y & r & -> & Hf)].
  { rewrite split_free by done. by exists []. }
  rewrite split_cut by done. destruct (IH (length r)) with (q := r) as (a & Ea); [rewrite length_app; cbn; lia|done|].
  pose proof (split_nonempty r (chr "/")) as Hne.
  destruct (split r (chr "/") false true) as [|z zs] eqn:E; [done|]. exists (chr "/" :: y ++ a).
  change (List.last (y :: z :: zs) []) with (List.last (z :: zs) []). rewrite Ea. cbn [app]. by rewrite <- !app_assoc.
Qed.

(** ** A URL that was checked *)

Record checked (v : list Z) : Prop := {
  ck_root : exists q, v = chr "/" :: q;
  ck_slash : (92 ∉ v);
  ck_dots : forall x, is_dots x -> forall a b, v <> a ++ chr "/" :: x ++ chr "/" :: b
}.

Lemma check_url_checked url :
  check_url url = true -> checked url /\ forall x, is_dots x -> forall a, url <> a ++ chr "/" :: x.
Proof.
  unfold check_url. rewrite !andb_true_iff, !negb_true_iff.
  intros [[[[[[H1 H2] H3] H4] H5] H6] H7]. apply bool_decide_eq_false in H1. apply Z.eqb_eq in H2.
  split; [split|].
  - destruct url as [|c q]; [done|]. cbn in H2. subst c. by exists q.
  - intros Hin. assert (existsb (Z.eqb 92) url = true); [|congruence].
    apply existsb_exists. exists 92. split; [by apply list_elem_of_In|done].
  - intros x [->| ->] a b; [exact (contains_false _ _ H5 a b)|exact (contains_false _ _ H4 a b)].
  - intros x [->| ->] a; [exact (endsWith_false _ _ H7 a)|exact (endsWith_false _ _ H6 a)].
Qed.

(** A part that ends in a slash lies in front of a text without one. *)
Lemma app_slash (u x p b : list Z) :
  (chr "/" ∉ x) -> u ++ x = p ++ chr "/" :: b -> exists b', u = p ++ chr "/" :: b'.
Proof.
  intros Hx E. apply app_eq_app in E as (k & [[-> Ek]|[-> Ek]]).
  - destruct k as [|c k]; [cbn in Ek; subst x; destruct Hx; left|]. injection Ek as -> _. by exists k.
  - destruct Hx. rewrite Ek. apply elem_of_app. right. left.
Qed.

Lemma checked_app u x : checked u -> (chr "/" ∉ x) -> (92 ∉ x) -> checked (u ++ x).
Proof.
  intros [(q & ->) H2 H3] Hx Hb. split; [by exists (q ++ x)|by rewrite elem_of_app; intros [|]|].
  intros y Hy a b E. assert (E' : (chr "/" :: q) ++ x = (a ++ chr "/" :: y) ++ chr "/" :: b).
  { rewrite E. by rewrite <- app_assoc. }
  destruct (app_slash _ _ _ _ Hx E') as [b' Eb]. apply (H3 y Hy a b'). by rewrite Eb, <- app_assoc.
Qed.

(** A front part, as the NUL byte of a C string makes it. *)
Lemma checked_prefix v t : checked (v ++ t) -> v <> [] -> checked v.
Proof.
  intros [(q & E) H2 H3] Hv. split.
  - destruct v as [|c v]; [done|]. injection E as -> _. by exists v.
  - intros Hin. apply H2, elem_of_app. by left.
  - intros x Hx a b ->. apply (H3 x Hx a (b ++ t)). rewrite <- !app_assoc. cbn [app]. by rewrite <- !app_assoc.
Qed.

Lemma c_str_prefix m : exists t, m = c_str m ++ t.
Proof.
  induction m as [|c m [t IH]]; cbn [c_str]; [by exists []|].
  destruct (c =? 0); [by exists (c :: m)|]. exists t. cbn [app]. by rewrite <- IH.
Qed.

Lemma c_str_app a b : Forall (fun c => c <> 0) a -> c_str (a ++ b) = a ++ c_str b.
Proof.
  intros Ha. induction Ha as [|c a Hc _ IH]; [done|]. cbn [app c_str].
  destruct (Z.eqb_spec c 0); [done|]. by rewrite IH.
Qed.

Lemma last_slash (u : list Z) : u <> [] -> List.last u 0 = chr "/" -> exists r, u = r ++ [chr "/"].
Proof.
  intros Hu Hl. rewrite (app_removelast_last 0 Hu), Hl. by eexists.
Qed.

Definition inside (htdocs path : list Z) : Prop :=
  exists q, path = htdocs ++ chr "/" :: q /\ (92 ∉ q) /\ Forall (fun x => ~ is_dots x) (removelast (elements_of q)).

Lemma checked_inside v : checked v -> exists q, v = chr "/" :: q /\ (92 ∉ q) /\
  Forall (fun x => ~ is_dots x) (removelast (elements_of q)).
Proof.
  intros [(q & ->) H2 H3]. exists q. split; [done|]. split; [intros Hin; apply H2; by right|].
  apply Forall_forall. intros x Hx Hd. destruct (elements_inner q x Hx) as (a & b & E). by apply (H3 x Hd a b).
Qed.

Lemma file_path_checked htdocs url :
  check_url url = true -> Forall (fun c => c <> 0) htdocs ->
  exists q, c_str (file_path htdocs url) = htdocs ++ chr "/" :: q /\ (92 ∉ q) /\
    Forall (fun x => ~ is_dots x) (removelast (elements_of q)) /\
    ((0 ∉ url) -> ~ is_dots (List.last (elements_of q) [])).
Proof.
  intros Hc Hh. destruct (check_url_checked url Hc) as [Hck Hend].
  assert (Hne : url <> []) by (intros ->; by destruct (ck_root _ Hck)).
  assert (Hlast : List.last (htdocs ++ url) 0 = List.last url 0).
  { destruct (exists_last Hne) as (r & c & ->). by rewrite app_assoc, !last_last. }
  assert (Hv : exists v, file_path htdocs url = htdocs ++ v /\ checked v /\ (forall x, is_dots x -> forall a, v <> a ++ chr "/" :: x) /\
    ((0 ∉ url) -> 0 ∉ v)).
  { unfold file_path. cbv zeta. rewrite Hlast. destruct (Z.eqb_spec (List.last url 0) (chr "/")) as [El|El]; [|by exists url].
    exists (url ++ DEFAULT_HTML). split; [by rewrite <- app_assoc|]. split; [|split].
    - apply checked_app; [done|..]; unfold DEFAULT_HTML; rewrite !elem_of_cons, elem_of_nil; naive_solver lia.
    - intros x Hx a E. destruct (last_slash url Hne El) as [r ->]. rewrite <- app_assoc in E.
      apply (f_equal (@rev Z)) in E. rewrite !rev_app_distr in E. cbn in E. destruct Hx as [->| ->]; cbn in E; done.
    - intros Hz. rewrite elem_of_app. intros [|Hin]; [done|]. revert Hin. unfold DEFAULT_HTML.
      rewrite !elem_of_cons, elem_of_nil. naive_solver lia. }
  destruct Hv as (v & -> & Hckv & Hendv & Hzv). rewrite c_str_app by done.
  destruct (c_str_prefix v) as [t Et]. assert (Hcv : c_str v <> []).
  { destruct (ck_root _ Hckv) as [q ->]. done. }
  rewrite Et in Hckv. destruct (checked_inside _ (checked_prefix _ _ Hckv Hcv)) as (q & Eq & Hq1 & Hq2).
  exists q. rewrite Eq. do 3 (split; [done|]). intros Hz Hd.
  assert (Hid : c_str v = v).
  { apply c_str_id, Forall_forall. intros c Hin ->. by apply (Hzv Hz). }
  destruct (elements_last q) as [a Ea]. rewrite <- Eq, Hid in Ea. by apply (Hendv _ Hd a).
Qed.

(** * Who owns a descriptor *)

(** [X] was open before the session, [L] belongs to nothing any more, and every
    other descriptor is the file of exactly one request. *)
Record owns (X L : gset Z) (m : gmap Z (option Request)) (F : gset Z) : Prop := {
  ow_file : forall id r f, m !! id = Some (Some r) -> req_file r = Some f -> (f ∈ F) /\ (f ∉ X) /\ (f ∉ L);
  ow_inj : forall id1 id2 r1 r2 f, m !! id1 = Some (Some r1) -> m !! id2 = Some (Some r2) ->
    req_file r1 = Some f -> req_file r2 = Some f -> id1 = id2;
  ow_all : forall f, f ∈ F <-> f ∈ X \/ f ∈ L \/ exists id r, m !! id = Some (Some r) /\ req_file r = Some f;
  ow_disjoint : forall f, f ∈ X -> f ∉ L
}.

Lemma owns_initial X : owns X ∅ ∅ X.
Proof. split; set_solver. Qed.

(** A request that keeps its file, or a new one without. *)
Lemma owns_same X L m F id r' :
  owns X L m F -> req_file r' = (m !! id ≫= fun o => o ≫= req_file) -> owns X L (<[id := Some r']> m) F.
Proof.
  intros [H1 H2 H3 H4] E.
  assert (Hlk : forall i r f, <[id := Some r']> m !! i = Some (Some r) -> req_file r = Some f ->
    exists r0, m !! i = Some (Some r0) /\ req_file r0 = Some f).
  { intros i r f. destruct (decide (i = id)) as [->|Hne]; [|rewrite lookup_insert_ne by done; eauto].
    rewrite lookup_insert_eq. intros [= <-] Hf. rewrite E in Hf. destruct (m !! id) as [[r0|]|]; try done. by exists r0. }
  split; [| | |done].
  - intros i r f Hi Hf. destruct (Hlk i r f Hi Hf) as (r0 & ? & ?). eauto.
  - intros i1 i2 r1 r2 f Hi1 Hi2 Hf1 Hf2. destruct (Hlk _ _ _ Hi1 Hf1) as (? & ? & ?), (Hlk _ _ _ Hi2 Hf2) as (? & ? & ?). eauto.
  - intros f. rewrite H3. split; intros [?|[?|(i & r & Hi & Hf)]]; auto; right; right.
    + destruct (decide (i = id)) as [->|Hne]; [|exists i, r; by rewrite lookup_insert_ne].
      exists id, r'. rewrite lookup_insert_eq. rewrite Hi in E. cbn in E. split; [done|congruence].
    + destruct (Hlk i r f Hi Hf) as (r0 & ? & ?). eauto.
Qed.

(** A new descriptor becomes the file of a request; the one that it had is lost. *)
Lemma owns_set X L m F id r r' f :
  owns X L m F -> m !! id = Some (Some r) -> (f ∉ F) -> req_file r' = Some f ->
  owns X (match req_file r with Some f0 => {[f0]} ∪ L | None => L end) (<[id := Some r']> m) ({[f]} ∪ F).
Proof.
  intros [H1 H2 H3 H4] Hid Hf Hr'.
  set (L' := match req_file r with Some f0 => {[f0]} ∪ L | None => L end).
  assert (HL : forall g, g ∈ L' <-> g ∈ L \/ req_file r = Some g).
  { intros g. unfold L'. destruct (req_file r) as [f0|]; [|naive_solver].
    rewrite elem_of_union, elem_of_singleton. naive_solver. }
  clearbody L'.
  assert (HfX : (f ∉ X) /\ (f ∉ L)) by (split; intros H; apply Hf, H3; auto).
  assert (Hother : forall i x g, <[id := Some r']> m !! i = Some (Some x) -> req_file x = Some g ->
    (i = id /\ g = f) \/ (i <> id /\ m !! i = Some (Some x))).
  { intros i x g. destruct (decide (i = id)) as [->|Hne].
    - rewrite lookup_insert_eq. intros [= <-] Hg. left. split; [done|congruence].
    - rewrite lookup_insert_ne by done. auto. }
  split.
  - intros i x g Hi Hg. rewrite HL, elem_of_union, elem_of_singleton.
    destruct (Hother i x g Hi Hg) as [[-> ->]|[Hne Hi']].
    + split; [auto|]. split; [apply HfX|]. intros [|Hr]; [by apply HfX|].
      apply Hf. by eapply (H1 id r).
    + destruct (H1 i x g Hi' Hg) as (? & ? & ?). split; [auto|]. split; [done|].
      intros [|Hr]; [done|]. apply Hne. by eapply (H2 i id).
  - intros i1 i2 x1 x2 g Hi1 Hi2 Hg1 Hg2.
    destruct (Hother _ _ _ Hi1 Hg1) as [[-> ->]|[? Hi1']], (Hother _ _ _ Hi2 Hg2) as [[-> E]|[? Hi2']]; [done| | |by eapply H2].
    + destruct Hf. by eapply (H1 i2 x2).
    + subst g. destruct Hf. by eapply (H1 i1 x1).
  - intros g. rewrite elem_of_union, elem_of_singleton, H3, HL. split.
    + intros [->|[?|[?|(i & x & Hi & Hg)]]]; auto.
      * right; right. exists id, r'. by rewrite lookup_insert_eq.
      * destruct (decide (i = id)) as [->|Hne]; [right; left; right; congruence|].
        right; right. exists i, x. by rewrite lookup_insert_ne.
    + intros [?|[[?|Hr]|(i & x & Hi & Hg)]]; auto.
      * right; right; right. eauto.
      * destruct (Hother i x g Hi Hg) as [[-> ->]|[Hne Hi']]; [auto|]. right; right; right. eauto.
  - intros g Hg. rewrite HL. intros [?|Hr]; [by eapply H4|]. by destruct (H1 id r g Hid Hr) as (_ & ? & _).
Qed.

Lemma owns_remove X L m F id o :
  owns X L m F -> m !! id = Some o ->
  owns X L (delete id m) (match o ≫= req_file with Some f => F ∖ {[f]} | None => F end).
Proof.
  intros [H1 H2 H3 H4] Hid. set (F' := match o ≫= req_file with Some f => F ∖ {[f]} | None => F end).
  assert (HF : forall g, g ∈ F' <-> g ∈ F /\ o ≫= req_file <> Some g).
  { intros g. unfold F'. destruct (o ≫= req_file) as [f0|]; [|naive_solver].
    rewrite elem_of_difference, elem_of_singleton. naive_solver. }
  clearbody F'.
  assert (Hlk : forall i x, delete id m !! i = Some (Some x) <-> i <> id /\ m !! i = Some (Some x)).
  { intros i x. rewrite lookup_delete_Some. naive_solver. }
  assert (Ho : forall g, o ≫= req_file = Some g -> exists r, o = Some r /\ req_file r = Some g).
  { intros g. destruct o as [r|]; [|done]. cbn. eauto. }
  split; [| | |done].
  - intros i x g [Hne Hi]%Hlk Hg. destruct (H1 i x g Hi Hg) as (? & ? & ?). split; [|done]. rewrite HF. split; [done|].
    intros (r & -> & Hr)%Ho. apply Hne. by eapply (H2 i id).
  - intros i1 i2 x1 x2 g [_ Hi1]%Hlk [_ Hi2]%Hlk. by apply (H2 i1 i2 x1 x2).
  - intros g. rewrite HF, H3. split.
    + intros [[?|[?|(i & x & Hi & Hg)]] Hn]; auto. right; right. exists i, x. rewrite Hlk.
      split; [|done]. split; [|done]. intros ->. rewrite Hid in Hi. injection Hi as ->. by apply Hn.
    + intros [?|[?|(i & x & [Hne Hi]%Hlk & Hg)]].
      * split; [auto|]. intros (r & -> & Hr)%Ho. by destruct (H1 id r g Hid Hr) as (_ & ? & ?).
      * split; [auto|]. intros (r & -> & Hr)%Ho. by destruct (H1 id r g Hid Hr) as (_ & ? & ?).
      * split; [right; right; eauto|]. intros (r & -> & Hr)%Ho. apply Hne. by eapply (H2 i id).
Qed.

(** The descriptors that the destructor closes. *)
Lemma delete_requests_fds f s :
  f ∈ fds (delete_requests s) <->
  f ∈ fds s /\ forall id r, id2req_ s !! id = Some (Some r) -> req_file r <> Some f.
Proof.
  unfold delete_requests. change (fds (?s <| id2req_ := ∅ |>)) with (fds s).
  assert (H : forall l s', f ∈ fds (foldr (fun kv s => delete_request kv.2 s) s' l) <->
    f ∈ fds s' /\ forall (kv : Z * option Request) r, kv ∈ l -> kv.2 = Some r -> req_file r <> Some f).
  { clear s. intros l s'. induction l as [|[k o] l IH]; cbn [foldr].
    - split; [|naive_solver]. intros H. split; [done|]. intros kv r Hin. by apply elem_of_nil in Hin.
    - assert (Hd : f ∈ fds (delete_request o (foldr (fun kv s => delete_request kv.2 s) s' l)) <->
        f ∈ fds (foldr (fun kv s => delete_request kv.2 s) s' l) /\ forall r, o = Some r -> req_file r <> Some f).
      { unfold delete_request. destruct o as [r|]; [|naive_solver]. destruct (req_file r) as [g|] eqn:Eg.
        - change (fds (?s <| fds := ?x |>)) with x. rewrite elem_of_difference, elem_of_singleton. naive_solver.
        - naive_solver. }
      cbn [snd]. rewrite Hd, IH. setoid_rewrite elem_of_cons. naive_solver. }
  rewrite H. f_equiv. split.
  - intros Hl id r Hid. apply (Hl (id, Some r)); [by apply elem_of_map_to_list|done].
  - intros Hl [k o] r Hin%elem_of_map_to_list E. cbn in E. subst o. eauto.
Qed.

(** * A session *)

(** A reply 304 whose page has a pipe: the file that was opened is lost. *)
Definition leaks (r : response) : bool :=
  bool_decide (nth 1 (rs_nv r) [] = STATUS_304) && bool_decide (is_Some (rs_data r)).
Definition lost (s : docs) : nat := length (List.filter leaks (responses s)).

Section Session.
Context `{sys : System} (htdocs SPDYD_SERVER : list Z) (X : gset Z) (Hdocs : Forall (fun c => c <> 0) htdocs).
Notation prepare_status_response := (prepare_status_response SPDYD_SERVER).
Notation prepare_response := (prepare_response htdocs SPDYD_SERVER).

Record good (L : gset Z) (s : docs) : Prop := {
  gd_owns : owns X L (id2req_ s) (fds s);
  gd_lost : size L = lost s;
  gd_inside : Forall (inside htdocs) (opened s)
}.

(** The request of the stream [id]. *)
Definition pending (id : Z) (r : Request) (s : docs) : Prop :=
  id2req_ s !! id = Some (Some r) /\ req_stream_id r = id.

(** [s'] is [s] after the request of the stream [id] was handled. *)
Definition handled (id : Z) (s s' : docs) : Prop :=
  (exists L', good L' s') /\ streams s' = streams s /\
  exists r', id2req_ s' = <[id := Some r']> (id2req_ s) /\ req_stream_id r' = id.

Lemma lost_snoc s r : length (List.filter leaks (responses s ++ [r])) = (lost s + if leaks r then 1 else 0)%nat.
Proof. unfold lost. rewrite List.filter_app, length_app. cbn. by destruct (leaks r). Qed.

(** A request gets a new file, and something is submitted. *)
Lemma set_file_good L id r f p s :
  good L s -> pending id r s -> (f ∉ fds s) ->
  (leaks p = true <-> is_Some (req_file r)) ->
  handled id s (submit p (set_file id f r (s <| fds := {[f]} ∪ fds s |>))).
Proof.
  intros [H1 H2 H3] [Hr Hid] Hf Hp. split; [|split; [done|]].
  - eexists. split; [by eapply (owns_set X L _ _ id r (r <| req_file := Some f |>) f)| |exact H3].
    change (lost (submit p _)) with (length (List.filter leaks (responses s ++ [p]))). rewrite lost_snoc, <- H2.
    destruct (req_file r) as [f0|] eqn:E.
    + destruct (leaks p); [|by destruct Hp as [_ Hp]; discriminate Hp].
      destruct (ow_file _ _ _ _ H1 id r f0 Hr E) as (_ & _ & Hn). rewrite size_union by set_solver.
      rewrite size_singleton. lia.
    + destruct (leaks p); [|lia]. by destruct Hp as [[? ?] _].
  - by eexists.
Qed.

Lemma submit_good L id r p s :
  good L s -> pending id r s -> leaks p = false -> handled id s (submit p s).
Proof.
  intros [H1 H2 H3] [Hr Hid] Hp. split; [|split; [done|]].
  - exists L. split; [done| |done]. change (lost (submit p s)) with (length (List.filter leaks (responses s ++ [p]))).
    rewrite lost_snoc, <- H2, Hp. lia.
  - exists r. split; [|done]. by rewrite insert_id.
Qed.

Lemma status_good L id a r status s :
  good L s -> pending id r s ->
  (bool_decide (status = STATUS_304) = true <-> is_Some (req_file r)) ->
  handled id s (prepare_status_response a r status s).
Proof.
  intros Hg Hr Hs. unfold Docs.prepare_status_response. pose proof Hr as [_ <-]. destruct (pipe_ok a).
  - eapply (set_file_good L _ r); [done|done|apply new_fd_fresh|].
    unfold leaks. cbn [rs_nv rs_data nth app]. rewrite <- Hs. rewrite (bool_decide_eq_true_2 (is_Some _)) by done.
    by rewrite andb_true_r.
  - eapply submit_good; [done|done|]. unfold leaks. cbn [rs_data]. rewrite (bool_decide_eq_false_2 (is_Some None)).
    + apply andb_false_r.
    + by intros [? ?].
Qed.

Lemma handled_trans id s1 s2 s3 : handled id s1 s2 -> handled id s2 s3 -> handled id s1 s3.
Proof.
  intros (_ & E1 & r1 & R1 & _) (G & E2 & r2 & R2 & H2). split; [done|]. split; [congruence|].
  exists r2. split; [|done]. by rewrite R2, R1, insert_insert_eq.
Qed.

Lemma no_file_status status r : status <> STATUS_304 -> req_file r = None ->
  (bool_decide (status = STATUS_304) = true <-> is_Some (req_file r)).
Proof. intros Hs ->. rewrite bool_decide_eq_true. split; [done|]. by intros [? ?]. Qed.

Lemma serve_file_good L id a r last_mod t n s :
  good L s -> pending id r s -> req_file r = None -> handled id s (serve_file SPDYD_SERVER a r last_mod t n s).
Proof.
  intros Hg Hr Hf. unfold serve_file. cbv zeta. change (req_stream_id (r <| req_file := ?x |>)) with (req_stream_id r).
  pose proof Hr as [Hr1 Hid]. rewrite Hid. set (f := new_fd (fds s)).
  change (set_file id f (r <| req_file := Some f |>)) with (set_file id f r).
  assert (Hfresh : f ∉ fds s) by apply new_fd_fresh. clearbody f.
  destruct (match last_mod with Some t0 => t <=? t0 | None => false end).
  - set (s1 := set_file id f r (s <| fds := {[f]} ∪ fds s |>)).
    assert (H1 : good L s1 /\ streams s1 = streams s /\ id2req_ s1 = <[id := Some (r <| req_file := Some f |>)]> (id2req_ s)).
    { split; [|done]. destruct Hg as [H1 H2 H3]. split; [|exact H2|exact H3].
      pose proof (owns_set X L _ _ id r (r <| req_file := Some f |>) f H1 Hr1 Hfresh eq_refl) as Ho.
      by rewrite Hf in Ho. }
    destruct H1 as (G1 & E1 & E2).
    assert (Hp : pending id (r <| req_file := Some f |>) s1) by (split; [rewrite E2; apply lookup_insert_eq|done]).
    eapply (handled_trans id s s1).
    + split; [eauto|]. split; [done|]. eexists. by split.
    + eapply status_good; [done|done|]. by rewrite bool_decide_eq_true.
  - unfold submit_file_response. cbv zeta. eapply set_file_good; [done|done|done|].
    unfold leaks. cbn [rs_nv rs_data]. rewrite Hf.
    assert (E : nth 1 (if negb (t =? 0) then [str ":status"; STATUS_200; str ":version"; str "HTTP/1.1"; str "server"; SPDYD_SERVER;
       str "content-length"; int_text n; str "cache-control"; str "max-age=3600"; str "date"; http_date (now a)] ++
       [str "last-modified"; http_date t] else [str ":status"; STATUS_200; str ":version"; str "HTTP/1.1"; str "server"; SPDYD_SERVER;
       str "content-length"; int_text n; str "cache-control"; str "max-age=3600"; str "date"; http_date (now a)]) [] = STATUS_200)
      by (by destruct (negb _)).
    rewrite E. split; [done|]. by intros [? ?].
Qed.

Lemma respond_good L id a r last_mod url s :
  good L s -> pending id r s -> req_file r = None -> handled id s (respond_url htdocs SPDYD_SERVER a r last_mod url s).
Proof.
  intros Hg Hr Hf. unfold respond_url. cbv zeta. destruct (check_url (percentDecode url)) eqn:Ec; cbn [negb].
  2: { eapply status_good; [done|done|]. by apply no_file_status. }
  set (path := c_str (file_path htdocs (percentDecode url))).
  assert (Hin : inside htdocs path).
  { destruct (file_path_checked htdocs _ Ec Hdocs) as (q & Eq & H1 & H2 & _). exists q. by split. }
  set (s1 := s <| opened := opened s ++ [path] |>).
  assert (G1 : good L s1).
  { destruct Hg as [H1 H2 H3]. split; [done|done|]. apply Forall_app. by split; [|constructor]. }
  assert (P1 : pending id r s1) by done.
  assert (Hh : forall s2, handled id s1 s2 -> handled id s s2) by done.
  destruct (open_file a path) as [[[t n]|]|]; apply Hh.
  - by eapply serve_file_good.
  - eapply status_good; [done|done|]. by apply no_file_status.
  - eapply status_good; [done|done|]. by apply no_file_status.
Qed.

Lemma prepare_good L id a r s :
  good L s -> pending id r s -> req_file r = None -> handled id s (prepare_response a r s).
Proof.
  intros Hg Hr Hf. unfold Docs.prepare_response. cbv zeta.
  assert (H400 : handled id s (prepare_status_response a r STATUS_400 s))
    by (eapply status_good; [done|done|]; by apply no_file_status).
  destruct (f_url _) as [url|]; [|done]. destruct (_ && _); [|done].
  destruct (_ <? _)%nat; [|by eapply respond_good]. destruct (contains _ _); [|by eapply respond_good].
  split; [eauto|]. split; [done|]. exists r. destruct Hr as [Hr ?]. split; [|done]. by rewrite insert_id.
Qed.

(** ** Every callback *)

Record session (s : docs) : Prop := {
  ss_good : exists L, good L s;
  ss_open : forall id b, streams s !! id = Some b -> exists r, pending id r s /\ (b = false -> req_file r = None);
  ss_closed : forall id, streams s !! id = None -> id2req_ s !! id = None
}.

Lemma session_initial : session (initial X).
Proof.
  split; [|done|done]. exists ∅. split; [apply owns_initial| |done]. by rewrite size_empty.
Qed.

Lemma handled_session id s s' (b : bool) :
  session s -> handled id (s <| streams := <[id := b]> (streams s) |>) s' ->
  (b = false -> forall r, id2req_ s' !! id = Some (Some r) -> req_file r = None) -> session s'.
Proof.
  intros [_ H2 H3] (HG & ES & r' & ER & Hid) Hb. change (id2req_ (s <| streams := ?x |>)) with (id2req_ s) in ER.
  change (streams (s <| streams := ?x |>)) with x in ES. split; [done|..]; rewrite ES.
  - intros i b'. destruct (decide (i = id)) as [->|Hne].
    + rewrite lookup_insert_eq. intros [= <-]. exists r'. split; [split; [by rewrite ER, lookup_insert_eq|done]|].
      intros Hf. apply (Hb Hf). by rewrite ER, lookup_insert_eq.
    + rewrite lookup_insert_ne by done. intros Hi. destruct (H2 i b' Hi) as (r & [Hr ?] & ?). exists r.
      split; [|done]. split; [|done]. by rewrite ER, lookup_insert_ne.
  - intros i Hi. destruct (decide (i = id)) as [->|Hne]; [by rewrite lookup_insert_eq in Hi|].
    rewrite lookup_insert_ne in Hi by done. rewrite ER, lookup_insert_ne by done. by apply H3.
Qed.

Lemma step_session x s : session s -> exists s', step htdocs SPDYD_SERVER x s = Some s' /\ session s'.
Proof.
  intros Hs. pose proof Hs as [(L & HG) H2 H3]. destruct x as [id nv|id nv|a id|id]; cbn [step].
  - destruct (streams s !! id) eqn:Es; [by exists s|]. eexists. split; [done|].
    eapply (handled_session id s _ false); [done| |].
    + split; [|split; [done|by eexists]]. exists L. destruct HG as [G1 G2 G3]. split; [|exact G2|exact G3].
      apply (owns_same _ _ _ _ _ _ G1). change (id2req_ (s <| streams := ?x |>)) with (id2req_ s). by rewrite (H3 _ Es).
    + intros _ r. unfold on_syn_stream, add_stream. cbn. rewrite lookup_insert_eq. by intros [= <-].
  - destruct (streams s !! id) as [[]|] eqn:Es; [by exists s| |by exists s].
    destruct (H2 _ _ Es) as (r & [Hr Hid] & Hf). unfold on_headers, get_stream. rewrite Hr. cbn.
    eexists. split; [done|]. eapply (handled_session id s _ false); [done| |].
    + split; [|split; [by cbn; rewrite insert_id|by eexists]]. exists L. destruct HG as [G1 G2 G3].
      split; [|exact G2|exact G3]. apply (owns_same _ _ _ _ _ _ G1). by rewrite Hr.
    + intros _ r'. cbn. rewrite lookup_insert_eq. intros [= <-]. by apply Hf.
  - destruct (streams s !! id) as [[]|] eqn:Es; [by exists s| |by exists s].
    destruct (H2 _ _ Es) as (r & [Hr Hid] & Hf). unfold htdocs_on_request_recv_callback, get_stream.
    change (id2req_ (s <| streams := ?x |>)) with (id2req_ s). rewrite Hr. cbn [mbind option_bind].
    eexists. split; [done|]. eapply (handled_session id s _ true); [done| |done].
    eapply (prepare_good L); [|done|by apply Hf]. by destruct HG.
  - destruct (streams s !! id) as [b|] eqn:Es; [|by exists s]. eexists. split; [done|].
    destruct (H2 _ _ Es) as (r & [Hr Hid] & _). unfold remove_stream, get_stream.
    change (id2req_ (s <| streams := ?x |>)) with (id2req_ s). rewrite Hr. cbv beta iota.
    assert (E : forall s0, id2req_ (delete_request (Some r) s0) = id2req_ s0 /\ streams (delete_request (Some r) s0) = streams s0 /\
      responses (delete_request (Some r) s0) = responses s0 /\ opened (delete_request (Some r) s0) = opened s0 /\
      fds (delete_request (Some r) s0) = match Some r ≫= req_file with Some f => fds s0 ∖ {[f]} | None => fds s0 end).
    { intros s0. unfold delete_request. cbn [mbind option_bind]. by destruct (req_file r). }
    match goal with |- session (delete_request _ ?x) => specialize (E x) end. destruct E as (E1 & E2 & E3 & E4 & E5).
    split.
    + exists L. destruct HG as [G1 G2 G3]. split; [rewrite E1, E5; by apply owns_remove| |by rewrite E4].
      unfold lost. rewrite E3. exact G2.
    + rewrite E2. intros i b' Hi. cbn in Hi. apply lookup_delete_Some in Hi as [Hne Hi]. destruct (H2 i b' Hi) as (r' & [Hr' ?] & ?).
      exists r'. split; [|done]. split; [|done]. rewrite E1. cbn. by rewrite lookup_delete_ne.
    + rewrite E1, E2. cbn. intros i Hi. apply lookup_delete_None in Hi as [->|Hi]; [apply lookup_delete_eq|].
      rewrite lookup_delete_None. right. by apply H3.
Qed.

Lemma run_session xs s : session s -> exists s', run htdocs SPDYD_SERVER xs s = Some s' /\ session s'.
Proof.
  revert s. induction xs as [|x xs IH]; intros s Hs; cbn [run]; [by exists s|].
  destruct (step_session x s Hs) as (s1 & -> & H1). cbn [mbind option_bind]. by apply IH.
Qed.

End Session.

(** * Theorems *)

(** C9. Whatever clients ask for, the server follows no null pointer and opens only paths
    below htdocs: none goes through an element that is a dot or two dots, and none
    ends in one unless the URL that was asked for holds a NUL byte. *)
Theorem documents_inside `{sys : System} (htdocs SPDYD_SERVER : list Z) (X : gset Z) (xs : list call) :
  Forall (fun c => c <> 0) htdocs ->
  (exists s, run htdocs SPDYD_SERVER xs (initial X) = Some s /\ Forall (inside htdocs) (opened s)) /\
  forall url, check_url url = true -> (0 ∉ url) ->
    exists q, c_str (file_path htdocs url) = htdocs ++ chr "/" :: q /\ Forall (fun x => ~ is_dots x) (elements_of q).
Proof.
  intros Hd. split.
  - destruct (run_session htdocs SPDYD_SERVER X Hd xs (initial X)) as (s & Hr & [(L & HG) _ _]);
      [apply session_initial|]. exists s. split; [done|]. apply HG.
  - intros url Hc Hz. destruct (file_path_checked htdocs url Hc Hd) as (q & Eq & _ & H1 & H2). exists q. split; [done|].
    assert (Hne : elements_of q <> []) by apply split_nonempty.
    rewrite (app_removelast_last [] Hne). apply Forall_app. split; [done|]. constructor; [by apply H2|done].
Qed.

(** C10. The descriptors of a session.  However many streams were opened, asked and
    closed: when the session is deleted the descriptors open are those from before
    and one for each reply 304 that has a page, whose file was opened and never
    closed. *)
Theorem descriptors_accounted `{sys : System} (htdocs SPDYD_SERVER : list Z) (X : gset Z) (xs : list call) :
  Forall (fun c => c <> 0) htdocs ->
  exists s L, run htdocs SPDYD_SERVER xs (initial X) = Some s /\
    fds (delete_requests s) = X ∪ L /\ X ## L /\ size L = lost s.
Proof.
  intros Hd. destruct (run_session htdocs SPDYD_SERVER X Hd xs (initial X)) as (s & Hr & [(L & [H1 H2 _]) _ _]);
    [apply session_initial|]. exists s, L. split; [done|].
  assert (Hx : X ## L) by (intros f Hf; by apply (ow_disjoint _ _ _ _ H1)).
  split; [|done]. apply set_eq. intros f. rewrite delete_requests_fds, elem_of_union, (ow_all _ _ _ _ H1). split.
  - intros [[?|[?|(id & r & Hi & Hf)]] Hn]; auto. by destruct (Hn id r Hi).
  - intros Hf. split; [naive_solver|]. intros id r Hi Hf'. destruct (ow_file _ _ _ _ H1 id r f Hi Hf') as (_ & ? & ?).
    by destruct Hf.
Qed.

(** C15. A file that was sent, asked for again with the date it was sent with, is not
    sent again: last-modified and if-modified-since fit together for every file
    whose date has a year of four digits. *)
Theorem not_modified `{sys : System} (htdocs SPDYD_SERVER : list Z) (a : answers) (r : Request) (s : docs)
    (url : list Z) (t n : Z) :
  find_fields (req_headers r) = mk_found (Some url) true true true true None ->
  (chr "?" ∉ url) -> check_url (percentDecode url) = true ->
  open_file a (c_str (file_path htdocs (percentDecode url))) = Some (Some (t, n)) ->
  t <> 0 -> -30610224000 <= t <= 253402300799 ->
  exists nv fd nv' fd',
    responses (prepare_response htdocs SPDYD_SERVER a r s) =
      responses s ++ [mk_response (req_stream_id r)
        ([str ":status"; STATUS_200] ++ nv ++ [str "last-modified"; http_date t]) fd] /\
    responses (prepare_response htdocs SPDYD_SERVER a (append_nv r [(str "if-modified-since", http_date t)]) s) =
      responses s ++ [mk_response (req_stream_id r) ([str ":status"; STATUS_304] ++ nv') fd'].
Proof.
  intros Hf Hq Hc Ho Ht Hr.
  assert (Hq' : (std_find url (chr "?") <? length url)%nat = false) by (apply Nat.ltb_ge; by rewrite std_find_none).
  pose proof (parse_http_date_text t Hr) as Hp.
  assert (Hf' : find_fields (req_headers (append_nv r [(str "if-modified-since", http_date t)])) =
    mk_found (Some url) true true true true (Some t)).
  { unfold append_nv, find_fields. change (req_headers (r <| req_headers := ?x |>)) with x.
    rewrite foldl_app. fold (find_fields (req_headers r)). rewrite Hf. cbn [map foldl fst snd].
    rewrite (c_str_id (http_date t)) by (by apply http_date_nonzero). by cbn; rewrite Hp. }
  unfold prepare_response. rewrite Hf, Hf'. cbn [f_url f_method f_scheme f_version f_host f_last_mod andb]. cbv zeta.
  rewrite Hq'. unfold respond_url. cbv zeta. rewrite Hc, Ho. cbn [negb]. unfold serve_file. cbv zeta.
  rewrite Z.leb_refl.
  assert (H2 : forall s1, exists nv' fd', responses (prepare_status_response SPDYD_SERVER a
      ((append_nv r [(str "if-modified-since", http_date t)]) <| req_file := Some (new_fd (fds s1)) |>) STATUS_304
      (set_file (req_stream_id r) (new_fd (fds s1))
         ((append_nv r [(str "if-modified-since", http_date t)]) <| req_file := Some (new_fd (fds s1)) |>)
         (s1 <| fds := {[new_fd (fds s1)]} ∪ fds s1 |>))) =
    responses s1 ++ [mk_response (req_stream_id r) ([str ":status"; STATUS_304] ++ nv') fd']).
  { intros s1. unfold prepare_status_response. destruct (pipe_ok a); eexists _, _; reflexivity. }
  destruct (H2 (s <| opened := opened s ++ [c_str (file_path htdocs (percentDecode url))] |>)) as (nv' & fd' & E2).
  eexists _, _, nv', fd'. split; [|exact E2].
  unfold submit_file_response. rewrite (proj2 (Z.eqb_neq t 0) Ht). cbn [negb].
  match goal with |- _ = _ ++ [mk_response _ (?h ++ _ ++ ?l) _] =>
    change (h ++ ?x ++ l) with ([str ":status"; STATUS_200] ++ x ++ l) end. reflexivity.
Qed.

(** * Sessions *)

(** A system that numbers its descriptors upwards. *)
Lemma next_number_fresh (X : gset Z) : foldr Z.max 0 (elements X) + 1 ∉ X.
Proof.
  assert (H : forall l x, x ∈ l -> x <= foldr Z.max 0 l).
  { induction l as [|y l IH]; intros x; [by intros ?%elem_of_nil|]. cbn. intros [->|Hx]%elem_of_cons; [lia|].
    specialize (IH x Hx). lia. }
  intros Hin%elem_of_elements. specialize (H _ _ Hin). lia.
Qed.

Definition demo_system : System := {| new_fd := fun X => foldr Z.max 0 (elements X) + 1; new_fd_fresh := next_number_fresh |}.

Definition demo_docs : list Z := str "/www".
Definition demo_answers : answers :=
  mk_answers 784111777 true (fun path =>
    if bool_decide (path = str "/www/a b.html") then Some (Some (784000000, 12))
    else if bool_decide (path = str "/www/..") then Some (Some (1, 4096)) else None).
Definition ask (path : list Z) : list (list Z * list Z) :=
  [(str ":path", path); (str ":method", str "GET"); (str ":scheme", str "https");
   (str ":version", str "HTTP/1.1"); (str ":host", str "h")].
Definition demo_run (xs : list call) : option docs :=
  run (sys := demo_system) demo_docs (str "spdyd") xs (initial {[1; 2]}).

(** The status of each answer, the paths, and how many descriptors are left open. *)
Definition summary (xs : list call) : option (list (list Z) * list (list Z) * nat) :=
  s ← demo_run xs;
  Some (map (fun r => nth 1 (rs_nv r) []) (responses s), opened s, size (fds (delete_requests s))).

Example documents_run :
  summary [Syn_stream 1 (ask (str "/a%20b.html?x")); Request_recv demo_answers 1; Stream_close 1;
           Syn_stream 3 (ask (str "/b/%2e%2e/c")); Request_recv demo_answers 3;
           Syn_stream 5 [(str ":path", str "/")]; Headers 5 (ask (str "/no")); Request_recv demo_answers 5] =
  Some ([STATUS_200; STATUS_404; STATUS_404], [str "/www/a b.html"; str "/www/index.html"], 2%nat).
Proof. vm_compute. done. Qed.

(** A NUL byte in the URL ends the path early: the directory above is opened. *)
Theorem nul_opens_parent :
  summary [Syn_stream 1 (ask (str "/..%00")); Request_recv demo_answers 1] =
  Some ([STATUS_200], [str "/www/.."], 2%nat).
Proof. vm_compute. done. Qed.

(** A reply 304 loses the descriptor of the file. *)
Theorem not_modified_leaks :
  summary [Syn_stream 1 (ask (str "/a b.html") ++ [(str "if-modified-since", http_date 784000000)]);
           Request_recv demo_answers 1; Stream_close 1] =
  Some ([STATUS_304], [str "/www/a b.html"], 3%nat).
Proof. vm_compute. done. Qed.

Lemma documents_inside_witness :
  exists s, demo_run [Syn_stream 1 (ask (str "/a%20b.html")); Request_recv demo_answers 1] = Some s /\
    Forall (inside demo_docs) (opened s).
Proof.
  refine (proj1 (documents_inside (sys := demo_system) demo_docs (str "spdyd") {[1; 2]}
    [Syn_stream 1 (ask (str "/a%20b.html")); Request_recv demo_answers 1] _)). by repeat constructor.
Defined.

Lemma descriptors_accounted_witness :
  exists s L, demo_run [Syn_stream 1 (ask (str "/a%20b.html")); Request_recv demo_answers 1; Stream_close 1] = Some s /\
    fds (delete_requests s) = {[1; 2]} ∪ L /\ {[1; 2]} ## L /\ size L = lost s.
Proof.
  refine (descriptors_accounted (sys := demo_system) demo_docs (str "spdyd") {[1; 2]}
    [Syn_stream 1 (ask (str "/a%20b.html")); Request_recv demo_answers 1; Stream_close 1] _). by repeat constructor.
Defined.

Lemma not_modified_witness :
  exists nv' fd', responses (prepare_response (sys := demo_system) demo_docs (str "spdyd") demo_answers
      (append_nv (mk_request 1 (ask (str "/a%20b.html")) None) [(str "if-modified-since", http_date 784000000)])
      (initial {[1; 2]})) =
    [mk_response 1 ([str ":status"; STATUS_304] ++ nv') fd'].
Proof.
  destruct (not_modified (sys := demo_system) demo_docs (str "spdyd") demo_answers
    (mk_request 1 (ask (str "/a%20b.html")) None) (initial {[1; 2]}) (str "/a%20b.html") 784000000 12)
    as (nv & fd & nv' & fd' & _ & H); [vm_compute; reflexivity| | | |lia|lia|by exists nv', fd'].
  - by rewrite !elem_of_cons, elem_of_nil; naive_solver lia.
  - vm_compute. reflexivity.
  - vm_compute. reflexivity.
Defined.

End DocsProps.
