(* ===== verification/ServerLoop.v ===== *)
(** The event loop of the SPDY server: the handlers of SpdyServer.cc, their sockets
    and SSL objects, and EventPoll_epoll.cc.

    A pointer to an EventHandler or an SSL object is a number; the handlers that
    exist are the map [objects], and following a pointer to a deleted one, freeing
    an SSL object twice and closing a socket that is not open are the failure
    [Deleted].  What the system, OpenSSL and the SPDY library answer are arguments
    of a turn of the loop; memory is not exhausted. *)
From stdpp Require Import gmap.
From S2P Require Import Prelude Records.

Module Loop.

(** * EventPoll *)

Definition EP_POLLIN : Z := 1.
Definition EP_POLLOUT : Z := 2.
Definition EP_POLLHUP : Z := 4.
Definition EP_POLLERR : Z := 8.
Definition EPOLLIN : Z := 1.
Definition EPOLLOUT : Z := 4.
Definition EPOLLERR : Z := 8.
Definition EPOLLHUP : Z := 16.

Definition get_events (revents : Z) : Z :=
  let events := 0 in
  let events := if has_flag revents EPOLLIN then Z.lor events EP_POLLIN else events in
  let events := if has_flag revents EPOLLOUT then Z.lor events EP_POLLOUT else events in
  let events := if has_flag revents EPOLLHUP then Z.lor events EP_POLLHUP else events in
  if has_flag revents EPOLLERR then Z.lor events EP_POLLERR else events.

(** The events field of update_event. *)
Definition epoll_events (events : Z) : Z :=
  Z.lor (if has_flag events EP_POLLIN then EPOLLIN else 0) (if has_flag events EP_POLLOUT then EPOLLOUT else 0).

Inductive poll_op := EP_ADD | EP_MOD.

(** * Handlers *)

(** The classes derived from EventHandler; of the SPDY session, whether it wants to
    read and to write. *)
Inductive handler :=
  | ListenEventHandler (fd : Z)
  | SSLAcceptEventHandler (fd ssl : Z) (fail_ finish_ want_read_ want_write_ : bool) (session_id : Z)
  | SpdyEventHandler (fd ssl version : Z) (session_wants_read session_wants_write want_write_ : bool) (session_id : Z).

Record EventHandler := mk_handler { mark_del_ : bool; kind : handler }.
#[export] Instance eta_EventHandler : Settable EventHandler := fun h => mk_handler (mark_del_ h) (kind h).

Definition want_read (h : handler) : bool :=
  match h with
  | ListenEventHandler _ => true
  | SSLAcceptEventHandler _ _ _ _ r _ _ => r
  | SpdyEventHandler _ _ _ r _ _ _ => r
  end.

Definition want_write (h : handler) : bool :=
  match h with
  | ListenEventHandler _ => false
  | SSLAcceptEventHandler _ _ _ _ _ w _ => w
  | SpdyEventHandler _ _ _ _ w ww _ => w || ww
  end.

Definition fd_of (h : handler) : Z :=
  match h with
  | ListenEventHandler fd => fd
  | SSLAcceptEventHandler fd _ _ _ _ _ _ => fd
  | SpdyEventHandler fd _ _ _ _ _ _ => fd
  end.

Definition finish (h : handler) : bool :=
  match h with
  | ListenEventHandler _ => false
  | SSLAcceptEventHandler _ _ _ f _ _ _ => f
  | SpdyEventHandler _ _ _ r w _ _ => negb r && negb w
  end.

(** * The server *)

(** The handlers, the set of class Sessions, what is registered with epoll, the open
    sockets of clients, the SSL objects, session_id_seed, and the next number. *)
Record server := mk_server {
  objects : gmap Z EventHandler;
  handlers_ : gset Z;
  registered : gmap Z (Z * Z);
  sockets : gset Z;
  ssls : gset Z;
  seed : Z;
  next : Z
}.
#[export] Instance eta_server : Settable server := fun s =>
  mk_server (objects s) (handlers_ s) (registered s) (sockets s) (ssls s) (seed s) (next s).

Inductive crash := Deleted | Assertion_failed.

Definition M (A : Type) : Type := server -> crash + A * server.
#[export] Instance M_ret : MRet M := fun A a s => inr (a, s).
#[export] Instance M_bind : MBind M := fun A B k m s =>
  match m s with inl e => inl e | inr (a, s) => k a s end.

Definition update (f : server -> server) : M unit := fun s => inr (tt, f s).
Definition failed {A} (e : crash) : M A := fun _ => inl e.

Definition get_handler (p : Z) : M EventHandler := fun s =>
  match objects s !! p with Some h => inr (h, s) | None => inl Deleted end.
Definition set_handler (p : Z) (h : EventHandler) : M unit := fun s =>
  match objects s !! p with Some _ => inr (tt, s <| objects := <[p := h]> (objects s) |>) | None => inl Deleted end.
Definition mod_handler (p : Z) (f : EventHandler -> EventHandler) : M unit :=
  h ← get_handler p; set_handler p (f h).
Definition mark_del (p : Z) : M unit := mod_handler p (fun h => h <| mark_del_ := true |>).

Definition new_handler (k : handler) : M Z := fun s =>
  inr (next s, s <| objects := <[next s := mk_handler false k]> (objects s) |> <| next := next s + 1 |>).
Definition new_ssl : M Z := fun s => inr (next s, s <| ssls := {[next s]} ∪ ssls s |> <| next := next s + 1 |>).

Definition SSL_free (ssl : Z) : M unit := fun s =>
  if decide (ssl ∈ ssls s) then inr (tt, s <| ssls := ssls s ∖ {[ssl]} |>) else inl Deleted.

(** close of a client's socket; epoll forgets it. *)
Definition close (fd : Z) : M unit := fun s =>
  if decide (fd ∈ sockets s)
  then inr (tt, s <| sockets := sockets s ∖ {[fd]} |> <| registered := delete fd (registered s) |>)
  else inl Deleted.

(** The destructors of the classes; a handler for SPDY ends its session first. *)
Definition delete_accept (fd ssl : Z) (fail_ : bool) : M unit := if fail_ then SSL_free ssl;; close fd else mret tt.
Definition delete_spdy_session (fd ssl : Z) : M unit := SSL_free ssl;; close fd.

Definition delete_event_handler (p : Z) : M unit :=
  h ← get_handler p;
  match kind h with
  | ListenEventHandler _ => mret tt
  | SSLAcceptEventHandler fd ssl fail_ _ _ _ _ => delete_accept fd ssl fail_
  | SpdyEventHandler fd ssl _ _ _ _ _ => delete_spdy_session fd ssl
  end;;
  update (fun s => s <| objects := delete p (objects s) |>).

(** ** class Sessions *)

Definition add_handler (p : Z) : M unit := update (fun s => s <| handlers_ := {[p]} ∪ handlers_ s |>).
Definition remove_handler (p : Z) : M unit := update (fun s => s <| handlers_ := handlers_ s ∖ {[p]} |>).

(** epoll_ctl: adding refuses a descriptor that is registered and modifying one that
    is not; [ok] is false when it fails for another reason. *)
Definition ctl_event (ok : bool) (op : poll_op) (fd events p : Z) : M Z := fun s =>
  let known := bool_decide (is_Some (registered s !! fd)) in
  let fits := match op with EP_ADD => negb known | EP_MOD => known end in
  if ok && fits then inr (0, s <| registered := <[fd := (epoll_events events, p)]> (registered s) |>) else inr (-1, s).

Definition update_poll_internal (ok : bool) (p : Z) (op : poll_op) : M Z :=
  h ← get_handler p;
  let events := if want_read (kind h) then EP_POLLIN else 0 in
  let events := if want_write (kind h) then Z.lor events EP_POLLOUT else events in
  ctl_event ok op (fd_of (kind h)) events p.

Definition add_poll (ok : bool) (p : Z) : M Z := update_poll_internal ok p EP_ADD.
Definition mod_poll (ok : bool) (p : Z) : M Z := update_poll_internal ok p EP_MOD.

(** on_close *)
Definition on_close (p : Z) : M unit := remove_handler p;; delete_event_handler p.

(** * The turn of a handler *)

(** SSL_accept: done, with the version of the negotiated protocol, refused, waiting,
    or failed. *)
Inductive accept_answer :=
  | Accepted (version : option Z)
  | Refused
  | Wants_read
  | Wants_write
  | Failed.

(** ** Input and output of a session *)

(** SSL_get_error after a call that failed. *)
Inductive io_error := Read_again | Write_again | Other_error.

(** What the SPDY library is told: a count, SPDYLAY_ERR_WOULDBLOCK,
    SPDYLAY_ERR_CALLBACK_FAILURE or SPDYLAY_ERR_EOF. *)
Inductive callback_result := Bytes (n : Z) | Would_block | Callback_failure | End_of_file.

Definition would_block (e : io_error) : bool := match e with Other_error => false | _ => true end.

(** want_write_ after SSL_read has returned [r]. *)
Definition recv_data (r : Z) (e : io_error) : bool := (r <? 0) && match e with Write_again => true | _ => false end.

Definition hd_send_callback (r : Z) (e : io_error) : callback_result :=
  if r <? 0 then if would_block e then Would_block else Callback_failure else Bytes r.

Definition hd_recv_callback (r : Z) (e : io_error) : callback_result :=
  if r <? 0 then if would_block e then Would_block else Callback_failure
  else if r =? 0 then End_of_file else Bytes r.

(** spdylay_session_recv reads until the callback has no more bytes; want_write_ is what
    the last call of recv_data leaves. *)
Fixpoint session_recv (reads : list (Z * io_error)) (want_write_ : bool) : bool :=
  match reads with
  | [] => want_write_
  | (r, e) :: reads =>
      match hd_recv_callback r e with Bytes _ => session_recv reads (recv_data r e) | _ => recv_data r e end
  end.

(** accept gives a descriptor that is not open, or nothing; whether its options can be
    set, SSL_set_fd, epoll_ctl in the handler and after it, what the session
    wants when it is made and when it has run, what its calls return and what is read
    for it. *)
Record answers := mk_answers {
  accepted : option Z;
  options_ok : bool;
  set_fd_ok : bool;
  ctl_ok : bool;
  mod_ok : bool;
  ssl_accept : accept_answer;
  session_made : bool;
  new_wants_read : bool;
  new_wants_write : bool;
  recv_rv : Z;
  send_rv : Z;
  wants_read : bool;
  wants_write : bool;
  reads : list (Z * io_error)
}.

(** ++( *session_id_seed_ptr_) *)
Definition next_session_id : M Z := fun s => inr (seed s + 1, s <| seed := seed s + 1 |>).

(** A descriptor that accept gives. *)
Definition new_socket (cfd : Z) : M unit := update (fun s => s <| sockets := {[cfd]} ∪ sockets s |>).

Definition ssl_session_new (a : answers) : M (option Z) :=
  ssl ← new_ssl;
  if negb (set_fd_ok a) then SSL_free ssl;; mret None else mret (Some ssl).

(** ListenEventHandler::add_next_handler *)
Definition listen_next_handler (a : answers) (cfd : Z) : M unit :=
  ssl ← ssl_session_new a;
  match ssl with
  | None => close cfd
  | Some ssl =>
      sid ← next_session_id;
      p ← new_handler (SSLAcceptEventHandler cfd ssl false false true true sid);
      rv ← add_poll (ctl_ok a) p;
      if rv =? -1 then delete_event_handler p;; SSL_free ssl;; close cfd else add_handler p
  end.

Definition listen_execute (a : answers) : M Z :=
  match accepted a with
  | None => mret 0
  | Some cfd => fun s =>
      if decide (cfd ∈ sockets s \/ is_Some (registered s !! cfd)) then inr (0, s)
      else (new_socket cfd;; (if negb (options_ok a) then close cfd else listen_next_handler a cfd);; mret 0) s
  end.

(** The constructor asserts that the session was made and has its settings. *)
Definition new_spdy_handler (a : answers) (fd ssl version sid : Z) : M Z :=
  if negb (session_made a) then failed Assertion_failed else
  new_handler (SpdyEventHandler fd ssl version (new_wants_read a) (new_wants_write a) false sid).

(** SSLAcceptEventHandler::add_next_handler *)
Definition accept_next_handler (a : answers) (fd ssl version sid : Z) : M unit :=
  p ← new_spdy_handler a fd ssl version sid;
  rv ← mod_poll (ctl_ok a) p;
  if rv =? -1 then delete_event_handler p else add_handler p.

Definition accept_execute (a : answers) (p fd ssl sid : Z) : M Z :=
  let update fail_ finish_ r w := mod_handler p (fun h => h <| kind := SSLAcceptEventHandler fd ssl fail_ finish_ r w sid |>) in
  match ssl_accept a with
  | Accepted version =>
      match version with
      | Some v => if negb (v =? 0) then update false true false false;; accept_next_handler a fd ssl v sid;; mret 0
                  else update true true false false;; mret 0
      | None => update true true false false;; mret 0
      end
  | Refused => update true true false false;; mret 0
  | Wants_read => update false false true false;; mret 0
  | Wants_write => update false false false true;; mret 0
  | Failed => update true true false false;; mret 0
  end.

(** SpdyEventHandler::execute *)
Definition spdy_execute (a : answers) (p fd ssl version : Z) (want_write_ : bool) (sid : Z) : M Z :=
  mod_handler p (fun h => h <| kind :=
    SpdyEventHandler fd ssl version (wants_read a) (wants_write a) (session_recv (reads a) want_write_) sid |>);;
  mret (if recv_rv a =? 0 then send_rv a else recv_rv a).

Definition execute (a : answers) (p : Z) : M Z :=
  h ← get_handler p;
  match kind h with
  | ListenEventHandler _ => listen_execute a
  | SSLAcceptEventHandler fd ssl _ _ _ _ sid => accept_execute a p fd ssl sid
  | SpdyEventHandler fd ssl version _ _ want_write_ sid => spdy_execute a p fd ssl version want_write_ sid
  end.

(** * The loop *)

(** One event; the result says whether the handler is to be deleted. *)
Definition handle_event (p : Z) (revents : Z) (a : answers) : M bool :=
  h ← get_handler p;
  let events := get_events revents in
  if mark_del_ h then mret false else
  r ← (if has_flag events EP_POLLIN || has_flag events EP_POLLOUT then execute a p
       else if has_flag events (Z.lor EP_POLLERR EP_POLLHUP) then mark_del p;; mret 0
       else mret 0);
  (if negb (r =? 0) then mark_del p
   else h ← get_handler p; if finish (kind h) then mark_del p else mod_poll (mod_ok a) p;; mret tt);;
  h ← get_handler p; mret (mark_del_ h).

Record event := mk_event { ev_fd : Z; ev_revents : Z; ev_answers : answers }.

Fixpoint handle_events (batch : list (Z * event)) : M (list Z) :=
  match batch with
  | [] => mret []
  | (p, e) :: batch =>
      del ← handle_event p (ev_revents e) (ev_answers e);
      del_list ← handle_events batch;
      mret (if del : bool then p :: del_list else del_list)
  end.

Definition delete_list (l : list Z) : M unit :=
  foldr (fun p m => on_close p;; remove_handler p;; m) (mret tt) l.

(** A hangup or an error that comes alone, for a handler that does not close its
    socket when it is deleted. *)
Definition lone_hangup (h : handler) (revents : Z) : bool :=
  let events := get_events revents in
  negb (has_flag events EP_POLLIN || has_flag events EP_POLLOUT) &&
  match h with SpdyEventHandler _ _ _ _ _ _ _ => false | _ => true end.

Definition MAX_EVENTS : nat := 256.

(** epoll_wait: at most MAX_EVENTS descriptors that are registered, each once, with the
    pointer they were registered with.  When [hangups] is false no lone hangup is
    reported. *)
Definition epoll_wait (hangups : bool) (evs : list event) (s : server) : list (Z * event) :=
  if decide (NoDup (map ev_fd evs)) then
    take MAX_EVENTS (omap (fun e => '(_, p) ← registered s !! ev_fd e;
      match objects s !! p with
      | Some h => if negb hangups && lone_hangup (kind h) (ev_revents e) then None else Some (p, e)
      | None => Some (p, e)
      end) evs)
  else [].

Definition turn (hangups : bool) (evs : list event) : M unit := fun s =>
  (del_list ← handle_events (epoll_wait hangups evs s); delete_list del_list) s.

Fixpoint serve (hangups : bool) (turns : list (list event)) : M unit :=
  match turns with [] => mret tt | evs :: turns => turn hangups evs;; serve hangups turns end.

(** The beginning of run: a handler for each listening socket, [None] when there is
    none; one that cannot be registered is deleted, and added all the same. *)
Definition start_listener (sfd : option Z) (ok : bool) : M unit :=
  p ← new_handler (ListenEventHandler (default (-1) sfd));
  rv ← (match sfd with Some _ => add_poll ok p | None => mret (-1) end);
  (if rv =? -1 then delete_event_handler p else mret tt);;
  add_handler p.

Definition run (sfd4 sfd6 : option Z) (ok4 ok6 : bool) (hangups : bool) (turns : list (list event)) : crash + unit * server :=
  (start_listener sfd4 ok4;; start_listener sfd6 ok6;; serve hangups turns) (mk_server ∅ ∅ ∅ ∅ ∅ 0 1).

End Loop.
