(* ===== verification/ServerSafety.v ===== *)
(** The sockets and SSL objects of the SPDY server: each belongs to one handler, and no
    handler is used after it was deleted. *)
From stdpp Require Import gmap.
From S2P Require Import Prelude Records ServerLoop.

Module LoopSafety.
Import Loop.

(** * Who owns a socket *)

(** The descriptor that a handler waits for, the socket and the SSL object that it
    owns: a handler whose handshake has succeeded has handed them on. *)
Definition handed_on (h : handler) : bool :=
  match h with SSLAcceptEventHandler _ _ fail_ finish_ _ _ _ => finish_ && negb fail_ | _ => false end.
Definition poll_fd (h : handler) : option Z := if handed_on h then None else Some (fd_of h).
Definition conn_fd (h : handler) : option Z :=
  match h with ListenEventHandler _ => None | _ => poll_fd h end.
Definition conn_ssl (h : handler) : option Z :=
  match h with
  | ListenEventHandler _ => None
  | SSLAcceptEventHandler _ ssl _ _ _ _ _ => if handed_on h then None else Some ssl
  | SpdyEventHandler _ ssl _ _ _ _ _ => Some ssl
  end.

(** A handler that may be deleted, and one that may stay. *)
Definition deletable (h : handler) : Prop :=
  match h with
  | ListenEventHandler _ => False
  | SSLAcceptEventHandler _ _ _ finish_ _ _ _ => finish_ = true
  | SpdyEventHandler _ _ _ _ _ _ _ => True
  end.
Definition waiting (h : handler) : Prop :=
  match h with SSLAcceptEventHandler _ _ fail_ finish_ _ _ _ => fail_ = false /\ finish_ = false | _ => True end.

(** [D] are the handlers that are marked to be deleted. *)
Record inv (D : list Z) (s : server) : Prop := {
  i_next : forall p h, objects s !! p = Some h -> p < next s;
  i_ssl_next : forall x, x ∈ ssls s -> x < next s;
  i_alive : forall p, p ∈ D -> is_Some (objects s !! p);
  i_marked : forall p h, objects s !! p = Some h -> (mark_del_ h = true <-> p ∈ D);
  i_deletable : forall p h, objects s !! p = Some h -> mark_del_ h = true -> deletable (kind h);
  i_waiting : forall p h, objects s !! p = Some h -> mark_del_ h = false -> waiting (kind h);
  i_polled : forall fd p, (exists e, registered s !! fd = Some (e, p)) <->
    exists h, objects s !! p = Some h /\ poll_fd (kind h) = Some fd;
  i_sockets : forall fd, fd ∈ sockets s <-> exists p h, objects s !! p = Some h /\ conn_fd (kind h) = Some fd;
  i_ssls : forall x, x ∈ ssls s <-> exists p h, objects s !! p = Some h /\ conn_ssl (kind h) = Some x;
  i_inj : forall p1 p2 h1 h2 x, objects s !! p1 = Some h1 -> objects s !! p2 = Some h2 ->
    conn_ssl (kind h1) = Some x -> conn_ssl (kind h2) = Some x -> p1 = p2
}.

(** The class of a handler does not change. *)
Definition class (h : handler) : nat :=
  match h with ListenEventHandler _ => 0 | SSLAcceptEventHandler _ _ _ _ _ _ _ => 1 | SpdyEventHandler _ _ _ _ _ _ _ => 2 end.

Definition stays (s s' : server) : Prop :=
  forall p h, objects s !! p = Some h -> exists h', objects s' !! p = Some h' /\ class (kind h') = class (kind h).

Lemma stays_refl s s' : objects s' = objects s -> stays s s'.
Proof. intros E p h Hp. rewrite E. eauto. Qed.

Lemma stays_trans s1 s2 s3 : stays s1 s2 -> stays s2 s3 -> stays s1 s3.
Proof.
  intros H1 H2 p h Hp. destruct (H1 p h Hp) as (h1 & Hp1 & E1), (H2 p h1 Hp1) as (h2 & Hp2 & E2).
  exists h2. split; [done|congruence].
Qed.

Lemma stays_set s s' p h h' :
  objects s !! p = Some h -> class (kind h') = class (kind h) -> objects s' !! p = Some h' ->
  (forall q g, q <> p -> objects s !! q = Some g -> objects s' !! q = Some g) -> stays s s'.
Proof. intros Hp Hc Hp' Hq q g Hg. destruct (decide (q = p)) as [->|Hne]; [|eauto]. exists h'. split; [done|congruence]. Qed.

Lemma polled_conn k fd : conn_fd k = Some fd -> poll_fd k = Some fd.
Proof. by destruct k. Qed.

(** ** Changes *)

(** The same handlers, with the same resources. *)
Lemma inv_ext D s s' :
  inv D s -> (forall p, objects s' !! p = objects s !! p) -> next s <= next s' ->
  (forall fd, fd ∈ sockets s' <-> fd ∈ sockets s) -> (forall x, x ∈ ssls s' <-> x ∈ ssls s) ->
  (forall fd p, (exists e, registered s' !! fd = Some (e, p)) <-> (exists e, registered s !! fd = Some (e, p))) ->
  inv D s'.
Proof.
  intros [H1 H2 HA H3 H4 H5 H6 H7 H8 H9] EO EN ES EX ER. split.
  - intros p h. rewrite EO. intros Hp. specialize (H1 p h Hp). lia.
  - intros x Hx%EX. specialize (H2 x Hx). lia.
  - intros p. rewrite EO. eauto.
  - intros p h. rewrite EO. eauto.
  - intros p h. rewrite EO. eauto.
  - intros p h. rewrite EO. eauto.
  - intros fd p. rewrite ER, EO. eauto.
  - intros fd. rewrite ES, H7. by setoid_rewrite EO.
  - intros x. rewrite EX, H8. by setoid_rewrite EO.
  - intros p1 p2 h1 h2 x. rewrite !EO. eauto.
Qed.

(** A handler with the same resources and another state. *)
Lemma inv_kind D D' p h h' s :
  inv D s -> objects s !! p = Some h ->
  poll_fd (kind h') = poll_fd (kind h) -> conn_fd (kind h') = conn_fd (kind h) -> conn_ssl (kind h') = conn_ssl (kind h) ->
  (mark_del_ h' = true -> deletable (kind h')) -> (mark_del_ h' = false -> waiting (kind h')) ->
  (mark_del_ h' = true <-> p ∈ D') -> (forall q, q <> p -> q ∈ D' <-> q ∈ D) ->
  inv D' (s <| objects := <[p := h']> (objects s) |>).
Proof.
  intros [H1 H2 HA H3 H4 H5 H6 H7 H8 H9] Hp E1 E2 E3 Hd Hw Hm HD.
  assert (Hlk : forall q g, <[p := h']> (objects s) !! q = Some g ->
    (q = p /\ g = h') \/ (q <> p /\ objects s !! q = Some g)).
  { intros q g. destruct (decide (q = p)) as [->|Hne].
    - rewrite lookup_insert_eq. intros [= <-]. auto.
    - rewrite lookup_insert_ne by done. auto. }
  assert (Hview : forall {A} (f : handler -> option A) a, f (kind h') = f (kind h) -> forall q,
    (exists g, <[p := h']> (objects s) !! q = Some g /\ f (kind g) = Some a) <->
    (exists g, objects s !! q = Some g /\ f (kind g) = Some a)).
  { intros A f a Ef q. destruct (decide (q = p)) as [->|Hne].
    - rewrite lookup_insert_eq. split; [intros (g & [= <-] & Hg); exists h; by rewrite <- Ef|].
      intros (g & Hg & Hf). exists h'. split; [done|]. rewrite Ef. congruence.
    - by rewrite lookup_insert_ne. }
  split; cbn.
  - intros q g Hq. destruct (Hlk q g Hq) as [[-> ->]|[_ ?]]; eauto.
  - done.
  - intros q Hq. destruct (decide (q = p)) as [->|Hne]; [by rewrite lookup_insert_eq|].
    rewrite lookup_insert_ne by done. by apply HA, HD.
  - intros q g Hq. destruct (Hlk q g Hq) as [[-> ->]|[Hne Hq']]; [done|]. rewrite HD by done. eauto.
  - intros q g Hq. destruct (Hlk q g Hq) as [[-> ->]|[_ ?]]; eauto.
  - intros q g Hq. destruct (Hlk q g Hq) as [[-> ->]|[_ ?]]; eauto.
  - intros fd q. rewrite (Hview _ poll_fd fd E1 q). apply H6.
  - intros fd. rewrite H7. split; intros (q & Hq); exists q; by apply (Hview _ conn_fd fd E2 q).
  - intros x. rewrite H8. split; intros (q & Hq); exists q; by apply (Hview _ conn_ssl x E3 q).
  - intros p1 p2 h1 h2 x Hp1 Hp2 Hx1 Hx2.
    destruct (proj1 (Hview _ conn_ssl x E3 p1)) as (g1 & ? & ?); [eauto|].
    destruct (proj1 (Hview _ conn_ssl x E3 p2)) as (g2 & ? & ?); [eauto|]. eauto.
Qed.

(** A new handler, for a socket and an SSL object that no other has. *)
Lemma inv_new D k q fd e s s' :
  inv D s -> next s <= q < next s' ->
  poll_fd k = Some fd -> waiting k -> (fd ∉ sockets s) -> registered s !! fd = None ->
  (forall x, conn_ssl k = Some x -> (x ∉ ssls s) /\ x < next s') ->
  objects s' = <[q := mk_handler false k]> (objects s) ->
  (forall fd', registered s' !! fd' = if decide (fd' = fd) then Some (e, q) else registered s !! fd') ->
  (forall fd', fd' ∈ sockets s' <-> conn_fd k = Some fd' \/ fd' ∈ sockets s) ->
  (forall x, x ∈ ssls s' <-> conn_ssl k = Some x \/ x ∈ ssls s) ->
  inv D s'.
Proof.
  intros [H1 H2 HA H3 H4 H5 H6 H7 H8 H9] Hn K1 K2 Hfd Hreg Hx E1 E2 E3 E4.
  assert (Hq : objects s !! q = None).
  { destruct (objects s !! q) as [g|] eqn:E; [|done]. specialize (H1 q g E). lia. }
  assert (Hlk : forall p g, objects s' !! p = Some g -> (p = q /\ g = mk_handler false k) \/ (p <> q /\ objects s !! p = Some g)).
  { intros p g. rewrite E1. destruct (decide (p = q)) as [->|Hne].
    - rewrite lookup_insert_eq. intros [= <-]. auto.
    - rewrite lookup_insert_ne by done. auto. }
  assert (Hold : forall p g, objects s !! p = Some g -> objects s' !! p = Some g).
  { intros p g Hp. rewrite E1, lookup_insert_ne; [done|]. congruence. }
  assert (Hnew : objects s' !! q = Some (mk_handler false k)) by (by rewrite E1, lookup_insert_eq).
  split.
  - intros p g Hp. destruct (Hlk p g Hp) as [[-> _]|[_ Hp']]; [lia|]. specialize (H1 p g Hp'). lia.
  - intros y [Hy|Hy]%E4; [by apply Hx|]. specialize (H2 y Hy). lia.
  - intros p Hp. destruct (HA p Hp) as [g Hg]. eauto.
  - intros p g Hp. destruct (Hlk p g Hp) as [[-> ->]|[_ Hp']]; [|eauto].
    split; [done|]. intros Hin. destruct (HA q Hin). congruence.
  - intros p g Hp. destruct (Hlk p g Hp) as [[-> ->]|[_ Hp']]; [done|eauto].
  - intros p g Hp. destruct (Hlk p g Hp) as [[-> ->]|[_ Hp']]; [done|eauto].
  - intros fd' p. rewrite E2. destruct (decide (fd' = fd)) as [->|Hne].
    + split; [intros (e' & [= _ <-]); eauto|]. intros (g & Hg & Kg).
      destruct (Hlk p g Hg) as [[-> _]|[_ Hp']]; [eauto|].
      destruct (proj2 (H6 fd p)) as (e' & He'); [eauto|]. congruence.
    + rewrite H6. split; intros (g & Hg & Kg); [eauto|].
      destruct (Hlk p g Hg) as [[-> ->]|[_ Hp']]; [cbn in Kg; congruence|eauto].
  - intros fd'. rewrite E3, H7. split.
    + intros [Hk|(p & g & Hg & Kg)]; eauto.
    + intros (p & g & Hg & Kg). destruct (Hlk p g Hg) as [[-> ->]|[_ Hp']]; eauto.
  - intros y. rewrite E4, H8. split.
    + intros [Hk|(p & g & Hg & Kg)]; eauto.
    + intros (p & g & Hg & Kg). destruct (Hlk p g Hg) as [[-> ->]|[_ Hp']]; eauto.
  - intros p1 p2 h1 h2 y Hp1 Hp2 Hy1 Hy2.
    destruct (Hlk _ _ Hp1) as [[-> ->]|[_ Hp1']], (Hlk _ _ Hp2) as [[-> ->]|[_ Hp2']]; [done| | |eauto].
    + destruct (Hx y Hy1) as [[] _]. apply H8. eauto.
    + destruct (Hx y Hy2) as [[] _]. apply H8. eauto.
Qed.

(** A handler is deleted, or is left with nothing to own and marked; what it owned is
    closed. *)
Lemma inv_drop D D' p h s s' :
  inv D s -> objects s !! p = Some h -> next s <= next s' ->
  (forall q, q <> p -> objects s' !! q = objects s !! q) -> (forall q, q <> p -> q ∈ D' <-> q ∈ D) ->
  (forall g, objects s' !! p = Some g -> handed_on (kind g) = true /\ mark_del_ g = true) ->
  (p ∈ D' <-> is_Some (objects s' !! p)) ->
  (forall q, q ∈ sockets s' <-> q ∈ sockets s /\ conn_fd (kind h) <> Some q) ->
  (forall x, x ∈ ssls s' <-> x ∈ ssls s /\ conn_ssl (kind h) <> Some x) ->
  (forall fd, registered s' !! fd = if decide (poll_fd (kind h) = Some fd) then None else registered s !! fd) ->
  inv D' s'.
Proof.
  intros [H1 H2 HA H3 H4 H5 H6 H7 H8 H9] Hp EN EO HD Hg HpD HS HX HR.
  assert (Hlk : forall q g, objects s' !! q = Some g ->
    (q = p /\ handed_on (kind g) = true /\ mark_del_ g = true) \/ (q <> p /\ objects s !! q = Some g)).
  { intros q g Hq. destruct (decide (q = p)) as [->|Hne]; [left; eauto|]. rewrite EO in Hq by done. auto. }
  assert (Hview : forall {A} (f : handler -> option A) a, (forall k, handed_on k = true -> f k = None) -> forall q,
    (exists g, objects s' !! q = Some g /\ f (kind g) = Some a) <->
    q <> p /\ (exists g, objects s !! q = Some g /\ f (kind g) = Some a)).
  { intros A f a Hf q. split.
    - intros (g & Hq & Kg). destruct (Hlk q g Hq) as [(-> & Hh & _)|[Hne Hq']]; [rewrite Hf in Kg by done; done|eauto].
    - intros (Hne & g & Hq & Kg). exists g. by rewrite EO. }
  assert (V1 : forall k, handed_on k = true -> poll_fd k = None) by (intros k Hk; unfold poll_fd; by rewrite Hk).
  assert (V2 : forall k, handed_on k = true -> conn_fd k = None) by (intros []; [done|apply V1|done]).
  assert (V3 : forall k, handed_on k = true -> conn_ssl k = None) by (intros [] Hk; [done| |done]; unfold conn_ssl; by rewrite Hk).
  split.
  - intros q g Hq. destruct (decide (q = p)) as [->|Hne]; [specialize (H1 p h Hp); lia|].
    rewrite EO in Hq by done. specialize (H1 q g Hq). lia.
  - intros x [Hx _]%HX. specialize (H2 x Hx). lia.
  - intros q Hq. destruct (decide (q = p)) as [->|Hne]; [by apply HpD|]. rewrite EO by done. by apply HA, HD.
  - intros q g Hq. destruct (Hlk q g Hq) as [(-> & _ & Hm)|[Hne Hq']]; [|rewrite HD by done; eauto].
    split; [|done]. intros _. apply HpD. eauto.
  - intros q g Hq Hm. destruct (Hlk q g Hq) as [(_ & Hh & _)|[Hne Hq']]; [|eauto].
    destruct (kind g); [done| |done]. cbn in *. by destruct finish_.
  - intros q g Hq Hm. destruct (Hlk q g Hq) as [(_ & _ & Hm')|[Hne Hq']]; [congruence|eauto].
  - intros fd q. rewrite HR, (Hview _ poll_fd fd V1 q). destruct (decide (poll_fd (kind h) = Some fd)) as [E|E].
    + split; [by intros (? & ?)|]. intros (Hne & g & Hq & Kg). exfalso.
      destruct (proj2 (H6 fd q)) as (e1 & He1); [eauto|]. destruct (proj2 (H6 fd p)) as (e2 & He2); [eauto|]. congruence.
    + rewrite H6. split; [|by intros [_ ?]]. intros (g & Hq & Kg). split; [intros ->; congruence|eauto].
  - intros fd. rewrite HS, H7. setoid_rewrite (Hview _ conn_fd fd V2). split.
    + intros [(q & g & Hq & Kg) Hn]. exists q. split; [intros ->; congruence|eauto].
    + intros (q & Hne & g & Hq & Kg). split; [eauto|]. intros E.
      destruct (proj2 (H6 fd q)) as (e1 & He1); [eauto using polled_conn|].
      destruct (proj2 (H6 fd p)) as (e2 & He2); [eauto using polled_conn|]. congruence.
  - intros x. rewrite HX, H8. setoid_rewrite (Hview _ conn_ssl x V3). split.
    + intros [(q & g & Hq & Kg) Hn]. exists q. split; [intros ->; congruence|eauto].
    + intros (q & Hne & g & Hq & Kg). split; [eauto|]. intros E. apply Hne. by eapply H9.
  - intros p1 p2 h1 h2 x Hp1 Hp2 X1 X2.
    destruct (proj1 (Hview _ conn_ssl x V3 p1)) as (_ & g1 & ? & ?); [eauto|].
    destruct (proj1 (Hview _ conn_ssl x V3 p2)) as (_ & g2 & ? & ?); [eauto|]. eauto.
Qed.

(** ** A calculus for the monad *)

(** [m] follows no dangling pointer and ends in [Q]; an assertion may end the server. *)
Definition ends {A} (m : M A) (s : server) (Q : A -> server -> Prop) : Prop :=
  match m s with inl Deleted => False | inl Assertion_failed => True | inr (a, s') => Q a s' end.

Lemma ends_bind {A B} (m : M A) (k : A -> M B) s Q : ends m s (fun a s' => ends (k a) s' Q) -> ends (m ≫= k) s Q.
Proof. unfold ends, mbind, M_bind. destruct (m s) as [[]|[a s']]; auto. Qed.

Lemma ends_ret {A} (a : A) s (Q : A -> server -> Prop) : Q a s -> ends (mret a) s Q.
Proof. done. Qed.

Lemma ends_wand {A} (m : M A) s (Q Q' : A -> server -> Prop) : ends m s Q -> (forall a s', Q a s' -> Q' a s') -> ends m s Q'.
Proof. unfold ends. destruct (m s) as [[]|[a s']]; auto. Qed.

Lemma ends_get p h s (Q : EventHandler -> server -> Prop) : objects s !! p = Some h -> Q h s -> ends (get_handler p) s Q.
Proof. unfold ends, get_handler. by intros ->. Qed.

Lemma ends_mod p h f s (Q : unit -> server -> Prop) :
  objects s !! p = Some h -> Q tt (s <| objects := <[p := f h]> (objects s) |>) -> ends (mod_handler p f) s Q.
Proof.
  intros Hp HQ. unfold mod_handler. apply ends_bind. eapply ends_get; [done|].
  unfold ends, set_handler. by rewrite Hp.
Qed.

Lemma ends_ssl_free x s (Q : unit -> server -> Prop) : x ∈ ssls s -> Q tt (s <| ssls := ssls s ∖ {[x]} |>) -> ends (SSL_free x) s Q.
Proof. intros Hx HQ. unfold ends, SSL_free. by rewrite decide_True. Qed.

Lemma ends_close fd s (Q : unit -> server -> Prop) :
  fd ∈ sockets s -> Q tt (s <| sockets := sockets s ∖ {[fd]} |> <| registered := delete fd (registered s) |>) -> ends (close fd) s Q.
Proof. intros Hfd HQ. unfold ends, close. by rewrite decide_True. Qed.

Lemma ends_poll ok op p h s (Q : Z -> server -> Prop) :
  objects s !! p = Some h ->
  (match op with EP_ADD => registered s !! fd_of (kind h) = None | EP_MOD => is_Some (registered s !! fd_of (kind h)) end ->
    forall e, Q 0 (s <| registered := <[fd_of (kind h) := (e, p)]> (registered s) |>)) ->
  Q (-1) s -> ends (update_poll_internal ok p op) s Q.
Proof.
  intros Hp H0 H1. unfold update_poll_internal. apply ends_bind. eapply ends_get; [done|].
  unfold ends, ctl_event. set (e := epoll_events _). destruct ok; [|done]. destruct op, (registered s !! fd_of (kind h)) eqn:E; cbn; eauto.
Qed.

(** ** The steps of the loop *)

Lemma inv_poll D p h e s :
  inv D s -> objects s !! p = Some h -> poll_fd (kind h) = Some (fd_of (kind h)) ->
  inv D (s <| registered := <[fd_of (kind h) := (e, p)]> (registered s) |>).
Proof.
  intros HI Hp Hk. eapply inv_ext; [done..|]. intros fd q. cbn.
  destruct (decide (fd = fd_of (kind h))) as [->|Hne]; [|by rewrite lookup_insert_ne].
  rewrite lookup_insert_eq. destruct (proj2 (i_polled D s HI (fd_of (kind h)) p)) as (e' & He'); [eauto|].
  rewrite He'. split; intros (? & [= ? ?]); subst; eauto.
Qed.

(** After a handler has run: marked, or ready for its next event. *)
Definition after (D : list Z) (p : Z) (h : EventHandler) (r : Z) (s : server) : Prop :=
  (r <> 0 \/ finish (kind h) = true -> inv (D ++ [p]) (s <| objects := <[p := h <| mark_del_ := true |>]> (objects s) |>)) /\
  (r = 0 -> finish (kind h) = false ->
     inv (if mark_del_ h then D ++ [p] else D) s /\ poll_fd (kind h) = Some (fd_of (kind h))).

(** What a turn of [p] promises. *)
Definition ran (D : list Z) (p : Z) (s : server) (r : Z) (s' : server) : Prop :=
  stays s s' /\ exists h, objects s' !! p = Some h /\ after D p h r s'.

Lemma elem_D D (p q : Z) : q <> p -> q ∈ D ++ [p] <-> q ∈ D.
Proof. intros Hne. rewrite elem_of_app, list_elem_of_singleton. naive_solver. Qed.

Lemma in_D D (p : Z) : p ∈ D ++ [p].
Proof. rewrite elem_of_app, list_elem_of_singleton. auto. Qed.
#[local] Hint Resolve in_D : core.

Lemma unmarked D p h s : inv D s -> objects s !! p = Some h -> mark_del_ h = false -> p ∉ D.
Proof. intros HI Hp Hm Hin. apply (i_marked D s HI p h Hp) in Hin. congruence. Qed.

(** A handler that keeps what it owns. *)
Lemma ran_kind D p h k r s :
  inv D s -> objects s !! p = Some h -> mark_del_ h = false ->
  class k = class (kind h) -> poll_fd k = Some (fd_of k) -> poll_fd k = poll_fd (kind h) ->
  conn_fd k = conn_fd (kind h) -> conn_ssl k = conn_ssl (kind h) ->
  (r <> 0 \/ finish k = true -> deletable k) -> (r = 0 -> finish k = false -> waiting k) ->
  ran D p s r (s <| objects := <[p := h <| kind := k |>]> (objects s) |>).
Proof.
  intros HI Hp Hm Ec E0 E1 E2 E3 Hd Hw. split.
  { eapply stays_set; [done| |cbn; by rewrite lookup_insert_eq|]; [done|]. intros q g Hne Hq. cbn. by rewrite lookup_insert_ne. }
  exists (h <| kind := k |>). split; [cbn; by rewrite lookup_insert_eq|]. split.
  - intros Hr.
    change (inv (D ++ [p]) (s <| objects := <[p := mk_handler true k]> (<[p := h <| kind := k |>]> (objects s)) |>)).
    rewrite insert_insert_eq.
    eapply (inv_kind D (D ++ [p]) p h); cbn; eauto using elem_D; [by intros|split; auto].
  - intros Hr Hf. split; [|done]. cbn. rewrite Hm.
    eapply (inv_kind D D p h); cbn; eauto; [by rewrite Hm|]. rewrite Hm. split; [done|]. intros Hin. by edestruct unmarked.
Qed.

Lemma ends_run {A} (m : M A) a s s' (Q : A -> server -> Prop) : m s = inr (a, s') -> Q a s' -> ends m s Q.
Proof. unfold ends. by intros ->. Qed.

(** A new number is no handler and no SSL object. *)
Lemma fresh D q s : inv D s -> next s <= q -> objects s !! q = None.
Proof. intros HI Hq. destruct (objects s !! q) as [g|] eqn:E; [|done]. pose proof (i_next D s HI q g E). lia. Qed.

Lemma fresh_ssl D x s : inv D s -> next s <= x -> x ∉ ssls s.
Proof. intros HI Hx Hin. pose proof (i_ssl_next D s HI x Hin). lia. Qed.

(** A socket and an SSL object that were made and are gone again leave no trace. *)
Lemma inv_undo D cfd s s' :
  inv D s -> (cfd ∉ sockets s) -> registered s !! cfd = None -> next s <= next s' ->
  (forall p, objects s' !! p = objects s !! p) ->
  sockets s' = ({[cfd]} ∪ sockets s) ∖ {[cfd]} -> registered s' = delete cfd (registered s) ->
  ssls s' = ssls s \/ ssls s' = ({[next s]} ∪ ssls s) ∖ {[next s]} ->
  inv D s'.
Proof.
  intros HI Hfd Hreg Hn EO ES ER EX. pose proof (fresh_ssl D (next s) s HI ltac:(lia)) as Hx.
  eapply inv_ext; [exact HI|done|done| | |].
  - intros fd. rewrite ES. set_solver.
  - intros x. destruct EX as [->| ->]; set_solver.
  - intros fd p. rewrite ER. destruct (decide (fd = cfd)) as [->|Hne]; [|by rewrite lookup_delete_ne].
    by rewrite lookup_delete_eq, Hreg.
Qed.

(** What listening leaves: the other handlers as they were. *)
Definition grows (s s' : server) : Prop := forall q g, objects s !! q = Some g -> objects s' !! q = Some g.

Lemma ends_listen_next D a cfd s :
  inv D s -> (cfd ∉ sockets s) -> registered s !! cfd = None ->
  ends (listen_next_handler a cfd) (s <| sockets := {[cfd]} ∪ sockets s |>) (fun _ s' => inv D s' /\ grows s s').
Proof.
  intros HI Hfd Hreg. pose proof (fresh D (next s + 1) s HI ltac:(lia)) as Hq.
  unfold listen_next_handler, ssl_session_new. apply ends_bind, ends_bind. eapply ends_run; [reflexivity|]. cbn.
  destruct (set_fd_ok a); cbn [negb]; last first.
  { apply ends_bind, ends_ssl_free; [cbn; set_solver|]. apply ends_ret, ends_close; [cbn; set_solver|].
    split; [|by intros q g]. eapply (inv_undo D cfd s); cbn; auto; lia. }
  apply ends_ret. apply ends_bind. eapply ends_run; [reflexivity|]. cbn. apply ends_bind. eapply ends_run; [reflexivity|]. cbn.
  set (k := SSLAcceptEventHandler cfd (next s) false false true true (seed s + 1)).
  apply ends_bind. eapply (ends_poll _ _ _ (mk_handler false k)); cbn; [by rewrite lookup_insert_eq| |].
  - intros _ e. split.
    + eapply (inv_new D k (next s + 1) cfd e s); cbn; auto; try lia.
      * intros x [= <-]. split; [eapply fresh_ssl; [done|lia]|lia].
      * intros fd. destruct (decide (fd = cfd)) as [->|Hne]; [by rewrite lookup_insert_eq|by rewrite lookup_insert_ne].
      * set_solver.
      * set_solver.
    + intros q g Hg. cbn. rewrite lookup_insert_ne; [done|]. congruence.
  - apply ends_bind. unfold delete_event_handler. apply ends_bind.
    eapply ends_get; [cbn; by rewrite lookup_insert_eq|]. cbn [kind]. apply ends_bind, ends_ret.
    eapply ends_run; [reflexivity|]. apply ends_bind, ends_ssl_free; [cbn; set_solver|]. apply ends_close; [cbn; set_solver|].
    assert (Hobj : forall q, delete (next s + 1) (<[next s + 1 := mk_handler false k]> (objects s)) !! q = objects s !! q).
    { intros q. by rewrite delete_insert_id. }
    split.
    + eapply (inv_undo D cfd s); cbn; auto; lia.
    + intros q g Hg. cbn. by rewrite Hobj.
Qed.

Lemma ends_listen D a s : inv D s -> ends (listen_execute a) s (fun r s' => r = 0 /\ inv D s' /\ grows s s').
Proof.
  intros HI. unfold listen_execute. assert (Hs : grows s s) by (by intros q g). destruct (accepted a) as [cfd|]; [|by apply ends_ret].
  unfold ends. destruct (decide _) as [Hin|Hin]; [done|]. assert (Hfd : cfd ∉ sockets s) by tauto.
  assert (Hreg : registered s !! cfd = None) by (apply eq_None_not_Some; tauto).
  change (ends (new_socket cfd;; (if negb (options_ok a) then close cfd else listen_next_handler a cfd);; mret 0)
    s (fun r s' => r = 0 /\ inv D s' /\ grows s s')).
  apply ends_bind. eapply ends_run; [reflexivity|]. apply ends_bind. destruct (options_ok a); cbn [negb].
  - eapply ends_wand; [by apply (ends_listen_next D)|]. intros _ s' [? ?]. by apply ends_ret.
  - apply ends_close; [cbn; set_solver|]. apply ends_ret. split_and!; [done| |by intros q g].
    eapply (inv_undo D cfd s); cbn; auto; lia.
Qed.

(** The handshake has succeeded: the handler has nothing left when the socket is
    closed or goes to a handler for SPDY. *)
Lemma inv_hand_on D p h fd ssl r w sid s s' :
  inv D s -> objects s !! p = Some h -> kind h = SSLAcceptEventHandler fd ssl false false r w sid -> next s <= next s' ->
  (forall q, objects s' !! q = <[p := mk_handler true (SSLAcceptEventHandler fd ssl false true false false sid)]> (objects s) !! q) ->
  sockets s' = sockets s ∖ {[fd]} -> ssls s' = ssls s ∖ {[ssl]} -> registered s' = delete fd (registered s) ->
  inv (D ++ [p]) s'.
Proof.
  intros HI Hp Hk Hn EO ES EX ER. eapply (inv_drop D _ p h s); rewrite ?Hk; auto using elem_D.
  - intros q Hne. by rewrite EO, lookup_insert_ne.
  - intros g. rewrite EO, lookup_insert_eq. by intros [= <-].
  - rewrite EO, lookup_insert_eq. split; eauto.
  - intros q. rewrite ES. cbn. unfold poll_fd. cbn. set_solver.
  - intros q. rewrite EX. cbn. set_solver.
  - intros q. rewrite ER. unfold poll_fd. cbn. destruct (decide (Some fd = Some q)) as [[= ->]|Hne].
    + by rewrite lookup_delete_eq.
    + rewrite lookup_delete_ne; [done|congruence].
Qed.

Lemma ends_accept_next D p h a fd ssl version sid r w s :
  inv D s -> objects s !! p = Some h -> kind h = SSLAcceptEventHandler fd ssl false false r w sid ->
  let h' := h <| kind := SSLAcceptEventHandler fd ssl false true false false sid |> in
  ends (accept_next_handler a fd ssl version sid) (s <| objects := <[p := h']> (objects s) |>) (fun _ s' => ran D p s 0 s').
Proof.
  intros HI Hp Hk h'. pose proof (fresh D (next s) s HI ltac:(lia)) as Hq.
  assert (Hne : next s <> p) by congruence.
  assert (Hreg : exists e, registered s !! fd = Some (e, p)) by (apply (i_polled D s HI); exists h; by rewrite Hk).
  assert (Hfd : fd ∈ sockets s) by (apply (i_sockets D s HI); exists p, h; by rewrite Hk).
  assert (Hssl : ssl ∈ ssls s) by (apply (i_ssls D s HI); exists p, h; by rewrite Hk).
  unfold accept_next_handler, new_spdy_handler. destruct (session_made a); [cbn [negb]|done].
  set (k := SpdyEventHandler fd ssl version (new_wants_read a) (new_wants_write a) false sid).
  apply ends_bind. eapply ends_run; [reflexivity|]. cbn.
  apply ends_bind. eapply (ends_poll _ _ _ (mk_handler false k)); cbn; [by rewrite lookup_insert_eq| |].
  - intros _ e. split.
    { eapply (stays_set _ _ p h h'); [done|by rewrite Hk|cbn; by rewrite lookup_insert_ne, lookup_insert_eq|].
      intros q g Hqp Hg. cbn. rewrite !lookup_insert_ne by congruence. done. }
    exists h'. cbn. rewrite lookup_insert_ne, lookup_insert_eq by done. split; [done|]. split; [intros _|done].
    set (s0 := s <| objects := <[p := mk_handler true (kind h')]> (objects s) |> <| sockets := sockets s ∖ {[fd]} |>
                 <| ssls := ssls s ∖ {[ssl]} |> <| registered := delete fd (registered s) |>).
    eapply (inv_new _ k (next s) fd e s0); cbn; auto; try lia.
    + by eapply (inv_hand_on D p h fd ssl r w sid s).
    + set_solver.
    + by rewrite lookup_delete_eq.
    + intros x [= <-]. split; [set_solver|]. pose proof (i_ssl_next D s HI ssl Hssl). lia.
    + by rewrite insert_insert_ne, insert_insert_eq.
    + intros fd'. destruct (decide (fd' = fd)) as [->|?]; [by rewrite lookup_insert_eq|].
      by rewrite lookup_insert_ne, lookup_delete_ne.
    + intros fd'. unfold poll_fd. cbn. destruct (decide (fd' = fd)); set_solver.
    + intros x. destruct (decide (x = ssl)); set_solver.
  - unfold delete_event_handler. apply ends_bind. eapply ends_get; [cbn; by rewrite lookup_insert_eq|]. cbn [kind].
    apply ends_bind. apply ends_bind, ends_ssl_free; [done|]. apply ends_close; [done|]. eapply ends_run; [reflexivity|]. cbn.
    assert (Hobj : delete (next s) (<[next s := mk_handler false k]> (<[p := h']> (objects s))) = <[p := h']> (objects s)).
    { apply delete_insert_id. by rewrite lookup_insert_ne. }
    split.
    { eapply (stays_set _ _ p h h'); [done|by rewrite Hk|cbn; by rewrite Hobj, lookup_insert_eq|].
      intros q g Hqp Hg. cbn. rewrite Hobj, lookup_insert_ne by congruence. done. }
    exists h'. cbn. rewrite Hobj, lookup_insert_eq. split; [done|]. split; [intros _|done].
    eapply (inv_hand_on D p h fd ssl r w sid s); cbn; auto; [lia|].
    intros q. by rewrite insert_insert_eq.
Qed.

Lemma ends_execute D p h a s :
  inv D s -> objects s !! p = Some h -> mark_del_ h = false -> ends (execute a p) s (fun r s' => ran D p s r s').
Proof.
  intros HI Hp Hm. unfold execute. apply ends_bind. eapply ends_get; [done|].
  pose proof (i_waiting D s HI p h Hp Hm) as Hw. destruct (kind h) as [fd|fd ssl f1 f2 r w sid|fd ssl v r w ww sid] eqn:Hk.
  - eapply ends_wand; [by eapply ends_listen|]. intros r s' (-> & HI' & Hg). split; [intros q g Hq; eauto|].
    exists h. split; [eauto|]. split; [by rewrite Hk; intros []|]. rewrite Hm, Hk. auto.
  - destruct Hw as [-> ->]. unfold accept_execute.
    assert (Hset : forall f1 f2 r' w', (f2 = false -> f1 = false) -> (f2 = true -> f1 = true) ->
      ran D p s 0 (s <| objects := <[p := h <| kind := SSLAcceptEventHandler fd ssl f1 f2 r' w' sid |>]> (objects s) |>)).
    { intros f1 f2 r' w' F1 F2. 
      eapply ran_kind; rewrite ?Hk; try done; destruct f1, f2; naive_solver. }
    destruct (ssl_accept a) as [[v|]| | | |]; [destruct (negb (v =? 0))|..]; apply ends_bind; (eapply ends_mod; [done|]);
      try (apply ends_ret, Hset; done).
    apply ends_bind. eapply ends_wand; [by eapply ends_accept_next|]. intros u s' Hs'. by apply ends_ret.
  - unfold spdy_execute. apply ends_bind. eapply ends_mod; [done|]. apply ends_ret. eapply ran_kind; rewrite ?Hk; eauto.
Qed.

Lemma ends_settle D p h r ok s :
  objects s !! p = Some h -> after D p h r s ->
  ends ((if negb (r =? 0) then mark_del p
       else h ← get_handler p; if finish (kind h) then mark_del p else mod_poll ok p;; mret tt);;
      h ← get_handler p; mret (mark_del_ h)) s
    (fun del s' => stays s s' /\ inv (if del : bool then D ++ [p] else D) s').
Proof.
  intros Hp [Hd Hw].
  assert (Hdel : r <> 0 \/ finish (kind h) = true ->
    ends (mark_del p) s (fun _ s' => ends (h ← get_handler p; mret (mark_del_ h)) s'
      (fun del s' => stays s s' /\ inv (if del : bool then D ++ [p] else D) s'))).
  { intros Hr. eapply ends_mod; [done|]. apply ends_bind. eapply ends_get; [cbn; by rewrite lookup_insert_eq|]. apply ends_ret. cbn.
    split; [|by apply Hd]. eapply stays_set; [done| |cbn; by rewrite lookup_insert_eq|]; [done|].
    intros q g Hne Hq. cbn. by rewrite lookup_insert_ne. }
  apply ends_bind. destruct (r =? 0) eqn:Er; cbn [negb]; [apply Z.eqb_eq in Er as ->|apply Hdel; left; lia].
  apply ends_bind. eapply ends_get; [done|]. destruct (finish (kind h)) eqn:Ef; [apply Hdel; auto|].
  destruct (Hw eq_refl eq_refl) as [HI Hk]. unfold mod_poll. apply ends_bind. eapply ends_poll; [done| |].
  - intros _ e. apply ends_ret, ends_bind. eapply ends_get; [done|]. apply ends_ret. split; [by apply stays_refl|]. by eapply inv_poll.
  - apply ends_ret, ends_bind. eapply ends_get; [done|]. apply ends_ret. split; [by apply stays_refl|done].
Qed.

Lemma ends_handle_event D p h revents a s :
  inv D s -> objects s !! p = Some h -> lone_hangup (kind h) revents = false ->
  ends (handle_event p revents a) s (fun del s' =>
    stays s s' /\ inv (if del : bool then D ++ [p] else D) s' /\ (del = true -> p ∉ D)).
Proof.
  intros HI Hp Hl. unfold handle_event. apply ends_bind. eapply ends_get; [done|].
  destruct (mark_del_ h) eqn:Hm; [apply ends_ret; split_and!; [by apply stays_refl|done|done]|].
  assert (Hp' : p ∉ D) by (by eapply unmarked).
  apply ends_bind. eapply (ends_wand _ _ (fun r s' => ran D p s r s')); last first.
  { intros r s' (Hs & h' & Hh' & Ha). eapply ends_wand; [by eapply ends_settle|]. intros del s2 [Hs2 HI2].
    split_and!; [by eapply stays_trans|done|done]. }
  unfold lone_hangup in Hl. destruct (has_flag _ EP_POLLIN || has_flag _ EP_POLLOUT); [by eapply ends_execute|].
  cbn in Hl. destruct (kind h) as [| |fd ssl v r w ww sid] eqn:Hk; [done..|].
  destruct (has_flag _ _).
  - apply ends_bind. eapply ends_mod; [done|]. apply ends_ret.
    assert (HI' : inv (D ++ [p]) (s <| objects := <[p := h <| mark_del_ := true |>]> (objects s) |>)).
    { eapply (inv_kind D _ p h); cbn; rewrite ?Hk; auto using elem_D; done. }
    split; [|exists (h <| mark_del_ := true |>); split; [cbn; by rewrite lookup_insert_eq|]].
    + eapply stays_set; [done| |cbn; by rewrite lookup_insert_eq|]; [done|]. intros q g Hne Hq. cbn. by rewrite lookup_insert_ne.
    + split; [intros _|cbn; by rewrite Hk]. cbn. by rewrite insert_insert_eq.
  - apply ends_ret. split; [by apply stays_refl|]. exists h. split; [done|]. split; rewrite ?Hm, ?Hk; [|done].
    intros Hr. eapply (inv_kind D _ p h); cbn; rewrite ?Hk; auto using elem_D; done.
Qed.

(** The events of a batch that may be handled. *)
Definition fit (s : server) (pe : Z * event) : Prop :=
  exists h, objects s !! pe.1 = Some h /\ lone_hangup (kind h) (ev_revents pe.2) = false.

Lemma fit_stays s s' pe : stays s s' -> fit s pe -> fit s' pe.
Proof.
  intros Hs (h & Hp & Hl). destruct (Hs _ h Hp) as (h' & Hp' & Hc). exists h'. split; [done|].
  unfold lone_hangup in *. by destruct (kind h), (kind h').
Qed.

Lemma ends_handle_events batch D s :
  inv D s -> NoDup D -> Forall (fit s) batch ->
  ends (handle_events batch) s (fun l s' => inv (D ++ l) s' /\ NoDup (D ++ l)).
Proof.
  revert D s. induction batch as [|[p e] batch IH]; intros D s HI Hnd Hb.
  { apply ends_ret. by rewrite app_nil_r. }
  apply Forall_cons in Hb as [(h & Hp & Hl) Hb]. cbn [handle_events]. apply ends_bind.
  eapply ends_wand; [by eapply ends_handle_event|]. intros del s1 (Hs & HI1 & Hdel). apply ends_bind.
  eapply ends_wand; [apply (IH _ s1 HI1)|].
  - destruct del; [|done]. apply NoDup_app. split_and!; [done| |apply NoDup_singleton].
    intros q Hq ->%list_elem_of_singleton. by apply Hdel.
  - eapply Forall_impl; [exact Hb|]. intros pe. by apply fit_stays.
  - intros l s2 H2. apply ends_ret. destruct del; [|done]. by rewrite <- app_assoc in H2.
Qed.

Lemma inv_handlers D f s : inv D s -> inv D (s <| handlers_ := f |>).
Proof. intros HI. by eapply inv_ext. Qed.

(** The destructor of a marked handler closes what the handler owns. *)
Lemma ends_delete D p h s :
  inv (p :: D) s -> (p ∉ D) -> objects s !! p = Some h -> ends (delete_event_handler p) s (fun _ s' => inv D s').
Proof.
  intros HI Hp Hh.
  assert (Hm : mark_del_ h = true) by (apply (i_marked _ s HI p h Hh); by left).
  pose proof (i_deletable _ s HI p h Hh Hm) as Hd.
  assert (HD : forall q, q <> p -> q ∈ D <-> q ∈ p :: D) by (intros q Hne; rewrite elem_of_cons; naive_solver).
  assert (Hfd : forall fd, conn_fd (kind h) = Some fd -> fd ∈ sockets s) by (intros; apply (i_sockets _ s HI); eauto).
  assert (Hx : forall x, conn_ssl (kind h) = Some x -> x ∈ ssls s) by (intros; apply (i_ssls _ s HI); eauto).
  assert (Hgo : forall s', objects s' = delete p (objects s) -> next s' = next s ->
    (forall q, q ∈ sockets s' <-> q ∈ sockets s /\ conn_fd (kind h) <> Some q) ->
    (forall x, x ∈ ssls s' <-> x ∈ ssls s /\ conn_ssl (kind h) <> Some x) ->
    (forall fd, registered s' !! fd = if decide (poll_fd (kind h) = Some fd) then None else registered s !! fd) -> inv D s').
  { intros s' EO EN ES EX ER. eapply (inv_drop (p :: D) D p h s); rewrite ?EN; auto; try lia.
    - intros q Hne. by rewrite EO, lookup_delete_ne.
    - intros g. by rewrite EO, lookup_delete_eq.
    - rewrite EO, lookup_delete_eq. split; [done|]. by intros []. }
  assert (Hclose : forall fd ssl, conn_fd (kind h) = Some fd -> conn_ssl (kind h) = Some ssl ->
    ends (SSL_free ssl;; close fd) s (fun _ s' => inv D (s' <| objects := delete p (objects s') |>))).
  { intros fd ssl E1 E2. pose proof (polled_conn _ _ E1) as E3. apply ends_bind, ends_ssl_free; [by apply Hx|]. apply ends_close; [by apply Hfd|].
    apply Hgo; cbn; rewrite ?E1, ?E2, ?E3; try done; [set_solver..|]. intros fd'. case_decide as E.
    - injection E as <-. by rewrite lookup_delete_eq.
    - rewrite lookup_delete_ne; [done|congruence]. }
  unfold delete_event_handler. apply ends_bind. eapply ends_get; [done|]. apply ends_bind.
  destruct (kind h) as [fd|fd ssl [] f2 r w sid|fd ssl v r w ww sid] eqn:Hk; [done| | |].
  - eapply ends_wand; [apply (Hclose fd ssl); unfold conn_fd, conn_ssl, poll_fd; cbn; by rewrite andb_false_r|]. by intros u s' Hs'.
  - cbn in Hd. subst f2. apply ends_ret. eapply ends_run; [reflexivity|]. apply Hgo; naive_solver.
  - eapply ends_wand; [by apply (Hclose fd ssl)|]. by intros u s' Hs'.
Qed.

Lemma ends_delete_list l s : inv l s -> NoDup l -> ends (delete_list l) s (fun _ s' => inv [] s').
Proof.
  revert s. induction l as [|p l IH]; intros s HI Hnd; [by apply ends_ret|].
  apply NoDup_cons in Hnd as [Hp Hnd]. destruct (i_alive _ s HI p) as [h Hh]; [by left|].
  cbn [delete_list foldr]. unfold on_close. apply ends_bind, ends_bind. eapply ends_run; [reflexivity|].
  eapply ends_wand; [eapply ends_delete; [by apply inv_handlers|done|done]|]. intros u s' HI'. cbn in HI'.
  apply ends_bind. eapply ends_run; [reflexivity|]. apply IH; [by apply inv_handlers|done].
Qed.

Lemma fit_batch evs s : inv [] s -> Forall (fit s) (epoll_wait false evs s).
Proof.
  intros HI. unfold epoll_wait. destruct (decide _); [|constructor]. apply Forall_take, Forall_forall.
  intros [p e] (e' & _ & H)%list_elem_of_omap. destruct (registered s !! ev_fd e') as [[m q]|] eqn:Er; [|done]. cbn in H.
  destruct (proj1 (i_polled [] s HI (ev_fd e') q)) as (h & Hh & _); [eauto|].
  rewrite Hh in H. destruct (lone_hangup _ _) eqn:El; [done|]. injection H as <- <-. by exists h.
Qed.

Lemma ends_turn evs s : inv [] s -> ends (turn false evs) s (fun _ s' => inv [] s').
Proof.
  intros HI. change (ends (del_list ← handle_events (epoll_wait false evs s); delete_list del_list) s (fun _ s' => inv [] s')).
  apply ends_bind. eapply ends_wand; [apply (ends_handle_events _ [] s HI (NoDup_nil_2)), fit_batch; done|].
  intros l s' [HI' Hnd]. by apply ends_delete_list.
Qed.

Lemma ends_serve turns s : inv [] s -> ends (serve false turns) s (fun _ s' => inv [] s').
Proof.
  revert s. induction turns as [|evs turns IH]; intros s HI; [by apply ends_ret|].
  cbn [serve]. apply ends_bind. eapply ends_wand; [by apply ends_turn|]. intros u s' HI'. by apply IH.
Qed.

(** A listening socket that cannot be registered leaves nothing but its pointer. *)
Lemma ends_start sfd ok s :
  inv [] s -> sockets s = ∅ -> ends (start_listener sfd ok) s (fun _ s' => inv [] s' /\ sockets s' = ∅).
Proof.
  intros HI HS. pose proof (fresh [] (next s) s HI ltac:(lia)) as Hq. unfold start_listener.
  set (k := ListenEventHandler (default (-1) sfd)). apply ends_bind. eapply ends_run; [reflexivity|]. cbn.
  assert (Hgone : ends ((if -1 =? -1 then delete_event_handler (next s) else mret tt);; add_handler (next s))
    (s <| objects := <[next s := mk_handler false k]> (objects s) |> <| next := next s + 1 |>)
    (fun _ s' => inv [] s' /\ sockets s' = ∅)).
  { cbn. unfold delete_event_handler. apply ends_bind, ends_bind. eapply ends_get; [cbn; by rewrite lookup_insert_eq|]. apply ends_bind, ends_ret.
    eapply ends_run; [reflexivity|]. eapply ends_run; [reflexivity|]. split; [|done].
    eapply (inv_ext [] s); cbn; try done; [|lia]. intros p. by rewrite delete_insert_id. }
  apply ends_bind. destruct sfd as [fd|]; [|by apply ends_ret]. unfold add_poll.
  eapply (ends_poll _ _ _ (mk_handler false k)); cbn; [by rewrite lookup_insert_eq| |done].
  intros Hreg e. split; [|done]. eapply (inv_new [] k (next s) fd e s); cbn; auto; try done; [lia|by rewrite HS| |set_solver..].
  intros fd'. case_decide as E; [subst; by rewrite lookup_insert_eq|by rewrite lookup_insert_ne].
Qed.

Lemma inv_initial : inv [] (mk_server ∅ ∅ ∅ ∅ ∅ 0 1).
Proof.
  split; cbn; intros; set_solver.
Qed.

(** * The server *)

(** Every open socket and every SSL object belongs to a handler that exists, only one,
    and epoll has exactly the handlers that exist, none of which is to be deleted. *)
Record accounted (s : server) : Prop := {
  a_sockets : forall fd, fd ∈ sockets s -> exists e p h,
    registered s !! fd = Some (e, p) /\ objects s !! p = Some h /\ conn_fd (kind h) = Some fd;
  a_ssls : forall x, x ∈ ssls s -> exists ! p, exists h, objects s !! p = Some h /\ conn_ssl (kind h) = Some x;
  a_registered : forall fd e p, registered s !! fd = Some (e, p) -> exists h, objects s !! p = Some h /\ fd_of (kind h) = fd;
  a_objects : forall p h, objects s !! p = Some h ->
    mark_del_ h = false /\ exists e, registered s !! fd_of (kind h) = Some (e, p)
}.

Lemma inv_accounted s : inv [] s -> accounted s.
Proof.
  intros HI. split.
  - intros fd (p & h & Hp & Hk)%(i_sockets [] s HI).
    destruct (proj2 (i_polled [] s HI fd p)) as [e He]; [eauto using polled_conn|]. by exists e, p, h.
  - intros x (p & h & Hp & Hk)%(i_ssls [] s HI). exists p. split; [by exists h|]. intros q (g & Hq & Hg). by eapply (i_inj [] s HI).
  - intros fd e p He. destruct (proj1 (i_polled [] s HI fd p)) as (h & Hp & Hk); [eauto|]. exists h. split; [done|].
    unfold poll_fd in Hk. destruct (handed_on (kind h)); congruence.
  - intros p h Hp. assert (Hm : mark_del_ h = false).
    { destruct (mark_del_ h) eqn:Hm; [|done]. apply (i_marked [] s HI p h Hp) in Hm. set_solver. }
    split; [done|]. apply (i_polled [] s HI). exists h. split; [done|].
    pose proof (i_waiting [] s HI p h Hp Hm) as Hw. by destruct (kind h); [|destruct Hw as [-> ->]|].
Qed.

(** C8. Whatever the system, OpenSSL and the clients answer, the loop follows no pointer
    to a deleted handler, frees no SSL object and closes no socket twice, and after
    every turn each open socket and SSL object belongs to exactly one living handler,
    which is the one that epoll has for it, provided that no hangup comes alone for a
    handler that is listening or shaking hands; a failed assertion is the only crash. *)
Theorem server_loop_safe (sfd4 sfd6 : option Z) (ok4 ok6 : bool) (turns : list (list event)) :
  match run sfd4 sfd6 ok4 ok6 false turns with
  | inl e => e = Assertion_failed
  | inr (_, s) => accounted s
  end.
Proof.
  assert (H : ends (start_listener sfd4 ok4;; start_listener sfd6 ok6;; serve false turns) (mk_server ∅ ∅ ∅ ∅ ∅ 0 1)
    (fun _ s => inv [] s)).
  { apply ends_bind. eapply ends_wand; [by apply ends_start; [apply inv_initial|]|]. intros u1 s1 [HI1 HS1]. apply ends_bind.
    eapply ends_wand; [by apply ends_start|]. intros u2 s2 [HI2 HS2]. by apply ends_serve. }
  unfold ends in H. fold (run sfd4 sfd6 ok4 ok6 false turns) in H.
  destruct (run sfd4 sfd6 ok4 ok6 false turns) as [[]|[u s]]; [done..|]. by apply inv_accounted.
Qed.

(** ** Runs *)

Definition quiet : answers := mk_answers None true true true true Wants_read true true true 0 0 true false [(-1, Read_again)].
Definition connect (fd : Z) : event :=
  mk_event 3 EPOLLIN (mk_answers (Some fd) true true true true Wants_read true true true 0 0 true false []).
Definition handshake (fd : Z) (v : option Z) : event :=
  mk_event fd EPOLLIN (mk_answers None true true true true (Accepted v) true true true 0 0 true false []).

(** A client that speaks SPDY, one that does not, and the first one hanging up. *)
Example loop_run :
  match run (Some 3) None true true false
      [[connect 5]; [connect 6]; [handshake 5 (Some 3); handshake 6 None]; [mk_event 5 EPOLLHUP quiet]] with
  | inr (_, s) => map_size (objects s) = 1%nat /\ sockets s = ∅ /\ ssls s = ∅ /\ seed s = 2
  | inl _ => False
  end.
Proof. vm_compute. auto. Qed.

(** A connection that is reset during the handshake: the handler is deleted, its socket
    stays open and registered, and the next event follows the dangling pointer. *)
Theorem lone_hangup_dangles :
  run (Some 3) None true true true [[connect 5]; [mk_event 5 (Z.lor EPOLLERR EPOLLHUP) quiet]; [mk_event 5 EPOLLHUP quiet]] =
  inl Deleted.
Proof. vm_compute. reflexivity. Qed.

End LoopSafety.
