(* ===== verification/CatSession.v ===== *)
(** The download tool spdycat: spdycat.cc, HtmlParser.cc and Spdylay::submit_request of
    spdylay_ssl.cc.

    A pointer to a Request is its place in reqvec, from which nothing is removed while
    a session lasts.  The HTML parser of libxml2 reports elements, which are arguments;
    so are the answers of the SPDY library, whose streams and queue of requests are
    kept to say which callbacks it can make.  The output and the statistics are left
    out. *)
From stdpp Require Import gmap.
From S2P Require Import Prelude Libc CppUtil CppUri Records.

Module Cat.
Import Util Uri.

(** What can go wrong: a null pointer is followed, an assertion fails, or a write goes
    past an array. *)
Inductive crash := Null_pointer | Assertion_failed | Out_of_array.

#[export] Instance err_ret : MRet (sum crash) := fun A => inr.
#[export] Instance err_bind : MBind (sum crash) := fun A B k m => match m with inl e => inl e | inr a => k a end.

Definition assert (b : bool) : crash + unit := if b then inr tt else inl Assertion_failed.

(** The functions of uri.cc always return (parse_total, joinUri_total). *)
Definition parsed (uri : list Z) : option UriStruct :=
  match parse UriStruct_new uri with Some (true, us) => Some us | _ => None end.

(** * HtmlParser *)

(** An element that libxml2 reports; without attributes the array is a null pointer, and
    an attribute may have no value. *)
Record element := mk_element { el_name : list Z; el_attrs : option (list (list Z * option (list Z))) }.

Record ParserData := mk_parser_data { base_uri : list Z; links : list (list Z) }.
#[export] Instance eta_ParserData : Settable ParserData := fun d => mk_parser_data (base_uri d) (links d).

(** class HtmlParser; parser_ctx_ is whether there is a context. *)
Record HtmlParser := mk_html { parser_ctx_ : bool; parser_data_ : ParserData }.
#[export] Instance eta_HtmlParser : Settable HtmlParser := fun p => mk_html (parser_ctx_ p) (parser_data_ p).

Definition HtmlParser_new (uri : list Z) : HtmlParser := mk_html false (mk_parser_data uri []).

Fixpoint find_attr (attrs : list (list Z * option (list Z))) (name : list Z) : option (list Z) :=
  match attrs with
  | [] => None
  | (n, v) :: attrs => if strieq (Some n) (Some name) then v else find_attr attrs name
  end.

Definition get_attr (attrs : option (list (list Z * option (list Z)))) (name : list Z) : crash + option (list Z) :=
  match attrs with Some attrs => inr (find_attr attrs name) | None => inl Null_pointer end.

(** links.push_back(joinUri(base_uri, uri)) *)
Definition add_link (uri : list Z) (d : ParserData) : ParserData :=
  match joinUri (base_uri d) (c_str uri) with Some l => d <| links := links d ++ [l] |> | None => d end.

Definition start_element_func (d : ParserData) (e : element) : crash + ParserData :=
  if strieq (Some (el_name e)) (Some (str "link")) then
    rel_attr ← get_attr (el_attrs e) (str "rel");
    href_attr ← get_attr (el_attrs e) (str "href");
    match href_attr with
    | Some href =>
        if strieq rel_attr (Some (str "shortcut icon")) || strieq rel_attr (Some (str "stylesheet"))
        then inr (add_link href d) else inr d
    | None => inr d
    end
  else if strieq (Some (el_name e)) (Some (str "img")) then
    src_attr ← get_attr (el_attrs e) (str "src");
    match src_attr with Some src => inr (add_link src d) | None => inr d end
  else inr d.

Fixpoint start_elements (es : list element) (d : ParserData) : crash + ParserData :=
  match es with [] => inr d | e :: es => d ← start_element_func d e; start_elements es d end.

(** What libxml2 does with a chunk: whether a context can be made, the elements it
    reports when it makes one and when it parses, and what htmlParseChunk returns. *)
Record xml_answer := mk_xml { ctx_ok : bool; ctx_elements : list element; chunk_elements : list element; chunk_rv : Z }.

Definition parse_chunk_internal (a : xml_answer) (p : HtmlParser) : crash + Z * HtmlParser :=
  d ← start_elements (chunk_elements a) (parser_data_ p);
  inr (if chunk_rv a =? 0 then 0 else -1, p <| parser_data_ := d |>).

Definition parse_chunk (a : xml_answer) (fin : bool) (p : HtmlParser) : crash + Z * HtmlParser :=
  if negb (parser_ctx_ p) then
    d ← start_elements (ctx_elements a) (parser_data_ p);
    let p := p <| parser_data_ := d |> in
    if negb (ctx_ok a) then inr (-1, p)
    else
      let p := p <| parser_ctx_ := true |> in
      if fin then parse_chunk_internal a p else inr (0, p)
  else parse_chunk_internal a p.

Definition clear_links (p : HtmlParser) : HtmlParser := p <| parser_data_ := (parser_data_ p) <| links := [] |> |>.

(** * Requests and sessions *)

Record Request := mk_request {
  us : UriStruct;
  inflater : bool;
  html_parser : option HtmlParser;
  level : Z;
  status : list Z
}.
#[export] Instance eta_Request : Settable Request := fun r =>
  mk_request (us r) (inflater r) (html_parser r) (level r) (status r).

Definition Request_new (u : UriStruct) (lv : Z) : Request := mk_request u false None lv [].

(** struct SpdySession, and of the library: the requests that were submitted and not
    sent, the streams that are open with their user data, the streams that were, every
    request that was submitted with its path, the number of GOAWAY frames, and the number
    of requests that it dropped. *)
Record SpdySession := mk_session {
  reqvec : list Request;
  streams : gmap Z nat;
  path_cache : gset (list Z);
  complete : nat;
  hostport : list Z;
  queue : list nat;
  user_data : gmap Z nat;
  used : gset Z;
  submitted : list (nat * list Z);
  goaways : nat;
  dropped : nat
}.
#[export] Instance eta_SpdySession : Settable SpdySession := fun s =>
  mk_session (reqvec s) (streams s) (path_cache s) (complete s) (hostport s) (queue s) (user_data s) (used s)
    (submitted s) (goaways s) (dropped s).

Definition SpdySession_new : SpdySession := mk_session [] ∅ ∅ 0 [] [] ∅ ∅ [] 0 0.

Definition all_requests_processed (s : SpdySession) : bool := (complete s =? length (reqvec s))%nat.

Definition hostport_of (u : UriStruct) : list Z :=
  (if ipv6LiteralAddress u then str "[" ++ host u ++ str "]" else host u) ++
  (if negb (port u =? 443) then str ":" ++ int_text (port u) else []).

Definition update_hostport (s : SpdySession) : SpdySession :=
  match reqvec s with [] => s | r :: _ => s <| hostport := hostport_of (us r) |> end.

Definition path_of (u : UriStruct) : list Z := dir u ++ file u ++ query u.

Definition add_request (u : UriStruct) (lv : Z) (s : SpdySession) : bool * SpdySession :=
  if decide (path_of u ∈ path_cache s) then (false, s)
  else (true, s <| path_cache := {[path_of u]} ∪ path_cache s |> <| reqvec := reqvec s ++ [Request_new u lv] |>).

(** A pointer is followed, and its object changed. *)
Definition get_req (p : nat) (s : SpdySession) : crash + Request :=
  match reqvec s !! p with Some r => inr r | None => inl Null_pointer end.
Definition set_req (p : nat) (r : Request) (s : SpdySession) : SpdySession := s <| reqvec := <[p := r]> (reqvec s) |>.

(** submit_request; [ok] is whether the library takes it. *)
Definition submit_request (ok : bool) (p : nat) (s : SpdySession) : crash + SpdySession :=
  r ← get_req p s;
  assert ok;;
  inr (s <| queue := queue s ++ [p] |> <| submitted := submitted s ++ [(p, path_of (us r))] |>).

(** What the system and the libraries answer in a callback. *)
Record answers := mk_answers { submit_ok : bool; inflate_new_ok : bool; xml : xml_answer }.

(** One link of a page that was found in the resource of [u]; reqvec.back() is submitted
    whether or not a request was added. *)
Definition follow_link (a : answers) (u : UriStruct) (lv : Z) (s : SpdySession) (uri : list Z) : crash + SpdySession :=
  match parsed uri with
  | Some v =>
      if bool_decide (protocol u = protocol v) && bool_decide (host u = host v) && (port u =? port v)
      then let '(_, s) := add_request v (lv + 1) s in submit_request (submit_ok a) (pred (length (reqvec s))) s
      else inr s
  | None => inr s
  end.

Fixpoint follow_links (a : answers) (u : UriStruct) (lv : Z) (uris : list (list Z)) (s : SpdySession) : crash + SpdySession :=
  match uris with
  | [] => inr s
  | uri :: uris => s ← follow_link a u lv s uri; follow_links a u lv uris s
  end.

Definition update_html_parser (a : answers) (p : nat) (fin : bool) (s : SpdySession) : crash + SpdySession :=
  r ← get_req p s;
  match html_parser r with
  | None => inr s
  | Some h =>
      '(_, h) ← parse_chunk (xml a) fin h;
      let s := set_req p (r <| html_parser := Some h |>) s in
      s ← follow_links a (us r) (level r) (links (parser_data_ h)) s;
      r ← get_req p s;
      inr (set_req p (r <| html_parser := clear_links <$> html_parser r |>) s)
  end.

(** * The callbacks *)

(** A call of spdylay_gzip_inflate: failed, or so many bytes were taken and the parser
    gets what came out. *)
Inductive inflated := Inflate_failed | Inflated (tlen : Z) (a : answers).

Fixpoint inflate_loop (p : nat) (len : Z) (ds : list inflated) (s : SpdySession) : crash + SpdySession :=
  match ds with
  | [] => inr s
  | i :: ds =>
      if 0 <? len then
        match i with
        | Inflate_failed => inr s
        | Inflated tlen a => s ← update_html_parser a p false s; inflate_loop p (len - tlen) ds s
        end
      else inr s
  end.

Definition on_data_chunk_recv_callback (a : answers) (ds : list inflated) (stream_id len : Z) (s : SpdySession)
    : crash + SpdySession :=
  match streams s !! stream_id with
  | None => inr s
  | Some p =>
      r ← get_req p s;
      if inflater r then inflate_loop p len ds s else update_html_parser a p false s
  end.

Definition check_stream_id (stream_id : Z) (s : SpdySession) : crash + SpdySession :=
  match user_data s !! stream_id with
  | Some p => inr (s <| streams := <[stream_id := p]> (streams s) |>)
  | None => inl Null_pointer
  end.

(** The loop over the fields of a response: whether it is compressed, and the status. *)
Definition response_field (acc : bool * list Z) (f : list Z * list Z) : bool * list Z :=
  if bool_decide (f.1 = str "content-encoding")
  then (strieq (Some (str "gzip")) (Some f.2) || strieq (Some (str "deflate")) (Some f.2), acc.2)
  else if bool_decide (f.1 = str ":status") then (acc.1, f.2) else acc.

Definition check_response_header (get_assets : bool) (a : answers) (nv : list (list Z * list Z)) (stream_id : Z)
    (s : SpdySession) : crash + SpdySession :=
  match user_data s !! stream_id with
  | None => inr s
  | Some p =>
      r ← get_req p s;
      let '(gzip, st) := foldl response_field (false, status r) nv in
      let r := r <| status := st |> in
      (if gzip && negb (inflater r) then assert (inflate_new_ok a) else inr tt);;
      let r := if gzip then r <| inflater := true |> else r in
      let r := if get_assets && (level r =? 0) && bool_decide (html_parser r = None)
               then r <| html_parser := Some (HtmlParser_new (construct (us r))) |> else r in
      inr (set_req p r s)
  end.

(** on_ctrl_recv_callback2, of a SYN_REPLY. *)
Definition on_syn_reply (get_assets : bool) (a : answers) (nv : list (list Z * list Z)) (stream_id : Z) (s : SpdySession)
    : crash + SpdySession :=
  assert (bool_decide (is_Some (user_data s !! stream_id)));;
  check_response_header get_assets a nv stream_id s.

Definition on_stream_close_callback (a : answers) (stream_id : Z) (s : SpdySession) : crash + SpdySession :=
  match streams s !! stream_id with
  | None => inr s
  | Some p =>
      s ← update_html_parser a p true s;
      let s := s <| complete := S (complete s) |> in
      inr (if all_requests_processed s then s <| goaways := S (goaways s) |> else s)
  end.

(** ** What the library calls *)

(** The next request in the queue is sent as a new stream, or dropped, as the library does
    after a GOAWAY frame, without a callback; replies come for open streams,
    fields and data also for streams that the server has pushed; a stream is closed
    once. *)
Inductive call :=
  | Syn_sent (stream_id : Z)
  | Syn_dropped
  | Syn_reply (a : answers) (nv : list (list Z * list Z)) (stream_id : Z)
  | Headers (a : answers) (nv : list (list Z * list Z)) (stream_id : Z)
  | Data (a : answers) (ds : list inflated) (stream_id len : Z)
  | Stream_close (a : answers) (stream_id : Z).

Definition is_open (stream_id : Z) (s : SpdySession) : bool := bool_decide (is_Some (user_data s !! stream_id)).

Definition step (get_assets : bool) (x : call) (s : SpdySession) : crash + SpdySession :=
  match x with
  | Syn_sent id =>
      match queue s with
      | p :: ps =>
          if decide (id ∈ used s) then inr s
          else check_stream_id id (s <| queue := ps |> <| user_data := <[id := p]> (user_data s) |> <| used := {[id]} ∪ used s |>)
      | [] => inr s
      end
  | Syn_dropped =>
      match queue s with
      | _ :: ps => inr (s <| queue := ps |> <| dropped := S (dropped s) |>)
      | [] => inr s
      end
  | Syn_reply a nv id => if is_open id s then on_syn_reply get_assets a nv id s else inr s
  | Headers a nv id => check_response_header get_assets a nv id s
  | Data a ds id len => if is_open id s then on_data_chunk_recv_callback a ds id len s else inr s
  | Stream_close a id =>
      if is_open id s
      then s ← on_stream_close_callback a id s; inr (s <| user_data := delete id (user_data s) |>)
      else inr s
  end.

Fixpoint steps (get_assets : bool) (xs : list call) (s : SpdySession) : crash + SpdySession :=
  match xs with [] => inr s | x :: xs => s ← step get_assets x s; steps get_assets xs s end.

(** communicate, from the first requests on: each request of reqvec is submitted. *)
Fixpoint submit_all (ok : bool) (i n : nat) (s : SpdySession) : crash + SpdySession :=
  match n with O => inr s | S n => s ← submit_request ok i s; submit_all ok (S i) n s end.

Definition communicate_session (get_assets ok : bool) (xs : list call) (s : SpdySession) : crash + SpdySession :=
  s ← submit_all ok 0 (length (reqvec s)) s; steps get_assets xs s.

(** * run *)

(** The sessions that are begun for the addresses of the command line, each with the
    host and the port that are connected to. *)
Record run_state := mk_run { prev_host : list Z; prev_port : Z; current : SpdySession; begun : list (list Z * Z * SpdySession) }.

Definition begin_session (r : run_state) : list (list Z * Z * SpdySession) :=
  match reqvec (current r) with
  | [] => begun r
  | _ => begun r ++ [(prev_host r, prev_port r, update_hostport (current r))]
  end.

Definition run_uri (r : run_state) (uri : list Z) : run_state :=
  match parsed uri with
  | Some u =>
      let r := if negb (bool_decide (prev_host r = host u)) || negb (prev_port r =? port u)
               then mk_run (host u) (port u) (match reqvec (current r) with [] => current r | _ => SpdySession_new end) (begin_session r)
               else r in
      mk_run (prev_host r) (prev_port r) (add_request u 0 (current r)).2 (begun r)
  | None => r
  end.

Definition run (uris : list (list Z)) : list (list Z * Z * SpdySession) :=
  begin_session (foldl run_uri (mk_run [] 0 SpdySession_new []) uris).

(** The exit status: a session that fails counts. *)
Definition run_failures (fails : list Z * Z * SpdySession -> bool) (uris : list (list Z)) : nat :=
  length (List.filter fails (run uris)).

(** * Spdylay::submit_request *)

Section Submit.
(** "spdylay/" and the version of the library. *)
Context (USER_AGENT : list Z).

(** A place of the array: not written yet, a null pointer, or a string. *)
Inductive cell := Unset | Null | Text (s : list Z).

Definition put (i : nat) (c : cell) (nv : list cell) : crash + list cell :=
  if (i <? length nv)%nat then inr (<[i := c]> nv) else inl Out_of_array.

Definition POS_HOST : nat := 4.
Definition POS_ACCEPT : nat := 5.
Definition POS_USERAGENT : nat := 6.

Definition static_nv (hp path : list Z) : list (list Z) :=
  [str ":method"; str "GET"; str ":path"; c_str path; str ":version"; str "HTTP/1.1"; str ":scheme"; str "https";
   str ":host"; c_str hp; str "accept"; str "*/*"; str "user-agent"; USER_AGENT].

(** The loop over the fields, which a std::map holds. *)
Fixpoint nv_fields (headers : list (list Z * list Z)) (pos : nat) (nv : list cell) : crash + nat * list cell :=
  match headers with
  | [] => inr (pos, nv)
  | (key, value) :: headers =>
      let key := c_str key in
      let value := Text (c_str value) in
      if strieq (Some key) (Some (str "accept")) then nv ← put (POS_ACCEPT * 2 + 1) value nv; nv_fields headers pos nv
      else if strieq (Some key) (Some (str "user-agent")) then nv ← put (POS_USERAGENT * 2 + 1) value nv; nv_fields headers pos nv
      else if strieq (Some key) (Some (str "host")) then nv ← put (POS_HOST * 2 + 1) value nv; nv_fields headers pos nv
      else nv ← put pos (Text key) nv; nv ← put (pos + 1) value nv; nv_fields headers (pos + 2) nv
  end.

Definition request_nv (hp path : list Z) (headers : list (list Z * list Z)) : crash + list cell :=
  let hardcoded_entry_count := length (static_nv hp path) in
  let total_entry_count := (hardcoded_entry_count + length headers * 2)%nat in
  let nv := map Text (static_nv hp path) ++ replicate (total_entry_count + 1 - hardcoded_entry_count) Unset in
  '(pos, nv) ← nv_fields headers hardcoded_entry_count nv;
  put pos Null nv.

End Submit.

(** * The loop of communicate *)

(** A turn: what poll returns, whether the socket can be read or written and whether it
    hung up, what recv and send return, the milliseconds it took, and whether the session
    is finished after it. *)
Record turn := mk_turn {
  nfds : Z; ready_io : bool; hung_up : bool; recv_rv : Z; send_rv : Z; elapsed : Z; finished : bool
}.

(** The end of the loop: the session is over, with ok as it is then; poll failed; or the
    turns are used up. *)
Inductive loop_end := Ended (ok : bool) | Poll_failed | Running (timeout : Z).

(** config.timeout is -1 when there is no limit. *)
Fixpoint poll_loop (limited : bool) (timeout : Z) (finish : bool) (turns : list turn) : loop_end :=
  if finish then Ended true else
  match turns with
  | [] => Running timeout
  | t :: turns =>
      if nfds t =? -1 then Poll_failed
      else if ready_io t && (negb (recv_rv t =? 0) || negb (send_rv t =? 0)) then Ended false
      else if hung_up t then Ended false
      else if limited then
        let timeout := timeout - elapsed t in
        if timeout <=? 0 then Ended false else poll_loop limited timeout (finished t) turns
      else poll_loop limited timeout (finished t) turns
  end.

(** * The command line *)

Record Config := mk_config {
  null_out : bool;
  remote_name : bool;
  verbose : bool;
  cfg_get_assets : bool;
  stat : bool;
  spdy_version : Z;
  cfg_timeout : Z;
  certfile : list Z;
  keyfile : list Z;
  window_bits : Z;
  headers : list (list Z * list Z)
}.
#[export] Instance eta_Config : Settable Config := fun c =>
  mk_config (null_out c) (remote_name c) (verbose c) (cfg_get_assets c) (stat c) (spdy_version c) (cfg_timeout c)
    (certfile c) (keyfile c) (window_bits c) (headers c).

Definition Config_new : Config := mk_config false false false false false (-1) (-1) [] [] (-1) [].

(** An option that getopt_long returns. *)
Inductive opt :=
  | Opt_remote_name | Opt_help | Opt_null_out | Opt_verbose | Opt_spdy2 | Opt_spdy3
  | Opt_timeout (optarg : list Z) | Opt_window_bits (optarg : list Z) | Opt_header (optarg : list Z)
  | Opt_get_assets | Opt_stat | Opt_unknown | Opt_cert (optarg : list Z) | Opt_key (optarg : list Z).

(** The program goes on, exits, or the conversion to an int is undefined. *)
Inductive outcome := Continue (c : Config) | Exit (code : Z) | Undefined.

(** strchr(optarg, ':'), the name before it, and the value after it and its spaces. *)
Definition header_option (optarg : list Z) : option (list Z * list Z) :=
  let n := std_find optarg (chr ":") in
  if (n =? length optarg)%nat || (n =? 0)%nat then None
  else
    let value := skip_space (drop (S n) optarg) in
    if bool_decide (value = []) then None else Some (take n optarg, value).

(** operator< of std::string, and insert of std::map, which keeps a key it has. *)
Fixpoint string_lt (a b : list Z) : bool :=
  match a, b with
  | _, [] => false
  | [], _ :: _ => true
  | x :: a, y :: b => (x <? y) || (x =? y) && string_lt a b
  end.

Fixpoint map_insert (k v : list Z) (m : list (list Z * list Z)) : list (list Z * list Z) :=
  match m with
  | [] => [(k, v)]
  | (k', v') :: m' => if string_lt k k' then (k, v) :: m else if string_lt k' k then (k', v') :: map_insert k v m' else m
  end.

Definition main_option (SPDYLAY_PROTO_SPDY2 SPDYLAY_PROTO_SPDY3 : Z) (have_libxml2 : bool) (c : Config) (o : opt) : outcome :=
  match o with
  | Opt_remote_name => Continue (c <| remote_name := true |>)
  | Opt_help => Exit 0
  | Opt_null_out => Continue (c <| null_out := true |>)
  | Opt_verbose => Continue (c <| verbose := true |>)
  | Opt_spdy2 => Continue (c <| spdy_version := SPDYLAY_PROTO_SPDY2 |>)
  | Opt_spdy3 => Continue (c <| spdy_version := SPDYLAY_PROTO_SPDY3 |>)
  | Opt_timeout optarg =>
      let n := (strtol optarg).1 in
      if (- 2 ^ 31 <=? n * 1000) && (n * 1000 <? 2 ^ 31) then Continue (c <| cfg_timeout := n * 1000 |>) else Undefined
  | Opt_window_bits optarg =>
      let '(n, range) := strtoul optarg in
      if negb range && (n <? 31) then Continue (c <| window_bits := n |>) else Exit 1
  | Opt_header optarg =>
      match header_option optarg with
      | Some (k, v) => Continue (c <| headers := map_insert k v (headers c) |>)
      | None => Exit 1
      end
  | Opt_get_assets => Continue (if have_libxml2 then c <| cfg_get_assets := true |> else c)
  | Opt_stat => Continue (c <| stat := true |>)
  | Opt_unknown => Exit 1
  | Opt_cert optarg => Continue (c <| certfile := optarg |>)
  | Opt_key optarg => Continue (c <| keyfile := optarg |>)
  end.

Fixpoint main_options (SPDYLAY_PROTO_SPDY2 SPDYLAY_PROTO_SPDY3 : Z) (have_libxml2 : bool) (os : list opt) (c : Config) : outcome :=
  match os with
  | [] => Continue c
  | o :: os =>
      match main_option SPDYLAY_PROTO_SPDY2 SPDYLAY_PROTO_SPDY3 have_libxml2 c o with
      | Continue c => main_options SPDYLAY_PROTO_SPDY2 SPDYLAY_PROTO_SPDY3 have_libxml2 os c
      | r => r
      end
  end.

End Cat.
