(* ===== verification/CatProps.v ===== *)
(** What spdycat downloads: only from the host of a session, each path as one request,
    and how many requests are outstanding; which sessions are begun; and the fields of
    a request. *)
From stdpp Require Import gmap.
From S2P Require Import Prelude Libc CppUtil CppUri Records CatSession.

Module CatProps.
Import Util Uri Cat.

(** * Programs that end *)

(** [m] ends in [Q], fails an assertion, or follows a null pointer because of [P]. *)
Definition sat (P : Prop) {A} (m : crash + A) (Q : A -> Prop) : Prop :=
  match m with
  | inl Null_pointer => P
  | inl Assertion_failed => True
  | inl Out_of_array => False
  | inr a => Q a
  end.

Lemma sat_bind P {A B} (m : crash + A) (k : A -> crash + B) Q : sat P m (fun a => sat P (k a) Q) -> sat P (m ≫= k) Q.
Proof. by destruct m as [[]|]. Qed.

Lemma sat_wand P {A} (m : crash + A) (Q Q' : A -> Prop) : sat P m Q -> (forall a, Q a -> Q' a) -> sat P m Q'.
Proof. destruct m as [[]|a]; cbn; auto. Qed.

Lemma sat_ret P {A} (a : A) (Q : A -> Prop) : Q a -> sat P (inr a) Q.
Proof. done. Qed.

Lemma sat_assert P b (Q : unit -> Prop) : Q tt -> sat P (assert b) Q.
Proof. by destruct b. Qed.

(** * Elements without attributes *)

Definition bare (e : element) : Prop := el_attrs e = None.
Definition bare_xml (a : answers) : Prop := Exists bare (ctx_elements (xml a)) \/ Exists bare (chunk_elements (xml a)).
Definition bare_inflated (i : inflated) : Prop := match i with Inflated _ a => bare_xml a | _ => False end.
Definition bare_call (x : call) : Prop :=
  match x with
  | Data a ds _ _ => bare_xml a \/ Exists bare_inflated ds
  | Stream_close a _ => bare_xml a
  | _ => False
  end.

Lemma sat_element (P : Prop) d e : (bare e -> P) -> sat P (start_element_func d e) (fun d' => base_uri d' = base_uri d).
Proof.
  intros HP. unfold start_element_func, bare in *.
  assert (Hl : forall u, base_uri (add_link u d) = base_uri d) by (intros u; unfold add_link; by destruct (joinUri _ _)).
  destruct (el_attrs e) as [at_|]; cbn; repeat case_match; cbn; auto.
Qed.

Lemma sat_elements (P : Prop) es d : (Exists bare es -> P) -> sat P (start_elements es d) (fun d' => base_uri d' = base_uri d).
Proof.
  revert d. induction es as [|e es IH]; intros d HP; [done|]. cbn [start_elements]. apply sat_bind.
  eapply sat_wand; [apply sat_element; auto|]. intros d' Ed. cbn in Ed.
  eapply sat_wand; [apply IH; auto|]. cbn. congruence.
Qed.

Lemma sat_parse_chunk (P : Prop) a fin h : (bare_xml a -> P) -> sat P (parse_chunk (xml a) fin h) (fun _ => True).
Proof.
  intros HP. unfold parse_chunk.
  assert (Hi : forall h, sat P (parse_chunk_internal (xml a) h) (fun _ => True)).
  { intros h'. unfold parse_chunk_internal. apply sat_bind. eapply sat_wand; [apply sat_elements; unfold bare_xml in *; tauto|done]. }
  destruct (negb (parser_ctx_ h)); [|apply Hi]. apply sat_bind.
  eapply sat_wand; [apply sat_elements; unfold bare_xml in *; tauto|]. intros d _.
  destruct (negb (ctx_ok (xml a))); [done|]. destruct fin; [apply Hi|done].
Qed.

(** * A session *)

Definition key (r : Request) : list Z := path_of (us r).

(** The requests of a session with host [h] and port [pt]. *)
Record requests_ok (h : list Z) (pt : Z) (rs : list Request) : Prop := {
  r_origin : forall r, r ∈ rs -> host (us r) = h /\ port (us r) = pt;
  r_level : forall r, r ∈ rs -> level r = 0 \/
    level r = 1 /\ html_parser r = None /\ exists r0, r0 ∈ rs /\ level r0 = 0 /\ protocol (us r0) = protocol (us r);
  r_keys : NoDup (map key rs)
}.

Record session_ok (h : list Z) (pt : Z) (s : SpdySession) : Prop := {
  c_requests : requests_ok h pt (reqvec s);
  c_cache : forall k, k ∈ path_cache s <-> k ∈ map key (reqvec s);
  c_queue : forall p, p ∈ queue s -> (p < length (reqvec s))%nat;
  c_streams : forall id p, streams s !! id = Some p -> (p < length (reqvec s))%nat;
  c_open : forall id p, user_data s !! id = Some p -> streams s !! id = Some p;
  c_used : forall id p, streams s !! id = Some p -> id ∈ used s;
  c_submitted : forall p k, (p, k) ∈ submitted s -> exists r, reqvec s !! p = Some r /\ k = key r;
  c_count : (length (submitted s) = complete s + size (user_data s) + length (queue s) + dropped s)%nat
}.

(** A request whose state has changed and whose address has not. *)
Definition same_request (r r' : Request) : Prop :=
  us r' = us r /\ level r' = level r /\ (level r <> 0 -> html_parser r = None -> html_parser r' = None).

Lemma keys_set rs p r r' : rs !! p = Some r -> us r' = us r -> map key (<[p := r']> rs) = map key rs.
Proof.
  intros Hp Hu. change (map key (<[p := r']> rs)) with (key <$> <[p := r']> rs). rewrite list_fmap_insert.
  apply list_insert_id. rewrite list_lookup_fmap, Hp. cbn. unfold key. by rewrite Hu.
Qed.

Lemma requests_set h pt rs p r r' :
  requests_ok h pt rs -> rs !! p = Some r -> same_request r r' -> requests_ok h pt (<[p := r']> rs).
Proof.
  intros [H1 H2 H3] Hp (Hu & Hl & Hh).
  assert (Hr : r ∈ rs) by (by eapply list_elem_of_lookup_2).
  assert (Hold : forall x, x ∈ <[p := r']> rs -> exists x0, x0 ∈ rs /\ us x = us x0 /\ level x = level x0 /\
    (level x0 <> 0 -> html_parser x0 = None -> html_parser x = None)).
  { intros x (i & Hi)%list_elem_of_lookup. destruct (decide (i = p)) as [->|Hne].
    - rewrite list_lookup_insert_eq in Hi by (by eapply lookup_lt_Some). injection Hi as <-. exists r. auto.
    - rewrite list_lookup_insert_ne in Hi by done. exists x. split; [by eapply list_elem_of_lookup_2|]. auto. }
  assert (Hnew : forall x, x ∈ rs -> exists x', x' ∈ <[p := r']> rs /\ us x' = us x /\ level x' = level x).
  { intros x (i & Hi)%list_elem_of_lookup. destruct (decide (i = p)) as [->|Hne].
    - exists r'. assert (x = r) as -> by congruence. split; [|by rewrite Hu, Hl]. apply (list_elem_of_lookup_2 _ p).
      apply list_lookup_insert_eq. by eapply lookup_lt_Some.
    - exists x. split; [|done]. apply (list_elem_of_lookup_2 _ i). by rewrite list_lookup_insert_ne. }
  split.
  - intros x Hx. destruct (Hold x Hx) as (x0 & Hx0 & -> & _). auto.
  - intros x Hx. destruct (Hold x Hx) as (x0 & Hx0 & -> & -> & Hp0).
    destruct (H2 x0 Hx0) as [?|(Hl1 & Hh1 & z & Hz & Hz0 & Hzp)]; [auto|]. right. split; [done|]. split; [apply Hp0; [lia|done]|].
    destruct (Hnew z Hz) as (z' & Hz' & Hzu & Hzl). exists z'. rewrite Hzu, Hzl. auto.
  - by rewrite (keys_set rs p r r').
Qed.

Lemma session_set h pt s p r r' :
  session_ok h pt s -> reqvec s !! p = Some r -> same_request r r' -> session_ok h pt (set_req p r' s).
Proof.
  intros [H1 H2 H3 H4 H5 H6 H7 H8] Hp Hs. unfold set_req. pose proof Hs as (Hu & _).
  split; cbn; rewrite ?length_insert; try done.
  - by eapply requests_set.
  - intros k. by rewrite (keys_set _ p r r').
  - intros q k Hk. destruct (H7 q k Hk) as (x & Hx & ->). destruct (decide (q = p)) as [->|Hne].
    + exists r'. rewrite list_lookup_insert_eq by (by eapply lookup_lt_Some). split; [done|].
      assert (x = r) as -> by congruence. unfold key. by rewrite Hu.
    + exists x. by rewrite list_lookup_insert_ne.
Qed.

(** The library's part and the counters are changed. *)
Lemma session_frame h pt s s' :
  session_ok h pt s -> reqvec s' = reqvec s -> path_cache s' = path_cache s -> streams s' = streams s ->
  user_data s' = user_data s -> used s' = used s -> queue s' = queue s -> submitted s' = submitted s -> complete s' = complete s ->
  dropped s' = dropped s -> session_ok h pt s'.
Proof. intros [] E1 E2 E3 E4 E5 E6 E7 E8 E9. split; rewrite ?E1, ?E2, ?E3, ?E4, ?E5, ?E6, ?E7, ?E8, ?E9; done. Qed.

(** ** Requests that are added and submitted *)

(** Requests stay where they are, and the streams are not touched. *)
Definition grows (s s' : SpdySession) : Prop :=
  (forall p r, reqvec s !! p = Some r -> reqvec s' !! p = Some r) /\
  streams s' = streams s /\ user_data s' = user_data s /\ used s' = used s.

Lemma grows_trans s1 s2 s3 : grows s1 s2 -> grows s2 s3 -> grows s1 s3.
Proof. intros (A1 & A2 & A3 & A4) (B1 & B2 & B3 & B4). split; [auto|]. by rewrite B2, B3, B4. Qed.

Lemma requests_add h pt rs u lv :
  requests_ok h pt rs -> host u = h -> port u = pt -> (path_of u ∉ map key rs) ->
  lv = 0 \/ (lv = 1 /\ exists r0, r0 ∈ rs /\ level r0 = 0 /\ protocol (us r0) = protocol u) ->
  requests_ok h pt (rs ++ [Request_new u lv]).
Proof.
  intros [H1 H2 H3] Hh Hp Hk Hl. split.
  - intros r [Hr| ->%list_elem_of_singleton]%elem_of_app; [auto|done].
  - intros r [Hr| ->%list_elem_of_singleton]%elem_of_app.
    + destruct (H2 r Hr) as [?|(? & ? & r0 & Hr0 & ?)]; [auto|]. right. split; [done|]. split; [done|].
      exists r0. rewrite elem_of_app. auto.
    + destruct Hl as [->|(-> & r0 & Hr0 & ?)]; [by left|]. right. split; [done|]. split; [done|].
      exists r0. rewrite elem_of_app. auto.
  - rewrite map_app. apply NoDup_app. split_and!; [done| |apply NoDup_singleton].
    intros k Hin ->%list_elem_of_singleton. done.
Qed.

Lemma session_add h pt s u lv :
  session_ok h pt s -> host u = h -> port u = pt ->
  lv = 0 \/ (lv = 1 /\ exists r0, r0 ∈ reqvec s /\ level r0 = 0 /\ protocol (us r0) = protocol u) ->
  let s' := (add_request u lv s).2 in
  session_ok h pt s' /\ grows s s' /\ path_of u ∈ map key (reqvec s') /\ reqvec s' <> [].
Proof.
  intros [H1 H2 H3 H4 H5 H6 H7 H8] Hh Hp Hl. unfold add_request. case_decide as Hc; cbn [snd].
  { split; [done|]. split; [by split|]. apply H2 in Hc. split; [done|]. intros E. rewrite E in Hc. by apply elem_of_nil in Hc. }
  assert (Hlen : forall p, (p < length (reqvec s) -> p < length (reqvec s ++ [Request_new u lv]))%nat)
    by (intros p; rewrite length_app; lia).
  split; [split; cbn; eauto|].
  - apply requests_add; auto. by rewrite <- H2.
  - intros k. rewrite map_app, elem_of_union, elem_of_app, elem_of_singleton, <- H2. cbn. rewrite list_elem_of_singleton.
    unfold key. cbn. tauto.
  - intros p k Hk. destruct (H7 p k Hk) as (r & Hr & ->). exists r. split; [by apply lookup_app_l_Some|done].
  - split; [split; [|done]|].
    + intros p r Hr. cbn. by apply lookup_app_l_Some.
    + cbn. split; [|by destruct (reqvec s)]. rewrite map_app, elem_of_app. right. cbn. by left.
Qed.

Lemma sat_submit P h pt ok p s :
  session_ok h pt s -> (p < length (reqvec s))%nat ->
  sat P (submit_request ok p s) (fun s' => session_ok h pt s' /\ grows s s' /\ reqvec s' = reqvec s /\ p ∈ map fst (submitted s') /\
    (forall q, q ∈ map fst (submitted s) -> q ∈ map fst (submitted s'))).
Proof.
  intros [H1 H2 H3 H4 H5 H6 H7 H8] Hp. unfold submit_request, get_req.
  destruct (lookup_lt_is_Some_2 _ _ Hp) as [r Hr]. rewrite Hr. apply sat_bind, sat_ret, sat_bind, sat_assert, sat_ret.
  split; [split; cbn; try done|].
  - intros q [Hq| ->%list_elem_of_singleton]%elem_of_app; auto.
  - intros q k [Hq|[= -> ->]%list_elem_of_singleton]%elem_of_app; eauto.
  - rewrite !length_app. cbn. lia.
  - split; [by split|]. cbn. rewrite map_app. split; [done|]. setoid_rewrite elem_of_app. split; [right; by left|auto].
Qed.

Lemma sat_follow P h pt a u s uris :
  session_ok h pt s -> host u = h -> port u = pt ->
  (exists r0, r0 ∈ reqvec s /\ level r0 = 0 /\ protocol (us r0) = protocol u) ->
  sat P (follow_links a u 0 uris s) (fun s' => session_ok h pt s' /\ grows s s').
Proof.
  intros HI Hh Hp. revert s HI. induction uris as [|uri uris IH]; intros s HI Hr; [by split|].
  cbn [follow_links]. apply sat_bind. eapply (sat_wand _ _ (fun s' => session_ok h pt s' /\ grows s s')).
  - unfold follow_link. destruct (parsed uri) as [v|]; [|by split]. destruct (_ && _) eqn:E; [|by split].
    apply andb_true_iff in E as [[E1%bool_decide_eq_true E2%bool_decide_eq_true]%andb_true_iff E3%Z.eqb_eq].
    destruct Hr as (r0 & Hr0 & Hl0 & Hp0).
    destruct (session_add h pt s v (0 + 1)) as (HI' & Hg & _ & Hne); [done|congruence|congruence| |].
    { right. split; [done|]. exists r0. rewrite Hp0. auto. }
    destruct (add_request v (0 + 1) s) as [b s1]. cbn [snd] in *.
    eapply sat_wand; [apply (sat_submit P h pt); [done|]|].
    + destruct (reqvec s1); [done|cbn; lia].
    + intros s2 (HI2 & Hg2 & _). split; [done|by eapply grows_trans].
  - intros s1 [HI1 Hg1]. eapply sat_wand; [apply IH; [done|]|].
    + destruct Hr as (r0 & (i & Hi)%list_elem_of_lookup & ?). exists r0. split; [|done].
      eapply list_elem_of_lookup_2. by apply Hg1.
    + intros s2 [HI2 Hg2]. split; [done|by eapply grows_trans].
Qed.

(** ** The callbacks *)

Definition same_streams (s s' : SpdySession) : Prop := streams s' = streams s /\ user_data s' = user_data s /\ used s' = used s.

Lemma grows_streams s s' : grows s s' -> same_streams s s'.
Proof. by intros [_ H]. Qed.

Lemma sat_get P p s (Q : Request -> Prop) :
  (p < length (reqvec s))%nat -> (forall r, reqvec s !! p = Some r -> Q r) -> sat P (get_req p s) Q.
Proof. intros Hp HQ. destruct (lookup_lt_is_Some_2 _ _ Hp) as [r Hr]. unfold get_req. rewrite Hr. by apply HQ. Qed.

Lemma sat_update (P : Prop) h pt a p fin s :
  (bare_xml a -> P) -> session_ok h pt s -> (p < length (reqvec s))%nat ->
  sat P (update_html_parser a p fin s) (fun s' => session_ok h pt s' /\ same_streams s s' /\ (p < length (reqvec s'))%nat).
Proof.
  intros HP HI Hp. unfold update_html_parser. apply sat_bind, sat_get; [done|]. intros r Hr.
  destruct (html_parser r) as [x|] eqn:Hx; [|by split].
  assert (Hin : r ∈ reqvec s) by (by eapply list_elem_of_lookup_2).
  destruct (c_requests _ _ _ HI) as [HO HL _]. destruct (HO r Hin) as [Hh Hpt].
  assert (Hl : level r = 0) by (destruct (HL r Hin) as [?|(_ & ? & _)]; [done|congruence]).
  apply sat_bind. eapply sat_wand; [by apply sat_parse_chunk|]. intros [rv y] _.
  set (r1 := r <| html_parser := Some y |>). set (s1 := set_req p r1 s).
  assert (Hr1 : reqvec s1 !! p = Some r1) by (by apply list_lookup_insert_eq).
  assert (HI1 : session_ok h pt s1) by (eapply session_set; [done|done|by split_and!]).
  rewrite Hl. apply sat_bind. eapply sat_wand; [apply (sat_follow P h pt); [done|done|done|]|].
  { exists r1. split; [by eapply list_elem_of_lookup_2|]. by split. }
  intros s2 [HI2 (Hg & Hs)]. assert (Hr2 : reqvec s2 !! p = Some r1) by auto.
  apply sat_bind, sat_get; [by eapply lookup_lt_Some|]. intros r2 Hr2'. assert (r2 = r1) as -> by congruence.
  apply sat_ret. split; [|split].
  - eapply session_set; [done|done|]. split_and!; [done|done|]. intros Hne. by destruct Hne.
  - done.
  - unfold set_req. cbn. rewrite length_insert. by eapply lookup_lt_Some.
Qed.

Lemma sat_inflate (P : Prop) h pt p len ds s :
  (Exists bare_inflated ds -> P) -> session_ok h pt s -> (p < length (reqvec s))%nat ->
  sat P (inflate_loop p len ds s) (fun s' => session_ok h pt s' /\ same_streams s s').
Proof.
  revert len s. induction ds as [|[|t a] ds IH]; intros len s HP HI Hp; [done|..]; cbn [inflate_loop]; destruct (0 <? len); try done.
  apply sat_bind. eapply sat_wand; [apply (sat_update P h pt); [auto|done|done]|]. intros s1 (HI1 & (E1 & E2 & E3) & Hp1).
  eapply sat_wand; [apply IH; [auto|done|done]|]. intros s2 (HI2 & E4 & E5 & E6). split; [done|]. split_and!; congruence.
Qed.

Lemma sat_header P h pt g a nv id s :
  session_ok h pt s -> sat P (check_response_header g a nv id s) (fun s' => session_ok h pt s').
Proof.
  intros HI. unfold check_response_header. destruct (user_data s !! id) as [p|] eqn:Hu; [|done].
  assert (Hp : (p < length (reqvec s))%nat) by (eapply c_streams; [done|]; by eapply c_open).
  apply sat_bind, sat_get; [done|]. intros r Hr. destruct (foldl response_field (false, status r) nv) as [gzip st].
  apply sat_bind. destruct (gzip && _); [apply sat_assert|apply sat_ret];
    (apply sat_ret; eapply session_set; [done|done|]; destruct gzip, g; cbn [andb]; try (by split_and!);
     case_match; split_and!; cbn; try done; intros Hne; cbn in *; lia).
Qed.

Lemma session_sent h pt id p ps s :
  session_ok h pt s -> queue s = p :: ps -> (id ∉ used s) ->
  session_ok h pt (s <| queue := ps |> <| user_data := <[id := p]> (user_data s) |> <| used := {[id]} ∪ used s |>
    <| streams := <[id := p]> (streams s) |>).
Proof.
  intros [H1 H2 H3 H4 H5 H6 H7 H8] Hq Hid.
  assert (Hn : user_data s !! id = None).
  { destruct (user_data s !! id) as [x|] eqn:E; [|done]. destruct Hid. eapply H6. by apply H5. }
  split; cbn; try done.
  - intros q Hin. apply H3. rewrite Hq. by right.
  - intros i q [[<- <-]|[_ Hi]]%lookup_insert_Some; [apply H3; rewrite Hq; by left|eauto].
  - intros i q [[<- <-]|[Hne Hi]]%lookup_insert_Some; [by rewrite lookup_insert_eq|rewrite lookup_insert_ne by done; auto].
  - intros i q [[<- <-]|[_ Hi]]%lookup_insert_Some; [set_solver|]. apply elem_of_union. right. eauto.
  - rewrite map_size_insert_None by done. rewrite H8, Hq. cbn. lia.
Qed.

Lemma session_dropped h pt p ps s :
  session_ok h pt s -> queue s = p :: ps ->
  session_ok h pt (s <| queue := ps |> <| dropped := S (dropped s) |>).
Proof.
  intros [H1 H2 H3 H4 H5 H6 H7 H8] Hq. split; cbn; try done.
  - intros q Hin. apply H3. rewrite Hq. by right.
  - rewrite H8, Hq. cbn. lia.
Qed.

Lemma session_closed h pt id s n g :
  session_ok h pt s -> is_Some (user_data s !! id) -> n = S (complete s) ->
  session_ok h pt (s <| complete := n |> <| goaways := g |> <| user_data := delete id (user_data s) |>).
Proof.
  intros [H1 H2 H3 H4 H5 H6 H7 H8] [p Hp] ->. split; cbn; try done.
  - intros i q [_ Hi]%lookup_delete_Some. auto.
  - rewrite map_size_delete_Some by eauto. assert (size (user_data s) <> 0)%nat; [|lia].
    intros E. apply map_size_empty_inv in E. by rewrite E in Hp.
Qed.

Lemma sat_step (P : Prop) h pt g x s :
  (bare_call x -> P) -> session_ok h pt s -> sat P (step g x s) (session_ok h pt).
Proof.
  intros HP HI. destruct x as [id| |a nv id|a nv id|a ds id len|a id]; cbn [step].
  - destruct (queue s) as [|p ps] eqn:Hq; [done|]. case_decide as Hid; [done|].
    unfold check_stream_id. cbn. rewrite lookup_insert_eq. by apply session_sent.
  - destruct (queue s) as [|p ps] eqn:Hq; [done|]. by eapply session_dropped.
  - unfold is_open, on_syn_reply. case_bool_decide; [|done]. cbn. by apply sat_header.
  - by apply sat_header.
  - destruct (is_open id s); [|done]. unfold on_data_chunk_recv_callback.
    destruct (streams s !! id) as [p|] eqn:Hs; [|done]. pose proof (c_streams _ _ _ HI id p Hs) as Hp.
    apply sat_bind, sat_get; [done|]. intros r Hr. cbn in HP. destruct (inflater r).
    + eapply sat_wand; [apply (sat_inflate P h pt); auto|]. by intros s' [].
    + eapply sat_wand; [apply (sat_update P h pt); auto|]. by intros s' [].
  - unfold is_open. case_bool_decide as Ho; [|done]. apply sat_bind. unfold on_stream_close_callback.
    destruct Ho as [p Hu]. pose proof (c_open _ _ _ HI id p Hu) as Hs. rewrite Hs.
    apply sat_bind. eapply sat_wand; [apply (sat_update P h pt); [auto|done|by eapply c_streams]|].
    intros s1 (HI1 & (_ & E2 & _) & _). apply sat_ret, sat_ret.
    assert (Ho : is_Some (user_data s1 !! id)) by (rewrite E2; eauto).
    case_match; [by eapply (session_closed h pt id s1 _ (S (goaways s1)))|by eapply (session_closed h pt id s1 _ (goaways s1))].
Qed.

Lemma sat_steps (P : Prop) h pt g xs s :
  (Exists bare_call xs -> P) -> session_ok h pt s -> sat P (steps g xs s) (session_ok h pt).
Proof.
  revert s. induction xs as [|x xs IH]; intros s HP HI; [done|]. cbn [steps]. apply sat_bind.
  eapply sat_wand; [by apply sat_step; [auto|]|]. intros s' HI'. apply IH; auto.
Qed.

Lemma sat_submit_all P h pt ok i n s :
  session_ok h pt s -> (i + n <= length (reqvec s))%nat ->
  sat P (submit_all ok i n s) (fun s' => session_ok h pt s' /\ reqvec s' = reqvec s).
Proof.
  revert i s. induction n as [|n IH]; intros i s HI Hn; [done|]. cbn [submit_all]. apply sat_bind.
  eapply sat_wand; [apply (sat_submit P h pt); [done|lia]|]. intros s1 (HI1 & _ & E1 & _).
  eapply sat_wand; [apply IH; [done|rewrite E1; lia]|]. intros s2 [HI2 E2]. split; [done|congruence].
Qed.

(** * The sessions of a command line *)

Lemma session_new_ok h pt : session_ok h pt SpdySession_new.
Proof. split; cbn; try set_solver. split; cbn; try set_solver. constructor. Qed.

Lemma session_hostport h pt s : session_ok h pt s -> session_ok h pt (update_hostport s).
Proof. intros HI. unfold update_hostport. destruct (reqvec s) eqn:E; [done|]. by eapply session_frame. Qed.

Lemma reqvec_hostport s : reqvec (update_hostport s) = reqvec s.
Proof. unfold update_hostport. destruct (reqvec s) eqn:E; exact E. Qed.

(** A session that is connected for: its requests, the address in them, and that none
    was submitted yet. *)
Record ready (x : list Z * Z * SpdySession) : Prop := {
  rd_ok : session_ok x.1.1 x.1.2 x.2;
  rd_some : exists r rs, reqvec x.2 = r :: rs /\ hostport x.2 = hostport_of (us r)
}.

Definition asked (u : UriStruct) (x : list Z * Z * SpdySession) : Prop :=
  x.1.1 = host u /\ x.1.2 = port u /\ path_of u ∈ map key (reqvec x.2).

(** The state of run, after the addresses of [us]. *)
Record run_ok (l : list UriStruct) (r : run_state) : Prop := {
  ru_current : session_ok (prev_host r) (prev_port r) (current r);
  ru_empty : reqvec (current r) = [] -> current r = SpdySession_new;
  ru_begun : Forall ready (begun r);
  ru_asked : forall u, u ∈ l -> Exists (asked u) (begun r) \/ asked u (prev_host r, prev_port r, current r)
}.

Lemma begin_ok l r :
  run_ok l r -> Forall ready (begin_session r) /\ forall u, u ∈ l -> Exists (asked u) (begin_session r).
Proof.
  intros [H1 H2 H3 H4]. unfold begin_session. destruct (reqvec (current r)) as [|r0 rs] eqn:E.
  - split; [done|]. intros u Hu. destruct (H4 u Hu) as [?|(_ & _ & Hk)]; [done|]. cbn in Hk. rewrite E in Hk.
    by apply elem_of_nil in Hk.
  - split.
    + apply Forall_app. split; [done|]. constructor; [|done]. split; [by apply session_hostport|]. exists r0, rs.
      cbn. rewrite reqvec_hostport. split; [done|]. unfold update_hostport. by rewrite E.
    + intros u Hu. apply Exists_app. destruct (H4 u Hu) as [?|(E1 & E2 & Hk)]; [by left|]. right. constructor.
      split; [done|]. split; [done|]. cbn. by rewrite reqvec_hostport.
Qed.

Lemma run_uri_ok l r uri :
  run_ok l r -> run_ok (l ++ match parsed uri with Some u => [u] | None => [] end) (run_uri r uri).
Proof.
  intros Hr. unfold run_uri. destruct (parsed uri) as [u|]; [|by rewrite app_nil_r].
  set (r1 := if negb (bool_decide (prev_host r = host u)) || negb (prev_port r =? port u) then mk_run _ _ _ _ else r).
  assert (H1 : run_ok l r1 /\ prev_host r1 = host u /\ prev_port r1 = port u).
  { unfold r1. destruct (negb (bool_decide (prev_host r = host u)) || negb (prev_port r =? port u)) eqn:E.
    - destruct (begin_ok l r Hr) as [Hb Ha]. split; [|done].
      assert (Hnew : match reqvec (current r) with [] => current r | _ => SpdySession_new end = SpdySession_new).
      { destruct (reqvec (current r)) eqn:Ev; [by eapply ru_empty|done]. }
      rewrite Hnew. split; cbn; [apply session_new_ok|done|done|]. intros v Hv. left. auto.
    - apply orb_false_iff in E as [E1%negb_false_iff%bool_decide_eq_true E2%negb_false_iff%Z.eqb_eq]. auto. }
  clearbody r1. destruct H1 as ([H1 H2 H3 H4] & Eh & Ep).
  destruct (session_add (prev_host r1) (prev_port r1) (current r1) u 0) as (HI & (Hg & _) & Hk & Hne); [done..|by left|].
  split; cbn; [done|done|done|]. intros v [Hv| ->%list_elem_of_singleton]%elem_of_app.
  - destruct (H4 v Hv) as [?|(E1 & E2 & Hin)]; [by left|]. right. split; [done|]. split; [done|]. cbn in *.
    apply list_elem_of_fmap in Hin as (x & Ex & (i & Hi)%list_elem_of_lookup). rewrite Ex.
    apply list_elem_of_fmap_2. eapply list_elem_of_lookup_2. by apply Hg.
  - right. by split_and!.
Qed.

Lemma run_uris_ok uris : run_ok (omap parsed uris) (foldl run_uri (mk_run [] 0 SpdySession_new []) uris).
Proof.
  induction uris as [|uri uris IH] using rev_ind.
  { split; cbn; [apply session_new_ok|done|constructor|]. intros u Hu. by apply elem_of_nil in Hu. }
  rewrite foldl_app, omap_app. cbn [foldl]. apply (run_uri_ok _ _ uri) in IH. revert IH. cbn. by destruct (parsed uri).
Qed.

(** C33. Which sessions spdycat begins for its command line: each has requests, all for
    the host and the port it connects to, no path twice, and the address of the first;
    and every address that can be parsed is asked for in a session with its host and
    port. *)
Theorem run_sessions (uris : list (list Z)) :
  Forall ready (run uris) /\ forall uri u, uri ∈ uris -> parsed uri = Some u -> Exists (asked u) (run uris).
Proof.
  destruct (begin_ok _ _ (run_uris_ok uris)) as [H1 H2]. split; [done|]. intros uri u Hin Hp. apply H2.
  apply list_elem_of_omap. eauto.
Qed.

(** C32. Whatever a server answers and its pages link to, in any order: spdycat asks a
    session only for resources of the host and port it is connected to, linked pages
    share the scheme of a page of the command line and are not searched for links
    themselves, no two Request objects have the same path (though the same object may be
    submitted again for a link that is repeated, duplicate_link_resubmitted), each
    submission is for one of these objects, and what was submitted is complete, open,
    queued, or dropped by the library.  Only an assertion about an answer of the library
    can fail, and a null pointer is followed only for an element without attributes. *)
Theorem downloads_stay (uris : list (list Z)) (h : list Z) (pt : Z) (s : SpdySession) (get_assets ok : bool) (xs : list call) :
  (h, pt, s) ∈ run uris ->
  match communicate_session get_assets ok xs s with
  | inl e => e = Assertion_failed \/ (e = Null_pointer /\ Exists bare_call xs)
  | inr s' =>
      requests_ok h pt (reqvec s') /\
      (forall p k, (p, k) ∈ submitted s' -> exists r, reqvec s' !! p = Some r /\ k = path_of (us r)) /\
      (length (submitted s') = complete s' + size (user_data s') + length (queue s') + dropped s')%nat
  end.
Proof.
  intros Hin. destruct (begin_ok _ _ (run_uris_ok uris)) as [Hr _].
  pose proof (proj1 (Forall_forall _ _) Hr _ Hin) as [HI _]. cbn in HI.
  assert (H : sat (Exists bare_call xs) (communicate_session get_assets ok xs s) (session_ok h pt)).
  { unfold communicate_session. apply sat_bind. eapply sat_wand; [by apply (sat_submit_all _ h pt)|].
    intros s1 [HI1 _]. by apply sat_steps. }
  destruct (communicate_session get_assets ok xs s) as [[]|s']; cbn in H; [by right|by left|done|].
  destruct H as [H1 _ _ _ _ _ H7 H8]. by split_and!.
Qed.

(** * The fields of a request *)

(** Where a field of the command line goes: over one that every request has, or behind
    them. *)
Definition slot (key : list Z) : option nat :=
  if strieq (Some key) (Some (str "accept")) then Some POS_ACCEPT
  else if strieq (Some key) (Some (str "user-agent")) then Some POS_USERAGENT
  else if strieq (Some key) (Some (str "host")) then Some POS_HOST else None.

(** The last value for a place. *)
Fixpoint value_for (pos : nat) (def : list Z) (headers : list (list Z * list Z)) : list Z :=
  match headers with
  | [] => def
  | (k, v) :: headers => value_for pos (if decide (slot (c_str k) = Some pos) then c_str v else def) headers
  end.

Definition others (headers : list (list Z * list Z)) : list (list Z) :=
  concat (map (fun h => match slot (c_str h.1) with None => [c_str h.1; c_str h.2] | _ => [] end) headers).

Definition fields (path hp accept agent : list Z) : list (list Z) :=
  [str ":method"; str "GET"; str ":path"; path; str ":version"; str "HTTP/1.1"; str ":scheme"; str "https";
   str ":host"; hp; str "accept"; accept; str "user-agent"; agent].

Definition filled (texts : list (list Z)) (free : nat) : list cell := map Text texts ++ replicate free Unset.

Lemma put_next texts free c : put (length texts) c (filled texts (S free)) = inr (map Text texts ++ c :: replicate free Unset).
Proof.
  unfold put, filled. destruct (Nat.ltb_spec (length texts) (length (map Text texts ++ replicate (S free) Unset))) as [_|H].
  - f_equal. rewrite insert_app_r_alt by (rewrite length_map; lia). by rewrite length_map, Nat.sub_diag.
  - rewrite length_app, length_map in H. cbn in H. lia.
Qed.

Lemma put_text texts free t : put (length texts) (Text t) (filled texts (S free)) = inr (filled (texts ++ [t]) free).
Proof. rewrite put_next. unfold filled. by rewrite map_app, <- app_assoc. Qed.

Lemma others_length hs : (length (others hs) <= length hs * 2)%nat.
Proof.
  induction hs as [|h hs IH]; [done|]. unfold others in *. cbn [map concat]. rewrite length_app.
  destruct (slot (c_str h.1)); cbn [length]; lia.
Qed.

Lemma nv_fields_spec path hs : forall hp accept agent behind free pos,
  pos = (14 + length behind)%nat ->
  nv_fields hs pos (filled (fields path hp accept agent ++ behind) (length hs * 2 + S free)) =
  inr (14 + length (behind ++ others hs),
       filled (fields path (value_for POS_HOST hp hs) (value_for POS_ACCEPT accept hs) (value_for POS_USERAGENT agent hs) ++
               behind ++ others hs) (length hs * 2 + S free - length (others hs)))%nat.
Proof.
  induction hs as [|[k v] hs IH]; intros hp accept agent behind free pos ->.
  { cbn [nv_fields length others map concat value_for]. rewrite app_nil_r. do 3 f_equal. }
  cbn [nv_fields value_for length]. unfold others. cbn [map concat fst snd].
  fold (others hs). set (key := c_str k). set (value := c_str v).
  replace (S (length hs) * 2 + S free)%nat with (length hs * 2 + S (S (S free)))%nat by lia. unfold slot.
  destruct (strieq (Some key) (Some (str "accept"))); [|destruct (strieq (Some key) (Some (str "user-agent")));
    [|destruct (strieq (Some key) (Some (str "host")))]]; cbn [app length].
  - etrans; [exact (IH hp value agent behind (S (S free)) _ eq_refl)|reflexivity].
  - etrans; [exact (IH hp accept value behind (S (S free)) _ eq_refl)|reflexivity].
  - etrans; [exact (IH value accept agent behind (S (S free)) _ eq_refl)|reflexivity].
  - set (texts := fields path hp accept agent ++ behind).
    replace (length hs * 2 + S (S (S free)))%nat with (S (S (length hs * 2 + S free))) by lia.
    change (14 + length behind)%nat with (length texts). rewrite put_text. cbn [mbind err_bind].
    replace (length texts + 1)%nat with (length (texts ++ [key])) by (by rewrite length_app).
    rewrite put_text. cbn [mbind err_bind].
    replace ((texts ++ [key]) ++ [value]) with (fields path hp accept agent ++ (behind ++ [key; value])) by (unfold texts; by rewrite <- !app_assoc).
    rewrite (IH hp accept agent (behind ++ [key; value]) free) by (unfold texts; rewrite !length_app; cbn; lia).
    rewrite <- !app_assoc. reflexivity.
Qed.

(** However many fields the command line adds, the array of a request is large
    enough, and it holds the fields that every request has, with the values that the
    command line gives for host, accept and user-agent, then the other fields, and
    then the null pointer. *)
Theorem request_nv_fits (USER_AGENT hp path : list Z) (headers : list (list Z * list Z)) :
  exists free,
    request_nv USER_AGENT hp path headers =
    inr (map Text (fields (c_str path) (value_for POS_HOST (c_str hp) headers)
                     (value_for POS_ACCEPT (str "*/*") headers) (value_for POS_USERAGENT USER_AGENT headers) ++
                   others headers) ++ Null :: replicate free Unset).
Proof.
  pose proof (nv_fields_spec (c_str path) headers (c_str hp) (str "*/*") USER_AGENT [] 0 14 eq_refl) as H.
  rewrite app_nil_r in H. cbn [app] in H.
  assert (Hl : (length (others headers) <= length headers * 2)%nat) by apply others_length.
  set (texts := fields _ _ _ _ ++ others headers) in *.
  exists (length headers * 2 - length (others headers))%nat. unfold request_nv.
  replace (length (static_nv USER_AGENT hp path) + length headers * 2 + 1 - length (static_nv USER_AGENT hp path))%nat
    with (length headers * 2 + 1)%nat by lia.
  change (map Text (static_nv USER_AGENT hp path) ++ replicate (length headers * 2 + 1) Unset)
    with (filled (fields (c_str path) (c_str hp) (str "*/*") USER_AGENT) (length headers * 2 + 1)).
  change (length (static_nv USER_AGENT hp path)) with 14%nat. rewrite H. cbn [mbind err_bind].
  replace (length headers * 2 + 1 - length (others headers))%nat with (S (length headers * 2 - length (others headers))) by lia.
  change (14 + length (others headers))%nat with (length texts). apply put_next.
Qed.

(** * The limit of time, and the options *)

(** While the loop runs, the turns have taken less than the limit. *)
Theorem poll_loop_deadline (timeout left : Z) (finish : bool) (turns : list turn) :
  poll_loop true timeout finish turns = Running left -> 0 < timeout ->
  left = timeout - foldr Z.add 0 (map elapsed turns) /\ 0 < left.
Proof.
  revert timeout finish. induction turns as [|t turns IH]; intros timeout finish H Ht; cbn in H; destruct finish; try done.
  - injection H as <-. cbn. lia.
  - repeat case_match; try done. apply IH in H as [-> Hl]; [|lia]. cbn. split; lia.
Qed.

Lemma skip_space_spaces n s : (forall c r, s = c :: r -> is_space c = false) -> skip_space (replicate n 32 ++ s) = s.
Proof. intros Hs. induction n as [|n IH]; [|exact IH]. cbn. destruct s as [|c r]; [done|]. cbn. by rewrite (Hs c r). Qed.

(** A header option is read back from its text, whatever spaces stand before the value;
    the value may hold further colons. *)
Theorem header_option_render (name value : list Z) (c : Z) (n : nat) :
  name <> [] -> (chr ":" ∉ name) -> is_space c = false ->
  header_option (name ++ chr ":" :: replicate n 32 ++ c :: value) = Some (name, c :: value).
Proof.
  intros Hne Hn Hc. unfold header_option. rewrite std_find_app by done.
  destruct (Nat.eqb_spec (length name) (length (name ++ chr ":" :: replicate n 32 ++ c :: value))) as [E|_].
  { rewrite length_app in E. cbn in E. lia. }
  destruct (Nat.eqb_spec (length name) 0) as [E%nil_length_inv|_]; [done|]. cbn [orb].
  replace (S (length name)) with (length name + 1)%nat by lia. rewrite drop_app_add. cbn [skipn].
  rewrite !drop_0, skip_space_spaces by (by intros ? ? [= <- <-]). rewrite take_app_length. by case_bool_decide.
Qed.

(** * Runs *)

Definition page_answers (es : list element) : answers := mk_answers true true (mk_xml true [] es 0).
Definition img (src : list Z) : element := mk_element (str "img") (Some [(str "src", Some src)]).
Definition demo_uris : list (list Z) := [str "https://h/p"].
Definition demo_session : SpdySession := update_hostport (add_request
  (mk_uri (str "https") (str "h") 443 (str "/") (str "p") [] [] [] false false) 0 SpdySession_new).2.

Lemma demo_begun : (str "h", 443, demo_session) ∈ run demo_uris.
Proof. left. Qed.

(** A page with two pictures of its own host and one of another. *)
Definition page_calls (srcs : list (list Z)) : list call :=
  [Syn_sent 1; Syn_reply (page_answers []) [(str ":status", str "200")] 1;
   Data (page_answers []) [] 1 10; Data (page_answers (map img srcs)) [] 1 10; Stream_close (page_answers []) 1].

Definition finish_calls (ids : list Z) : list call :=
  concat (map (fun id => [Syn_sent id; Stream_close (page_answers []) id]) ids).

Definition summary (r : crash + SpdySession) : option (list (list Z) * nat * nat * nat) :=
  match r with
  | inr s => Some (map snd (submitted s), length (reqvec s), complete s, goaways s)
  | inl _ => None
  end.

Definition finished_session (xs : list call) : option SpdySession :=
  match communicate_session true true xs demo_session with inr s => Some s | inl _ => None end.

Example page_run :
  summary (communicate_session true true
    (page_calls [str "a.png"; str "https://other/b.png"; str "/c/d.png"] ++ finish_calls [3; 5]) demo_session) =
  Some ([str "/p"; str "/a.png"; str "/c/d.png"], 3%nat, 3%nat, 1%nat).
Proof. vm_compute. reflexivity. Qed.

(** A page that shows the same picture twice, and then another: the last request is
    submitted again for a link that is known, the requests outnumber reqvec, and the
    session is told to end while one is outstanding, which is then dropped, or closed as
    one more than reqvec has. *)
Theorem duplicate_link_resubmitted :
  summary (communicate_session true true
    (page_calls [str "a.png"; str "b.png"; str "a.png"] ++ finish_calls [3; 5]) demo_session) =
    Some ([str "/p"; str "/a.png"; str "/b.png"; str "/b.png"], 3%nat, 3%nat, 1%nat) /\
  dropped <$> finished_session (page_calls [str "a.png"; str "b.png"; str "a.png"] ++ finish_calls [3; 5] ++ [Syn_dropped]) =
    Some 1%nat /\
  summary (communicate_session true true
    (page_calls [str "a.png"; str "b.png"; str "a.png"] ++ finish_calls [3; 5; 7]) demo_session) =
    Some ([str "/p"; str "/a.png"; str "/b.png"; str "/b.png"], 3%nat, 4%nat, 1%nat).
Proof. split_and!; vm_compute; reflexivity. Qed.

(** An img element without attributes. *)
Theorem bare_element_crashes :
  communicate_session true true
    [Syn_sent 1; Syn_reply (page_answers []) [] 1; Data (page_answers []) [] 1 10;
     Data (page_answers [mk_element (str "img") None]) [] 1 10] demo_session = inl Null_pointer.
Proof. vm_compute. reflexivity. Qed.

Lemma downloads_stay_witness :
  exists s', communicate_session true true (page_calls [str "a.png"] ++ [Syn_dropped]) demo_session = inr s' /\ dropped s' = 1%nat /\
    (length (submitted s') = complete s' + size (user_data s') + length (queue s') + dropped s')%nat.
Proof.
  pose proof (downloads_stay demo_uris (str "h") 443 demo_session true true (page_calls [str "a.png"] ++ [Syn_dropped]) demo_begun) as H.
  assert (Hd : dropped <$> finished_session (page_calls [str "a.png"] ++ [Syn_dropped]) = Some 1%nat) by (vm_compute; reflexivity).
  unfold finished_session in Hd.
  destruct (communicate_session true true (page_calls [str "a.png"] ++ [Syn_dropped]) demo_session) as [e|s']; [discriminate|].
  injection Hd as Hd. exists s'. split; [reflexivity|]. split; [exact Hd|]. exact (proj2 (proj2 H)).
Defined.

End CatProps.
